(** * Reduce Bend

    A shallow embedding of [reduce_bend_algorithm.py] (the bend reduction
    engine of the QGIS "Reduce Bend" processing algorithm) and the
    properties of its specification that were checked against it.

    Conventions of the embedding.
    - Python floats are read as exact rationals ([Q]); [math.pi] is the
      rational value of the binary64 constant.  A theorem on floats is a
      theorem on the real-number reading of the program's expressions: the
      rounding, the overflow and the underflow of binary64 are not in it.
      Where a property turns on them, the expression is also given as
      binary64 runs it (module [Binary64]).
    - Python integers are [Z]; list indices follow Python (negative indices
      count from the end, an index out of range raises [IndexError]).
    - The QGIS geometry library is not part of the program: every call into
      it whose result is a float computation or a spatial predicate is a
      method of the class [Qgs.Api].  All theorems hold for every
      implementation of that class.
    - Exceptions are the [Raise] results of an error monad; the objects the
      program mutates are threaded as state. *)

From Stdlib Require Import String ZArith QArith Qabs Qround Qpower Bool Lia Lqa Arith List
  Sorted.
From Stdlib Require PrimFloat.
Import ListNotations.
Local Open Scope Z_scope.

(** ** Exceptions and the state-and-error monad *)

Inductive exception : Type :=
| IndexError
| KeyError
| UnboundLocalError
| ZeroDivisionError
| Exception (msg : string).

Inductive result (A : Type) : Type :=
| Ok (a : A)
| Raise (e : exception).
Arguments Ok {A} a.
Arguments Raise {A} e.

Definition rbind {A B : Type} (r : result A) (f : A -> result B) : result B :=
  match r with
  | Ok a => f a
  | Raise e => Raise e
  end.

Definition M (S A : Type) : Type := S -> result (A * S).

Definition ret {S A : Type} (a : A) : M S A := fun s => Ok (a, s).

Definition bind {S A B : Type} (m : M S A) (f : A -> M S B) : M S B :=
  fun s => match m s with
           | Ok (a, s') => f a s'
           | Raise e => Raise e
           end.

Definition raise {S A : Type} (e : exception) : M S A := fun _ => Raise e.

Definition get {S : Type} : M S S := fun s => Ok (s, s).

Definition put {S : Type} (s : S) : M S unit := fun _ => Ok (tt, s).

Definition lift {S A : Type} (r : result A) : M S A :=
  fun s => match r with
           | Ok a => Ok (a, s)
           | Raise e => Raise e
           end.

(** How a loop that may not end comes out: with a state, with an
    exception, or with its fuel used up. *)
Inductive outcome (A : Type) : Type :=
| Done (a : A)
| Raised (e : exception)
| OutOfFuel.
Arguments Done {A} a.
Arguments Raised {A} e.
Arguments OutOfFuel {A}.

Declare Scope monad_scope.
Delimit Scope monad_scope with monad.
Notation "x <- m ;; k" := (bind m (fun x => k))
  (at level 61, m at next level, right associativity) : monad_scope.
Notation "' p <- m ;; k" := (bind m (fun x => match x with p => k end))
  (at level 61, p pattern, m at next level, right associativity) : monad_scope.
Notation "m ;;; k" := (bind m (fun _ => k))
  (at level 61, right associativity) : monad_scope.
Notation "x <~ r ;; k" := (rbind r (fun x => k))
  (at level 61, r at next level, right associativity) : monad_scope.
Notation "' p <~ r ;; k" := (rbind r (fun x => match x with p => k end))
  (at level 61, p pattern, r at next level, right associativity) : monad_scope.
Local Open Scope monad_scope.

(** ** Python lists *)

Definition py_len {A : Type} (l : list A) : Z := Z.of_nat (length l).

(** [l[k]] *)
Definition py_get {A : Type} (l : list A) (k : Z) : result A :=
  let k' := if k <? 0 then k + py_len l else k in
  if k' <? 0 then Raise IndexError
  else match nth_error l (Z.to_nat k') with
       | Some a => Ok a
       | None => Raise IndexError
       end.

(** [range(lo, hi)] *)
Definition py_range (lo hi : Z) : list Z :=
  map (fun n => lo + Z.of_nat n) (seq 0 (Z.to_nat (hi - lo))).

(** A slice bound, as Python clamps it. *)
Definition py_bound {A : Type} (l : list A) (k : Z) : nat :=
  let k' := if k <? 0 then Z.max 0 (k + py_len l) else Z.min k (py_len l) in
  Z.to_nat k'.

(** [l[lo:hi]] and [l[lo:]] *)
Definition py_slice {A : Type} (l : list A) (lo hi : Z) : list A :=
  firstn (py_bound l hi - py_bound l lo) (skipn (py_bound l lo) l).

Definition py_slice_from {A : Type} (l : list A) (lo : Z) : list A :=
  skipn (py_bound l lo) l.

(** [del l[k]] *)
Definition py_del {A : Type} (l : list A) (k : Z) : result (list A) :=
  let k' := if k <? 0 then k + py_len l else k in
  if (k' <? 0) || (py_len l <=? k') then Raise IndexError
  else Ok (firstn (Z.to_nat k') l ++ skipn (S (Z.to_nat k')) l).

(** [l[k] = x] *)
Definition py_set {A : Type} (l : list A) (k : Z) (x : A) : result (list A) :=
  let k' := if k <? 0 then k + py_len l else k in
  if (k' <? 0) || (py_len l <=? k') then Raise IndexError
  else Ok (firstn (Z.to_nat k') l ++ x :: skipn (S (Z.to_nat k')) l).

(** [l.sort(key=...)]: Python's sort is stable; [reverse=True] keeps the
    original order of elements with equal keys as well. *)
Fixpoint insert_by {A : Type} (before : A -> A -> bool) (x : A) (l : list A) : list A :=
  match l with
  | [] => [x]
  | y :: l' => if before y x then y :: insert_by before x l' else x :: l
  end.

Definition sort_by {A : Type} (before : A -> A -> bool) (l : list A) : list A :=
  fold_left (fun acc x => insert_by before x acc) l [].

(** ** Numbers *)

(** [math.pi], the binary64 value 0x1.921fb54442d18p+1. *)
Definition math_pi : Q := 884279719003555 # 281474976710656.

(** Python's float division. *)
Definition py_div (a b : Q) : result Q :=
  if Qeq_bool b 0 then Raise ZeroDivisionError else Ok (a / b)%Q.

Definition Qlt_bool (a b : Q) : bool := negb (Qle_bool b a).

(** [math.degrees] and [math.radians] *)
Definition math_degrees (x : Q) : Q := (x * 180 / math_pi)%Q.
Definition math_radians (x : Q) : Q := (x * math_pi / 180)%Q.

(** Global constants of the module. *)
Definition ANTI_CLOCK_WISE : Z := -1.
Definition CLOCK_WISE : Z := 0.

(** ** QGIS values *)

(** A [QgsPoint] after the Z and M values are dropped. *)
Definition QgsPoint : Type := (Q * Q)%type.

Definition QgsPoint_x (p : QgsPoint) : Q := fst p.
Definition QgsPoint_y (p : QgsPoint) : Q := snd p.

Inductive WkbType : Type :=
| WkbPoint
| WkbLineString
| WkbPolygon.

Definition WkbType_eqb (a b : WkbType) : bool :=
  match a, b with
  | WkbPoint, WkbPoint | WkbLineString, WkbLineString | WkbPolygon, WkbPolygon => true
  | _, _ => false
  end.

(** A [QgsGeometry]: a point, a line string, or a polygon given by its
    exterior ring (the program builds no polygon with holes). *)
Inductive QgsGeometry : Type :=
| QgsPointGeometry (p : QgsPoint)
| QgsLineString (points : list QgsPoint)
| QgsPolygon (ring : list QgsPoint).

Definition wkbType (g : QgsGeometry) : WkbType :=
  match g with
  | QgsPointGeometry _ => WkbPoint
  | QgsLineString _ => WkbLineString
  | QgsPolygon _ => WkbPolygon
  end.

(** [g.constGet().points()] *)
Definition points (g : QgsGeometry) : list QgsPoint :=
  match g with
  | QgsPointGeometry p => [p]
  | QgsLineString l => l
  | QgsPolygon r => r
  end.

Definition numPoints (g : QgsGeometry) : Z := py_len (points g).

(** [g.vertexAt(k)].  Out of range QGIS answers the empty point, whose
    coordinates are NaN: it is [None] here. *)
Definition vertexAt (g : QgsGeometry) (k : Z) : option QgsPoint :=
  if k <? 0 then None else nth_error (points g) (Z.to_nat k).

(** [g.deleteVertex(k)] on a line string: the vertex is removed when [k]
    is a vertex number of the line, and nothing happens otherwise. *)
Definition deleteVertex (g : QgsGeometry) (k : Z) : QgsGeometry :=
  match g with
  | QgsLineString l =>
      if (0 <=? k) && (k <? py_len l)
      then QgsLineString (firstn (Z.to_nat k) l ++ skipn (S (Z.to_nat k)) l)
      else g
  | _ => g
  end.

(** [g.insertVertex(p, k)] on a line string: [p] is inserted before vertex
    [k] when [k] is a vertex number of the line. *)
Definition insertVertex (g : QgsGeometry) (p : QgsPoint) (k : Z) : QgsGeometry :=
  match g with
  | QgsLineString l =>
      if (0 <=? k) && (k <? py_len l)
      then QgsLineString (firstn (Z.to_nat k) l ++ p :: skipn (Z.to_nat k) l)
      else g
  | _ => g
  end.

(** [QgsLineString([p, q, ...])] from vertices read with [vertexAt].  The
    program reads them at vertex numbers of the line; an empty point
    contributes no vertex. *)
Definition line_of_vertices (l : list (option QgsPoint)) : QgsGeometry :=
  QgsLineString (flat_map (fun o => match o with Some p => [p] | None => [] end) l).

(** [QgsGeometryUtils.midpoint] *)
Definition midpoint (a b : QgsPoint) : QgsPoint :=
  ((fst a + fst b) / 2, (snd a + snd b) / 2)%Q.

(** [g.translate(dx, dy)] *)
Definition translate (dx dy : Q) (l : list QgsPoint) : list QgsPoint :=
  map (fun p => (fst p + dx, snd p + dy)%Q) l.

Record QgsRectangle : Type := {
  xMinimum : Q;
  yMinimum : Q;
  xMaximum : Q;
  yMaximum : Q
}.

Definition Qmin_bool (a b : Q) : Q := if Qle_bool a b then a else b.
Definition Qmax_bool (a b : Q) : Q := if Qle_bool a b then b else a.

Definition rectangle_of_point (p : QgsPoint) : QgsRectangle :=
  {| xMinimum := fst p; yMinimum := snd p; xMaximum := fst p; yMaximum := snd p |}.

Definition rectangle_include (r : QgsRectangle) (p : QgsPoint) : QgsRectangle :=
  {| xMinimum := Qmin_bool (xMinimum r) (fst p);
     yMinimum := Qmin_bool (yMinimum r) (snd p);
     xMaximum := Qmax_bool (xMaximum r) (fst p);
     yMaximum := Qmax_bool (yMaximum r) (snd p) |}.

(** [g.boundingBox()]; an empty geometry has the null rectangle, [None]. *)
Definition boundingBox (g : QgsGeometry) : option QgsRectangle :=
  match points g with
  | [] => None
  | p :: l => Some (fold_left rectangle_include l (rectangle_of_point p))
  end.

(** [r.grow(delta)] *)
Definition grow (r : QgsRectangle) (delta : Q) : QgsRectangle :=
  {| xMinimum := (xMinimum r - delta)%Q;
     yMinimum := (yMinimum r - delta)%Q;
     xMaximum := (xMaximum r + delta)%Q;
     yMaximum := (yMaximum r + delta)%Q |}.

(** Two rectangles intersect when they share a point (borders included). *)
Definition rectangle_intersects (a b : QgsRectangle) : bool :=
  Qle_bool (Qmax_bool (xMinimum a) (xMinimum b)) (Qmin_bool (xMaximum a) (xMaximum b))
  && Qle_bool (Qmax_bool (yMinimum a) (yMinimum b)) (Qmin_bool (yMaximum a) (yMaximum b)).

(** ** The geometry library *)

Module Qgs.

(** The calls into QGIS whose result depends on floating point geometry.
    [rotate a l] is [g.rotate(a, QgsPointXY(0, 0))] on the points [l];
    [mergeLines] is [g.mergeLines()] followed by the coercion to a list of
    line strings; [closestVertex] gives the vertex number found by
    [QgsGeometryUtils.closestVertex]. *)
Class Api : Type := {
  distance : QgsPoint -> QgsPoint -> Q;
  length : QgsGeometry -> Q;
  area : QgsGeometry -> Q;
  sumUpArea : list QgsPoint -> Q;
  angleBetweenThreePoints : Q -> Q -> Q -> Q -> Q -> Q -> Q;
  interpolatePoint : list QgsPoint -> Q -> QgsPoint;
  centroid : QgsGeometry -> QgsPoint;
  disjoint : QgsGeometry -> QgsGeometry -> bool;
  contains : QgsGeometry -> QgsGeometry -> bool;
  within : QgsGeometry -> QgsGeometry -> bool;
  mergeLines : list (list QgsPoint) -> list (list QgsPoint);
  closestVertex : list QgsPoint -> QgsPoint -> Z;
  rotate : Q -> list QgsPoint -> list QgsPoint;
  tan : Q -> Q
}.

End Qgs.

(** The near-zero thresholds, computed once per run by the class [Epsilon]
    of the program and stored in [ReduceBend.ZERO_RELATIVE] and the like. *)
Class Epsilon : Type := {
  ZERO_RELATIVE : Q;
  ZERO_ABSOLUTE : Q;
  ZERO_ANGLE : Q
}.

(** [Epsilon.__init__], from [log_loss] on.  The program computes
    [log_loss = int(math.log(dynamic_xy, 10) + 1)] from the bounding box of
    the features (and raises [ValueError] on an extent of zero); that step
    is not modelled, [log_loss] is an argument here.  The thresholds are
    the exact powers of ten, where the program has their binary64
    roundings. *)
Definition Epsilon_init (log_loss : Z) : Epsilon :=
  let max_digit := 15 in
  let security := 2 in
  let abs_digit := max_digit - security in
  let rel_digit := max_digit - log_loss - security in
  {| ZERO_RELATIVE := (1 / Qpower 10 rel_digit)%Q;
     ZERO_ABSOLUTE := (1 / Qpower 10 abs_digit)%Q;
     ZERO_ANGLE := math_radians 0.0001 |}.

(** ** Static methods of [ReduceBend] on areas *)

(** [ReduceBend.calculate_adj_area], in exact arithmetic: the divisions
    raise on a divisor that is zero, nothing is rounded and nothing
    overflows.  [Binary64.calculate_adj_area] below is the same expression
    as binary64 evaluates it. *)
Definition calculate_adj_area (area perimeter : Q) : result Q :=
  compactness_index <~ py_div (4 * area * math_pi) (perimeter ^ 2) ;;
  ratio <~ py_div 0.75 compactness_index ;;
  Ok (area * ratio)%Q.

(** [ReduceBend.calculate_adj_area] on binary64 floats.  Every operation
    rounds to nearest even.  A float division raises [ZeroDivisionError] on
    a divisor equal to zero and otherwise returns the quotient, infinite or
    not; [x ** 2] raises [OverflowError] when [x] is finite and the square
    is not; a product never raises. *)
Module Binary64.
Import PrimFloat.

Inductive outcome : Type :=
| Returns (v : float)
| ZeroDivisionError
| OverflowError.

(** [math.pi] *)
Definition math_pi : float := 0x1.921fb54442d18p+1%float.

(** [a / b] *)
Definition py_div (a b : float) : outcome :=
  if (b =? 0)%float then ZeroDivisionError else Returns (a / b)%float.

(** [x ** 2]: the square, correctly rounded (the value of the [pow] of
    the C library wherever the square is a binary64 number, as at 3.0 and
    at 1e10). *)
Definition py_square (x : float) : outcome :=
  let y := (x * x)%float in
  if is_finite x && is_infinity y then OverflowError else Returns y.

Definition bind (r : outcome) (f : float -> outcome) : outcome :=
  match r with
  | Returns v => f v
  | ZeroDivisionError => ZeroDivisionError
  | OverflowError => OverflowError
  end.

(** [ReduceBend.calculate_adj_area]; Python evaluates [perimeter ** 2]
    after [4 * area * math.pi] and before the division. *)
Definition calculate_adj_area (area perimeter : float) : outcome :=
  let numerator := (4 * area * math_pi)%float in
  bind (py_square perimeter) (fun square =>
  bind (py_div numerator square) (fun compactness_index =>
  bind (py_div 0.75%float compactness_index) (fun ratio =>
  Returns (area * ratio)%float))).


End Binary64.

(** [ReduceBend.calculate_min_adj_area], in exact arithmetic. *)
Definition calculate_min_adj_area (diameter_tol : Q) : Q :=
  (0.75 * math_pi * (diameter_tol / 2) ^ 2)%Q.

(** ** The class [Bend] *)

Module Bend.

Inductive Direction : Type :=
| IN
| OUT.

Record t : Type := {
  i : Z;
  j : Z;
  area : Q;
  perimeter : Q;
  adj_area : Q;
  to_reduce : bool;
  qgs_geom_new_subline : option QgsGeometry;
  qgs_geom_new_subline_trimmed : option QgsGeometry;
  qgs_geom_bend : QgsGeometry;
  direction : option Direction
}.

Definition set_to_reduce (b : t) (v : bool) : t :=
  {| i := i b; j := j b; area := area b; perimeter := perimeter b;
     adj_area := adj_area b; to_reduce := v;
     qgs_geom_new_subline := qgs_geom_new_subline b;
     qgs_geom_new_subline_trimmed := qgs_geom_new_subline_trimmed b;
     qgs_geom_bend := qgs_geom_bend b; direction := direction b |}.

Definition set_direction (b : t) (v : option Direction) : t :=
  {| i := i b; j := j b; area := area b; perimeter := perimeter b;
     adj_area := adj_area b; to_reduce := to_reduce b;
     qgs_geom_new_subline := qgs_geom_new_subline b;
     qgs_geom_new_subline_trimmed := qgs_geom_new_subline_trimmed b;
     qgs_geom_bend := qgs_geom_bend b; direction := v |}.

Definition set_qgs_geom_new_subline (b : t) (v : option QgsGeometry) : t :=
  {| i := i b; j := j b; area := area b; perimeter := perimeter b;
     adj_area := adj_area b; to_reduce := to_reduce b;
     qgs_geom_new_subline := v;
     qgs_geom_new_subline_trimmed := qgs_geom_new_subline_trimmed b;
     qgs_geom_bend := qgs_geom_bend b; direction := direction b |}.

Definition set_qgs_geom_new_subline_trimmed (b : t) (v : option QgsGeometry) : t :=
  {| i := i b; j := j b; area := area b; perimeter := perimeter b;
     adj_area := adj_area b; to_reduce := to_reduce b;
     qgs_geom_new_subline := qgs_geom_new_subline b;
     qgs_geom_new_subline_trimmed := v;
     qgs_geom_bend := qgs_geom_bend b; direction := direction b |}.

(** [Bend.__init__] *)
Definition init `{Qgs.Api} (i j : Z) (qgs_polygon : QgsGeometry) : result t :=
  let area := Qgs.area qgs_polygon in
  let perimeter := Qgs.length qgs_polygon in
  adj_area <~ calculate_adj_area area perimeter ;;
  Ok {| i := i; j := j; area := area; perimeter := perimeter;
        adj_area := adj_area; to_reduce := false;
        qgs_geom_new_subline := None;
        qgs_geom_new_subline_trimmed := None;
        qgs_geom_bend := qgs_polygon; direction := None |}.

End Bend.

(** ** The class [RbGeom] *)

(** [QgsCurve.isClosed]: the first and the last point coincide. *)
Definition isClosed (l : list QgsPoint) : bool :=
  match l, rev l with
  | a :: _, b :: _ => Qeq_bool (fst a) (fst b) && Qeq_bool (snd a) (snd b)
  | _, _ => false
  end.

Module RbGeom.

Record t : Type := {
  id : Z;
  original_geom_type : WkbType;
  is_simplest : bool;
  qgs_geom : QgsGeometry;
  bends : list Bend.t;
  nbr_bend_reduced : Z;
  is_closed : bool;
  need_pivot : bool
}.

Definition set_is_simplest (g : t) (v : bool) : t :=
  {| id := id g; original_geom_type := original_geom_type g; is_simplest := v;
     qgs_geom := qgs_geom g; bends := bends g;
     nbr_bend_reduced := nbr_bend_reduced g; is_closed := is_closed g;
     need_pivot := need_pivot g |}.

Definition set_qgs_geom (g : t) (v : QgsGeometry) : t :=
  {| id := id g; original_geom_type := original_geom_type g;
     is_simplest := is_simplest g; qgs_geom := v; bends := bends g;
     nbr_bend_reduced := nbr_bend_reduced g; is_closed := is_closed g;
     need_pivot := need_pivot g |}.

Definition set_bends (g : t) (v : list Bend.t) : t :=
  {| id := id g; original_geom_type := original_geom_type g;
     is_simplest := is_simplest g; qgs_geom := qgs_geom g; bends := v;
     nbr_bend_reduced := nbr_bend_reduced g; is_closed := is_closed g;
     need_pivot := need_pivot g |}.

Definition set_need_pivot (g : t) (v : bool) : t :=
  {| id := id g; original_geom_type := original_geom_type g;
     is_simplest := is_simplest g; qgs_geom := qgs_geom g; bends := bends g;
     nbr_bend_reduced := nbr_bend_reduced g; is_closed := is_closed g;
     need_pivot := v |}.

Section Methods.
Context `{Qgs.Api} `{Epsilon}.

(** [RbGeom.__init__]; [id] is the value [next_id] hands out. *)
Definition init (id : Z) (qgs_abs_geom : QgsGeometry) (original_geom_type : WkbType) : t :=
  let fresh (is_simplest is_closed need_pivot : bool) :=
    {| id := id; original_geom_type := original_geom_type;
       is_simplest := is_simplest; qgs_geom := qgs_abs_geom; bends := [];
       nbr_bend_reduced := 0; is_closed := is_closed; need_pivot := need_pivot |} in
  match original_geom_type with
  | WkbPoint => fresh true false false
  | WkbLineString =>
      if Qle_bool ZERO_RELATIVE (Qgs.length qgs_abs_geom) then
        if isClosed (points qgs_abs_geom) then
          if Qlt_bool ZERO_RELATIVE (Qabs (Qgs.sumUpArea (points qgs_abs_geom)))
          then fresh false true true
          else fresh true false false
        else fresh false false false
      else fresh true false false
  | WkbPolygon =>
      if Qlt_bool ZERO_RELATIVE (Qgs.area (QgsPolygon (points qgs_abs_geom)))
      then fresh false true true
      else fresh true false false
  end.

(** The angle at the middle vertex of every three consecutive points. *)
Fixpoint angles_of (xy : list QgsPoint) : list Q :=
  match xy with
  | a :: tl =>
      match tl with
      | b :: c :: _ =>
          Qgs.angleBetweenThreePoints (fst a) (snd a) (fst b) (snd b) (fst c) (snd c)
            :: angles_of tl
      | _ => []
      end
  | [] => []
  end.

(** [RbGeom.get_angles] *)
Definition get_angles (self : t) : result (list Q) :=
  if negb (WkbType_eqb (original_geom_type self) WkbPoint) then
    let xy := points (qgs_geom self) in
    xy <~ (if is_closed self
           then end_xy <~ py_get xy (-2) ;; Ok (end_xy :: xy)
           else Ok xy) ;;
    Ok (angles_of xy)
  else Ok [].

End Methods.

End RbGeom.

(** ** The spatial index

    A [QgsSpatialIndex] that stores the geometry of its features: the
    features in the order they were added.  A window query answers the
    identifiers of the features whose bounding box meets the window. *)

Module QgsSpatialIndex.

Definition t : Type := list (Z * QgsGeometry).

Definition intersects (idx : t) (window : QgsRectangle) : list Z :=
  map fst
    (filter (fun f => match boundingBox (snd f) with
                      | Some b => rectangle_intersects b window
                      | None => false
                      end) idx).

(** [geometry(id)] raises [KeyError] for an identifier that is not indexed. *)
Definition geometry (idx : t) (id : Z) : result QgsGeometry :=
  match find (fun f => fst f =? id) idx with
  | Some f => Ok (snd f)
  | None => Raise KeyError
  end.

Definition addFeature (idx : t) (f : Z * QgsGeometry) : t := idx ++ [f].

Definition addFeatures (idx : t) (fs : list (Z * QgsGeometry)) : t := idx ++ fs.

(** [deleteFeature] tells whether the feature was found and removed. *)
Definition deleteFeature (idx : t) (id : Z) : bool * t :=
  (existsb (fun f => fst f =? id) idx, filter (fun f => negb (fst f =? id)) idx).

End QgsSpatialIndex.

(** ** The class [RbCollection] *)

Module RbCollection.

Record t : Type := {
  _spatial_index : QgsSpatialIndex.t;
  _dict_qgs_segment : list (Z * Z);
  _id_qgs_segment : Z
}.

(** [RbCollection.__init__] *)
Definition init : t :=
  {| _spatial_index := []; _dict_qgs_segment := []; _id_qgs_segment := 0 |}.

Definition set_spatial_index (c : t) (v : QgsSpatialIndex.t) : t :=
  {| _spatial_index := v; _dict_qgs_segment := _dict_qgs_segment c;
     _id_qgs_segment := _id_qgs_segment c |}.

(** [d[k]] on the dictionary of segments *)
Definition dict_get (d : list (Z * Z)) (k : Z) : result Z :=
  match find (fun e => fst e =? k) d with
  | Some e => Ok (snd e)
  | None => Raise KeyError
  end.

(** [d[k] = v] *)
Definition dict_set (d : list (Z * Z)) (k v : Z) : list (Z * Z) :=
  (k, v) :: filter (fun e => negb (fst e =? k)) d.

Section Methods.
Context `{Qgs.Api} `{Epsilon}.

(** [RbCollection._get_next_id_segment] *)
Definition _get_next_id_segment : M t Z :=
  fun self =>
    let n := _id_qgs_segment self + 1 in
    Ok (n, {| _spatial_index := _spatial_index self;
              _dict_qgs_segment := _dict_qgs_segment self;
              _id_qgs_segment := n |}).

(** [RbCollection._create_feature_segment] *)
Definition _create_feature_segment (origin_id : Z) (qgs_geom : QgsGeometry)
  : M t (Z * QgsGeometry) :=
  id_segment <- _get_next_id_segment ;;
  self <- get ;;
  put {| _spatial_index := _spatial_index self;
         _dict_qgs_segment := dict_set (_dict_qgs_segment self) id_segment origin_id;
         _id_qgs_segment := _id_qgs_segment self |} ;;;
  ret (id_segment, qgs_geom).

(** The segments of a line, one feature each. *)
Fixpoint segment_features (origin_id : Z) (qgs_points : list QgsPoint)
  : M t (list (Z * QgsGeometry)) :=
  match qgs_points with
  | a :: tl =>
      match tl with
      | b :: _ =>
          qgs_feature <- _create_feature_segment origin_id (QgsLineString [a; b]) ;;
          rest <- segment_features origin_id tl ;;
          ret (qgs_feature :: rest)
      | [] => ret []
      end
  | [] => ret []
  end.

(** [RbCollection.add_features] *)
Fixpoint add_features (rb_geoms : list RbGeom.t) : M t unit :=
  match rb_geoms with
  | [] => ret tt
  | rb_geom :: rest =>
      qgs_features <-
        (if WkbType_eqb (wkbType (RbGeom.qgs_geom rb_geom)) WkbPoint
         then f <- _create_feature_segment (RbGeom.id rb_geom) (RbGeom.qgs_geom rb_geom) ;;
              ret [f]
         else segment_features (RbGeom.id rb_geom) (points (RbGeom.qgs_geom rb_geom))) ;;
      self <- get ;;
      put (set_spatial_index self (QgsSpatialIndex.addFeatures (_spatial_index self) qgs_features)) ;;;
      add_features rest
  end.

(** [RbCollection._merge_lines] *)
Definition _merge_lines (qgs_multi_line_string : list (list QgsPoint)) : list QgsGeometry :=
  match qgs_multi_line_string with
  | [] => []
  | _ => map QgsLineString (Qgs.mergeLines qgs_multi_line_string)
  end.

(** The loop of [get_segment_intersect]: the features found are split in
    the lines of the same geometry, the lines of the others, and the points. *)
Fixpoint split_segments (self : t) (qgs_geom_id : Z) (qgs_segment_ids : list Z)
  (itself others : list (list QgsPoint)) (qgs_points : list QgsGeometry)
  : result (list (list QgsPoint) * list (list QgsPoint) * list QgsGeometry) :=
  match qgs_segment_ids with
  | [] => Ok (itself, others, qgs_points)
  | qgs_segment_id :: rest =>
      qgs_geom <~ QgsSpatialIndex.geometry (_spatial_index self) qgs_segment_id ;;
      if WkbType_eqb (wkbType qgs_geom) WkbPoint
      then split_segments self qgs_geom_id rest itself others (qgs_points ++ [qgs_geom])
      else
        origin <~ dict_get (_dict_qgs_segment self) qgs_segment_id ;;
        if origin =? qgs_geom_id
        then split_segments self qgs_geom_id rest (itself ++ [points qgs_geom]) others qgs_points
        else split_segments self qgs_geom_id rest itself (others ++ [points qgs_geom]) qgs_points
  end.

(** The window query of a rectangle; against the null rectangle of an
    empty geometry no feature is found. *)
Definition window_query (self : t) (qgs_rectangle : option QgsRectangle) : list Z :=
  match qgs_rectangle with
  | Some r => QgsSpatialIndex.intersects (_spatial_index self) (grow r (ZERO_RELATIVE * 100))
  | None => []
  end.

(** [RbCollection.get_segment_intersect] *)
Definition get_segment_intersect (self : t) (qgs_geom_id : Z)
  (qgs_rectangle : option QgsRectangle) : result (list QgsGeometry * list QgsGeometry) :=
  let qgs_segment_ids := window_query self qgs_rectangle in
  '(itself, others, qgs_points) <~ split_segments self qgs_geom_id qgs_segment_ids [] [] [] ;;
  Ok (_merge_lines itself, _merge_lines others ++ qgs_points).

(** [p.distance(q) <= eps]; a comparison with the empty point is false. *)
Definition within_distance (p q : option QgsPoint) (eps : Q) : bool :=
  match p, q with
  | Some a, Some b => Qle_bool (Qgs.distance a b) eps
  | _, _ => false
  end.

(** The test of [_delete_segment] on an entry of the index: its first
    vertex is within the relative epsilon of [qgs_pnt0] and its second
    vertex within the relative epsilon of [qgs_pnt1]. *)
Definition is_right_geometry (qgs_geom_line : QgsGeometry)
  (qgs_pnt0 qgs_pnt1 : option QgsPoint) : bool :=
  let qgs_pnt_start := vertexAt qgs_geom_line 0 in
  let qgs_pnt_end := vertexAt qgs_geom_line 1 in
  within_distance qgs_pnt_start qgs_pnt0 ZERO_RELATIVE
  && within_distance qgs_pnt_end qgs_pnt1 ZERO_RELATIVE.

(** The [for] loop of [_delete_segment]; [deleted] is [None] while the
    variable is not bound.  The loop is left at the first matching entry. *)
Fixpoint _delete_segment_loop (ids : list Z) (qgs_pnt0 qgs_pnt1 : option QgsPoint)
  (deleted : option bool) : M t (option bool) :=
  match ids with
  | [] => ret deleted
  | id :: rest =>
      self <- get ;;
      qgs_geom_line <- lift (QgsSpatialIndex.geometry (_spatial_index self) id) ;;
      if is_right_geometry qgs_geom_line qgs_pnt0 qgs_pnt1
      then
        let (found, idx) := QgsSpatialIndex.deleteFeature (_spatial_index self) id in
        if found
        then put (set_spatial_index self idx) ;;; ret (Some true)
        else raise (Exception "Unable to delete entry in QgsSpatialIndex...")
      else _delete_segment_loop rest qgs_pnt0 qgs_pnt1 (Some false)
  end.

(** The identifiers the midpoint window of [_delete_segment] finds.  With
    an empty end point the window has NaN bounds, which exclude no entry. *)
Definition midpoint_candidates (self : t) (qgs_pnt0 qgs_pnt1 : option QgsPoint) : list Z :=
  match qgs_pnt0, qgs_pnt1 with
  | Some a, Some b =>
      QgsSpatialIndex.intersects (_spatial_index self)
        (grow (rectangle_of_point (midpoint a b)) (ZERO_RELATIVE * 100))
  | _, _ => map fst (_spatial_index self)
  end.

(** [RbCollection._delete_segment] *)
Definition _delete_segment (qgs_pnt0 qgs_pnt1 : option QgsPoint) : M t unit :=
  self <- get ;;
  let ids := midpoint_candidates self qgs_pnt0 qgs_pnt1 in
  deleted <- _delete_segment_loop ids qgs_pnt0 qgs_pnt1 None ;;
  match deleted with
  | None => raise UnboundLocalError
  | Some false => raise (Exception "Internal structure corruption...")
  | Some true => ret tt
  end.

(** The first loop of [delete_vertex]: one [_delete_segment] for every two
    consecutive vertex numbers. *)
Fixpoint delete_segments (qgs_geom : QgsGeometry) (v_ids : list Z) : M t unit :=
  match v_ids with
  | a :: tl =>
      match tl with
      | b :: _ =>
          _delete_segment (vertexAt qgs_geom a) (vertexAt qgs_geom b) ;;;
          delete_segments qgs_geom tl
      | [] => ret tt
      end
  | [] => ret tt
  end.

(** [RbCollection.delete_vertex] *)
Definition delete_vertex (rb_geom : RbGeom.t) (v_id_start v_id_end : Z) : M t RbGeom.t :=
  let v_ids_to_del := py_range v_id_start (v_id_end + 1) in
  first <- lift (py_get v_ids_to_del 0) ;;
  let v_ids_to_del := (first - 1) :: v_ids_to_del in
  last <- lift (py_get v_ids_to_del (-1)) ;;
  let v_ids_to_del := v_ids_to_del ++ [last + 1] in
  delete_segments (RbGeom.qgs_geom rb_geom) v_ids_to_del ;;;
  v_first <- lift (py_get v_ids_to_del 0) ;;
  v_last <- lift (py_get v_ids_to_del (-1)) ;;
  let qgs_geom_segment := line_of_vertices [vertexAt (RbGeom.qgs_geom rb_geom) v_first;
                                            vertexAt (RbGeom.qgs_geom rb_geom) v_last] in
  qgs_feature <- _create_feature_segment (RbGeom.id rb_geom) qgs_geom_segment ;;
  self <- get ;;
  put (set_spatial_index self (QgsSpatialIndex.addFeature (_spatial_index self) qgs_feature)) ;;;
  ret (RbGeom.set_qgs_geom rb_geom
         (fold_left deleteVertex (rev (py_range v_id_start (v_id_end + 1)))
            (RbGeom.qgs_geom rb_geom))).

(** The last loop of [add_vertex]: one new feature for every segment of
    the new line. *)
Fixpoint add_segments (origin_id : Z) (qgs_points : list QgsPoint) : M t unit :=
  match qgs_points with
  | a :: tl =>
      match tl with
      | b :: _ =>
          qgs_feature <- _create_feature_segment origin_id (QgsLineString [a; b]) ;;
          self <- get ;;
          put (set_spatial_index self
                 (QgsSpatialIndex.addFeature (_spatial_index self) qgs_feature)) ;;;
          add_segments origin_id tl
      | [] => ret tt
      end
  | [] => ret tt
  end.

(** [RbCollection.add_vertex] *)
Definition add_vertex (rb_geom : RbGeom.t) (bend_i bend_j : Z)
  (qgs_geom_new_subline : QgsGeometry) : M t RbGeom.t :=
  _delete_segment (vertexAt (RbGeom.qgs_geom rb_geom) bend_i)
                  (vertexAt (RbGeom.qgs_geom rb_geom) bend_j) ;;;
  let qgs_points := points qgs_geom_new_subline in
  let tmp_qgs_points := py_slice qgs_points 1 (-1) in
  let qgs_geom := fold_left (fun g qgs_point => insertVertex g qgs_point bend_j)
                            (rev tmp_qgs_points) (RbGeom.qgs_geom rb_geom) in
  add_segments (RbGeom.id rb_geom) qgs_points ;;;
  ret (RbGeom.set_qgs_geom rb_geom qgs_geom).

End Methods.

End RbCollection.

(** ** Results, feedback and reduced bends *)

Module RbResults.

(** One line of [lines_log_info]: the values formatted into
    "Iteration: {}; Bends detected: {}; Bend reduced: {}; Tolerance used: {}". *)
Record LogLine : Type := {
  iteration : Z;
  bends_detected : Z;
  bend_reduced : Z;
  tolerance_used : Q
}.

Record t : Type := {
  nbr_bend_reduced : Z;
  nbr_bend_detected : Z;
  nbr_pass : Z;
  nbr_line_smooth : Z;
  lines_log_info : list LogLine
}.

(** [RbResults.__init__] *)
Definition init : t :=
  {| nbr_bend_reduced := 0; nbr_bend_detected := 0; nbr_pass := 0;
     nbr_line_smooth := 0; lines_log_info := [] |}.

End RbResults.

Module QgsFeedback.

(** The feedback object of the host: what [isCanceled] answers at each
    call, the number of calls made so far, and the messages pushed. *)
Record t : Type := {
  canceled : nat -> bool;
  polls : nat;
  info : list (string * list Q)
}.

Definition isCanceled (f : t) : bool * t :=
  (canceled f (polls f),
   {| canceled := canceled f; polls := S (polls f); info := info f |}).

Definition pushInfo (f : t) (text : string * list Q) : t :=
  {| canceled := canceled f; polls := polls f; info := info f ++ [text] |}.

End QgsFeedback.

Module BendReduced.

Inductive SmoothCase : Type :=
| CASE_1
| CASE_2
| CASE_3.

(** [rb_geom] is a reference in the program: here the [id] of the
    geometry, looked up in the list of geometries when it is followed. *)
Record t : Type := {
  rb_geom : Z;
  qgs_point_start : option QgsPoint;
  qgs_point_end : option QgsPoint;
  qgs_geom_bend : QgsGeometry;
  qgs_geom_bend_base : QgsGeometry;
  i_previous : option Z;
  i : option Z;
  j_after : option Z;
  j : option Z;
  is_line_smoothable : option bool
}.

(** [BendReduced.__init__] *)
Definition init (rb_geom : Z) (qgs_point_start qgs_point_end : option QgsPoint)
  (qgs_geom_bend : QgsGeometry) : t :=
  {| rb_geom := rb_geom; qgs_point_start := qgs_point_start;
     qgs_point_end := qgs_point_end; qgs_geom_bend := qgs_geom_bend;
     qgs_geom_bend_base := line_of_vertices [qgs_point_start; qgs_point_end];
     i_previous := None; i := None; j_after := None; j := None;
     is_line_smoothable := None |}.

End BendReduced.

Module ReduceBend.

Record t : Type := {
  diameter_tol : Q;
  smooth_line : bool;
  feedback : QgsFeedback.t;
  rb_collection : RbCollection.t;
  rb_results : RbResults.t;
  rb_geoms : list RbGeom.t;
  bends_reduced : list BendReduced.t
}.

Definition set_feedback (s : t) (v : QgsFeedback.t) : t :=
  {| diameter_tol := diameter_tol s; smooth_line := smooth_line s; feedback := v;
     rb_collection := rb_collection s; rb_results := rb_results s;
     rb_geoms := rb_geoms s; bends_reduced := bends_reduced s |}.

Definition set_rb_collection (s : t) (v : RbCollection.t) : t :=
  {| diameter_tol := diameter_tol s; smooth_line := smooth_line s;
     feedback := feedback s; rb_collection := v; rb_results := rb_results s;
     rb_geoms := rb_geoms s; bends_reduced := bends_reduced s |}.

Definition set_rb_results (s : t) (v : RbResults.t) : t :=
  {| diameter_tol := diameter_tol s; smooth_line := smooth_line s;
     feedback := feedback s; rb_collection := rb_collection s; rb_results := v;
     rb_geoms := rb_geoms s; bends_reduced := bends_reduced s |}.

Definition set_rb_geoms (s : t) (v : list RbGeom.t) : t :=
  {| diameter_tol := diameter_tol s; smooth_line := smooth_line s;
     feedback := feedback s; rb_collection := rb_collection s;
     rb_results := rb_results s; rb_geoms := v; bends_reduced := bends_reduced s |}.

Definition set_bends_reduced (s : t) (v : list BendReduced.t) : t :=
  {| diameter_tol := diameter_tol s; smooth_line := smooth_line s;
     feedback := feedback s; rb_collection := rb_collection s;
     rb_results := rb_results s; rb_geoms := rb_geoms s; bends_reduced := v |}.

(** [ReduceBend.__init__], from the geometries the pre-reduction step
    hands over; the collection and the results are the fresh objects
    [reduce_bends] creates. *)
Definition init (rb_geoms : list RbGeom.t) (diameter_tol : Q) (smooth_line : bool)
  (feedback : QgsFeedback.t) : t :=
  {| diameter_tol := diameter_tol; smooth_line := smooth_line; feedback := feedback;
     rb_collection := RbCollection.init; rb_results := RbResults.init;
     rb_geoms := rb_geoms; bends_reduced := [] |}.

(** A method of the collection run on [self.rb_collection]. *)
Definition on_collection {A : Type} (m : M RbCollection.t A) : M t A :=
  fun self =>
    match m (rb_collection self) with
    | Ok (a, c) => Ok (a, set_rb_collection self c)
    | Raise e => Raise e
    end.

End ReduceBend.

(** ** The features of the pre-reduction step *)

Module RbFeature.

(** The three classes of features, with the ring or line geometries
    [rb_geom] of each; [id] is the identifier [RbFeature.__init__] gives. *)
Inductive t : Type :=
| RbPolygon (id : Z) (rb_geom : list RbGeom.t)
| RbLineString (id : Z) (rb_geom : list RbGeom.t)
| RbPoint (id : Z) (rb_geom : list RbGeom.t).

Definition rb_geom (f : t) : list RbGeom.t :=
  match f with
  | RbPolygon _ l | RbLineString _ l | RbPoint _ l => l
  end.

Definition set_rb_geom (f : t) (v : list RbGeom.t) : t :=
  match f with
  | RbPolygon id _ => RbPolygon id v
  | RbLineString id _ => RbLineString id v
  | RbPoint id _ => RbPoint id v
  end.

(** [isinstance(f, RbPolygon)] *)
Definition is_RbPolygon (f : t) : bool :=
  match f with
  | RbPolygon _ _ => true
  | _ => false
  end.

End RbFeature.

(** The attributes of [ReduceBend] and of its [rb_results] that
    [del_outer_inner_ring] reads and writes. *)
Module Preprocess.

Record t : Type := {
  rb_features : list RbFeature.t;
  diameter_tol : Q;
  flag_del_outer : bool;
  flag_del_inner : bool;
  nbr_pol_del : Z;
  nbr_hole_del : Z
}.

Definition set_rb_features (s : t) (v : list RbFeature.t) : t :=
  {| rb_features := v; diameter_tol := diameter_tol s;
     flag_del_outer := flag_del_outer s; flag_del_inner := flag_del_inner s;
     nbr_pol_del := nbr_pol_del s; nbr_hole_del := nbr_hole_del s |}.

Definition set_nbr_pol_del (s : t) (v : Z) : t :=
  {| rb_features := rb_features s; diameter_tol := diameter_tol s;
     flag_del_outer := flag_del_outer s; flag_del_inner := flag_del_inner s;
     nbr_pol_del := v; nbr_hole_del := nbr_hole_del s |}.

Definition set_nbr_hole_del (s : t) (v : Z) : t :=
  {| rb_features := rb_features s; diameter_tol := diameter_tol s;
     flag_del_outer := flag_del_outer s; flag_del_inner := flag_del_inner s;
     nbr_pol_del := nbr_pol_del s; nbr_hole_del := v |}.

End Preprocess.

(** ** The methods of [Bend] and of [ReduceBend] *)

Section Engine.
Context `{Qgs.Api} `{Epsilon}.

(** [[f(x) for x in l]] where [f] may raise *)
Fixpoint map_result {A B : Type} (f : A -> result B) (l : list A) : result (list B) :=
  match l with
  | [] => Ok []
  | x :: l' =>
      y <~ f x ;;
      ys <~ map_result f l' ;;
      Ok (y :: ys)
  end.

(** [Bend.get_new_subline]: the chord, cached in the bend. *)
Definition get_new_subline (self : Bend.t) (diameter_tol : Q) (rb_geom : RbGeom.t)
  : QgsGeometry * Bend.t :=
  match Bend.qgs_geom_new_subline self with
  | Some g => (g, self)
  | None =>
      let qgs_pnt_i := vertexAt (RbGeom.qgs_geom rb_geom) (Bend.i self) in
      let qgs_pnt_j := vertexAt (RbGeom.qgs_geom rb_geom) (Bend.j self) in
      let g := line_of_vertices [qgs_pnt_i; qgs_pnt_j] in
      (g, Bend.set_qgs_geom_new_subline self (Some g))
  end.

(** [Bend.get_new_subline_trimmed]: the chord shortened by the relative
    epsilon at both ends, cached in the bend. *)
Definition get_new_subline_trimmed (self : Bend.t) (diameter_tol : Q) (rb_geom : RbGeom.t)
  : QgsGeometry * Bend.t :=
  match Bend.qgs_geom_new_subline_trimmed self with
  | Some g => (g, self)
  | None =>
      let (qgs_geom_new_line, self) := get_new_subline self diameter_tol rb_geom in
      let qgs_ls_new_line := points qgs_geom_new_line in
      let len := Qgs.length qgs_geom_new_line in
      let qgs_ls_new_subline_trimmed :=
        if Qle_bool (ZERO_RELATIVE * 100) len then
          let qgs_pnt_i_trimmed := Qgs.interpolatePoint qgs_ls_new_line ZERO_RELATIVE in
          let qgs_pnt_j_trimmed := Qgs.interpolatePoint qgs_ls_new_line (len - ZERO_RELATIVE) in
          QgsLineString [qgs_pnt_i_trimmed; qgs_pnt_j_trimmed]
        else qgs_geom_new_line in
      (qgs_ls_new_subline_trimmed,
       Bend.set_qgs_geom_new_subline_trimmed self (Some qgs_ls_new_subline_trimmed))
  end.

(** [ReduceBend.create_polygon] *)
Definition create_polygon (i j : Z) (qgs_points : list QgsPoint) : result QgsGeometry :=
  let index :=
    if i <? j then py_range i (j + 1) ++ [i]
    else py_range i (py_len qgs_points) ++ py_range 0 (j + 1) ++ [i] in
  qgs_sub_points <~ map_result (py_get qgs_points) index ;;
  Ok (QgsPolygon qgs_sub_points).

(** The directions of the bends after the first one alternate. *)
Fixpoint alternate_direction (previous : option Bend.Direction) (bends : list Bend.t)
  : list Bend.t :=
  match bends with
  | [] => []
  | b :: rest =>
      let d := match previous with
               | Some Bend.IN => Some Bend.OUT
               | _ => Some Bend.IN
               end in
      Bend.set_direction b d :: alternate_direction d rest
  end.

(** [ReduceBend.set_bend_direction] *)
Definition set_bend_direction (rb_geom : RbGeom.t) : RbGeom.t :=
  if RbGeom.is_closed rb_geom && (1 <=? py_len (RbGeom.bends rb_geom)) then
    match RbGeom.bends rb_geom with
    | first_bend :: rest =>
        let qgs_geom_centroid := QgsPointGeometry (Qgs.centroid (Bend.qgs_geom_bend first_bend)) in
        let qgs_geom_pol := QgsPolygon (points (RbGeom.qgs_geom rb_geom)) in
        let d := if Qgs.within qgs_geom_centroid qgs_geom_pol
                 then Some Bend.IN else Some Bend.OUT in
        RbGeom.set_bends rb_geom
          (Bend.set_direction first_bend d :: alternate_direction d rest)
    | [] => rb_geom
    end
  else rb_geom.

Definition is_OUT (d : option Bend.Direction) : bool :=
  match d with
  | Some Bend.OUT => true
  | _ => false
  end.

(** The loop of [pivot_closed_line] over the bends: the bend chosen for the
    pivot, and whether the optimal bend was found (the loop is then left). *)
Fixpoint pivot_scan (bends : list Bend.t) (diameter_tol : Q)
  (bend_location : option Bend.t) (bend_area : Q) : option Bend.t * bool :=
  match bends with
  | [] => (bend_location, false)
  | bend :: rest =>
      let larger := Qlt_bool bend_area (Bend.area bend) in
      let bend_location := if larger then Some bend else bend_location in
      let bend_area := if larger then Bend.area bend else bend_area in
      if 4 <=? Bend.j bend - Bend.i bend then
        if Qle_bool (calculate_min_adj_area diameter_tol) (Bend.area bend) then
          if is_OUT (Bend.direction bend) then (Some bend, true)
          else pivot_scan rest diameter_tol (Some bend) bend_area
        else pivot_scan rest diameter_tol bend_location bend_area
      else pivot_scan rest diameter_tol bend_location bend_area
  end.

(** [ReduceBend.pivot_closed_line] *)
Definition pivot_closed_line (rb_geom : RbGeom.t) (diameter_tol : Q) : RbGeom.t :=
  if RbGeom.is_closed rb_geom && RbGeom.need_pivot rb_geom then
    let '(bend_location, optimal) :=
      pivot_scan (RbGeom.bends rb_geom) diameter_tol None 0%Q in
    let rb_geom := if optimal then RbGeom.set_need_pivot rb_geom false else rb_geom in
    match bend_location with
    | Some bend_location =>
        let qgs_points := points (RbGeom.qgs_geom rb_geom) in
        let new_start_end := (Bend.j bend_location + Bend.i bend_location) / 2 in
        let new_qgs_points :=
          py_slice_from qgs_points new_start_end
            ++ py_slice qgs_points 1 (new_start_end + 1) in
        RbGeom.set_qgs_geom rb_geom (QgsLineString new_qgs_points)
    | None => rb_geom
    end
  else rb_geom.

(** The vertices [delete_co_linear] selects: [k + 1] for the [k]-th angle
    that is flat or null up to [ZERO_ANGLE]. *)
Fixpoint co_linear_vertices (k : Z) (angles : list Q) : list Z :=
  match angles with
  | [] => []
  | angle :: rest =>
      if Qle_bool (Qabs (angle - math_pi)) ZERO_ANGLE || Qle_bool (Qabs angle) ZERO_ANGLE
      then (k + 1) :: co_linear_vertices (k + 1) rest
      else co_linear_vertices (k + 1) rest
  end.

Fixpoint delete_vertices (rb_geom : RbGeom.t) (vertex_ids : list Z)
  : M RbCollection.t RbGeom.t :=
  match vertex_ids with
  | [] => ret rb_geom
  | v :: rest =>
      rb_geom <- RbCollection.delete_vertex rb_geom v v ;;
      delete_vertices rb_geom rest
  end.

(** [ReduceBend.delete_co_linear] *)
Definition delete_co_linear (rb_geom : RbGeom.t) : M ReduceBend.t RbGeom.t :=
  angles <- lift (RbGeom.get_angles rb_geom) ;;
  angles <- lift (if RbGeom.is_closed rb_geom && (1 <=? py_len angles)
                  then py_del angles 0 else Ok angles) ;;
  let vertex_ids_to_del := co_linear_vertices 0 angles in
  rb_geom <- ReduceBend.on_collection (delete_vertices rb_geom (rev vertex_ids_to_del)) ;;
  ret (if Qle_bool (Qgs.length (RbGeom.qgs_geom rb_geom)) ZERO_RELATIVE
       then RbGeom.set_is_simplest rb_geom true
       else rb_geom).

(** The binary orientation of an angle. *)
Definition orientation_of (angle : Q) : Z :=
  if Qle_bool math_pi angle then CLOCK_WISE else ANTI_CLOCK_WISE.

Definition opposite (o : Z) : Z :=
  if o =? CLOCK_WISE then ANTI_CLOCK_WISE else CLOCK_WISE.

(** [[i for i in range(0, len(orientation)-1) if orientation[i] != orientation[i+1]]],
    counted from [i]. *)
Fixpoint inflexion_from (i : Z) (orientation : list Z) : list Z :=
  match orientation with
  | a :: tl =>
      match tl with
      | b :: _ =>
          if negb (a =? b) then i :: inflexion_from (i + 1) tl
          else inflexion_from (i + 1) tl
      | [] => []
      end
  | [] => []
  end.

(** The loop of [detect_bends] that creates one bend for every two
    consecutive inflexions. *)
Fixpoint make_bends (inflexion : list Z) (qgs_points : list QgsPoint) : result (list Bend.t) :=
  match inflexion with
  | a :: tl =>
      match tl with
      | b :: _ =>
          let i := a in
          let j := b + 1 in
          qgs_polygon <~ create_polygon i j qgs_points ;;
          bend <~ Bend.init i j qgs_polygon ;;
          rest <~ make_bends tl qgs_points ;;
          Ok (bend :: rest)
      | [] => Ok []
      end
  | [] => Ok []
  end.

(** [ReduceBend.detect_bends] *)
Definition detect_bends (rb_geom : RbGeom.t) : result (Z * RbGeom.t) :=
  let rb_geom := RbGeom.set_bends rb_geom [] in
  angles <~ RbGeom.get_angles rb_geom ;;
  let orientation := map orientation_of angles in
  orientation <~ (if RbGeom.is_closed rb_geom then
                    if py_len (nodup Z.eq_dec orientation) =? 1 then Ok []
                    else py_del orientation 0
                  else Ok orientation) ;;
  orientation <~ (if 1 <=? py_len orientation then
                    first <~ py_get orientation 0 ;;
                    let orientation := opposite first :: orientation in
                    last <~ py_get orientation (-1) ;;
                    Ok (orientation ++ [opposite last])
                  else Ok orientation) ;;
  let inflexion := inflexion_from 0 orientation in
  rb_geom <~ (if negb (py_len inflexion =? 0) then
                let qgs_points := points (RbGeom.qgs_geom rb_geom) in
                bends <~ make_bends inflexion qgs_points ;;
                Ok (RbGeom.set_bends rb_geom bends)
              else Ok (RbGeom.set_is_simplest rb_geom true)) ;;
  let rb_geom := if RbGeom.is_closed rb_geom then set_bend_direction rb_geom else rb_geom in
  Ok (py_len (RbGeom.bends rb_geom), rb_geom).

(** [ReduceBend.manage_bend_creation] *)
Definition manage_bend_creation (min_nbr_pass nbr_pass : Z) (rb_geom : RbGeom.t)
  (diameter_tol : Q) : M ReduceBend.t (Z * RbGeom.t) :=
  rb_geom <- delete_co_linear rb_geom ;;
  '(nbr_bends_detected, rb_geom) <- lift (detect_bends rb_geom) ;;
  if RbGeom.is_closed rb_geom then
    if (min_nbr_pass <=? nbr_pass) || (py_len (RbGeom.bends rb_geom) <? 10) then
      let rb_geom := pivot_closed_line rb_geom diameter_tol in
      rb_geom <- delete_co_linear rb_geom ;;
      lift (detect_bends rb_geom)
    else ret (nbr_bends_detected, rb_geom)
  else ret (nbr_bends_detected, rb_geom).

(** [[(bend.adj_area, i) for i, bend in enumerate(bends) if bend.area < min_adj_area]],
    counted from [i]. *)
Fixpoint candidate_bends (i : Z) (bends : list Bend.t) (min_adj_area : Q) : list (Q * Z) :=
  match bends with
  | [] => []
  | bend :: rest =>
      if Qlt_bool (Bend.area bend) min_adj_area
      then (Bend.adj_area bend, i) :: candidate_bends (i + 1) rest min_adj_area
      else candidate_bends (i + 1) rest min_adj_area
  end.

(** [bends[i].to_reduce = True] *)
Definition mark_to_reduce (bends : list Bend.t) (i : Z) : result (list Bend.t) :=
  bend <~ py_get bends i ;;
  py_set bends i (Bend.set_to_reduce bend true).

(** The loop of [flag_bend_to_reduce] over the sorted candidates; it is
    left at the first candidate over the minimum adjusted area. *)
Fixpoint flag_loop (lst_bends : list (Q * Z)) (nbr_lst_bends : Z) (min_adj_area : Q)
  (start end_ : Z) (bends : list Bend.t) : result (list Bend.t) :=
  match lst_bends with
  | [] => Ok bends
  | (adj_area, i) :: rest =>
      if Qle_bool adj_area min_adj_area then
        bends <~ (if nbr_lst_bends =? 1 then mark_to_reduce bends i
                  else if i =? start then
                    next <~ py_get bends (i + 1) ;;
                    if Bend.to_reduce next then Ok bends else mark_to_reduce bends i
                  else if i =? end_ then
                    previous <~ py_get bends (i - 1) ;;
                    if Bend.to_reduce previous then Ok bends else mark_to_reduce bends i
                  else
                    previous <~ py_get bends (i - 1) ;;
                    if Bend.to_reduce previous then Ok bends
                    else
                      next <~ py_get bends (i + 1) ;;
                      if Bend.to_reduce next then Ok bends else mark_to_reduce bends i) ;;
        flag_loop rest nbr_lst_bends min_adj_area start end_ bends
      else Ok bends
  end.

(** [ReduceBend.flag_bend_to_reduce] *)
Definition flag_bend_to_reduce (rb_geom : RbGeom.t) (diameter_tol : Q) : result RbGeom.t :=
  let min_adj_area := calculate_min_adj_area diameter_tol in
  bends <~ (if RbGeom.is_closed rb_geom && (3 <=? py_len (RbGeom.bends rb_geom)) then
              bends <~ py_del (RbGeom.bends rb_geom) 0 ;;
              py_del bends (-1)
            else Ok (RbGeom.bends rb_geom)) ;;
  let lst_bends := candidate_bends 0 bends min_adj_area in
  let lst_bends := sort_by (fun a b => Qle_bool (fst a) (fst b)) lst_bends in
  let start := 0 in
  let end_ := py_len bends - 1 in
  bends <~ flag_loop lst_bends (py_len lst_bends) min_adj_area start end_ bends ;;
  let rb_geom := RbGeom.set_bends rb_geom bends in
  Ok (if py_len bends =? 0 then RbGeom.set_is_simplest rb_geom true else rb_geom).

(** The inner loop of [find_alternate_bends], [while j - i >= 2];
    [fuel] bounds the number of iterations. *)
Fixpoint alternate_bends_inner (fuel : nat) (i j : Z) (qgs_points : list QgsPoint)
  (alternate_bends : list (Q * Bend.t)) : result (list (Q * Bend.t)) :=
  match fuel with
  | O => Ok alternate_bends
  | S fuel' =>
      if 2 <=? j - i then
        qgs_polygon <~ create_polygon i j qgs_points ;;
        alternate_bend <~ Bend.init i j qgs_polygon ;;
        alternate_bends_inner fuel' (i + 1) j qgs_points
          (alternate_bends ++ [(Qgs.area qgs_polygon, alternate_bend)])
      else Ok alternate_bends
  end.

(** The outer loop of [find_alternate_bends], [while j - 1 >= 2]. *)
Fixpoint alternate_bends_outer (fuel : nat) (bend_i j : Z) (qgs_points : list QgsPoint)
  (alternate_bends : list (Q * Bend.t)) : result (list (Q * Bend.t)) :=
  match fuel with
  | O => Ok alternate_bends
  | S fuel' =>
      if 2 <=? j - 1 then
        let i := bend_i in
        alternate_bends <~
          alternate_bends_inner (Z.to_nat (j - i)) i j qgs_points alternate_bends ;;
        alternate_bends_outer fuel' bend_i (j - 1) qgs_points alternate_bends
      else Ok alternate_bends
  end.

(** [ReduceBend.find_alternate_bends].  The loops run on counters that
    reach their bound within [bend.j] steps. *)
Definition find_alternate_bends (ind : Z) (rb_geom : RbGeom.t) : result (list Bend.t) :=
  bend <~ py_get (RbGeom.bends rb_geom) ind ;;
  let qgs_points := points (RbGeom.qgs_geom rb_geom) in
  let j := Bend.j bend in
  alternate_bends <~
    alternate_bends_outer (Z.to_nat j) (Bend.i bend) j qgs_points [] ;;
  let alternate_bends := sort_by (fun a b => Qle_bool (fst b) (fst a)) alternate_bends in
  Ok (map snd alternate_bends).

(** The loop of [validate_spatial_constraints] over the alternate bends:
    the first alternate whose trimmed chord is disjoint from the lines of
    the geometry itself, with the lists of the last window query made. *)
Fixpoint try_alternate_bends (alternate_bends : list Bend.t) (bend : Bend.t)
  (rb_geom : RbGeom.t) (diameter_tol : Q) (collection : RbCollection.t)
  (qgs_geoms_with_itself qgs_geoms_with_others : list QgsGeometry)
  : result (option Bend.t * list QgsGeometry * list QgsGeometry) :=
  match alternate_bends with
  | [] => Ok (None, qgs_geoms_with_itself, qgs_geoms_with_others)
  | alternate_bend :: rest =>
      let (qgs_geom_new_subline_trimmed, alternate_bend) :=
        get_new_subline_trimmed alternate_bend diameter_tol rb_geom in
      let b_box := boundingBox (Bend.qgs_geom_bend bend) in
      '(qgs_geoms_with_itself, qgs_geoms_with_others) <~
        RbCollection.get_segment_intersect collection (RbGeom.id rb_geom) b_box ;;
      let new_bend_ok :=
        forallb (fun qgs_geom_potential =>
                   Qgs.disjoint qgs_geom_new_subline_trimmed qgs_geom_potential)
                qgs_geoms_with_itself in
      if new_bend_ok
      then Ok (Some alternate_bend, qgs_geoms_with_itself, qgs_geoms_with_others)
      else try_alternate_bends rest bend rb_geom diameter_tol collection
             qgs_geoms_with_itself qgs_geoms_with_others
  end.

(** The start point of a line, for the message of a degenerate chord. *)
Definition startPoint_xy (g : QgsGeometry) : list Q :=
  match points g with
  | p :: _ => [fst p; snd p]
  | [] => []
  end.

(** [ReduceBend.validate_spatial_constraints].  The caches a bend fills
    are kept in [rb_geom.bends[ind]], the object the program mutates. *)
Definition validate_spatial_constraints (ind : Z) (rb_geom : RbGeom.t)
  : M ReduceBend.t (bool * RbGeom.t) :=
  self <- get ;;
  let diameter_tol := ReduceBend.diameter_tol self in
  bend <- lift (py_get (RbGeom.bends rb_geom) ind) ;;
  let (qgs_geom_new_subline, bend) := get_new_subline bend diameter_tol rb_geom in
  let b_box := boundingBox (Bend.qgs_geom_bend bend) in
  '(qgs_geoms_with_itself, qgs_geoms_with_others) <-
    lift (RbCollection.get_segment_intersect (ReduceBend.rb_collection self)
            (RbGeom.id rb_geom) b_box) ;;
  (* First: the new line must leave the line simple *)
  '(check_constraints, bend, stored, qgs_geoms_with_others) <-
    (if Qle_bool ZERO_RELATIVE (Qgs.length qgs_geom_new_subline) then
       let (qgs_geom_new_subline_trimmed, bend) :=
         get_new_subline_trimmed bend diameter_tol rb_geom in
       bends <- lift (py_set (RbGeom.bends rb_geom) ind bend) ;;
       let rb_geom := RbGeom.set_bends rb_geom bends in
       if forallb (fun qgs_geom_potential =>
                     Qgs.disjoint qgs_geom_new_subline_trimmed qgs_geom_potential)
                  qgs_geoms_with_itself
       then ret (true, bend, bend, qgs_geoms_with_others)
       else
         alternate_bends <- lift (find_alternate_bends ind rb_geom) ;;
         '(found, _, qgs_geoms_with_others) <-
           lift (try_alternate_bends alternate_bends bend rb_geom diameter_tol
                   (ReduceBend.rb_collection self)
                   qgs_geoms_with_itself qgs_geoms_with_others) ;;
         match found with
         | Some alternate_bend => ret (true, bend, alternate_bend, qgs_geoms_with_others)
         | None => ret (false, bend, bend, qgs_geoms_with_others)
         end
     else
       self <- get ;;
       put (ReduceBend.set_feedback self
              (QgsFeedback.pushInfo (ReduceBend.feedback self)
                 ("Possibly non OGC simple feature at {},{} use Fix geometries"%string,
                  startPoint_xy qgs_geom_new_subline))) ;;;
       ret (true, bend, bend, qgs_geoms_with_others)) ;;
  bends <- lift (py_set (RbGeom.bends rb_geom) ind stored) ;;
  let rb_geom := RbGeom.set_bends rb_geom bends in
  (* Second: the new line must not meet another line or point *)
  let check_constraints :=
    check_constraints
    && forallb (fun qgs_geom_potential =>
                  Qgs.disjoint qgs_geom_potential qgs_geom_new_subline)
               qgs_geoms_with_others in
  (* Third: no other feature may lie inside the bend *)
  let check_constraints :=
    check_constraints
    && forallb (fun qgs_geom_potential =>
                  negb (Qgs.contains (Bend.qgs_geom_bend bend) qgs_geom_potential))
               qgs_geoms_with_others in
  ret (check_constraints, rb_geom).

(** The loop of [process_bends] over the bend numbers, highest first. *)
Fixpoint process_bends_loop (inds : list Z) (rb_geom : RbGeom.t) (nbr_bend_reduced : Z)
  : M ReduceBend.t (Z * RbGeom.t) :=
  match inds with
  | [] => ret (nbr_bend_reduced, rb_geom)
  | ind :: rest =>
      candidate <- lift (py_get (RbGeom.bends rb_geom) ind) ;;
      if Bend.to_reduce candidate then
        '(spatial_constraints, rb_geom) <- validate_spatial_constraints ind rb_geom ;;
        if spatial_constraints then
          bend <- lift (py_get (RbGeom.bends rb_geom) ind) ;;
          self <- get ;;
          (if ReduceBend.smooth_line self then
             let qgs_pnt_i := vertexAt (RbGeom.qgs_geom rb_geom) (Bend.i bend) in
             let qgs_pnt_j := vertexAt (RbGeom.qgs_geom rb_geom) (Bend.j bend) in
             put (ReduceBend.set_bends_reduced self
                    (ReduceBend.bends_reduced self
                       ++ [BendReduced.init (RbGeom.id rb_geom) qgs_pnt_i qgs_pnt_j
                             (Bend.qgs_geom_bend bend)]))
           else ret tt) ;;;
          rb_geom <- ReduceBend.on_collection
                       (RbCollection.delete_vertex rb_geom (Bend.i bend + 1) (Bend.j bend - 1)) ;;
          self <- get ;;
          let r := ReduceBend.rb_results self in
          put (ReduceBend.set_rb_results self
                 {| RbResults.nbr_bend_reduced := RbResults.nbr_bend_reduced r + 1;
                    RbResults.nbr_bend_detected := RbResults.nbr_bend_detected r;
                    RbResults.nbr_pass := RbResults.nbr_pass r;
                    RbResults.nbr_line_smooth := RbResults.nbr_line_smooth r;
                    RbResults.lines_log_info := RbResults.lines_log_info r |}) ;;;
          process_bends_loop rest rb_geom (nbr_bend_reduced + 1)
        else process_bends_loop rest rb_geom nbr_bend_reduced
      else process_bends_loop rest rb_geom nbr_bend_reduced
  end.

(** [ReduceBend.process_bends] *)
Definition process_bends (rb_geom : RbGeom.t) : M ReduceBend.t (Z * RbGeom.t) :=
  process_bends_loop (rev (py_range 0 (py_len (RbGeom.bends rb_geom)))) rb_geom 0.

(** The [for] loop of one pass of [_manage_reduce_bend] over the
    geometries; it is left when the host cancels.  The geometries are
    answered as the pass leaves them. *)
Fixpoint pass_geoms (rb_geoms : list RbGeom.t) (min_nbr_pass : Z)
  (nbr_bend_detected nbr_bend_reduced : Z) : M ReduceBend.t (list RbGeom.t * Z * Z) :=
  match rb_geoms with
  | [] => ret ([], nbr_bend_detected, nbr_bend_reduced)
  | rb_geom :: rest =>
      self <- get ;;
      let (canceled, feedback) := QgsFeedback.isCanceled (ReduceBend.feedback self) in
      put (ReduceBend.set_feedback self feedback) ;;;
      if canceled then ret (rb_geoms, nbr_bend_detected, nbr_bend_reduced)
      else if negb (RbGeom.is_simplest rb_geom) then
        self <- get ;;
        '(detected, rb_geom) <-
          manage_bend_creation min_nbr_pass (RbResults.nbr_pass (ReduceBend.rb_results self))
            rb_geom (ReduceBend.diameter_tol self) ;;
        rb_geom <- lift (flag_bend_to_reduce rb_geom (ReduceBend.diameter_tol self)) ;;
        '(reduced, rb_geom) <- process_bends rb_geom ;;
        '(rest, nbr_bend_detected, nbr_bend_reduced) <-
          pass_geoms rest min_nbr_pass (nbr_bend_detected + detected)
            (nbr_bend_reduced + reduced) ;;
        ret (rb_geom :: rest, nbr_bend_detected, nbr_bend_reduced)
      else
        '(rest, nbr_bend_detected, nbr_bend_reduced) <-
          pass_geoms rest min_nbr_pass nbr_bend_detected nbr_bend_reduced ;;
        ret (rb_geom :: rest, nbr_bend_detected, nbr_bend_reduced)
  end.

(** The body of the [while] loop of [_manage_reduce_bend] up to its
    breaking condition: one pass, answered with the number of bends it
    reduced.  (The progress shown to the host is left out.) *)
Definition one_pass (min_nbr_pass : Z) : M ReduceBend.t Z :=
  self <- get ;;
  '(rb_geoms, nbr_bend_detected, nbr_bend_reduced) <-
    pass_geoms (ReduceBend.rb_geoms self) min_nbr_pass 0 0 ;;
  self <- get ;;
  let r := ReduceBend.rb_results self in
  let line := {| RbResults.iteration := RbResults.nbr_pass r;
                 RbResults.bends_detected := nbr_bend_detected;
                 RbResults.bend_reduced := nbr_bend_reduced;
                 RbResults.tolerance_used := ReduceBend.diameter_tol self |} in
  put (ReduceBend.set_rb_results (ReduceBend.set_rb_geoms self rb_geoms)
         {| RbResults.nbr_bend_reduced := RbResults.nbr_bend_reduced r;
            RbResults.nbr_bend_detected :=
              (if RbResults.nbr_pass r =? 0 then nbr_bend_detected
               else RbResults.nbr_bend_detected r);
            RbResults.nbr_pass := RbResults.nbr_pass r;
            RbResults.nbr_line_smooth := RbResults.nbr_line_smooth r;
            RbResults.lines_log_info := RbResults.lines_log_info r ++ [line] |}) ;;;
  ret nbr_bend_reduced.

Definition set_nbr_pass (self : ReduceBend.t) (v : Z) : ReduceBend.t :=
  let r := ReduceBend.rb_results self in
  ReduceBend.set_rb_results self
    {| RbResults.nbr_bend_reduced := RbResults.nbr_bend_reduced r;
       RbResults.nbr_bend_detected := RbResults.nbr_bend_detected r;
       RbResults.nbr_pass := v;
       RbResults.nbr_line_smooth := RbResults.nbr_line_smooth r;
       RbResults.lines_log_info := RbResults.lines_log_info r |}.

(** The [while True] loop of [_manage_reduce_bend]; [fuel] bounds the
    number of passes. *)
Fixpoint _manage_reduce_bend_loop (fuel : nat) (min_nbr_pass : Z) (self : ReduceBend.t)
  : outcome ReduceBend.t :=
  match fuel with
  | O => OutOfFuel
  | S fuel' =>
      match one_pass min_nbr_pass self with
      | Raise e => Raised e
      | Ok (nbr_bend_reduced, self) =>
          if (min_nbr_pass <? RbResults.nbr_pass (ReduceBend.rb_results self))
             && (nbr_bend_reduced =? 0)
          then Done self
          else _manage_reduce_bend_loop fuel' min_nbr_pass
                 (set_nbr_pass self (RbResults.nbr_pass (ReduceBend.rb_results self) + 1))
      end
  end.

(** [ReduceBend._manage_reduce_bend] *)
Definition _manage_reduce_bend (fuel : nat) (self : ReduceBend.t) : outcome ReduceBend.t :=
  let self := set_nbr_pass self 0 in
  let min_nbr_pass := 1 in
  _manage_reduce_bend_loop fuel min_nbr_pass self.

(** [extract_vertex_ind] of [BendReduced.set_values] *)
Definition extract_vertex_ind (rb_geom : RbGeom.t) (qgs_point : option QgsPoint) : option Z :=
  match qgs_point with
  | Some p =>
      let vertex_id := Qgs.closestVertex (points (RbGeom.qgs_geom rb_geom)) p in
      match vertexAt (RbGeom.qgs_geom rb_geom) vertex_id with
      | Some qgs_point_target =>
          if Qlt_bool (Qgs.distance qgs_point_target p) ZERO_RELATIVE
          then Some vertex_id else None
      | None => None
      end
  | None => None
  end.

(** [BendReduced.set_values]; [rb_geom] is the geometry [self.rb_geom]
    refers to, as it is now. *)
Definition set_values (self : BendReduced.t) (rb_geom : RbGeom.t) (diameter : Q)
  : BendReduced.t :=
  if Qlt_bool (diameter * (2 / 3)) (Qgs.length (BendReduced.qgs_geom_bend_base self)) then
    let i := extract_vertex_ind rb_geom (BendReduced.qgs_point_start self) in
    let j := extract_vertex_ind rb_geom (BendReduced.qgs_point_end self) in
    let smoothable :=
      match i, j with
      | Some vi, Some vj =>
          (vi + 1 =? vj) && (1 <=? vi) && (vj <=? numPoints (RbGeom.qgs_geom rb_geom) - 2)
      | _, _ => false
      end in
    {| BendReduced.rb_geom := BendReduced.rb_geom self;
       BendReduced.qgs_point_start := BendReduced.qgs_point_start self;
       BendReduced.qgs_point_end := BendReduced.qgs_point_end self;
       BendReduced.qgs_geom_bend := BendReduced.qgs_geom_bend self;
       BendReduced.qgs_geom_bend_base := BendReduced.qgs_geom_bend_base self;
       BendReduced.i_previous :=
         (if smoothable then option_map (fun v => v - 1) i else BendReduced.i_previous self);
       BendReduced.i := i;
       BendReduced.j_after :=
         (if smoothable then option_map (fun v => v + 1) j else BendReduced.j_after self);
       BendReduced.j := j;
       BendReduced.is_line_smoothable := Some smoothable |}
  else self.

Definition angle_at (a b c : QgsPoint) : Q :=
  Qgs.angleBetweenThreePoints (fst a) (snd a) (fst b) (snd b) (fst c) (snd c).

Definition vertexAt_opt (g : QgsGeometry) (k : option Z) : option QgsPoint :=
  match k with
  | Some k => vertexAt g k
  | None => None
  end.

(** [BendReduced.calculate_smooth_line]: the chord, moved to the origin
    and turned onto the x axis, gets two points at one and two thirds of
    its length; the four points are turned and moved back. *)
Definition calculate_smooth_line (self : BendReduced.t) (rb_geom : RbGeom.t)
  : result QgsGeometry :=
  let qgs_geom_bend_centroid := Qgs.centroid (BendReduced.qgs_geom_bend self) in
  let g := RbGeom.qgs_geom rb_geom in
  let qgs_points_subline :=
    points (line_of_vertices
              [vertexAt_opt g (BendReduced.i_previous self); vertexAt_opt g (BendReduced.i self);
               vertexAt_opt g (BendReduced.j self); vertexAt_opt g (BendReduced.j_after self)]) in
  qgs_point_translate <~ py_get qgs_points_subline 1 ;;
  let dx := (- fst qgs_point_translate)%Q in
  let dy := (- snd qgs_point_translate)%Q in
  let qgs_points_tr := translate dx dy qgs_points_subline in
  let centroid_tr := translate dx dy [qgs_geom_bend_centroid] in
  tr1 <~ py_get qgs_points_tr 1 ;;
  tr2 <~ py_get qgs_points_tr 2 ;;
  let x_value := Qgs.length (QgsLineString [tr1; tr2]) in
  let angle_x_axis :=
    Qgs.angleBetweenThreePoints x_value 0 (fst tr1) (snd tr1) (fst tr2) (snd tr2) in
  let angle_x_axis_degree := math_degrees angle_x_axis in
  let qgs_points_ro := Qgs.rotate (- angle_x_axis_degree) qgs_points_tr in
  let centroid_ro := Qgs.rotate (- angle_x_axis_degree) centroid_tr in
  ro0 <~ py_get qgs_points_ro 0 ;;
  ro1 <~ py_get qgs_points_ro 1 ;;
  ro2 <~ py_get qgs_points_ro 2 ;;
  ro3 <~ py_get qgs_points_ro 3 ;;
  centroid <~ py_get centroid_ro 0 ;;
  let base_length := fst ro2 in
  let p0_x := (base_length * (1 / 3))%Q in
  let p1_x := (base_length * (2 / 3))%Q in
  let smooth_case :=
    if Qlt_bool 0 (snd ro0 * snd ro3) then
      if Qlt_bool (snd ro0 * snd centroid) 0 then BendReduced.CASE_1 else BendReduced.CASE_2
    else BendReduced.CASE_3 in
  let angle_i := angle_at ro0 ro1 ro2 in
  let angle_j := angle_at ro1 ro2 ro3 in
  let angle_i := if Qlt_bool math_pi angle_i then (2 * math_pi - angle_i)%Q else angle_i in
  let angle_j := if Qlt_bool math_pi angle_j then (2 * math_pi - angle_j)%Q else angle_j in
  let angle_smooth := if Qlt_bool angle_i angle_j then angle_j else angle_i in
  let angle_smooth :=
    match smooth_case with
    | BendReduced.CASE_1 | BendReduced.CASE_3 =>
        let a := ((math_pi - angle_smooth) / 1.5)%Q in
        if Qlt_bool 30 (math_degrees a) then math_radians 30 else a
    | BendReduced.CASE_2 =>
        let a := ((math_pi - angle_smooth) / 2.5)%Q in
        if Qlt_bool 20 (math_degrees a) then math_radians 20 else a
    end in
  let angle_smooth :=
    match smooth_case with
    | BendReduced.CASE_3 =>
        if Qlt_bool 20 (math_degrees angle_smooth) then math_radians 20 else angle_smooth
    | _ => angle_smooth
    end in
  let p0_y := (Qgs.tan angle_smooth * p0_x)%Q in
  let p0_y := if Qlt_bool 0 (snd ro0) then (p0_y * -1)%Q else p0_y in
  let qgs_point_smooth_0 := (p0_x, p0_y) in
  let qgs_point_smooth_1 :=
    match smooth_case with
    | BendReduced.CASE_3 => (p1_x, (p0_y * -1)%Q)
    | _ => (p1_x, p0_y)
    end in
  let qgs_points_smooth :=
    Qgs.rotate angle_x_axis_degree [ro1; qgs_point_smooth_0; qgs_point_smooth_1; ro2] in
  Ok (QgsLineString
        (translate (fst qgs_point_translate) (snd qgs_point_translate) qgs_points_smooth)).

(** The geometry a reference designates, and its replacement by the
    geometry as a method left it. *)
Definition find_rb_geom (rb_geoms : list RbGeom.t) (id : Z) : result RbGeom.t :=
  match find (fun g => RbGeom.id g =? id) rb_geoms with
  | Some g => Ok g
  | None => Raise KeyError
  end.

Definition store_rb_geom (rb_geoms : list RbGeom.t) (g : RbGeom.t) : list RbGeom.t :=
  map (fun g' => if RbGeom.id g' =? RbGeom.id g then g else g') rb_geoms.

(** The loop of [manage_smooth_line] *)
Fixpoint manage_smooth_line_loop (bends_reduced : list BendReduced.t)
  : M ReduceBend.t (list BendReduced.t) :=
  match bends_reduced with
  | [] => ret []
  | bend_reduced :: rest =>
      self <- get ;;
      rb_geom <- lift (find_rb_geom (ReduceBend.rb_geoms self) (BendReduced.rb_geom bend_reduced)) ;;
      let bend_reduced := set_values bend_reduced rb_geom (ReduceBend.diameter_tol self) in
      match BendReduced.is_line_smoothable bend_reduced,
            BendReduced.i bend_reduced, BendReduced.j bend_reduced with
      | Some true, Some i, Some j =>
          qgs_geom_smooth <- lift (calculate_smooth_line bend_reduced rb_geom) ;;
          rb_geom <- ReduceBend.on_collection
                       (RbCollection.add_vertex rb_geom i j qgs_geom_smooth) ;;
          self <- get ;;
          let r := ReduceBend.rb_results self in
          put (ReduceBend.set_rb_results
                 (ReduceBend.set_rb_geoms self (store_rb_geom (ReduceBend.rb_geoms self) rb_geom))
                 {| RbResults.nbr_bend_reduced := RbResults.nbr_bend_reduced r;
                    RbResults.nbr_bend_detected := RbResults.nbr_bend_detected r;
                    RbResults.nbr_pass := RbResults.nbr_pass r;
                    RbResults.nbr_line_smooth := RbResults.nbr_line_smooth r + 1;
                    RbResults.lines_log_info := RbResults.lines_log_info r |}) ;;;
          rest <- manage_smooth_line_loop rest ;;
          ret (bend_reduced :: rest)
      | _, _, _ =>
          rest <- manage_smooth_line_loop rest ;;
          ret (bend_reduced :: rest)
      end
  end.

(** [ReduceBend.manage_smooth_line] *)
Definition manage_smooth_line : M ReduceBend.t unit :=
  self <- get ;;
  bends_reduced <- manage_smooth_line_loop (ReduceBend.bends_reduced self) ;;
  self <- get ;;
  put (ReduceBend.set_bends_reduced self bends_reduced).

(** [ReduceBend.reduce_bends], from the creation of the collection to the
    end of the smoothing; the geometries of the state are those the
    pre-reduction step hands over. *)
Definition reduce_bends (fuel : nat) (self : ReduceBend.t) : outcome ReduceBend.t :=
  let self := ReduceBend.set_rb_results self RbResults.init in
  let self := ReduceBend.set_rb_collection self RbCollection.init in
  match ReduceBend.on_collection (RbCollection.add_features (ReduceBend.rb_geoms self)) self with
  | Raise e => Raised e
  | Ok (_, self) =>
      match _manage_reduce_bend fuel self with
      | Done self =>
          if ReduceBend.smooth_line self then
            match manage_smooth_line self with
            | Ok (_, self) => Done self
            | Raise e => Raised e
            end
          else Done self
      | Raised e => Raised e
      | OutOfFuel => OutOfFuel
      end
  end.

(** *** Small polygons and small holes *)

(** [ReduceBend.extract_polygon_attributes]: the area and the perimeter
    of the polygon built on the line. *)
Definition extract_polygon_attributes (qgs_geom : QgsGeometry) : Q * Q :=
  let qgs_pol := QgsPolygon (points qgs_geom) in
  (Qgs.area qgs_pol, Qgs.length qgs_pol).

(** The inner loop of [del_outer_inner_ring],
    [for j in reversed(range(len(self.rb_features[i].rb_geom)))]; the
    loop is left when the feature is deleted. *)
Fixpoint del_rings (js : list Z) (i : Z) (min_adj_area : Q) : M Preprocess.t unit :=
  match js with
  | [] => ret tt
  | j :: rest =>
      self <- get ;;
      rb_feature <- lift (py_get (Preprocess.rb_features self) i) ;;
      rb_geom <- lift (py_get (RbFeature.rb_geom rb_feature) j) ;;
      let '(area, perimeter) := extract_polygon_attributes (RbGeom.qgs_geom rb_geom) in
      adj_area <- lift (calculate_adj_area area perimeter) ;;
      if j =? 0 then
        if Preprocess.flag_del_outer self && Qlt_bool adj_area min_adj_area then
          rb_features <- lift (py_del (Preprocess.rb_features self) i) ;;
          put (Preprocess.set_nbr_pol_del (Preprocess.set_rb_features self rb_features)
                 (Preprocess.nbr_pol_del self + 1))
        else del_rings rest i min_adj_area
      else
        if Preprocess.flag_del_inner self && Qlt_bool adj_area min_adj_area then
          rings <- lift (py_del (RbFeature.rb_geom rb_feature) j) ;;
          rb_features <- lift (py_set (Preprocess.rb_features self) i
                                 (RbFeature.set_rb_geom rb_feature rings)) ;;
          put (Preprocess.set_nbr_hole_del (Preprocess.set_rb_features self rb_features)
                 (Preprocess.nbr_hole_del self + 1)) ;;;
          del_rings rest i min_adj_area
        else del_rings rest i min_adj_area
  end.

(** The outer loop, [for i in reversed(range(len(self.rb_features)))]. *)
Fixpoint del_features (indices : list Z) : M Preprocess.t unit :=
  match indices with
  | [] => ret tt
  | i :: rest =>
      self <- get ;;
      rb_feature <- lift (py_get (Preprocess.rb_features self) i) ;;
      (if RbFeature.is_RbPolygon rb_feature then
         let min_adj_area := calculate_min_adj_area (Preprocess.diameter_tol self) in
         del_rings (rev (py_range 0 (py_len (RbFeature.rb_geom rb_feature)))) i min_adj_area
       else ret tt) ;;;
      del_features rest
  end.

(** [ReduceBend.del_outer_inner_ring] *)
Definition del_outer_inner_ring : M Preprocess.t unit :=
  self <- get ;;
  del_features (rev (py_range 0 (py_len (Preprocess.rb_features self)))).

(** *** The validation of the index *)






End Engine.

(** ** A geometry library in rational arithmetic

    An implementation of [Qgs.Api] on rational coordinates, used to run
    the program on concrete lines.  Areas, centroids and the spatial
    predicates are exact.  Lengths are square roots cut after twelve
    decimals.  An angle lies on the exact side of pi (and is exactly pi or
    0 on collinear points); its value is an approximation with an error
    below 0.002 radian. *)

Module ExactQgs.

Local Open Scope Q_scope.

Definition Qsqrt (q : Q) : Q :=
  let s := (10 ^ 12)%Z in
  Qred (Z.sqrt (Qnum q * s * s / Zpos (Qden q)) # 1000000000000).

Definition sq_distance (a b : QgsPoint) : Q :=
  Qred ((fst a - fst b) ^ 2 + (snd a - snd b) ^ 2).

Definition distance (a b : QgsPoint) : Q := Qsqrt (sq_distance a b).

Fixpoint polyline_length (l : list QgsPoint) : Q :=
  match l with
  | a :: tl =>
      match tl with
      | b :: _ => Qred (distance a b + polyline_length tl)
      | [] => 0
      end
  | [] => 0
  end.

Definition length (g : QgsGeometry) : Q :=
  match g with
  | QgsPointGeometry _ => 0
  | QgsLineString l => polyline_length l
  | QgsPolygon r => polyline_length r
  end.

Definition cross (a b c : QgsPoint) : Q :=
  Qred ((fst b - fst a) * (snd c - snd a) - (snd b - snd a) * (fst c - fst a)).

(** The shoelace sum of a ring, twice its signed area. *)
Fixpoint shoelace (l : list QgsPoint) : Q :=
  match l with
  | a :: tl =>
      match tl with
      | b :: _ => Qred (fst a * snd b - fst b * snd a + shoelace tl)
      | [] => 0
      end
  | [] => 0
  end.

Definition sumUpArea (l : list QgsPoint) : Q := Qred (shoelace l / 2).

Definition area (g : QgsGeometry) : Q :=
  match g with
  | QgsPolygon r => Qabs (sumUpArea r)
  | _ => 0
  end.

(** The arc tangent on [[0, 1]]. *)
Definition atan_unit (t : Q) : Q :=
  Qred (math_pi / 4 * t + t * (1 - t) * (0.2447 + 0.0663 * t)).

(** The angle in [(0, pi)] of a vector [(x, y)] with [0 < y]. *)
Definition atan2_upper (y x : Q) : Q :=
  if Qlt_bool 0 x then
    if Qle_bool y x then atan_unit (y / x) else Qred (math_pi / 2 - atan_unit (x / y))
  else if Qeq_bool x 0 then Qred (math_pi / 2)
  else
    if Qle_bool y (- x) then Qred (math_pi - atan_unit (y / - x))
    else Qred (math_pi / 2 + atan_unit (- x / y)).

(** The angle from BC to BA, normalized to [[0, 2 pi)]. *)
Definition angleBetweenThreePoints (x1 y1 x2 y2 x3 y3 : Q) : Q :=
  let ux := x1 - x2 in
  let uy := y1 - y2 in
  let vx := x3 - x2 in
  let vy := y3 - y2 in
  let s := Qred (vx * uy - vy * ux) in
  let c := Qred (ux * vx + uy * vy) in
  if Qeq_bool s 0 then (if Qlt_bool c 0 then math_pi else 0)
  else if Qlt_bool 0 s then atan2_upper s c
  else Qred (2 * math_pi - atan2_upper (- s) c).

Fixpoint interpolatePoint (l : list QgsPoint) (d : Q) : QgsPoint :=
  match l with
  | a :: tl =>
      match tl with
      | b :: _ =>
          let len := distance a b in
          if Qle_bool d len || match tl with [_] => true | _ => false end then
            if Qeq_bool len 0 then a
            else (Qred (fst a + d / len * (fst b - fst a)),
                  Qred (snd a + d / len * (snd b - snd a)))
          else interpolatePoint tl (d - len)
      | [] => a
      end
  | [] => (0, 0)
  end.

(** The area-weighted centroid of a ring, its first point when flat. *)
Fixpoint centroid_sums (l : list QgsPoint) : Q * Q :=
  match l with
  | a :: tl =>
      match tl with
      | b :: _ =>
          let w := fst a * snd b - fst b * snd a in
          let (sx, sy) := centroid_sums tl in
          (Qred ((fst a + fst b) * w + sx), Qred ((snd a + snd b) * w + sy))
      | [] => (0, 0)
      end
  | [] => (0, 0)
  end.

Definition centroid (g : QgsGeometry) : QgsPoint :=
  match points g with
  | [] => (0, 0)
  | p :: _ =>
      let s := shoelace (points g) in
      if Qeq_bool s 0 then p
      else let (sx, sy) := centroid_sums (points g) in
           (Qred (sx / (3 * s)), Qred (sy / (3 * s)))
  end.

Definition sign (q : Q) : Z := if Qlt_bool 0 q then 1%Z else if Qlt_bool q 0 then (-1)%Z else 0%Z.

Definition between (a b c : Q) : bool :=
  (Qle_bool a c && Qle_bool c b) || (Qle_bool b a && Qle_bool c a && Qle_bool b c).

(** [c], collinear with [a] and [b], lies on the segment from [a] to [b]. *)
Definition on_segment (a b c : QgsPoint) : bool :=
  between (fst a) (fst b) (fst c) && between (snd a) (snd b) (snd c).

(** Two closed segments share a point. *)
Definition segments_intersect (a b c d : QgsPoint) : bool :=
  let o1 := sign (cross a b c) in
  let o2 := sign (cross a b d) in
  let o3 := sign (cross c d a) in
  let o4 := sign (cross c d b) in
  (negb (o1 =? o2)%Z && negb (o3 =? o4)%Z)
  || ((o1 =? 0)%Z && on_segment a b c)
  || ((o2 =? 0)%Z && on_segment a b d)
  || ((o3 =? 0)%Z && on_segment c d a)
  || ((o4 =? 0)%Z && on_segment c d b).

(** The segments of a geometry; a point is a segment of no length. *)
Fixpoint segments_of_points (l : list QgsPoint) : list (QgsPoint * QgsPoint) :=
  match l with
  | a :: tl =>
      match tl with
      | b :: _ => (a, b) :: segments_of_points tl
      | [] => []
      end
  | [] => []
  end.

Definition segments (g : QgsGeometry) : list (QgsPoint * QgsPoint) :=
  match g with
  | QgsPointGeometry p => [(p, p)]
  | QgsLineString [p] => [(p, p)]
  | _ => segments_of_points (points g)
  end.

Definition segments_meet (g1 g2 : QgsGeometry) : bool :=
  existsb (fun s1 => existsb (fun s2 =>
             segments_intersect (fst s1) (snd s1) (fst s2) (snd s2)) (segments g2))
          (segments g1).

(** [p] lies strictly inside the ring (even-odd rule). *)
Definition crosses_ray (p a b : QgsPoint) : bool :=
  negb (Bool.eqb (Qlt_bool (snd p) (snd a)) (Qlt_bool (snd p) (snd b)))
  && Qlt_bool (fst p)
       (fst a + (snd p - snd a) / (snd b - snd a) * (fst b - fst a)).

Definition on_ring (p : QgsPoint) (ring : list QgsPoint) : bool :=
  existsb (fun s => Qeq_bool (cross (fst s) (snd s) p) 0 && on_segment (fst s) (snd s) p)
          (segments_of_points ring).

Definition inside_ring (p : QgsPoint) (ring : list QgsPoint) : bool :=
  negb (on_ring p ring)
  && Nat.odd (List.length (filter (fun s => crosses_ray p (fst s) (snd s))
                             (segments_of_points ring))).

Definition covers_point (g : QgsGeometry) (p : QgsPoint) : bool :=
  match g with
  | QgsPolygon r => inside_ring p r
  | _ => false
  end.

Definition disjoint (g1 g2 : QgsGeometry) : bool :=
  negb (segments_meet g1 g2
        || existsb (covers_point g1) (points g2)
        || existsb (covers_point g2) (points g1)).

Definition contains (g1 g2 : QgsGeometry) : bool :=
  match g1 with
  | QgsPolygon r =>
      forallb (fun p => inside_ring p r) (points g2)
      && negb (segments_meet (QgsLineString r) g2)
      && negb (match points g2 with [] => true | _ => false end)
  | _ => false
  end.

Definition within (g1 g2 : QgsGeometry) : bool := contains g2 g1.

Definition same_point (a b : QgsPoint) : bool :=
  Qeq_bool (fst a) (fst b) && Qeq_bool (snd a) (snd b).

(** A line is joined to the merged line before it when it starts where
    that one ends. *)
Fixpoint merge_into (merged : list (list QgsPoint)) (l : list QgsPoint)
  : list (list QgsPoint) :=
  match merged with
  | [] => [l]
  | [m] =>
      match rev m, l with
      | e :: _, s :: tl => if same_point e s then [m ++ tl] else [m; l]
      | _, _ => [m; l]
      end
  | m :: rest => m :: merge_into rest l
  end.

Definition mergeLines (lines : list (list QgsPoint)) : list (list QgsPoint) :=
  fold_left merge_into lines [].

Fixpoint closest_from (k best : Z) (best_d : Q) (l : list QgsPoint) (p : QgsPoint) : Z :=
  match l with
  | [] => best
  | a :: tl =>
      if Qlt_bool (sq_distance a p) best_d
      then closest_from (k + 1) k (sq_distance a p) tl p
      else closest_from (k + 1) best best_d tl p
  end.

Definition closestVertex (l : list QgsPoint) (p : QgsPoint) : Z :=
  match l with
  | [] => (-1)%Z
  | a :: tl => closest_from 1 0 (sq_distance a p) tl p
  end.

(** Sine and cosine by their Taylor polynomials of degree 11 and 10, on an
    angle brought to [[-pi/2, pi/2]]. *)
Definition sin_small (x : Q) : Q :=
  let x2 := Qred (x * x) in
  Qred (x * (1 - x2 / 6 * (1 - x2 / 20 * (1 - x2 / 42 * (1 - x2 / 72 * (1 - x2 / 110)))))).

Definition cos_small (x : Q) : Q :=
  let x2 := Qred (x * x) in
  Qred (1 - x2 / 2 * (1 - x2 / 12 * (1 - x2 / 30 * (1 - x2 / 56 * (1 - x2 / 90))))).

Definition reduce_angle (x : Q) : Q :=
  let turns := Qfloor ((x + math_pi) / (2 * math_pi)) in
  Qred (x - inject_Z turns * (2 * math_pi)).

Definition sin (x : Q) : Q :=
  let r := reduce_angle x in
  if Qlt_bool (math_pi / 2) r then sin_small (math_pi - r)
  else if Qlt_bool r (- (math_pi / 2)) then sin_small (- math_pi - r)
  else sin_small r.

Definition cos (x : Q) : Q :=
  let r := reduce_angle x in
  if Qlt_bool (math_pi / 2) r then Qred (- cos_small (math_pi - r))
  else if Qlt_bool r (- (math_pi / 2)) then Qred (- cos_small (- math_pi - r))
  else cos_small r.

Definition tan (x : Q) : Q := Qred (sin x / cos x).

(** The clockwise rotation by [degrees] about the origin. *)
Definition rotate (degrees : Q) (l : list QgsPoint) : list QgsPoint :=
  let a := math_radians degrees in
  map (fun p => (Qred (fst p * cos a + snd p * sin a),
                 Qred (snd p * cos a - fst p * sin a))) l.

#[export] Instance api : Qgs.Api := {
  Qgs.distance := distance;
  Qgs.length := length;
  Qgs.area := area;
  Qgs.sumUpArea := sumUpArea;
  Qgs.angleBetweenThreePoints := angleBetweenThreePoints;
  Qgs.interpolatePoint := interpolatePoint;
  Qgs.centroid := centroid;
  Qgs.disjoint := disjoint;
  Qgs.contains := contains;
  Qgs.within := within;
  Qgs.mergeLines := mergeLines;
  Qgs.closestVertex := closestVertex;
  Qgs.rotate := rotate;
  Qgs.tan := tan
}.

End ExactQgs.

(** * Properties *)

(** ** Reasoning on the monads *)

Lemma rbind_Ok {A B : Type} (r : result A) (f : A -> result B) (b : B) :
  rbind r f = Ok b -> exists a, r = Ok a /\ f a = Ok b.
Proof. destruct r; cbn; intros E; [eauto | discriminate]. Qed.

Lemma bind_Ok {S A B : Type} (m : M S A) (f : A -> M S B) (s : S) (r : B * S) :
  bind m f s = Ok r -> exists a s', m s = Ok (a, s') /\ f a s' = Ok r.
Proof.
  unfold bind. destruct (m s) as [[a s']|]; intros E; [eauto | discriminate].
Qed.

Lemma lift_Ok {S A : Type} (r : result A) (s : S) (x : A * S) :
  lift r s = Ok x -> r = Ok (fst x) /\ snd x = s.
Proof. unfold lift. destruct r; intros E; inversion E; auto. Qed.

Lemma on_collection_Ok {A : Type} (m : M RbCollection.t A) (self : ReduceBend.t)
  (x : A * ReduceBend.t) :
  ReduceBend.on_collection m self = Ok x ->
  exists c, m (ReduceBend.rb_collection self) = Ok (fst x, c)
            /\ snd x = ReduceBend.set_rb_collection self c.
Proof.
  unfold ReduceBend.on_collection.
  destruct (m (ReduceBend.rb_collection self)) as [[a c]|]; intros E; inversion E; eauto.
Qed.

(** Splits a hypothesis [H : m s = Ok x] along the binds of [m]. *)
Ltac monad_inv H :=
  lazymatch type of H with
  | bind _ _ _ = Ok _ =>
      let a := fresh "a" in let s := fresh "s" in
      let H1 := fresh H in let H2 := fresh H in
      apply bind_Ok in H; destruct H as (a & s & H1 & H2);
      cbn beta iota in H2; try monad_inv H1; try monad_inv H2
  | rbind _ _ = Ok _ =>
      let a := fresh "a" in
      let H1 := fresh H in let H2 := fresh H in
      apply rbind_Ok in H; destruct H as (a & H1 & H2);
      cbn beta iota in H2; try monad_inv H1; try monad_inv H2
  | lift _ _ = Ok _ =>
      let H1 := fresh H in let H2 := fresh H in
      apply lift_Ok in H; destruct H as (H1 & H2); cbn [fst snd] in H1, H2; subst
  | ret _ _ = Ok _ => unfold ret in H; inversion H; subst; clear H
  | get _ = Ok _ => unfold get in H; inversion H; subst; clear H
  | put _ _ = Ok _ => unfold put in H; inversion H; subst; clear H
  | raise _ _ = Ok _ => discriminate H
  | Raise _ = Ok _ => discriminate H
  | Ok _ = Ok _ => inversion H; subst; clear H
  | _ => idtac
  end.

(** ** Adjusted areas *)

Local Open Scope Q_scope.

Lemma math_pi_pos : 0 < math_pi.
Proof. reflexivity. Qed.

Lemma py_div_ok (a b : Q) : ~ b == 0 -> py_div a b = Ok (a / b).
Proof.
  intros Hb. unfold py_div. destruct (Qeq_bool b 0) eqn:E; [|reflexivity].
  apply Qeq_bool_iff in E. contradiction.
Qed.



Section Binary64Values.
Import PrimFloat.
#[local] Set Warnings "-inexact-float".


End Binary64Values.

Local Close Scope Q_scope.

Section Properties.
Context `{Qgs.Api} `{Epsilon}.

(** ** Deleting a segment of the index *)

Lemma _delete_segment_loop_miss (qgs_pnt0 qgs_pnt1 : option QgsPoint) (ids : list Z) :
  forall (self : RbCollection.t) (deleted : option bool),
    (forall f, In f (RbCollection._spatial_index self) ->
               RbCollection.is_right_geometry (snd f) qgs_pnt0 qgs_pnt1 = false) ->
    deleted <> Some true ->
    match RbCollection._delete_segment_loop ids qgs_pnt0 qgs_pnt1 deleted self with
    | Ok (deleted', self') => deleted' <> Some true /\ self' = self
    | Raise _ => True
    end.
Proof.
  induction ids as [|id ids IH]; intros self deleted Hmiss Hd; cbn.
  - split; [exact Hd | reflexivity].
  - unfold bind, get, lift, QgsSpatialIndex.geometry.
    destruct (find (fun f => fst f =? id) (RbCollection._spatial_index self)) as [f|] eqn:Ef;
      [|exact I].
    apply find_some in Ef. destruct Ef as [Hin _].
    rewrite (Hmiss f Hin).
    apply IH; [exact Hmiss | discriminate].
Qed.

(** C5.  When no entry of the spatial index has its two vertices within
    the epsilon of the two points given, [_delete_segment] raises an
    exception: it does not return, the miss is neither retried nor
    ignored.  When the midpoint window finds no candidate at all, the
    exception is the [UnboundLocalError] of the unset flag. *)
Theorem _delete_segment_raises_on_miss (self : RbCollection.t)
  (qgs_pnt0 qgs_pnt1 : option QgsPoint) :
  (forall f, In f (RbCollection._spatial_index self) ->
             RbCollection.is_right_geometry (snd f) qgs_pnt0 qgs_pnt1 = false) ->
  (exists e, RbCollection._delete_segment qgs_pnt0 qgs_pnt1 self = Raise e)
  /\ (RbCollection.midpoint_candidates self qgs_pnt0 qgs_pnt1 = [] ->
      RbCollection._delete_segment qgs_pnt0 qgs_pnt1 self = Raise UnboundLocalError).
Proof.
  intros Hmiss. split.
  - unfold RbCollection._delete_segment, bind at 1, get.
    pose proof (_delete_segment_loop_miss qgs_pnt0 qgs_pnt1
                  (RbCollection.midpoint_candidates self qgs_pnt0 qgs_pnt1)
                  self None Hmiss ltac:(discriminate)) as Hloop.
    unfold bind.
    destruct (RbCollection._delete_segment_loop _ _ _ None self) as [[deleted self']|e].
    + destruct Hloop as [Hd _].
      destruct deleted as [[|]|]; [congruence | eexists; reflexivity | eexists; reflexivity].
    + eexists; reflexivity.
  - intros Hnone.
    unfold RbCollection._delete_segment, bind, get. rewrite Hnone. reflexivity.
Qed.

(** ** Bend detection *)

Lemma nodup_uniform (x : Z) (l : list Z) :
  (forall y, In y l -> y = x) -> l <> [] -> nodup Z.eq_dec l = [x].
Proof.
  induction l as [|a l IH]; intros Hall Hne; [congruence|].
  assert (a = x) by (apply Hall; left; reflexivity). subst a.
  cbn. destruct (in_dec Z.eq_dec x l) as [Hin|Hnin].
  - apply IH; [intros y Hy; apply Hall; right; exact Hy|].
    intro E; subst l; contradiction.
  - destruct l as [|b l]; [reflexivity|].
    exfalso. apply Hnin. left. apply Hall. right. left. reflexivity.
Qed.

Lemma get_angles_closed_nonempty (rb_geom : RbGeom.t) (angles : list Q) :
  RbGeom.is_closed rb_geom = true ->
  RbGeom.original_geom_type rb_geom <> WkbPoint ->
  RbGeom.get_angles rb_geom = Ok angles ->
  angles <> [].
Proof.
  intros Hc Ht. unfold RbGeom.get_angles. rewrite Hc.
  destruct (RbGeom.original_geom_type rb_geom); [congruence| |]; cbn [WkbType_eqb negb];
    destruct (points (RbGeom.qgs_geom rb_geom)) as [|a [|b l]]; cbn;
    try discriminate;
    (destruct (py_get (a :: b :: l) (-2)) as [e|]; cbn; [|discriminate];
     intros E; inversion E; discriminate).
Qed.

Lemma orientation_of_clockwise (angle : Q) :
  orientation_of angle = CLOCK_WISE <-> (math_pi <= angle)%Q.
Proof.
  unfold orientation_of. destruct (Qle_bool math_pi angle) eqn:E.
  - rewrite Qle_bool_iff in E. split; auto.
  - split; [discriminate|]. intros Hle. apply Qle_bool_iff in Hle. congruence.
Qed.

Lemma orientation_of_anti_clockwise (angle : Q) :
  orientation_of angle = ANTI_CLOCK_WISE <-> (angle < math_pi)%Q.
Proof.
  unfold orientation_of. destruct (Qle_bool math_pi angle) eqn:E.
  - rewrite Qle_bool_iff in E. split; [discriminate|].
    intros Hlt. exfalso. apply (Qlt_not_le _ _ Hlt). exact E.
  - split; [|reflexivity]. intros _. apply Qnot_le_lt. intro Hle.
    apply Qle_bool_iff in Hle. congruence.
Qed.

(** C7.  An angle is classified clockwise exactly when it is at least pi,
    and counter-clockwise otherwise; on a closed path whose vertex angles
    all have the same orientation, [detect_bends] records no bend, answers
    0 and marks the path simplest. *)
Theorem detect_bends_orientation_and_convex_ring (rb_geom : RbGeom.t) (angles : list Q) :
  RbGeom.is_closed rb_geom = true ->
  RbGeom.original_geom_type rb_geom <> WkbPoint ->
  RbGeom.get_angles rb_geom = Ok angles ->
  (forall a b, In a angles -> In b angles -> orientation_of a = orientation_of b) ->
  (forall angle, orientation_of angle = CLOCK_WISE <-> (math_pi <= angle)%Q)
  /\ (forall angle, orientation_of angle = ANTI_CLOCK_WISE <-> (angle < math_pi)%Q)
  /\ exists rb_geom',
       detect_bends rb_geom = Ok (0, rb_geom')
       /\ RbGeom.bends rb_geom' = []
       /\ RbGeom.is_simplest rb_geom' = true
       /\ RbGeom.qgs_geom rb_geom' = RbGeom.qgs_geom rb_geom.
Proof.
  intros Hc Ht Ha Hsame.
  split; [exact orientation_of_clockwise|].
  split; [exact orientation_of_anti_clockwise|].
  pose proof (get_angles_closed_nonempty _ _ Hc Ht Ha) as Hne.
  exists (RbGeom.set_is_simplest (RbGeom.set_bends rb_geom []) true).
  split; [|repeat split].
  unfold detect_bends.
  change (RbGeom.get_angles (RbGeom.set_bends rb_geom [])) with (RbGeom.get_angles rb_geom).
  rewrite Ha. cbn [rbind].
  change (RbGeom.is_closed (RbGeom.set_bends rb_geom [])) with (RbGeom.is_closed rb_geom).
  rewrite Hc.
  destruct angles as [|a0 angles]; [congruence|].
  rewrite (nodup_uniform (orientation_of a0)).
  - cbn. rewrite Hc. unfold set_bend_direction. cbn. rewrite Hc. cbn. reflexivity.
  - intros y Hy. apply in_map_iff in Hy. destruct Hy as (b & <- & Hb).
    apply Hsame; [exact Hb | left; reflexivity].
  - discriminate.
Qed.

(** ** Python lists *)

Lemma py_len_nonneg {A : Type} (l : list A) : 0 <= py_len l.
Proof. unfold py_len. lia. Qed.

Lemma py_get_Ok_nonneg {A : Type} (l : list A) (k : Z) (x : A) :
  0 <= k -> py_get l k = Ok x -> nth_error l (Z.to_nat k) = Some x /\ k < py_len l.
Proof.
  intros Hk. unfold py_get.
  destruct (k <? 0) eqn:E; [apply Z.ltb_lt in E; lia|]. rewrite E.
  destruct (nth_error l (Z.to_nat k)) as [a|] eqn:En; intros Eq; inversion Eq; subst.
  split; [reflexivity|].
  assert (Hlt : (Z.to_nat k < List.length l)%nat) by (apply nth_error_Some; congruence).
  unfold py_len. lia.
Qed.

Lemma py_get_nonneg {A : Type} (l : list A) (k : Z) (x : A) :
  0 <= k -> nth_error l (Z.to_nat k) = Some x -> py_get l k = Ok x.
Proof.
  intros Hk En. unfold py_get.
  destruct (k <? 0) eqn:E; [apply Z.ltb_lt in E; lia|]. rewrite E, En. reflexivity.
Qed.

Lemma py_set_Ok_nonneg {A : Type} (l l' : list A) (k : Z) (x : A) :
  0 <= k -> py_set l k x = Ok l' ->
  k < py_len l
  /\ l' = firstn (Z.to_nat k) l ++ x :: skipn (S (Z.to_nat k)) l.
Proof.
  intros Hk. unfold py_set.
  destruct (k <? 0) eqn:E; [apply Z.ltb_lt in E; lia|]. rewrite E.
  destruct (py_len l <=? k) eqn:E2; cbn; intros Eq; inversion Eq; subst.
  apply Z.leb_gt in E2. split; [lia | reflexivity].
Qed.

Lemma py_set_nonneg {A : Type} (l : list A) (k : Z) (x : A) :
  0 <= k -> k < py_len l ->
  py_set l k x = Ok (firstn (Z.to_nat k) l ++ x :: skipn (S (Z.to_nat k)) l).
Proof.
  intros Hk Hlt. unfold py_set.
  destruct (k <? 0) eqn:E; [apply Z.ltb_lt in E; lia|]. rewrite E.
  destruct (py_len l <=? k) eqn:E2; [apply Z.leb_le in E2; lia|]. reflexivity.
Qed.

(** The list [l] with its [n]-th element replaced by [x]. *)
Lemma nth_error_replace {A : Type} (l : list A) (n m : nat) (x : A) :
  (n < List.length l)%nat ->
  nth_error (firstn n l ++ x :: skipn (S n) l) m
  = if Nat.eqb m n then Some x else nth_error l m.
Proof.
  revert n m. induction l as [|a l IH]; intros n m Hn; cbn in Hn; [lia|].
  destruct n as [|n]; destruct m as [|m]; cbn; try reflexivity.
  apply IH. lia.
Qed.

Lemma length_replace {A : Type} (l : list A) (n : nat) (x : A) :
  (n < List.length l)%nat ->
  List.length (firstn n l ++ x :: skipn (S n) l) = List.length l.
Proof.
  intros Hn. rewrite length_app, length_firstn.
  change (List.length (x :: skipn (S n) l)) with (S (List.length (skipn (S n) l))).
  rewrite length_skipn. lia.
Qed.

Lemma py_set_length {A : Type} (l l' : list A) (k : Z) (x : A) :
  0 <= k -> py_set l k x = Ok l' -> py_len l' = py_len l.
Proof.
  intros Hk E. apply py_set_Ok_nonneg in E; [|exact Hk]. destruct E as [Hlt ->].
  unfold py_len in *. rewrite length_replace; [reflexivity | lia].
Qed.

Lemma py_get_py_set {A : Type} (l l' : list A) (k m : Z) (x : A) :
  0 <= k -> 0 <= m -> py_set l k x = Ok l' ->
  py_get l' m = if m =? k then Ok x else py_get l m.
Proof.
  intros Hk Hm E. apply py_set_Ok_nonneg in E; [|exact Hk]. destruct E as [Hlt ->].
  unfold py_get.
  destruct (m <? 0) eqn:E; [apply Z.ltb_lt in E; lia|]. rewrite E.
  unfold py_len in Hlt.
  rewrite nth_error_replace by lia.
  destruct (m =? k) eqn:Emk.
  - apply Z.eqb_eq in Emk. subst m. rewrite Nat.eqb_refl. reflexivity.
  - apply Z.eqb_neq in Emk.
    destruct (Nat.eqb (Z.to_nat m) (Z.to_nat k)) eqn:En; [|reflexivity].
    apply Nat.eqb_eq in En. lia.
Qed.

(** ** The chord of a bend *)

Lemma get_new_subline_fields (b : Bend.t) (d : Q) (g : RbGeom.t) :
  let b' := snd (get_new_subline b d g) in
  Bend.i b' = Bend.i b /\ Bend.j b' = Bend.j b /\ Bend.to_reduce b' = Bend.to_reduce b
  /\ Bend.qgs_geom_bend b' = Bend.qgs_geom_bend b
  /\ Bend.qgs_geom_new_subline b' = Some (fst (get_new_subline b d g))
  /\ Bend.qgs_geom_new_subline_trimmed b' = Bend.qgs_geom_new_subline_trimmed b.
Proof.
  unfold get_new_subline.
  destruct (Bend.qgs_geom_new_subline b) eqn:E; cbn; repeat split; auto.
Qed.

Lemma get_new_subline_trimmed_fields (b : Bend.t) (d : Q) (g : RbGeom.t) :
  let b' := snd (get_new_subline_trimmed b d g) in
  Bend.i b' = Bend.i b /\ Bend.j b' = Bend.j b /\ Bend.to_reduce b' = Bend.to_reduce b
  /\ Bend.qgs_geom_bend b' = Bend.qgs_geom_bend b
  /\ Bend.qgs_geom_new_subline_trimmed b' = Some (fst (get_new_subline_trimmed b d g)).
Proof.
  unfold get_new_subline_trimmed.
  destruct (Bend.qgs_geom_new_subline_trimmed b) eqn:E; cbn; [repeat split; auto|].
  pose proof (get_new_subline_fields b d g) as Hf. cbn zeta in Hf.
  destruct (get_new_subline b d g) as [c b1]. cbn [fst snd] in *.
  destruct Hf as (Hi & Hj & Ht & Hg & _). cbn. repeat split; auto.
Qed.

(** ** The search for an alternate bend *)

Lemma try_alternate_bends_found (bend : Bend.t) (rb_geom : RbGeom.t) (d : Q)
  (collection : RbCollection.t) (itself others : list QgsGeometry)
  (alternate_bends : list Bend.t) :
  RbCollection.get_segment_intersect collection (RbGeom.id rb_geom)
    (boundingBox (Bend.qgs_geom_bend bend)) = Ok (itself, others) ->
  forall its oth r,
    try_alternate_bends alternate_bends bend rb_geom d collection its oth = Ok r ->
    match fst (fst r) with
    | Some stored =>
        exists alternate_bend,
          In alternate_bend alternate_bends
          /\ stored = snd (get_new_subline_trimmed alternate_bend d rb_geom)
          /\ forallb (fun g => Qgs.disjoint (fst (get_new_subline_trimmed alternate_bend d rb_geom)) g)
               itself = true
          /\ snd r = others
    | None => True
    end.
Proof.
  intros Hq. induction alternate_bends as [|a l IH]; intros its oth r E; cbn in E.
  - inversion E; subst. cbn. exact I.
  - destruct (get_new_subline_trimmed a d rb_geom) as [trimmed a'] eqn:Ea.
    rewrite Hq in E. cbn [rbind] in E.
    destruct (forallb (fun g => Qgs.disjoint trimmed g) itself) eqn:Ef.
    + inversion E; subst. cbn. exists a. rewrite Ea. cbn. repeat split; auto.
    + specialize (IH _ _ _ E). destruct (fst (fst r)); [|exact I].
      destruct IH as (b & Hin & Hrest). exists b. split; [right; exact Hin | exact Hrest].
Qed.

Lemma insert_by_In {A : Type} (before : A -> A -> bool) (x y : A) (l : list A) :
  In y (insert_by before x l) <-> y = x \/ In y l.
Proof.
  induction l as [|a l IH]; cbn.
  - intuition.
  - destruct (before a x); cbn; [rewrite IH|]; intuition.
Qed.

Lemma sort_by_In {A : Type} (before : A -> A -> bool) (y : A) (l : list A) :
  In y (sort_by before l) <-> In y l.
Proof.
  unfold sort_by.
  assert (G : forall acc, In y (fold_left (fun acc x => insert_by before x acc) l acc)
                          <-> In y l \/ In y acc).
  { induction l as [|a l IH]; intros acc; cbn.
    - intuition.
    - rewrite IH, insert_by_In. intuition. }
  rewrite G. cbn. intuition.
Qed.

Lemma insert_by_length {A : Type} (before : A -> A -> bool) (x : A) (l : list A) :
  List.length (insert_by before x l) = S (List.length l).
Proof.
  induction l as [|a l IH]; cbn; [reflexivity|].
  destruct (before a x); cbn; [rewrite IH|]; reflexivity.
Qed.

Lemma sort_by_length {A : Type} (before : A -> A -> bool) (l : list A) :
  List.length (sort_by before l) = List.length l.
Proof.
  unfold sort_by.
  assert (G : forall acc, List.length (fold_left (fun acc x => insert_by before x acc) l acc)
                          = (List.length l + List.length acc)%nat).
  { induction l as [|a l IH]; intros acc; cbn; [reflexivity|].
    rewrite IH, insert_by_length. lia. }
  rewrite G. cbn. lia.
Qed.

Lemma Bend_init_Ok (i j : Z) (p : QgsGeometry) (b : Bend.t) :
  Bend.init i j p = Ok b ->
  Bend.i b = i /\ Bend.j b = j /\ Bend.to_reduce b = false
  /\ Bend.qgs_geom_bend b = p
  /\ Bend.qgs_geom_new_subline b = None
  /\ Bend.qgs_geom_new_subline_trimmed b = None.
Proof.
  unfold Bend.init. intros E.
  apply rbind_Ok in E. destruct E as (a & _ & E). inversion E; subst; clear E.
  cbn. repeat split.
Qed.

(** What the search enumerates lies within the span of the bend, spans at
    least two segments, and ends at vertex 3 or later. *)
Definition within_span (bend_i bend_j : Z) (a : Bend.t) : Prop :=
  bend_i <= Bend.i a /\ Bend.i a + 2 <= Bend.j a /\ Bend.j a <= bend_j
  /\ 3 <= Bend.j a
  /\ Bend.to_reduce a = false
  /\ Bend.qgs_geom_new_subline_trimmed a = None.

Lemma alternate_bends_inner_span (bend_i bend_j : Z) (qgs_points : list QgsPoint)
  (fuel : nat) :
  forall i j acc r,
    bend_i <= i -> j <= bend_j -> 3 <= j ->
    Forall (fun e => within_span bend_i bend_j (snd e)) acc ->
    alternate_bends_inner fuel i j qgs_points acc = Ok r ->
    Forall (fun e => within_span bend_i bend_j (snd e)) r.
Proof.
  induction fuel as [|fuel IH]; intros i j acc r Hi Hj H3 Hacc E; cbn in E.
  - inversion E; subst. exact Hacc.
  - destruct (2 <=? j - i) eqn:Eg.
    + apply Z.leb_le in Eg.
      apply rbind_Ok in E. destruct E as (poly & Ep & E).
      apply rbind_Ok in E. destruct E as (alt & Ea & E).
      apply Bend_init_Ok in Ea. destruct Ea as (Bi & Bj & Bt & _ & _ & Btr).
      eapply IH; [| | | |exact E]; try lia.
      apply Forall_app. split; [exact Hacc|].
      constructor; [|constructor]. cbn. unfold within_span. rewrite Bi, Bj.
      repeat split; auto; lia.
    + inversion E; subst. exact Hacc.
Qed.

Lemma alternate_bends_outer_span (bend_i bend_j : Z) (qgs_points : list QgsPoint)
  (fuel : nat) :
  forall j acc r,
    j <= bend_j ->
    Forall (fun e => within_span bend_i bend_j (snd e)) acc ->
    alternate_bends_outer fuel bend_i j qgs_points acc = Ok r ->
    Forall (fun e => within_span bend_i bend_j (snd e)) r.
Proof.
  induction fuel as [|fuel IH]; intros j acc r Hj Hacc E; cbn in E.
  - inversion E; subst. exact Hacc.
  - destruct (2 <=? j - 1) eqn:Eg.
    + apply Z.leb_le in Eg.
      apply rbind_Ok in E. destruct E as (acc' & Ei & E).
      eapply IH; [| |exact E]; [lia|].
      eapply alternate_bends_inner_span; [| | | |exact Ei]; try lia. exact Hacc.
    + inversion E; subst. exact Hacc.
Qed.

Lemma find_alternate_bends_span (ind : Z) (rb_geom : RbGeom.t) (bend : Bend.t)
  (alternate_bends : list Bend.t) :
  py_get (RbGeom.bends rb_geom) ind = Ok bend ->
  find_alternate_bends ind rb_geom = Ok alternate_bends ->
  Forall (within_span (Bend.i bend) (Bend.j bend)) alternate_bends.
Proof.
  intros Hget E. unfold find_alternate_bends in E. rewrite Hget in E. cbn [rbind] in E.
  apply rbind_Ok in E. destruct E as (alts & Eo & E). inversion E; subst; clear E.
  apply alternate_bends_outer_span with (bend_j := Bend.j bend) in Eo; [|lia|constructor].
  apply Forall_forall. intros b Hb. apply in_map_iff in Hb.
  destruct Hb as (e & <- & He). apply sort_by_In in He.
  rewrite Forall_forall in Eo. exact (Eo e He).
Qed.

(** ** The validation of a bend *)

Lemma set_feedback_same (s : ReduceBend.t) :
  s = ReduceBend.set_feedback s (ReduceBend.feedback s).
Proof. destruct s; reflexivity. Qed.

(** What a successful run of [validate_spatial_constraints] leaves: the
    bend stored at [ind] is the bend that was there, or an alternate
    within its span; only the feedback of the state changes; and when the
    chord is not shorter than the relative epsilon, an approval means the
    trimmed chord of the stored bend is disjoint from every line the
    window query finds on the geometry itself. *)
Lemma validate_spatial_constraints_Ok (ind : Z) (rb_geom rb_geom' : RbGeom.t)
  (self self' : ReduceBend.t) (ok : bool) :
  0 <= ind ->
  validate_spatial_constraints ind rb_geom self = Ok ((ok, rb_geom'), self') ->
  exists bend stored bends' itself others fb,
    py_get (RbGeom.bends rb_geom) ind = Ok bend
    /\ RbCollection.get_segment_intersect (ReduceBend.rb_collection self) (RbGeom.id rb_geom)
         (boundingBox (Bend.qgs_geom_bend bend)) = Ok (itself, others)
    /\ py_set (RbGeom.bends rb_geom) ind stored = Ok bends'
    /\ rb_geom' = RbGeom.set_bends rb_geom bends'
    /\ self' = ReduceBend.set_feedback self fb
    /\ ((Bend.i stored = Bend.i bend /\ Bend.j stored = Bend.j bend)
        \/ (Bend.i bend <= Bend.i stored /\ Bend.i stored + 2 <= Bend.j stored
            /\ Bend.j stored <= Bend.j bend))
    /\ (Qle_bool ZERO_RELATIVE
          (Qgs.length (fst (get_new_subline bend (ReduceBend.diameter_tol self) rb_geom))) = true ->
        ok = true ->
        exists trimmed,
          Bend.qgs_geom_new_subline_trimmed stored = Some trimmed
          /\ forallb (fun g => Qgs.disjoint trimmed g) itself = true).
Proof.
  intros Hind E.
  unfold validate_spatial_constraints in E.
  unfold bind at 1, get at 1 in E.
  unfold bind at 1 in E. unfold lift at 1 in E.
  destruct (py_get (RbGeom.bends rb_geom) ind) as [bend|] eqn:Hget; [|discriminate].
  pose proof (get_new_subline_fields bend (ReduceBend.diameter_tol self) rb_geom) as Hf.
  cbn zeta in Hf.
  destruct (get_new_subline bend (ReduceBend.diameter_tol self) rb_geom) as [chord bend1] eqn:Ec.
  cbn [fst snd] in *. destruct Hf as (Hi & Hj & Ht & Hg & Hc & Htr).
  rewrite Hg in E.
  unfold bind at 1 in E. unfold lift at 1 in E.
  destruct (RbCollection.get_segment_intersect (ReduceBend.rb_collection self)
              (RbGeom.id rb_geom) (boundingBox (Bend.qgs_geom_bend bend)))
    as [[itself others]|] eqn:Hq; [|discriminate].
  exists bend.
  destruct (Qle_bool ZERO_RELATIVE (Qgs.length chord)) eqn:Elen.
  - pose proof (get_new_subline_trimmed_fields bend1 (ReduceBend.diameter_tol self) rb_geom) as Hft.
    cbn zeta in Hft.
    destruct (get_new_subline_trimmed bend1 (ReduceBend.diameter_tol self) rb_geom)
      as [trimmed bend2] eqn:Et.
    cbn [fst snd] in *. destruct Hft as (Hi2 & Hj2 & Ht2 & Hg2 & Htr2).
    apply bind_Ok in E. destruct E as ([[[check b0] stored] oth] & s1 & E1 & E2).
    apply bind_Ok in E1. destruct E1 as (bends1 & s2 & E1 & E3).
    apply lift_Ok in E1. cbn [fst snd] in E1. destruct E1 as [E1 ->].
    apply bind_Ok in E2. destruct E2 as (bends' & s3 & E2 & E4).
    apply lift_Ok in E2. cbn [fst snd] in E2. destruct E2 as [E2 ->].
    unfold ret in E4. inversion E4; subst; clear E4.
    destruct (forallb (fun g => Qgs.disjoint trimmed g) itself) eqn:Edis.
    + unfold ret in E3. inversion E3; subst; clear E3.
      eexists stored, bends', itself, oth, _.
      repeat split; eauto; try apply set_feedback_same;
        try (left; split; congruence).
    + apply bind_Ok in E3. destruct E3 as (alts & s4 & E3 & E5).
      apply lift_Ok in E3. cbn [fst snd] in E3. destruct E3 as [E3 ->].
      apply bind_Ok in E5. destruct E5 as ([[found its'] oth'] & s5 & E5 & E6).
      apply lift_Ok in E5. cbn [fst snd] in E5. destruct E5 as [E5 ->].
      assert (Hget1 : py_get (RbGeom.bends (RbGeom.set_bends rb_geom bends1)) ind = Ok b0).
      { cbn. rewrite (py_get_py_set _ _ _ _ _ Hind Hind E1), Z.eqb_refl.
        destruct found; unfold ret in E6; inversion E6; reflexivity. }
      pose proof (find_alternate_bends_span _ _ _ _ Hget1 E3) as Hspan.
      assert (Hq' : RbCollection.get_segment_intersect (ReduceBend.rb_collection self)
                      (RbGeom.id (RbGeom.set_bends rb_geom bends1))
                      (boundingBox (Bend.qgs_geom_bend bend2)) = Ok (itself, others)).
      { rewrite Hg2, Hg. exact Hq. }
      pose proof (try_alternate_bends_found _ _ _ _ _ _ _ Hq' _ _ _ E5) as Hfound.
      cbn [fst snd] in Hfound.
      destruct found as [alt|].
      * destruct Hfound as (a & Hin & Hst & Hdis & Hoth).
        rewrite Forall_forall in Hspan. specialize (Hspan a Hin).
        destruct Hspan as (S1 & S2 & S3 & _).
        pose proof (get_new_subline_trimmed_fields a (ReduceBend.diameter_tol self)
                      (RbGeom.set_bends rb_geom bends1)) as Hfa.
        cbn zeta in Hfa. rewrite <- Hst in Hfa. destruct Hfa as (Ai & Aj & _ & _ & Atr).
        assert (Hb0 : b0 = bend2) by (unfold ret in E6; inversion E6; reflexivity).
        subst b0. rewrite Hi2, Hi in S1. rewrite Hj2, Hj in S3.
        unfold ret in E6. inversion E6; subst; clear E6.
        eexists _, bends', itself, _, _.
        repeat split; eauto; try apply set_feedback_same.
        right. rewrite Ai, Aj. repeat split; assumption.
      * unfold ret in E6. inversion E6; subst; clear E6.
        eexists _, bends', itself, _, _.
        repeat split; eauto; try apply set_feedback_same;
          try (left; split; congruence);
          try (intros _ Hok; cbn in Hok; discriminate).
  - apply bind_Ok in E. destruct E as ([[[check b0] stored] oth] & s1 & E1 & E2).
    unfold bind, get, put, ret in E1. inversion E1; subst; clear E1.
    apply bind_Ok in E2. destruct E2 as (bends' & s3 & E2 & E4).
    apply lift_Ok in E2. cbn [fst snd] in E2. destruct E2 as [E2 ->].
    unfold ret in E4. inversion E4; subst; clear E4.
    eexists stored, bends', itself, oth, _.
    repeat split; eauto; try (left; split; congruence);
      try (intros Habs; rewrite Ec in Habs; cbn [fst] in Habs; congruence).
Qed.

Lemma py_get_Ok_py_set_Ok {A : Type} (l : list A) (k : Z) (x y : A) :
  py_get l k = Ok x -> exists l', py_set l k y = Ok l'.
Proof.
  unfold py_get, py_set.
  set (k' := if k <? 0 then k + py_len l else k).
  destruct (k' <? 0) eqn:E; [discriminate|].
  destruct (nth_error l (Z.to_nat k')) as [a|] eqn:En; [|discriminate].
  intros _.
  assert (Hlt : (Z.to_nat k' < List.length l)%nat) by (apply nth_error_Some; congruence).
  apply Z.ltb_ge in E.
  destruct (py_len l <=? k') eqn:E2; [apply Z.leb_le in E2; unfold py_len in E2; lia|].
  cbn. eexists; reflexivity.
Qed.

(** C10.  When the chord of a bend is shorter than the relative epsilon,
    [validate_spatial_constraints] makes no simplicity check and no search
    for an alternate bend: it pushes one informational message, keeps the
    bend, and its answer is the conjunction of the two checks against the
    other geometries -- whatever lines of the geometry itself the window
    holds.  So the bend is approved as soon as those two checks pass. *)
Theorem validate_skips_simplicity_on_short_chord (ind : Z) (rb_geom : RbGeom.t)
  (self : ReduceBend.t) (bend : Bend.t) (itself others : list QgsGeometry) :
  py_get (RbGeom.bends rb_geom) ind = Ok bend ->
  RbCollection.get_segment_intersect (ReduceBend.rb_collection self) (RbGeom.id rb_geom)
    (boundingBox (Bend.qgs_geom_bend bend)) = Ok (itself, others) ->
  (Qgs.length (fst (get_new_subline bend (ReduceBend.diameter_tol self) rb_geom))
   < ZERO_RELATIVE)%Q ->
  let chord := fst (get_new_subline bend (ReduceBend.diameter_tol self) rb_geom) in
  let bend' := snd (get_new_subline bend (ReduceBend.diameter_tol self) rb_geom) in
  exists bends',
    py_set (RbGeom.bends rb_geom) ind bend' = Ok bends'
    /\ validate_spatial_constraints ind rb_geom self
       = Ok ((forallb (fun g => Qgs.disjoint g chord) others
              && forallb (fun g => negb (Qgs.contains (Bend.qgs_geom_bend bend) g)) others,
              RbGeom.set_bends rb_geom bends'),
             ReduceBend.set_feedback self
               (QgsFeedback.pushInfo (ReduceBend.feedback self)
                  ("Possibly non OGC simple feature at {},{} use Fix geometries"%string,
                   startPoint_xy chord))).
Proof.
  intros Hget Hq Hshort chord bend'.
  destruct (py_get_Ok_py_set_Ok _ _ _ bend' Hget) as [bends' Hset].
  exists bends'. split; [exact Hset|].
  pose proof (get_new_subline_fields bend (ReduceBend.diameter_tol self) rb_geom) as Hf.
  cbn zeta in Hf. fold bend' in Hf. fold chord in Hf.
  destruct Hf as (_ & _ & _ & Hg & _ & _).
  assert (Elen : Qle_bool ZERO_RELATIVE (Qgs.length chord) = false).
  { destruct (Qle_bool ZERO_RELATIVE (Qgs.length chord)) eqn:E; [|reflexivity].
    apply Qle_bool_iff in E. exfalso. exact (Qlt_not_le _ _ Hshort E). }
  unfold validate_spatial_constraints.
  unfold bind at 1, get at 1.
  unfold bind at 1. unfold lift at 1. rewrite Hget.
  subst chord bend'.
  destruct (get_new_subline bend (ReduceBend.diameter_tol self) rb_geom) as [chord bend1].
  cbn [fst snd] in *.
  rewrite Hg.
  unfold bind at 1. unfold lift at 1. rewrite Hq.
  rewrite Elen.
  unfold bind, get, put, ret, lift. rewrite Hset. rewrite Hg. reflexivity.
Qed.

(** The simplicity check, where the program makes it.
    [validate_spatial_constraints] approves a
    bend whose chord is not shorter than the relative epsilon only if the
    trimmed chord of the bend it leaves at that place -- the bend itself,
    or an alternate within its span -- is disjoint from every line of the
    same geometry that the window query on the bend's bounding box finds. *)
Theorem validate_approves_long_chord_only_if_simple (ind : Z) (rb_geom rb_geom' : RbGeom.t)
  (self self' : ReduceBend.t) (bend : Bend.t) :
  0 <= ind ->
  py_get (RbGeom.bends rb_geom) ind = Ok bend ->
  (ZERO_RELATIVE
   <= Qgs.length (fst (get_new_subline bend (ReduceBend.diameter_tol self) rb_geom)))%Q ->
  validate_spatial_constraints ind rb_geom self = Ok ((true, rb_geom'), self') ->
  exists stored trimmed itself others,
    py_get (RbGeom.bends rb_geom') ind = Ok stored
    /\ ((Bend.i stored = Bend.i bend /\ Bend.j stored = Bend.j bend)
        \/ (Bend.i bend <= Bend.i stored /\ Bend.i stored + 2 <= Bend.j stored
            /\ Bend.j stored <= Bend.j bend))
    /\ RbCollection.get_segment_intersect (ReduceBend.rb_collection self) (RbGeom.id rb_geom)
         (boundingBox (Bend.qgs_geom_bend bend)) = Ok (itself, others)
    /\ Bend.qgs_geom_new_subline_trimmed stored = Some trimmed
    /\ (forall g, In g itself -> Qgs.disjoint trimmed g = true)
    /\ RbGeom.qgs_geom rb_geom' = RbGeom.qgs_geom rb_geom.
Proof.
  intros Hind Hget Hlong E.
  destruct (validate_spatial_constraints_Ok _ _ _ _ _ _ Hind E)
    as (bend0 & stored & bends' & itself & others & fb & Hget0 & Hq & Hset & -> & -> & Hspan & Hsimple).
  rewrite Hget in Hget0. inversion Hget0; subst bend0; clear Hget0.
  apply Qle_bool_iff in Hlong.
  destruct (Hsimple Hlong eq_refl) as (trimmed & Htr & Hdis).
  exists stored, trimmed, itself, others.
  repeat split; auto.
  - cbn. rewrite (py_get_py_set _ _ _ _ _ Hind Hind Hset), Z.eqb_refl. reflexivity.
  - intros g Hg. rewrite forallb_forall in Hdis. exact (Hdis g Hg).
Qed.

(** ** Vertex counts *)

Definition is_line (g : QgsGeometry) : Prop := wkbType g = WkbLineString.

Lemma remove_nth_length {A : Type} (l : list A) (n : nat) :
  (n < List.length l)%nat ->
  List.length (firstn n l ++ skipn (S n) l) = pred (List.length l).
Proof.
  intros Hn. rewrite length_app, length_firstn, length_skipn. lia.
Qed.

Lemma deleteVertex_le (g : QgsGeometry) (k : Z) :
  numPoints (deleteVertex g k) <= numPoints g
  /\ wkbType (deleteVertex g k) = wkbType g.
Proof.
  destruct g as [p|l|r]; unfold deleteVertex; try (split; [lia | reflexivity]).
  destruct ((0 <=? k) && (k <? py_len l)) eqn:E; [|split; [lia | reflexivity]].
  split; [|reflexivity].
  apply andb_true_iff in E. destruct E as [E1 E2].
  apply Z.leb_le in E1. apply Z.ltb_lt in E2.
  unfold numPoints, py_len in *. cbn [points].
  rewrite remove_nth_length by lia. lia.
Qed.

Lemma deleteVertex_line (l : list QgsPoint) (k : Z) :
  0 <= k -> k < py_len l ->
  exists l', deleteVertex (QgsLineString l) k = QgsLineString l'
             /\ py_len l' = py_len l - 1.
Proof.
  intros Hk0 Hk1. unfold deleteVertex.
  destruct ((0 <=? k) && (k <? py_len l)) eqn:E.
  - eexists; split; [reflexivity|].
    unfold py_len in *. rewrite remove_nth_length by lia. lia.
  - apply andb_false_iff in E. destruct E as [E|E];
      [apply Z.leb_gt in E | apply Z.ltb_ge in E]; lia.
Qed.

Lemma fold_deleteVertex_le (ks : list Z) :
  forall g, numPoints (fold_left deleteVertex ks g) <= numPoints g
            /\ wkbType (fold_left deleteVertex ks g) = wkbType g.
Proof.
  induction ks as [|k ks IH]; intros g; cbn; [split; [lia | reflexivity]|].
  destruct (IH (deleteVertex g k)) as [Hn Hw].
  destruct (deleteVertex_le g k) as [Hn' Hw']. split; [lia | congruence].
Qed.

Lemma py_range_succ (a : Z) (k : nat) :
  py_range a (a + Z.of_nat (S k)) = py_range a (a + Z.of_nat k) ++ [a + Z.of_nat k].
Proof.
  unfold py_range.
  replace (Z.to_nat (a + Z.of_nat (S k) - a)) with (S k) by lia.
  replace (Z.to_nat (a + Z.of_nat k - a)) with k by lia.
  rewrite seq_S, map_app. reflexivity.
Qed.

(** Deleting the vertices [a .. a+k-1] of a line, the last one first,
    removes exactly [k] vertices. *)
Lemma fold_deleteVertex_range (k : nat) :
  forall (l : list QgsPoint) (a : Z),
    0 <= a -> a + Z.of_nat k <= py_len l ->
    exists l',
      fold_left deleteVertex (rev (py_range a (a + Z.of_nat k))) (QgsLineString l)
      = QgsLineString l'
      /\ py_len l' = py_len l - Z.of_nat k.
Proof.
  induction k as [|k IH]; intros l a Ha Hk.
  - exists l. unfold py_range. replace (Z.to_nat (a + Z.of_nat 0 - a)) with 0%nat by lia.
    cbn. split; [reflexivity | lia].
  - rewrite py_range_succ, rev_app_distr. cbn [rev app fold_left].
    destruct (deleteVertex_line l (a + Z.of_nat k)) as (l1 & -> & Hl1); [lia | lia|].
    destruct (IH l1 a Ha) as (l' & -> & Hl'); [lia|].
    exists l'. split; [reflexivity | lia].
Qed.

Lemma py_range_length (a b : Z) : py_len (py_range a b) = Z.max 0 (b - a).
Proof.
  unfold py_range, py_len. rewrite length_map, length_seq. lia.
Qed.

Lemma py_range_In (a b k : Z) : In k (py_range a b) <-> a <= k < b.
Proof.
  unfold py_range. rewrite in_map_iff. split.
  - intros (n & <- & Hn). apply in_seq in Hn. lia.
  - intros Hk. exists (Z.to_nat (k - a)). split; [lia|]. apply in_seq. lia.
Qed.

(** What [delete_vertex] answers: the geometry without the vertices
    [v_id_start .. v_id_end]; the other attributes are kept. *)
Lemma delete_vertex_Ok (rb_geom rb_geom' : RbGeom.t) (v_id_start v_id_end : Z)
  (c c' : RbCollection.t) :
  RbCollection.delete_vertex rb_geom v_id_start v_id_end c = Ok (rb_geom', c') ->
  rb_geom' = RbGeom.set_qgs_geom rb_geom
               (fold_left deleteVertex (rev (py_range v_id_start (v_id_end + 1)))
                  (RbGeom.qgs_geom rb_geom)).
Proof.
  unfold RbCollection.delete_vertex. intros E.
  apply bind_Ok in E. destruct E as (first & s1 & _ & E).
  apply bind_Ok in E. destruct E as (last & s2 & _ & E).
  apply bind_Ok in E. destruct E as (u & s3 & _ & E).
  apply bind_Ok in E. destruct E as (vf & s4 & _ & E).
  apply bind_Ok in E. destruct E as (vl & s5 & _ & E).
  apply bind_Ok in E. destruct E as (f & s6 & _ & E).
  apply bind_Ok in E. destruct E as (s7 & s8 & _ & E).
  apply bind_Ok in E. destruct E as (u2 & s9 & _ & E).
  unfold ret in E. inversion E. reflexivity.
Qed.

Lemma delete_vertex_count (rb_geom rb_geom' : RbGeom.t) (a b : Z)
  (c c' : RbCollection.t) :
  RbCollection.delete_vertex rb_geom a b c = Ok (rb_geom', c') ->
  is_line (RbGeom.qgs_geom rb_geom) ->
  1 <= a -> a <= b -> b < numPoints (RbGeom.qgs_geom rb_geom) ->
  is_line (RbGeom.qgs_geom rb_geom')
  /\ numPoints (RbGeom.qgs_geom rb_geom') = numPoints (RbGeom.qgs_geom rb_geom) - (b - a + 1).
Proof.
  intros E Hl Ha Hab Hb. apply delete_vertex_Ok in E. subst rb_geom'. cbn.
  destruct (RbGeom.qgs_geom rb_geom) as [p|l|r]; try discriminate Hl.
  unfold numPoints in Hb. cbn [points] in Hb.
  replace (b + 1) with (a + Z.of_nat (Z.to_nat (b - a + 1))) by lia.
  destruct (fold_deleteVertex_range (Z.to_nat (b - a + 1)) l a) as (l' & -> & Hl'); [lia | lia|].
  split; [reflexivity|]. unfold numPoints. cbn [points]. lia.
Qed.

Lemma delete_vertex_le (rb_geom rb_geom' : RbGeom.t) (a b : Z) (c c' : RbCollection.t) :
  RbCollection.delete_vertex rb_geom a b c = Ok (rb_geom', c') ->
  numPoints (RbGeom.qgs_geom rb_geom') <= numPoints (RbGeom.qgs_geom rb_geom)
  /\ wkbType (RbGeom.qgs_geom rb_geom') = wkbType (RbGeom.qgs_geom rb_geom)
  /\ RbGeom.id rb_geom' = RbGeom.id rb_geom
  /\ RbGeom.is_closed rb_geom' = RbGeom.is_closed rb_geom
  /\ RbGeom.original_geom_type rb_geom' = RbGeom.original_geom_type rb_geom.
Proof.
  intros E. apply delete_vertex_Ok in E. subst rb_geom'. cbn.
  destruct (fold_deleteVertex_le (rev (py_range a (b + 1))) (RbGeom.qgs_geom rb_geom)) as [Hn Hw].
  repeat split; auto.
Qed.

(** ** What a pass keeps *)

(** The geometry [g'] is the geometry [g] of the same path with no more
    vertices; a line stays a line. *)
Definition shrinks (g g' : RbGeom.t) : Prop :=
  RbGeom.id g' = RbGeom.id g
  /\ RbGeom.is_closed g' = RbGeom.is_closed g
  /\ RbGeom.original_geom_type g' = RbGeom.original_geom_type g
  /\ numPoints (RbGeom.qgs_geom g') <= numPoints (RbGeom.qgs_geom g)
  /\ (is_line (RbGeom.qgs_geom g) -> is_line (RbGeom.qgs_geom g')).

Lemma shrinks_refl (g : RbGeom.t) : shrinks g g.
Proof. unfold shrinks. repeat split; auto; lia. Qed.

Lemma shrinks_trans (g1 g2 g3 : RbGeom.t) : shrinks g1 g2 -> shrinks g2 g3 -> shrinks g1 g3.
Proof.
  unfold shrinks. intros (A1 & A2 & A3 & A4 & A5) (B1 & B2 & B3 & B4 & B5).
  repeat split; try congruence; try lia. auto.
Qed.

(** The state [s'] belongs to the same run as [s]: the settings, the list
    of geometries, the pass counter and the log are those of [s]. *)
Definition same_run (s s' : ReduceBend.t) : Prop :=
  ReduceBend.diameter_tol s' = ReduceBend.diameter_tol s
  /\ ReduceBend.smooth_line s' = ReduceBend.smooth_line s
  /\ ReduceBend.rb_geoms s' = ReduceBend.rb_geoms s
  /\ RbResults.nbr_pass (ReduceBend.rb_results s') = RbResults.nbr_pass (ReduceBend.rb_results s)
  /\ RbResults.lines_log_info (ReduceBend.rb_results s')
     = RbResults.lines_log_info (ReduceBend.rb_results s)
  /\ RbResults.nbr_line_smooth (ReduceBend.rb_results s')
     = RbResults.nbr_line_smooth (ReduceBend.rb_results s).

Lemma same_run_refl (s : ReduceBend.t) : same_run s s.
Proof. unfold same_run. repeat split. Qed.

Lemma same_run_trans (s1 s2 s3 : ReduceBend.t) :
  same_run s1 s2 -> same_run s2 s3 -> same_run s1 s3.
Proof.
  unfold same_run. intros (A1 & A2 & A3 & A4 & A5 & A6) (B1 & B2 & B3 & B4 & B5 & B6).
  repeat split; congruence.
Qed.

Lemma same_run_collection (s : ReduceBend.t) (c : RbCollection.t) :
  same_run s (ReduceBend.set_rb_collection s c).
Proof. unfold same_run. repeat split. Qed.

Lemma same_run_feedback (s : ReduceBend.t) (f : QgsFeedback.t) :
  same_run s (ReduceBend.set_feedback s f).
Proof. unfold same_run. repeat split. Qed.

Lemma same_run_bends_reduced (s : ReduceBend.t) (l : list BendReduced.t) :
  same_run s (ReduceBend.set_bends_reduced s l).
Proof. unfold same_run. repeat split. Qed.

Lemma delete_vertices_shrinks (vs : list Z) :
  forall (g g' : RbGeom.t) (c c' : RbCollection.t),
    delete_vertices g vs c = Ok (g', c') ->
    shrinks g g' /\ RbGeom.bends g' = RbGeom.bends g
    /\ RbGeom.is_simplest g' = RbGeom.is_simplest g.
Proof.
  induction vs as [|v vs IH]; intros g g' c c' E; cbn in E.
  - unfold ret in E. inversion E; subst. split; [apply shrinks_refl | auto].
  - apply bind_Ok in E. destruct E as (g1 & c1 & E1 & E2).
    pose proof (delete_vertex_Ok _ _ _ _ _ _ E1) as Hg1.
    apply delete_vertex_le in E1. destruct E1 as (L1 & L2 & L3 & L4 & L5).
    destruct (IH _ _ _ _ E2) as (Hs & Hb & Hsi).
    split; [|split].
    + eapply shrinks_trans; [|exact Hs]. unfold shrinks, is_line.
      repeat split; auto. congruence.
    + rewrite Hb, Hg1. reflexivity.
    + rewrite Hsi, Hg1. reflexivity.
Qed.

Lemma delete_co_linear_Ok (g g' : RbGeom.t) (s s' : ReduceBend.t) :
  delete_co_linear g s = Ok (g', s') ->
  shrinks g g' /\ same_run s s' /\ RbGeom.bends g' = RbGeom.bends g.
Proof.
  unfold delete_co_linear. intros E.
  apply bind_Ok in E. destruct E as (angles & s1 & E1 & E).
  apply lift_Ok in E1. cbn [fst snd] in E1. destruct E1 as [_ ->].
  apply bind_Ok in E. destruct E as (angles' & s2 & E2 & E).
  apply lift_Ok in E2. cbn [fst snd] in E2. destruct E2 as [_ ->].
  apply bind_Ok in E. destruct E as (g1 & s3 & E3 & E).
  apply on_collection_Ok in E3. cbn [fst snd] in E3. destruct E3 as (c & E3 & ->).
  apply delete_vertices_shrinks in E3. destruct E3 as (Hs & Hb & _).
  unfold ret in E. inversion E; subst; clear E.
  split; [|split; [apply same_run_collection|]].
  - destruct (Qle_bool (Qgs.length (RbGeom.qgs_geom g1)) ZERO_RELATIVE); exact Hs.
  - destruct (Qle_bool (Qgs.length (RbGeom.qgs_geom g1)) ZERO_RELATIVE); exact Hb.
Qed.

Lemma pivot_slices_length {A : Type} (l : list A) (s : Z) :
  (List.length (py_slice_from l s ++ py_slice l 1 (s + 1)) <= List.length l)%nat.
Proof.
  unfold py_slice_from, py_slice, py_bound.
  rewrite length_app, length_firstn, !length_skipn.
  unfold py_len.
  destruct (s <? 0) eqn:E1; destruct (s + 1 <? 0) eqn:E2; destruct (1 <? 0) eqn:E3;
    try (apply Z.ltb_lt in E3; lia);
    try apply Z.ltb_lt in E1; try apply Z.ltb_ge in E1;
    try apply Z.ltb_lt in E2; try apply Z.ltb_ge in E2; lia.
Qed.

Lemma pivot_closed_line_shrinks (g : RbGeom.t) (d : Q) :
  shrinks g (pivot_closed_line g d)
  /\ RbGeom.bends (pivot_closed_line g d) = RbGeom.bends g.
Proof.
  unfold pivot_closed_line.
  destruct (RbGeom.is_closed g && RbGeom.need_pivot g); [|split; [apply shrinks_refl | reflexivity]].
  destruct (pivot_scan (RbGeom.bends g) d None 0%Q) as [[bend|] [|]]; cbn;
    (split; [|reflexivity]); unfold shrinks, is_line; cbn;
    repeat split; auto; try lia;
    unfold numPoints, py_len; cbn [points];
    pose proof (pivot_slices_length (points (RbGeom.qgs_geom g))
                  ((Bend.j bend + Bend.i bend) / 2)); lia.
Qed.

(** ** The bends that detection creates *)

(** The span of a bend: its two vertex numbers, and whether it is marked
    for reduction. *)
Definition span (b : Bend.t) : Z * Z * bool := (Bend.i b, Bend.j b, Bend.to_reduce b).

Definition span_i (s : Z * Z * bool) : Z := fst (fst s).
Definition span_j (s : Z * Z * bool) : Z := snd (fst s).
Definition span_marked (s : Z * Z * bool) : bool := snd s.

(** A span of a line of [n] points: it starts at a vertex, covers two
    segments at least, and ends at a vertex. *)
Definition valid_span (n : Z) (s : Z * Z * bool) : Prop :=
  0 <= span_i s /\ span_i s + 2 <= span_j s /\ span_j s < n.

(** Spans two places apart or more do not overlap: the first ends at or
    before the vertex where the second starts. *)
Definition chained (sp : list (Z * Z * bool)) : Prop :=
  forall k l sk sl, (k + 2 <= l)%nat ->
    nth_error sp k = Some sk -> nth_error sp l = Some sl -> span_j sk <= span_i sl.

(** No two spans at adjacent places are both marked. *)
Definition no_adjacent_marks (sp : list (Z * Z * bool)) : Prop :=
  forall k sk sl, nth_error sp k = Some sk -> nth_error sp (S k) = Some sl ->
    ~ (span_marked sk = true /\ span_marked sl = true).

Fixpoint inflexion_spans (t : list Z) : list (Z * Z * bool) :=
  match t with
  | a :: tl =>
      match tl with
      | b :: _ => (a, b + 1, false) :: inflexion_spans tl
      | [] => []
      end
  | [] => []
  end.

Lemma map_result_Ok_In {A B : Type} (f : A -> result B) (l : list A) (ys : list B) :
  map_result f l = Ok ys -> forall x, In x l -> exists y, f x = Ok y.
Proof.
  revert ys. induction l as [|a l IH]; intros ys E x Hx; [contradiction|].
  cbn in E. apply rbind_Ok in E. destruct E as (y & Ey & E).
  apply rbind_Ok in E. destruct E as (ys' & Eys & E).
  destruct Hx as [<-|Hx]; [eauto | eapply IH; eauto].
Qed.

Lemma create_polygon_bound (i j : Z) (qgs_points : list QgsPoint) (p : QgsGeometry) :
  create_polygon i j qgs_points = Ok p -> 0 <= i -> i < j -> j < py_len qgs_points.
Proof.
  unfold create_polygon. intros E Hi Hij.
  destruct (i <? j) eqn:Eij; [|apply Z.ltb_ge in Eij; lia].
  apply rbind_Ok in E. destruct E as (sub & E & _).
  destruct (map_result_Ok_In _ _ _ E j) as [y Hy].
  - apply in_or_app. left. apply py_range_In. lia.
  - apply py_get_Ok_nonneg in Hy; [|lia]. lia.
Qed.

Lemma inflexion_from_sorted (orientation : list Z) :
  forall i, StronglySorted Z.lt (inflexion_from i orientation)
            /\ Forall (fun t => i <= t) (inflexion_from i orientation).
Proof.
  induction orientation as [|a o IH]; intros i; cbn; [split; constructor|].
  destruct o as [|b o]; [split; constructor|].
  destruct (IH (i + 1)) as [Hs Hf].
  destruct (negb (a =? b)).
  - split.
    + constructor; [exact Hs|]. eapply Forall_impl; [|exact Hf]. cbn. intros; lia.
    + constructor; [lia|]. eapply Forall_impl; [|exact Hf]. cbn. intros; lia.
  - split; [exact Hs|]. eapply Forall_impl; [|exact Hf]. cbn. intros; lia.
Qed.

Lemma sorted_nth_lt (t : list Z) :
  StronglySorted Z.lt t ->
  forall p q x y, (p < q)%nat -> nth_error t p = Some x -> nth_error t q = Some y -> x < y.
Proof.
  induction 1 as [|a t Hs IH Hall]; intros p q x y Hpq Hp Hq.
  - destruct p; discriminate.
  - destruct q as [|q]; [lia|]. cbn in Hq.
    destruct p as [|p]; cbn in Hp.
    + inversion Hp; subst. rewrite Forall_forall in Hall. apply Hall.
      eapply nth_error_In; eauto.
    + eapply IH; [|eauto|eauto]. lia.
Qed.

Lemma inflexion_spans_nth (t : list Z) :
  forall k s, nth_error (inflexion_spans t) k = Some s ->
    exists a b, nth_error t k = Some a /\ nth_error t (S k) = Some b /\ s = (a, b + 1, false).
Proof.
  induction t as [|a t IH]; intros k s E; [destruct k; discriminate|].
  cbn in E. destruct t as [|b t]; [destruct k; discriminate|].
  destruct k as [|k]; cbn in E.
  - inversion E; subst. exists a, b. repeat split.
  - destruct (IH _ _ E) as (x & y & Hx & Hy & ->). exists x, y. repeat split; assumption.
Qed.

Lemma make_bends_spans (t : list Z) (qgs_points : list QgsPoint) :
  forall bends, make_bends t qgs_points = Ok bends ->
    map span bends = inflexion_spans t
    /\ (StronglySorted Z.lt t -> Forall (fun x => 0 <= x) t ->
        Forall (fun b => Bend.j b < py_len qgs_points) bends).
Proof.
  induction t as [|a t IH]; intros bends E; cbn in E.
  - inversion E; subst. split; [reflexivity | intros; constructor].
  - destruct t as [|b t]; [inversion E; subst; split; [reflexivity | intros; constructor]|].
    apply rbind_Ok in E. destruct E as (poly & Ep & E).
    apply rbind_Ok in E. destruct E as (bend & Eb & E).
    apply rbind_Ok in E. destruct E as (rest & Er & E).
    inversion E; subst; clear E.
    destruct (IH _ Er) as [Hsp Hbound].
    apply Bend_init_Ok in Eb. destruct Eb as (Bi & Bj & Bt & _).
    split.
    + cbn [map]. rewrite Hsp. unfold span. rewrite Bi, Bj, Bt. reflexivity.
    + intros Hs Hpos. inversion Hs as [|? ? Hs' Hlt]; subst. inversion Hpos; subst.
      constructor; [|apply Hbound; assumption].
      rewrite Bj. eapply create_polygon_bound; [exact Ep | assumption|].
      inversion Hlt; subst. lia.
Qed.

Lemma inflexion_spans_fresh (t : list Z) (n : Z) :
  StronglySorted Z.lt t -> Forall (fun x => 0 <= x) t ->
  Forall (fun s => span_j s < n) (inflexion_spans t) ->
  Forall (valid_span n) (inflexion_spans t)
  /\ chained (inflexion_spans t)
  /\ Forall (fun s => span_marked s = false) (inflexion_spans t).
Proof.
  intros Hs Hpos Hn. split; [|split].
  - apply Forall_forall. intros s Hin.
    destruct (In_nth_error _ _ Hin) as [k Hk].
    destruct (inflexion_spans_nth _ _ _ Hk) as (a & b & Ha & Hb & ->).
    rewrite Forall_forall in Hn. specialize (Hn _ Hin).
    rewrite Forall_forall in Hpos.
    pose proof (Hpos a (nth_error_In _ _ Ha)).
    pose proof (sorted_nth_lt _ Hs k (S k) a b ltac:(lia) Ha Hb).
    unfold valid_span, span_i, span_j in *. cbn in *. lia.
  - intros k l sk sl Hkl Hk Hl.
    destruct (inflexion_spans_nth _ _ _ Hk) as (a & b & Ha & Hb & ->).
    destruct (inflexion_spans_nth _ _ _ Hl) as (c & e & Hc & He & ->).
    unfold span_i, span_j. cbn.
    destruct (Nat.eq_dec (S k + 1) l) as [El|El].
    + subst l. pose proof (sorted_nth_lt _ Hs (S k) (S k + 1) b c ltac:(lia) Hb Hc). lia.
    + pose proof (sorted_nth_lt _ Hs (S k) l b c ltac:(lia) Hb Hc). lia.
  - apply Forall_forall. intros s Hin.
    destruct (In_nth_error _ _ Hin) as [k Hk].
    destruct (inflexion_spans_nth _ _ _ Hk) as (a & b & _ & _ & ->). reflexivity.
Qed.

Lemma alternate_direction_spans (d : option Bend.Direction) (bends : list Bend.t) :
  map span (alternate_direction d bends) = map span bends.
Proof.
  revert d. induction bends as [|b l IH]; intros d; cbn; [reflexivity|].
  rewrite IH. reflexivity.
Qed.

Lemma set_bend_direction_spans (g : RbGeom.t) :
  map span (RbGeom.bends (set_bend_direction g)) = map span (RbGeom.bends g)
  /\ RbGeom.qgs_geom (set_bend_direction g) = RbGeom.qgs_geom g
  /\ RbGeom.id (set_bend_direction g) = RbGeom.id g
  /\ RbGeom.is_closed (set_bend_direction g) = RbGeom.is_closed g
  /\ RbGeom.original_geom_type (set_bend_direction g) = RbGeom.original_geom_type g.
Proof.
  unfold set_bend_direction.
  destruct (RbGeom.is_closed g && (1 <=? py_len (RbGeom.bends g))); [|repeat split].
  destruct (RbGeom.bends g) as [|b l] eqn:Eb; [rewrite Eb; repeat split|].
  cbn. rewrite alternate_direction_spans. repeat split.
Qed.

(** The bends [detect_bends] leaves are unmarked bends of the line, with
    spans that do not overlap two places apart; the line is not touched. *)
Lemma detect_bends_Ok (g g' : RbGeom.t) (n : Z) :
  detect_bends g = Ok (n, g') ->
  RbGeom.qgs_geom g' = RbGeom.qgs_geom g
  /\ RbGeom.id g' = RbGeom.id g
  /\ RbGeom.is_closed g' = RbGeom.is_closed g
  /\ RbGeom.original_geom_type g' = RbGeom.original_geom_type g
  /\ n = py_len (RbGeom.bends g')
  /\ Forall (valid_span (numPoints (RbGeom.qgs_geom g'))) (map span (RbGeom.bends g'))
  /\ chained (map span (RbGeom.bends g'))
  /\ Forall (fun s => span_marked s = false) (map span (RbGeom.bends g')).
Proof.
  unfold detect_bends. intros E.
  apply rbind_Ok in E. destruct E as (angles & _ & E).
  apply rbind_Ok in E. destruct E as (o1 & _ & E).
  apply rbind_Ok in E. destruct E as (orientation & _ & E).
  apply rbind_Ok in E. destruct E as (g1 & E1 & E).
  inversion E; subst; clear E.
  assert (Hg1 : RbGeom.qgs_geom g1 = RbGeom.qgs_geom g
                /\ RbGeom.id g1 = RbGeom.id g
                /\ RbGeom.is_closed g1 = RbGeom.is_closed g
                /\ RbGeom.original_geom_type g1 = RbGeom.original_geom_type g
                /\ Forall (valid_span (numPoints (RbGeom.qgs_geom g))) (map span (RbGeom.bends g1))
                /\ chained (map span (RbGeom.bends g1))
                /\ Forall (fun s => span_marked s = false) (map span (RbGeom.bends g1))).
  { destruct (inflexion_from_sorted orientation 0) as [Hs Hpos].
    destruct (negb (py_len (inflexion_from 0 orientation) =? 0)).
    - apply rbind_Ok in E1. destruct E1 as (bends & Eb & E1).
      inversion E1; subst; clear E1. cbn.
      destruct (make_bends_spans _ _ _ Eb) as [Hsp Hbound].
      specialize (Hbound Hs Hpos).
      rewrite Hsp.
      assert (Hn : Forall (fun s => span_j s < numPoints (RbGeom.qgs_geom g))
                     (inflexion_spans (inflexion_from 0 orientation))).
      { rewrite <- Hsp. apply Forall_forall. intros s Hin. apply in_map_iff in Hin.
        destruct Hin as (b & <- & Hb). rewrite Forall_forall in Hbound.
        exact (Hbound b Hb). }
      destruct (inflexion_spans_fresh _ _ Hs Hpos Hn) as (V & C & U).
      repeat split; assumption.
    - inversion E1; subst; clear E1. cbn.
      repeat split; try constructor.
      intros k l sk sl _ Hk. destruct k; discriminate. }
  destruct Hg1 as (Q1 & Q2 & Q3 & Q4 & Q5 & Q6 & Q7).
  assert (Hd : map span (RbGeom.bends (if RbGeom.is_closed g1 then set_bend_direction g1 else g1))
               = map span (RbGeom.bends g1)
               /\ RbGeom.qgs_geom (if RbGeom.is_closed g1 then set_bend_direction g1 else g1)
                  = RbGeom.qgs_geom g1
               /\ RbGeom.id (if RbGeom.is_closed g1 then set_bend_direction g1 else g1)
                  = RbGeom.id g1
               /\ RbGeom.is_closed (if RbGeom.is_closed g1 then set_bend_direction g1 else g1)
                  = RbGeom.is_closed g1
               /\ RbGeom.original_geom_type
                    (if RbGeom.is_closed g1 then set_bend_direction g1 else g1)
                  = RbGeom.original_geom_type g1).
  { destruct (RbGeom.is_closed g1) eqn:Ec; [|rewrite Ec; repeat split].
    destruct (set_bend_direction_spans g1) as (D1 & D2 & D3 & D4 & D5).
    rewrite Ec in D4. repeat split; assumption. }
  destruct Hd as (D1 & D2 & D3 & D4 & D5).
  rewrite D1, D2, D3, D4, D5.
  repeat split; try congruence; try assumption.
Qed.

(** ** The selection of the bends to reduce *)

Lemma py_get_in_range {A : Type} (l : list A) (k : Z) :
  0 <= k < py_len l ->
  exists x, py_get l k = Ok x /\ nth_error l (Z.to_nat k) = Some x.
Proof.
  intros Hk. unfold py_len in Hk.
  destruct (nth_error l (Z.to_nat k)) as [x|] eqn:E.
  - exists x. split; [apply py_get_nonneg; [lia | exact E] | reflexivity].
  - apply nth_error_None in E. lia.
Qed.

Lemma map_replace {A B : Type} (f : A -> B) (l : list A) (n : nat) (x : A) :
  map f (firstn n l ++ x :: skipn (S n) l)
  = firstn n (map f l) ++ f x :: skipn (S n) (map f l).
Proof.
  rewrite map_app. cbn [map]. rewrite firstn_map, skipn_map. reflexivity.
Qed.

Lemma map_replace_same {A B : Type} (f : A -> B) (l : list A) (n : nat) (x b : A) :
  nth_error l n = Some b -> f x = f b ->
  map f (firstn n l ++ x :: skipn (S n) l) = map f l.
Proof.
  revert n. induction l as [|a l IH]; intros n Hn Hf; [destruct n; discriminate|].
  destruct n as [|n]; cbn in *.
  - inversion Hn; subst. rewrite Hf. reflexivity.
  - rewrite IH; auto.
Qed.

(** Marking the span at place [n], whose neighbours are not marked, keeps
    adjacent spans from being both marked. *)
Lemma mark_no_adjacent (sp : list (Z * Z * bool)) (n : nat) (a b : Z) :
  no_adjacent_marks sp ->
  (n < List.length sp)%nat ->
  (forall s, (1 <= n)%nat -> nth_error sp (n - 1) = Some s -> span_marked s = false) ->
  (forall s, nth_error sp (S n) = Some s -> span_marked s = false) ->
  no_adjacent_marks (firstn n sp ++ (a, b, true) :: skipn (S n) sp).
Proof.
  intros Hno Hn Hprev Hnext k sk sl Hk Hl.
  rewrite nth_error_replace in Hk, Hl by exact Hn.
  destruct (Nat.eqb_spec k n) as [Ek|Ek]; destruct (Nat.eqb_spec (S k) n) as [El|El].
  - lia.
  - subst k. intros [_ Hm]. rewrite (Hnext _ Hl) in Hm. discriminate.
  - intros [Hm _]. rewrite (Hprev sk) in Hm; [discriminate | lia|].
    replace (n - 1)%nat with k by lia. exact Hk.
  - exact (Hno k sk sl Hk Hl).
Qed.

Definition same_ij (bends bends' : list Bend.t) : Prop :=
  map (fun b => (Bend.i b, Bend.j b)) bends' = map (fun b => (Bend.i b, Bend.j b)) bends.

Lemma same_ij_length (bends bends' : list Bend.t) :
  same_ij bends bends' -> py_len bends' = py_len bends.
Proof.
  unfold same_ij, py_len. intros E.
  apply (f_equal (@List.length _)) in E. rewrite !length_map in E. lia.
Qed.

Lemma mark_to_reduce_Ok (bends : list Bend.t) (i : Z) :
  0 <= i < py_len bends ->
  exists b, nth_error bends (Z.to_nat i) = Some b
            /\ mark_to_reduce bends i
               = Ok (firstn (Z.to_nat i) bends
                       ++ Bend.set_to_reduce b true :: skipn (S (Z.to_nat i)) bends).
Proof.
  intros Hi. destruct (py_get_in_range bends i Hi) as (b & Hget & Hnth).
  exists b. split; [exact Hnth|].
  unfold mark_to_reduce. rewrite Hget. cbn [rbind].
  apply py_set_nonneg; lia.
Qed.

Lemma marked_bends (bends : list Bend.t) (i : Z) (b : Bend.t) :
  0 <= i < py_len bends ->
  nth_error bends (Z.to_nat i) = Some b ->
  no_adjacent_marks (map span bends) ->
  (forall b', 1 <= i -> nth_error bends (Z.to_nat (i - 1)) = Some b' -> Bend.to_reduce b' = false) ->
  (forall b', nth_error bends (Z.to_nat (i + 1)) = Some b' -> Bend.to_reduce b' = false) ->
  let bends' := firstn (Z.to_nat i) bends
                  ++ Bend.set_to_reduce b true :: skipn (S (Z.to_nat i)) bends in
  no_adjacent_marks (map span bends') /\ same_ij bends bends'.
Proof.
  intros Hi Hb Hno Hprev Hnext bends'. unfold py_len in Hi. split.
  - subst bends'. rewrite map_replace.
    apply mark_no_adjacent; [exact Hno | rewrite length_map; lia | |].
    + intros s Hn E. rewrite nth_error_map in E.
      destruct (nth_error bends (Z.to_nat i - 1)) as [b'|] eqn:Eb; [|discriminate].
      inversion E; subst. unfold span_marked, span. cbn.
      apply Hprev; [lia|]. replace (Z.to_nat (i - 1)) with (Z.to_nat i - 1)%nat by lia.
      exact Eb.
    + intros s E. rewrite nth_error_map in E.
      destruct (nth_error bends (S (Z.to_nat i))) as [b'|] eqn:Eb; [|discriminate].
      inversion E; subst. unfold span_marked, span. cbn.
      apply Hnext. replace (Z.to_nat (i + 1)) with (S (Z.to_nat i)) by lia. exact Eb.
  - subst bends'. unfold same_ij.
    apply map_replace_same with (b := b); [exact Hb | reflexivity].
Qed.

Lemma unmarked_no_adjacent (sp : list (Z * Z * bool)) :
  Forall (fun s => span_marked s = false) sp -> no_adjacent_marks sp.
Proof.
  intros Hall k sk sl Hk _ [Hm _]. rewrite Forall_forall in Hall.
  rewrite (Hall sk (nth_error_In _ _ Hk)) in Hm. discriminate.
Qed.

(** With two candidates or more, the loop of [flag_bend_to_reduce] ends
    without an exception and marks no two adjacent bends. *)
Lemma flag_loop_Ok (nbr_lst_bends : Z) (min_adj_area : Q) (lst_bends : list (Q * Z)) :
  nbr_lst_bends <> 1 ->
  forall bends,
    2 <= py_len bends ->
    Forall (fun e => 0 <= snd e < py_len bends) lst_bends ->
    no_adjacent_marks (map span bends) ->
    exists bends',
      flag_loop lst_bends nbr_lst_bends min_adj_area 0 (py_len bends - 1) bends = Ok bends'
      /\ no_adjacent_marks (map span bends') /\ same_ij bends bends'.
Proof.
  intros Hn. induction lst_bends as [|[adj_area i] rest IH]; intros bends Hlen Hall Hno.
  - exists bends. cbn. repeat split; auto.
  - inversion Hall as [|? ? Hi Hrest]; subst. cbn [snd] in Hi.
    cbn [flag_loop].
    destruct (Qle_bool adj_area min_adj_area); [|exists bends; repeat split; auto].
    destruct (nbr_lst_bends =? 1) eqn:E1; [apply Z.eqb_eq in E1; contradiction|].
    assert (Hstep : forall bends1,
               no_adjacent_marks (map span bends1) -> same_ij bends bends1 ->
               exists bends',
                 flag_loop rest nbr_lst_bends min_adj_area 0 (py_len bends - 1) bends1 = Ok bends'
                 /\ no_adjacent_marks (map span bends') /\ same_ij bends bends').
    { intros bends1 Hno1 Hij1. pose proof (same_ij_length _ _ Hij1) as Hl1.
      destruct (IH bends1) as (bends' & E & Hno' & Hij'); [lia | | exact Hno1|].
      - rewrite Hl1. exact Hrest.
      - rewrite Hl1 in E. exists bends'. repeat split; auto.
        unfold same_ij in *. congruence. }
    destruct (mark_to_reduce_Ok bends i Hi) as (b & Hb & Hmark).
    destruct (i =? 0) eqn:E0; [|destruct (i =? py_len bends - 1) eqn:Ee].
    + apply Z.eqb_eq in E0. subst i.
      destruct (py_get_in_range bends (0 + 1) ltac:(lia)) as (nx & Hnx & Hnth).
      rewrite Hnx. cbn [rbind].
      destruct (Bend.to_reduce nx) eqn:Em; cbn [rbind].
      * apply Hstep; [exact Hno | reflexivity].
      * rewrite Hmark. cbn [rbind].
        destruct (marked_bends bends 0 b Hi Hb Hno) as [Hno1 Hij1].
        -- intros; lia.
        -- intros b' Hb'. rewrite Hnth in Hb'. inversion Hb'; subst. exact Em.
        -- apply Hstep; assumption.
    + apply Z.eqb_neq in E0. apply Z.eqb_eq in Ee.
      destruct (py_get_in_range bends (i - 1) ltac:(lia)) as (pv & Hpv & Hnth).
      rewrite Hpv. cbn [rbind].
      destruct (Bend.to_reduce pv) eqn:Em; cbn [rbind].
      * apply Hstep; [exact Hno | reflexivity].
      * rewrite Hmark. cbn [rbind].
        destruct (marked_bends bends i b Hi Hb Hno) as [Hno1 Hij1].
        -- intros b' _ Hb'. rewrite Hnth in Hb'. inversion Hb'; subst. exact Em.
        -- intros b' Hb'.
           assert (Hlt : (Z.to_nat (i + 1) < List.length bends)%nat)
             by (apply nth_error_Some; congruence).
           unfold py_len in *. lia.
        -- apply Hstep; assumption.
    + apply Z.eqb_neq in E0. apply Z.eqb_neq in Ee.
      destruct (py_get_in_range bends (i - 1) ltac:(lia)) as (pv & Hpv & Hnthp).
      destruct (py_get_in_range bends (i + 1) ltac:(lia)) as (nx & Hnx & Hnthn).
      rewrite Hpv. cbn [rbind].
      destruct (Bend.to_reduce pv) eqn:Emp; cbn [rbind].
      * apply Hstep; [exact Hno | reflexivity].
      * rewrite Hnx. cbn [rbind].
        destruct (Bend.to_reduce nx) eqn:Emn; cbn [rbind].
        -- apply Hstep; [exact Hno | reflexivity].
        -- rewrite Hmark. cbn [rbind].
           destruct (marked_bends bends i b Hi Hb Hno) as [Hno1 Hij1].
           ++ intros b' _ Hb'. rewrite Hnthp in Hb'. inversion Hb'; subst. exact Emp.
           ++ intros b' Hb'. rewrite Hnthn in Hb'. inversion Hb'; subst. exact Emn.
           ++ apply Hstep; assumption.
Qed.

Lemma candidate_bends_range (bends : list Bend.t) (min_adj_area : Q) :
  forall i, Forall (fun e => i <= snd e < i + py_len bends) (candidate_bends i bends min_adj_area)
            /\ py_len (candidate_bends i bends min_adj_area) <= py_len bends.
Proof.
  induction bends as [|b l IH]; intros i; cbn; [split; [constructor | reflexivity]|].
  destruct (IH (i + 1)) as [Hr Hl]. unfold py_len in *. cbn [List.length].
  destruct (Qlt_bool (Bend.area b) min_adj_area).
  - split.
    + constructor; [cbn; lia|]. eapply Forall_impl; [|exact Hr]. cbn. intros; lia.
    + cbn [List.length]. lia.
  - split; [|lia]. eapply Forall_impl; [|exact Hr]. cbn. intros; lia.
Qed.

Lemma py_del_first {A : Type} (x : A) (l : list A) : py_del (x :: l) 0 = Ok l.
Proof.
  unfold py_del, py_len. cbn [List.length Z.ltb Z.compare].
  destruct (Z.of_nat (S (List.length l)) <=? 0) eqn:E; [apply Z.leb_le in E; lia|].
  reflexivity.
Qed.

Lemma py_del_last {A : Type} (l : list A) (y : A) : py_del (l ++ [y]) (-1) = Ok l.
Proof.
  unfold py_del, py_len. rewrite length_app. cbn [List.length].
  replace (-1 <? 0) with true by reflexivity.
  replace (-1 + Z.of_nat (List.length l + 1)) with (Z.of_nat (List.length l)) by lia.
  destruct (Z.of_nat (List.length l) <? 0) eqn:E1; [apply Z.ltb_lt in E1; lia|].
  destruct (Z.of_nat (List.length l + 1) <=? Z.of_nat (List.length l)) eqn:E2;
    [apply Z.leb_le in E2; lia|].
  cbn [orb]. rewrite Nat2Z.id.
  rewrite firstn_app, firstn_all, Nat.sub_diag. cbn [firstn].
  rewrite skipn_all2 by (rewrite length_app; cbn; lia).
  rewrite !app_nil_r. reflexivity.
Qed.

(** The bends [flag_bend_to_reduce] keeps: all of them, or all but the
    first and the last one. *)
Definition kept_bends (bends sub : list Bend.t) : Prop :=
  sub = bends \/ exists x y, bends = x :: sub ++ [y].

Lemma kept_bends_Forall (P : Bend.t -> Prop) (bends sub : list Bend.t) :
  kept_bends bends sub -> Forall P bends -> Forall P sub.
Proof.
  intros [->|(x & y & ->)] Hall; [exact Hall|].
  inversion Hall; subst. apply Forall_app in H4. tauto.
Qed.

Lemma kept_bends_nth (bends sub : list Bend.t) :
  kept_bends bends sub ->
  exists d, forall k b, nth_error sub k = Some b -> nth_error bends (d + k) = Some b.
Proof.
  intros [->|(x & y & ->)].
  - exists 0%nat. auto.
  - exists 1%nat. intros k b Hk. cbn. rewrite nth_error_app1; [exact Hk|].
    apply nth_error_Some. congruence.
Qed.

Lemma chained_kept (bends sub : list Bend.t) :
  kept_bends bends sub -> chained (map span bends) -> chained (map span sub).
Proof.
  intros Hk Hc k l sk sl Hkl Ek El.
  destruct (kept_bends_nth _ _ Hk) as [d Hd].
  rewrite nth_error_map in Ek, El.
  destruct (nth_error sub k) as [bk|] eqn:Bk; [|discriminate].
  destruct (nth_error sub l) as [bl|] eqn:Bl; [|discriminate].
  cbn in Ek, El. inversion Ek; inversion El; subst.
  apply (Hc (d + k)%nat (d + l)%nat); [lia | |];
    rewrite nth_error_map; [rewrite (Hd _ _ Bk) | rewrite (Hd _ _ Bl)]; reflexivity.
Qed.

Lemma same_ij_nth (bends bends' : list Bend.t) (k : nat) (b' : Bend.t) :
  same_ij bends bends' -> nth_error bends' k = Some b' ->
  exists b, nth_error bends k = Some b /\ Bend.i b' = Bend.i b /\ Bend.j b' = Bend.j b.
Proof.
  unfold same_ij. intros E Hk.
  apply (f_equal (fun l => nth_error l k)) in E. rewrite !nth_error_map, Hk in E.
  destruct (nth_error bends k) as [b|]; [|discriminate].
  cbn in E. inversion E. exists b. repeat split; congruence.
Qed.

Lemma chained_same_ij (bends bends' : list Bend.t) :
  same_ij bends bends' -> chained (map span bends) -> chained (map span bends').
Proof.
  intros Hij Hc k l sk sl Hkl Ek El.
  rewrite nth_error_map in Ek, El.
  destruct (nth_error bends' k) as [bk|] eqn:Bk; [|discriminate].
  destruct (nth_error bends' l) as [bl|] eqn:Bl; [|discriminate].
  cbn in Ek, El. inversion Ek; inversion El; subst.
  destruct (same_ij_nth _ _ _ _ Hij Bk) as (ck & Ck & Ik & Jk).
  destruct (same_ij_nth _ _ _ _ Hij Bl) as (cl & Cl & Il & Jl).
  unfold span_i, span_j, span. cbn. rewrite Jk, Il.
  apply (Hc k l (span ck) (span cl) Hkl); rewrite nth_error_map; [rewrite Ck | rewrite Cl];
    reflexivity.
Qed.

Lemma valid_same_ij (n : Z) (bends bends' : list Bend.t) :
  same_ij bends bends' -> Forall (valid_span n) (map span bends) ->
  Forall (valid_span n) (map span bends').
Proof.
  intros Hij Hv. apply Forall_forall. intros s Hs. apply in_map_iff in Hs.
  destruct Hs as (b' & <- & Hb'). destruct (In_nth_error _ _ Hb') as [k Hk].
  destruct (same_ij_nth _ _ _ _ Hij Hk) as (b & Hb & Hi & Hj).
  rewrite Forall_forall in Hv.
  specialize (Hv (span b) (in_map span _ _ (nth_error_In _ _ Hb))).
  unfold valid_span, span_i, span_j, span in *. cbn in *. rewrite Hi, Hj. exact Hv.
Qed.

(** On unmarked bends, [flag_bend_to_reduce] ends without an exception;
    it touches the marks only, of the bends it keeps, and leaves no two
    adjacent bends marked. *)
Lemma flag_bend_to_reduce_Ok (g : RbGeom.t) (d : Q) :
  Forall (fun s => span_marked s = false) (map span (RbGeom.bends g)) ->
  exists g' sub,
    flag_bend_to_reduce g d = Ok g'
    /\ RbGeom.qgs_geom g' = RbGeom.qgs_geom g
    /\ RbGeom.id g' = RbGeom.id g
    /\ RbGeom.is_closed g' = RbGeom.is_closed g
    /\ RbGeom.original_geom_type g' = RbGeom.original_geom_type g
    /\ kept_bends (RbGeom.bends g) sub
    /\ same_ij sub (RbGeom.bends g')
    /\ no_adjacent_marks (map span (RbGeom.bends g')).
Proof.
  intros Hun. unfold flag_bend_to_reduce.
  assert (Hsub : exists sub,
             (if RbGeom.is_closed g && (3 <=? py_len (RbGeom.bends g))
              then bends <~ py_del (RbGeom.bends g) 0 ;; py_del bends (-1)
              else Ok (RbGeom.bends g)) = Ok sub
             /\ kept_bends (RbGeom.bends g) sub).
  { destruct (RbGeom.is_closed g && (3 <=? py_len (RbGeom.bends g))) eqn:E.
    - apply andb_true_iff in E. destruct E as [_ E]. apply Z.leb_le in E.
      destruct (RbGeom.bends g) as [|x l]; [cbn in E; lia|].
      destruct (exists_last (l := l)) as (sub & y & ->).
      { intro; subst l. cbn in E. lia. }
      exists sub. rewrite py_del_first. cbn [rbind]. rewrite py_del_last.
      split; [reflexivity | right; eauto].
    - exists (RbGeom.bends g). split; [reflexivity | left; reflexivity]. }
  destruct Hsub as (sub & -> & Hkept). cbn [rbind].
  assert (Hunsub : Forall (fun s => span_marked s = false) (map span sub)).
  { rewrite Forall_map in Hun |- *. eapply kept_bends_Forall; eauto. }
  set (min_adj_area := calculate_min_adj_area d).
  set (lst := sort_by (fun a b => Qle_bool (fst a) (fst b)) (candidate_bends 0 sub min_adj_area)).
  assert (Hrange : Forall (fun e => 0 <= snd e < py_len sub) lst).
  { apply Forall_forall. intros e He. apply sort_by_In in He.
    destruct (candidate_bends_range sub min_adj_area 0) as [Hr _].
    rewrite Forall_forall in Hr. specialize (Hr e He). lia. }
  assert (Hlen : py_len lst <= py_len sub).
  { destruct (candidate_bends_range sub min_adj_area 0) as [_ Hl].
    unfold lst, py_len in *. rewrite sort_by_length. exact Hl. }
  assert (Hloop : exists bends',
             flag_loop lst (py_len lst) min_adj_area 0 (py_len sub - 1) sub = Ok bends'
             /\ no_adjacent_marks (map span bends') /\ same_ij sub bends').
  { destruct (Z.eq_dec (py_len lst) 1) as [E1|E1].
    - destruct lst as [|[adj i] [|e lst']] eqn:El; try (unfold py_len in E1; cbn in E1; lia).
      cbn [flag_loop]. rewrite E1. cbn [Z.eqb Pos.eqb].
      destruct (Qle_bool adj min_adj_area).
      + inversion Hrange; subst. cbn [snd] in H3.
        destruct (mark_to_reduce_Ok sub i H3) as (b & Hb & ->). cbn [rbind].
        destruct (marked_bends sub i b H3 Hb (unmarked_no_adjacent _ Hunsub)) as [Hno Hij].
        * intros b' _ Hb'. rewrite Forall_map, Forall_forall in Hunsub.
          exact (Hunsub b' (nth_error_In _ _ Hb')).
        * intros b' Hb'. rewrite Forall_map, Forall_forall in Hunsub.
          exact (Hunsub b' (nth_error_In _ _ Hb')).
        * eexists. split; [reflexivity | split; assumption].
      + exists sub. split; [reflexivity|].
        split; [apply unmarked_no_adjacent; exact Hunsub | reflexivity].
    - destruct lst as [|e lst'] eqn:El.
      + exists sub. split; [reflexivity|].
        split; [apply unmarked_no_adjacent; exact Hunsub | reflexivity].
      + apply flag_loop_Ok; [exact E1 | | exact Hrange
                            | apply unmarked_no_adjacent; exact Hunsub].
        unfold py_len in *. cbn [List.length] in *. lia. }
  destruct Hloop as (bends' & -> & Hno & Hij). cbn [rbind].
  eexists _, sub. split; [reflexivity|].
  destruct (py_len bends' =? 0); cbn; repeat split; assumption.
Qed.

(** Marked spans do not overlap: of two marked spans, the first ends at or
    before the vertex where the second starts. *)
Definition marked_separated (sp : list (Z * Z * bool)) : Prop :=
  forall k l sk sl, (k < l)%nat ->
    nth_error sp k = Some sk -> nth_error sp l = Some sl ->
    span_marked sk = true -> span_marked sl = true -> span_j sk <= span_i sl.

Lemma marked_separated_intro (sp : list (Z * Z * bool)) :
  chained sp -> no_adjacent_marks sp -> marked_separated sp.
Proof.
  intros Hc Hno k l sk sl Hkl Hk Hl Mk Ml.
  destruct (Nat.eq_dec l (S k)) as [->|Hne].
  - exfalso. exact (Hno k sk sl Hk Hl (conj Mk Ml)).
  - apply (Hc k l sk sl); [lia | exact Hk | exact Hl].
Qed.

(** Detection followed by selection, as a pass runs them on a geometry. *)
Lemma detect_then_flag (g g1 : RbGeom.t) (n : Z) (d : Q) :
  detect_bends g = Ok (n, g1) ->
  exists g2,
    flag_bend_to_reduce g1 d = Ok g2
    /\ RbGeom.qgs_geom g2 = RbGeom.qgs_geom g
    /\ RbGeom.id g2 = RbGeom.id g
    /\ RbGeom.is_closed g2 = RbGeom.is_closed g
    /\ RbGeom.original_geom_type g2 = RbGeom.original_geom_type g
    /\ Forall (valid_span (numPoints (RbGeom.qgs_geom g2))) (map span (RbGeom.bends g2))
    /\ no_adjacent_marks (map span (RbGeom.bends g2))
    /\ marked_separated (map span (RbGeom.bends g2)).
Proof.
  intros E. apply detect_bends_Ok in E.
  destruct E as (Q1 & Q2 & Q3 & Q4 & _ & Hv & Hc & Hu).
  destruct (flag_bend_to_reduce_Ok g1 d Hu)
    as (g2 & sub & F & F1 & F2 & F3 & F4 & Hk & Hij & Hno).
  exists g2. split; [exact F|].
  assert (Hc2 : chained (map span (RbGeom.bends g2))).
  { eapply chained_same_ij; [exact Hij|]. eapply chained_kept; eauto. }
  repeat split; try congruence.
  - rewrite F1. eapply valid_same_ij; [exact Hij|].
    rewrite Forall_map in Hv |- *. eapply kept_bends_Forall; eauto.
  - exact Hno.
  - apply marked_separated_intro; assumption.
Qed.

(** C2, as the program has it.  On the bends [detect_bends] has created,
    [flag_bend_to_reduce] ends without an exception and leaves no two
    bends at adjacent places both marked; consequently two marked bends
    never overlap: the one at the lower place ends at or before the
    vertex where the other starts (that one vertex they may share), so the
    vertices deleted for one are never vertices of the other. *)
Theorem flag_bend_to_reduce_exclusion (rb_geom detected : RbGeom.t) (n : Z) (diameter_tol : Q) :
  detect_bends rb_geom = Ok (n, detected) ->
  exists flagged,
    flag_bend_to_reduce detected diameter_tol = Ok flagged
    /\ (forall k b1 b2,
          nth_error (RbGeom.bends flagged) k = Some b1 ->
          nth_error (RbGeom.bends flagged) (S k) = Some b2 ->
          ~ (Bend.to_reduce b1 = true /\ Bend.to_reduce b2 = true))
    /\ (forall k l bk bl, (k < l)%nat ->
          nth_error (RbGeom.bends flagged) k = Some bk ->
          nth_error (RbGeom.bends flagged) l = Some bl ->
          Bend.to_reduce bk = true -> Bend.to_reduce bl = true ->
          Bend.j bk <= Bend.i bl).
Proof.
  intros E. destruct (detect_then_flag _ _ _ diameter_tol E)
    as (g2 & F & _ & _ & _ & _ & _ & Hno & Hsep).
  exists g2. split; [exact F|]. split.
  - intros k b1 b2 H1 H2. apply (Hno k (span b1) (span b2));
      rewrite nth_error_map; [rewrite H1 | rewrite H2]; reflexivity.
  - intros k l bk bl Hkl Hk Hl Mk Ml.
    apply (Hsep k l (span bk) (span bl) Hkl); try assumption;
      rewrite nth_error_map; [rewrite Hk | rewrite Hl]; reflexivity.
Qed.

(** ** The reduction of the marked bends *)

Lemma get_Ok {S : Type} (s a s' : S) : get s = Ok (a, s') -> a = s /\ s' = s.
Proof. unfold get. intros E. inversion E. auto. Qed.

Lemma put_Ok {S : Type} (x s s' : S) (u : unit) : put x s = Ok (u, s') -> s' = x.
Proof. unfold put. intros E. inversion E. auto. Qed.

(** Before the bend at place [m - 1] is processed: the geometry is a line,
    and the marked bends at the places below [m] are bends of the line
    that do not overlap. *)
Definition ready (m : nat) (g : RbGeom.t) : Prop :=
  is_line (RbGeom.qgs_geom g)
  /\ (forall k s, (k < m)%nat -> nth_error (map span (RbGeom.bends g)) k = Some s ->
        span_marked s = true -> valid_span (numPoints (RbGeom.qgs_geom g)) s)
  /\ (forall k l sk sl, (k < l)%nat -> (l < m)%nat ->
        nth_error (map span (RbGeom.bends g)) k = Some sk ->
        nth_error (map span (RbGeom.bends g)) l = Some sl ->
        span_marked sk = true -> span_marked sl = true -> span_j sk <= span_i sl).

Lemma ready_weaken (m : nat) (g : RbGeom.t) : ready (S m) g -> ready m g.
Proof.
  intros (L & V & S0). split; [exact L|]. split.
  - intros k s Hk. apply V. lia.
  - intros k l sk sl Hkl Hl. apply S0; lia.
Qed.

Lemma same_run_results (s : ReduceBend.t) (v : Z) :
  same_run s
    (ReduceBend.set_rb_results s
       {| RbResults.nbr_bend_reduced := v;
          RbResults.nbr_bend_detected := RbResults.nbr_bend_detected (ReduceBend.rb_results s);
          RbResults.nbr_pass := RbResults.nbr_pass (ReduceBend.rb_results s);
          RbResults.nbr_line_smooth := RbResults.nbr_line_smooth (ReduceBend.rb_results s);
          RbResults.lines_log_info := RbResults.lines_log_info (ReduceBend.rb_results s) |}).
Proof. unfold same_run. repeat split. Qed.

Lemma process_bends_loop_Ok (m : nat) :
  forall (g g' : RbGeom.t) (r0 r : Z) (s s' : ReduceBend.t),
    process_bends_loop (rev (py_range 0 (0 + Z.of_nat m))) g r0 s = Ok ((r, g'), s') ->
    same_run s s'
    /\ (ready m g ->
        shrinks g g'
        /\ r0 <= r
        /\ numPoints (RbGeom.qgs_geom g') + (r - r0) <= numPoints (RbGeom.qgs_geom g)
        /\ RbGeom.is_simplest g' = RbGeom.is_simplest g).
Proof.
  induction m as [|m IH]; intros g g' r0 r s s' E.
  - cbn in E. unfold ret in E. inversion E; subst.
    split; [apply same_run_refl|]. intros _.
    split; [apply shrinks_refl|]. split; [lia|]. split; [lia | reflexivity].
  - rewrite py_range_succ, rev_app_distr in E. cbn [rev app] in E.
    cbn [process_bends_loop] in E. rewrite Z.add_0_l in E.
    apply bind_Ok in E. destruct E as (candidate & s1 & Ec & E).
    apply lift_Ok in Ec. cbn [fst snd] in Ec. destruct Ec as [Ec ->].
    assert (Hm0 : 0 <= Z.of_nat m) by lia.
    destruct (py_get_Ok_nonneg _ _ _ Hm0 Ec) as [Hnth Hlt]. rewrite Nat2Z.id in Hnth.
    destruct (Bend.to_reduce candidate) eqn:Em.
    2: { destruct (IH _ _ _ _ _ _ E) as [Hrun Himp].
         split; [exact Hrun|]. intros Hready. apply Himp. apply ready_weaken. exact Hready. }
    apply bind_Ok in E. destruct E as ([ok g1] & s2 & Ev & E).
    destruct (validate_spatial_constraints_Ok _ _ _ _ _ _ Hm0 Ev)
      as (bend & stored & bends1 & itself & others & fb & Hget & _ & Hset & -> & -> & Hspan & _).
    rewrite Ec in Hget. inversion Hget; subst bend; clear Hget.
    destruct (py_set_Ok_nonneg _ _ _ _ Hm0 Hset) as [_ Hbends1]. rewrite Nat2Z.id in Hbends1.
    assert (Hmlen : (m < List.length (map span (RbGeom.bends g)))%nat).
    { rewrite length_map. unfold py_len in Hlt. lia. }
    assert (Hsame : forall k, k <> m ->
               nth_error (map span bends1) k = nth_error (map span (RbGeom.bends g)) k).
    { intros k Hk. rewrite Hbends1, map_replace, nth_error_replace by exact Hmlen.
      destruct (Nat.eqb_spec k m); [contradiction | reflexivity]. }
    assert (Hready1 : ready (S m) g -> ready m (RbGeom.set_bends g bends1)).
    { intros (Hline & Hvalid & Hsep). split; [exact Hline|]. cbn. split.
      - intros k sp Hk. rewrite Hsame by lia. apply Hvalid. lia.
      - intros k l sk sl Hkl Hl. rewrite !Hsame by lia. apply Hsep; lia. }
    destruct ok.
    + apply bind_Ok in E. destruct E as (bend & s3 & Eb & E).
      apply lift_Ok in Eb. cbn [fst snd] in Eb. destruct Eb as [Eb ->].
      cbn in Eb. rewrite (py_get_py_set _ _ _ _ _ Hm0 Hm0 Hset), Z.eqb_refl in Eb.
      inversion Eb; subst bend; clear Eb.
      apply bind_Ok in E. destruct E as (self2 & s4 & Eg & E).
      apply get_Ok in Eg. destruct Eg as [-> ->].
      apply bind_Ok in E. destruct E as (u & s5 & Esm & E).
      assert (Hrun5 : same_run s s5).
      { destruct (ReduceBend.smooth_line (ReduceBend.set_feedback s fb));
          unfold put, ret in Esm; inversion Esm;
          [eapply same_run_trans; [apply same_run_feedback | apply same_run_bends_reduced]
          | apply same_run_feedback]. }
      clear Esm.
      apply bind_Ok in E. destruct E as (g2 & s6 & Edel & E).
      apply on_collection_Ok in Edel. cbn [fst snd] in Edel. destruct Edel as (c & Edel & ->).
      pose proof (delete_vertex_Ok _ _ _ _ _ _ Edel) as Hg2.
      pose proof (delete_vertex_le _ _ _ _ _ _ Edel) as (_ & _ & D3 & D4 & D5).
      apply bind_Ok in E. destruct E as (self3 & s7 & Eg & E).
      apply get_Ok in Eg. destruct Eg as [-> ->].
      apply bind_Ok in E. destruct E as (u2 & s8 & Ep & E).
      apply put_Ok in Ep. subst s8.
      destruct (IH _ _ _ _ _ _ E) as [Hrun Himp].
      split.
      * eapply same_run_trans; [exact Hrun5|].
        eapply same_run_trans; [apply same_run_collection|].
        eapply same_run_trans; [apply same_run_results | exact Hrun].
      * intros Hready. pose proof Hready as (Hline & Hvalid & Hsep).
        assert (Hvc : valid_span (numPoints (RbGeom.qgs_geom g)) (span candidate)).
        { apply (Hvalid m); [lia | rewrite nth_error_map, Hnth; reflexivity | exact Em]. }
        assert (Hvs : 0 <= Bend.i stored /\ Bend.i stored + 2 <= Bend.j stored
                      /\ Bend.j stored < numPoints (RbGeom.qgs_geom g)
                      /\ Bend.i candidate <= Bend.i stored).
        { unfold valid_span, span_i, span_j, span in Hvc. cbn in Hvc.
          destruct Hspan as [[-> ->]|(S1 & S2 & S3)]; lia. }
        destruct Hvs as (V1 & V2 & V3 & V4).
        destruct (delete_vertex_count _ _ _ _ _ _ Edel) as [Hline2 Hcount]; cbn;
          try lia; [exact Hline|].
        cbn in Hcount.
        assert (Hready2 : ready m g2).
        { split; [exact Hline2|].
          assert (Hb2 : RbGeom.bends g2 = bends1) by (rewrite Hg2; reflexivity).
          rewrite Hb2. split.
          - intros k sp Hk Hsp Hmk. rewrite Hsame in Hsp by lia.
            pose proof (Hvalid k sp ltac:(lia) Hsp Hmk) as Hv.
            pose proof (Hsep k m sp (span candidate) Hk ltac:(lia) Hsp
                          ltac:(rewrite nth_error_map, Hnth; reflexivity) Hmk Em) as Hle.
            unfold valid_span, span_i, span_j, span in *. cbn in *. lia.
          - intros k l sk sl Hkl Hl. rewrite !Hsame by lia. apply Hsep; lia. }
        destruct (Himp Hready2) as (Hs & Hr & Hn & Hsi).
        split; [|split; [lia|split; [lia|]]].
        -- eapply shrinks_trans; [|exact Hs]. unfold shrinks. cbn in *.
           repeat split; auto; try lia; try (intros _; exact Hline2).
        -- rewrite Hsi, Hg2. reflexivity.
    + destruct (IH _ _ _ _ _ _ E) as [Hrun Himp].
      split; [eapply same_run_trans; [apply same_run_feedback | exact Hrun]|].
      intros Hready. exact (Himp (Hready1 Hready)).
Qed.

(** ** One pass *)

Lemma detect_bends_shrinks (g g' : RbGeom.t) (n : Z) :
  detect_bends g = Ok (n, g') -> shrinks g g'.
Proof.
  intros E. apply detect_bends_Ok in E. destruct E as (Q1 & Q2 & Q3 & Q4 & _).
  unfold shrinks. rewrite Q1. repeat split; auto. lia.
Qed.

(** The bends a geometry carries out of [manage_bend_creation] were
    created by [detect_bends] on the geometry as it is then. *)
Lemma manage_bend_creation_Ok (min_nbr_pass nbr_pass n : Z) (g g1 : RbGeom.t) (d : Q)
  (s s1 : ReduceBend.t) :
  manage_bend_creation min_nbr_pass nbr_pass g d s = Ok ((n, g1), s1) ->
  same_run s s1
  /\ exists g0, shrinks g g0 /\ detect_bends g0 = Ok (n, g1).
Proof.
  unfold manage_bend_creation. intros E.
  apply bind_Ok in E. destruct E as (ga & sa & Ea & E).
  apply delete_co_linear_Ok in Ea. destruct Ea as (Sa & Ra & _).
  apply bind_Ok in E. destruct E as ([n0 gb] & sb & Eb & E).
  apply lift_Ok in Eb. cbn [fst snd] in Eb. destruct Eb as [Eb ->].
  destruct (RbGeom.is_closed gb
            && ((min_nbr_pass <=? nbr_pass) || (py_len (RbGeom.bends gb) <? 10))) eqn:Ec.
  - apply andb_true_iff in Ec. destruct Ec as [Ec1 Ec2]. rewrite Ec1, Ec2 in E.
    apply bind_Ok in E. destruct E as (gd & sd & Ed & E).
    apply delete_co_linear_Ok in Ed. destruct Ed as (Sd & Rd & _).
    apply lift_Ok in E. cbn [fst snd] in E. destruct E as [E ->].
    split; [eapply same_run_trans; eassumption|].
    exists gd. split; [|exact E].
    eapply shrinks_trans; [exact Sa|].
    eapply shrinks_trans; [eapply detect_bends_shrinks; exact Eb|].
    eapply shrinks_trans; [apply pivot_closed_line_shrinks | exact Sd].
  - assert (E' : ret (n0, gb) sa = Ok (n, g1, s1)).
    { destruct (RbGeom.is_closed gb); [|exact E].
      cbn [andb] in Ec. rewrite Ec in E. exact E. }
    unfold ret in E'. inversion E'; subst.
    split; [exact Ra|]. exists ga. split; [exact Sa | exact Eb].
Qed.

(** The number of vertices of all the geometries. *)
Fixpoint total_vertices (rb_geoms : list RbGeom.t) : Z :=
  match rb_geoms with
  | [] => 0
  | g :: rest => numPoints (RbGeom.qgs_geom g) + total_vertices rest
  end.

Lemma total_vertices_nonneg (rb_geoms : list RbGeom.t) : 0 <= total_vertices rb_geoms.
Proof.
  induction rb_geoms as [|g l IH]; cbn; [lia|].
  unfold numPoints. pose proof (py_len_nonneg (points (RbGeom.qgs_geom g))). lia.
Qed.

(** The geometries the engine reduces are line strings: a geometry that
    is not at its simplest form holds a line. *)
Definition reducible_is_line (g : RbGeom.t) : Prop :=
  RbGeom.is_simplest g = false -> is_line (RbGeom.qgs_geom g).

Lemma Forall2_shrinks_refl (l : list RbGeom.t) : Forall2 shrinks l l.
Proof. induction l; constructor; [apply shrinks_refl | assumption]. Qed.

Lemma Forall2_shrinks_total (l l' : list RbGeom.t) :
  Forall2 shrinks l l' -> total_vertices l' <= total_vertices l.
Proof.
  induction 1 as [|g g' l l' Hs _ IH]; cbn; [lia|].
  destruct Hs as (_ & _ & _ & Hn & _). lia.
Qed.

Lemma Forall2_shrinks_trans (l1 l2 l3 : list RbGeom.t) :
  Forall2 shrinks l1 l2 -> Forall2 shrinks l2 l3 -> Forall2 shrinks l1 l3.
Proof.
  intros H12. revert l3. induction H12 as [|a b l1 l2 Hab _ IH]; intros l3 H23.
  - inversion H23. constructor.
  - inversion H23; subst. constructor; [eapply shrinks_trans; eauto | auto].
Qed.

(** Detection, selection and reduction on one geometry. *)
Lemma reduce_one_geometry (min_nbr_pass nbr_pass n r : Z) (g g1 g2 g3 : RbGeom.t) (d : Q)
  (s s1 s2 : ReduceBend.t) :
  manage_bend_creation min_nbr_pass nbr_pass g d s = Ok ((n, g1), s1) ->
  flag_bend_to_reduce g1 d = Ok g2 ->
  process_bends g2 s1 = Ok ((r, g3), s2) ->
  same_run s s2
  /\ (is_line (RbGeom.qgs_geom g) ->
      shrinks g g3 /\ 0 <= r
      /\ numPoints (RbGeom.qgs_geom g3) + r <= numPoints (RbGeom.qgs_geom g)).
Proof.
  intros Em Ef Ep.
  apply manage_bend_creation_Ok in Em. destruct Em as (R1 & g0 & S0 & Ed).
  destruct (detect_then_flag _ _ _ d Ed) as (g2' & Ef' & F1 & F2 & F3 & F4 & Hv & Hno & Hsep).
  rewrite Ef in Ef'. inversion Ef'; subst g2'; clear Ef'.
  unfold process_bends in Ep. unfold py_len in Ep.
  rewrite <- (Z.add_0_l (Z.of_nat (List.length (RbGeom.bends g2)))) in Ep.
  apply process_bends_loop_Ok in Ep. destruct Ep as [R2 Himp].
  split; [eapply same_run_trans; eassumption|].
  intros Hline.
  assert (Hline0 : is_line (RbGeom.qgs_geom g0)) by (apply S0; exact Hline).
  destruct Himp as (S3 & Hr & Hn & _).
  { split; [rewrite F1; exact Hline0|]. split.
    - intros k sp _ Hk _. rewrite Forall_forall in Hv. apply Hv.
      eapply nth_error_In; eauto.
    - intros k l sk sl Hkl _. apply Hsep. exact Hkl. }
  assert (S02 : shrinks g0 g2).
  { unfold shrinks. rewrite F1, F2, F3, F4. repeat split; auto. lia. }
  split; [|split; [lia|]].
  - eapply shrinks_trans; [exact S0|]. eapply shrinks_trans; [exact S02 | exact S3].
  - destruct S0 as (_ & _ & _ & N0 & _). rewrite F1 in Hn. lia.
Qed.

Lemma pass_geoms_Ok (min_nbr_pass : Z) (rb_geoms : list RbGeom.t) :
  forall (d0 r0 d1 r1 : Z) (rb_geoms' : list RbGeom.t) (s s' : ReduceBend.t),
    pass_geoms rb_geoms min_nbr_pass d0 r0 s = Ok ((rb_geoms', d1, r1), s') ->
    same_run s s'
    /\ (Forall reducible_is_line rb_geoms ->
        Forall2 shrinks rb_geoms rb_geoms'
        /\ Forall reducible_is_line rb_geoms'
        /\ r0 <= r1
        /\ total_vertices rb_geoms' + (r1 - r0) <= total_vertices rb_geoms).
Proof.
  induction rb_geoms as [|g rest IH]; intros d0 r0 d1 r1 rb_geoms' s s' E.
  - cbn in E. unfold ret in E. inversion E; subst.
    split; [apply same_run_refl|]. intros _.
    repeat split; try constructor; cbn; lia.
  - cbn [pass_geoms] in E.
    apply bind_Ok in E. destruct E as (self & sa & Eg & E).
    apply get_Ok in Eg. destruct Eg as [-> ->].
    destruct (QgsFeedback.isCanceled (ReduceBend.feedback s)) as [canceled feedback].
    apply bind_Ok in E. destruct E as (u & sb & Ep & E).
    apply put_Ok in Ep. subst sb.
    destruct canceled.
    + unfold ret in E. inversion E; subst.
      split; [apply same_run_feedback|]. intros Hwf.
      split; [apply Forall2_shrinks_refl|]. split; [exact Hwf|]. split; lia.
    + destruct (RbGeom.is_simplest g) eqn:Esi; cbn [negb] in E.
      * apply bind_Ok in E. destruct E as ([[rest' d'] r'] & sc & Er & E).
        unfold ret in E. inversion E; subst; clear E.
        destruct (IH _ _ _ _ _ _ _ Er) as [Hrun Himp].
        split; [eapply same_run_trans; [apply same_run_feedback | exact Hrun]|].
        intros Hwf. inversion Hwf as [|? ? Hg Hrest]; subst.
        destruct (Himp Hrest) as (H2 & Hwf' & Hr & Ht).
        split; [constructor; [apply shrinks_refl | exact H2]|].
        split; [constructor; assumption|]. split; [exact Hr|]. cbn. lia.
      * apply bind_Ok in E. destruct E as (self & sc & Eg & E).
        apply get_Ok in Eg. destruct Eg as [-> ->].
        apply bind_Ok in E. destruct E as ([n g1] & s1 & Em & E).
        apply bind_Ok in E. destruct E as (g2 & s1' & Ef & E).
        apply lift_Ok in Ef. cbn [fst snd] in Ef. destruct Ef as [Ef ->].
        apply bind_Ok in E. destruct E as ([r g3] & s2 & Epb & E).
        apply bind_Ok in E. destruct E as ([[rest' d'] r'] & sc & Er & E).
        unfold ret in E. inversion E; subst; clear E.
        cbn in Ef.
        destruct (reduce_one_geometry _ _ _ _ _ _ _ _ _ _ _ _ Em Ef Epb) as [Hrun1 Himp1].
        destruct (IH _ _ _ _ _ _ _ Er) as [Hrun Himp].
        split.
        { eapply same_run_trans; [apply same_run_feedback|].
          eapply same_run_trans; [exact Hrun1 | exact Hrun]. }
        intros Hwf. inversion Hwf as [|? ? Hg Hrest]; subst.
        destruct (Himp1 (Hg Esi)) as (S3 & Hr3 & Hn3).
        destruct (Himp Hrest) as (H2 & Hwf' & Hr & Ht).
        split; [constructor; assumption|].
        split; [constructor; [|exact Hwf']|].
        { intros _. destruct S3 as (_ & _ & _ & _ & L). exact (L (Hg Esi)). }
        split; [lia|]. cbn. lia.
Qed.

(** ** The convergence loop *)

Definition nbr_pass_of (s : ReduceBend.t) : Z := RbResults.nbr_pass (ReduceBend.rb_results s).

Definition log_of (s : ReduceBend.t) : list RbResults.LogLine :=
  RbResults.lines_log_info (ReduceBend.rb_results s).

(** One pass appends one line to the log, with the number of the pass and
    the number of bends it reduced; it does not count the pass. *)
Lemma one_pass_Ok (min_nbr_pass r : Z) (s s' : ReduceBend.t) :
  one_pass min_nbr_pass s = Ok (r, s') ->
  (nbr_pass_of s' = nbr_pass_of s
   /\ ReduceBend.smooth_line s' = ReduceBend.smooth_line s
   /\ ReduceBend.diameter_tol s' = ReduceBend.diameter_tol s
   /\ exists line, log_of s' = log_of s ++ [line]
                   /\ RbResults.iteration line = nbr_pass_of s
                   /\ RbResults.bend_reduced line = r)
  /\ (Forall reducible_is_line (ReduceBend.rb_geoms s) ->
      Forall2 shrinks (ReduceBend.rb_geoms s) (ReduceBend.rb_geoms s')
      /\ Forall reducible_is_line (ReduceBend.rb_geoms s')
      /\ 0 <= r
      /\ total_vertices (ReduceBend.rb_geoms s') + r <= total_vertices (ReduceBend.rb_geoms s)).
Proof.
  unfold one_pass. intros E.
  apply bind_Ok in E. destruct E as (self & sa & Eg & E).
  apply get_Ok in Eg. destruct Eg as [-> ->].
  apply bind_Ok in E. destruct E as ([[geoms' d1] r1] & sb & Ep & E).
  apply pass_geoms_Ok in Ep. destruct Ep as [Hrun Himp].
  apply bind_Ok in E. destruct E as (self & sc & Eg & E).
  apply get_Ok in Eg. destruct Eg as [-> ->].
  apply bind_Ok in E. destruct E as (u & sd & Ep & E).
  apply put_Ok in Ep. subst sd.
  unfold ret in E. inversion E; subst; clear E.
  destruct Hrun as (R1 & R2 & R3 & R4 & R5 & R6).
  unfold nbr_pass_of, log_of. cbn. split.
  - repeat split; auto. eexists. split; [rewrite R5; reflexivity|].
    cbn. split; [exact R4 | reflexivity].
  - intros Hwf. destruct (Himp Hwf) as (H2 & Hwf' & Hr & Ht).
    repeat split; auto; lia.
Qed.

Lemma set_nbr_pass_fields (s : ReduceBend.t) (v : Z) :
  nbr_pass_of (set_nbr_pass s v) = v
  /\ log_of (set_nbr_pass s v) = log_of s
  /\ ReduceBend.rb_geoms (set_nbr_pass s v) = ReduceBend.rb_geoms s
  /\ ReduceBend.smooth_line (set_nbr_pass s v) = ReduceBend.smooth_line s
  /\ ReduceBend.diameter_tol (set_nbr_pass s v) = ReduceBend.diameter_tol s.
Proof. unfold nbr_pass_of, log_of, set_nbr_pass. cbn. repeat split. Qed.

(** How the loop ends when it ends: the log has one more line for every
    pass, numbered from the counter on; the last pass reduced no bend and
    its number is above the minimum; no earlier pass was such a pass. *)
Definition exit_log (min_nbr_pass first : Z) (lines : list RbResults.LogLine)
  (last : RbResults.LogLine) : Prop :=
  (forall k line, nth_error (lines ++ [last]) k = Some line ->
                  RbResults.iteration line = first + Z.of_nat k)
  /\ RbResults.bend_reduced last = 0
  /\ min_nbr_pass < RbResults.iteration last
  /\ (forall line, In line lines ->
        ~ (min_nbr_pass < RbResults.iteration line /\ RbResults.bend_reduced line = 0)).

Lemma _manage_reduce_bend_loop_Done (min_nbr_pass : Z) (fuel : nat) :
  forall s s',
    _manage_reduce_bend_loop fuel min_nbr_pass s = Done s' ->
    (ReduceBend.smooth_line s' = ReduceBend.smooth_line s
     /\ exists lines last,
          log_of s' = log_of s ++ lines ++ [last]
          /\ nbr_pass_of s' = nbr_pass_of s + Z.of_nat (List.length lines)
          /\ exit_log min_nbr_pass (nbr_pass_of s) lines last)
    /\ (Forall reducible_is_line (ReduceBend.rb_geoms s) ->
        Forall2 shrinks (ReduceBend.rb_geoms s) (ReduceBend.rb_geoms s')).
Proof.
  induction fuel as [|fuel IH]; intros s s' E; cbn [_manage_reduce_bend_loop] in E;
    [discriminate|].
  destruct (one_pass min_nbr_pass s) as [[r s1]|] eqn:Ep; [|discriminate].
  apply one_pass_Ok in Ep.
  destruct Ep as [(P1 & P2 & P3 & line & P4 & P5 & P6) Pimp].
  fold (nbr_pass_of s1) in E.
  destruct ((min_nbr_pass <? nbr_pass_of s1) && (r =? 0)) eqn:Ex.
  - inversion E; subst s'; clear E.
    apply andb_true_iff in Ex. destruct Ex as [Ex1 Ex2].
    apply Z.ltb_lt in Ex1. apply Z.eqb_eq in Ex2.
    split; [split; [exact P2|]|].
    + exists [], line. cbn [app List.length]. split; [exact P4|]. split; [lia|].
      unfold exit_log. split; [|split; [congruence|split; [lia|intros ? []]]].
      intros k l Hk. destruct k as [|k]; cbn in Hk; [|destruct k; discriminate].
      inversion Hk; subst. lia.
    + intros Hwf. apply Pimp. exact Hwf.
  - destruct (set_nbr_pass_fields s1 (nbr_pass_of s1 + 1)) as (N1 & N2 & N3 & N4 & N5).
    destruct (IH _ _ E) as [(Q1 & lines & last & Q2 & Q3 & Q4) Qimp].
    split; [split; [congruence|]|].
    + exists (line :: lines), last. cbn [app List.length].
      split; [rewrite Q2, N2, P4, <- app_assoc; reflexivity|].
      split; [rewrite Q3, N1, P1; lia|].
      destruct Q4 as (K1 & K2 & K3 & K4). rewrite N1, P1 in K1.
      unfold exit_log. split; [|split; [exact K2|split; [exact K3|]]].
      * intros k l Hk. destruct k as [|k]; cbn in Hk.
        -- inversion Hk; subst. lia.
        -- rewrite (K1 _ _ Hk). lia.
      * intros l [<-|Hl]; [|exact (K4 l Hl)].
        intros [A B]. rewrite P5, <- P1 in A. apply Z.ltb_lt in A.
        rewrite P6 in B. apply Z.eqb_eq in B. rewrite A, B in Ex. discriminate.
    + intros Hwf. destruct (Pimp Hwf) as (H2 & Hwf' & _).
      eapply Forall2_shrinks_trans; [exact H2|].
      apply Qimp. rewrite N3. exact Hwf'.
Qed.

(** With fuel for one pass per vertex and three more, the loop does not
    run out of fuel: it ends, or an exception ends it. *)
Lemma _manage_reduce_bend_loop_ends (fuel : nat) :
  forall s,
    Forall reducible_is_line (ReduceBend.rb_geoms s) ->
    0 <= nbr_pass_of s ->
    total_vertices (ReduceBend.rb_geoms s) + 3 - Z.min (nbr_pass_of s) 2 <= Z.of_nat fuel ->
    _manage_reduce_bend_loop fuel 1 s <> OutOfFuel.
Proof.
  induction fuel as [|fuel IH]; intros s Hwf Hnp Hfuel.
  - pose proof (total_vertices_nonneg (ReduceBend.rb_geoms s)). lia.
  - cbn [_manage_reduce_bend_loop].
    destruct (one_pass 1 s) as [[r s1]|] eqn:Ep; [|discriminate].
    apply one_pass_Ok in Ep.
    destruct Ep as [(P1 & _) Pimp]. destruct (Pimp Hwf) as (_ & Hwf' & Hr & Ht).
    fold (nbr_pass_of s1).
    destruct ((1 <? nbr_pass_of s1) && (r =? 0)) eqn:Ex; [discriminate|].
    destruct (set_nbr_pass_fields s1 (nbr_pass_of s1 + 1)) as (N1 & _ & N3 & _).
    apply IH.
    + rewrite N3. exact Hwf'.
    + rewrite N1. lia.
    + rewrite N1, N3, P1.
      apply andb_false_iff in Ex. destruct Ex as [Ex|Ex].
      * apply Z.ltb_ge in Ex. lia.
      * apply Z.eqb_neq in Ex. lia.
Qed.

(** C3.  When [_manage_reduce_bend] returns, its log holds one line per
    pass, numbered from 0.  The last pass reduced no bend: the loop exits
    only after such a pass.  The minimum pass count is 1 and the exit test
    asks for a pass number above it, so the passes 0, 1 and 2 always run
    (at least one more than the first, whatever the first reduces), and
    every pass numbered above 1 other than the last reduced some bend: the
    first pass above the minimum that reduces nothing is the last. *)
Theorem _manage_reduce_bend_exit (fuel : nat) (self self' : ReduceBend.t) :
  _manage_reduce_bend fuel self = Done self' ->
  exists lines last,
    log_of self' = log_of self ++ lines ++ [last]
    /\ (forall k line, nth_error (lines ++ [last]) k = Some line ->
                       RbResults.iteration line = Z.of_nat k)
    /\ nbr_pass_of self' = Z.of_nat (List.length lines)
    /\ RbResults.bend_reduced last = 0
    /\ (2 <= List.length lines)%nat
    /\ (forall line, In line lines -> 1 < RbResults.iteration line ->
                     RbResults.bend_reduced line <> 0).
Proof.
  unfold _manage_reduce_bend. intros E.
  apply _manage_reduce_bend_loop_Done in E.
  destruct E as [(_ & lines & last & L1 & L2 & K1 & K2 & K3 & K4) _].
  destruct (set_nbr_pass_fields self 0) as (N1 & N2 & _).
  rewrite N1 in *. rewrite N2 in L1.
  exists lines, last. repeat split; auto.
  - specialize (K1 (List.length lines) last).
    rewrite nth_error_app2, Nat.sub_diag in K1 by lia. specialize (K1 eq_refl). lia.
  - intros line Hin Hit Hz. exact (K4 line Hin (conj Hit Hz)).
Qed.

Lemma _manage_reduce_bend_loop_passes (fuel : nat) :
  forall s s',
    Forall reducible_is_line (ReduceBend.rb_geoms s) ->
    0 <= nbr_pass_of s ->
    _manage_reduce_bend_loop fuel 1 s = Done s' ->
    nbr_pass_of s' + 1 - nbr_pass_of s
    <= total_vertices (ReduceBend.rb_geoms s) + 3 - Z.min (nbr_pass_of s) 2.
Proof.
  induction fuel as [|fuel IH]; intros s s' Hwf Hnp E; cbn [_manage_reduce_bend_loop] in E;
    [discriminate|].
  destruct (one_pass 1 s) as [[r s1]|] eqn:Ep; [|discriminate].
  apply one_pass_Ok in Ep.
  destruct Ep as [(P1 & _) Pimp]. destruct (Pimp Hwf) as (_ & Hwf' & Hr & Ht).
  fold (nbr_pass_of s1) in E.
  pose proof (total_vertices_nonneg (ReduceBend.rb_geoms s1)) as Hnn.
  destruct ((1 <? nbr_pass_of s1) && (r =? 0)) eqn:Ex.
  - inversion E; subst s'. lia.
  - destruct (set_nbr_pass_fields s1 (nbr_pass_of s1 + 1)) as (N1 & _ & N3 & _).
    apply IH in E; [|rewrite N3; exact Hwf' | rewrite N1; lia].
    rewrite N1, N3, P1 in E.
    apply andb_false_iff in Ex. destruct Ex as [Ex|Ex].
    + apply Z.ltb_ge in Ex. lia.
    + apply Z.eqb_neq in Ex. lia.
Qed.

(** C8.  The pass loop terminates.  A pass that reduces [r] bends leaves
    at least [r] vertices fewer over all the geometries, and no geometry
    with more vertices: a pass that reduces a bend strictly decreases the
    total.  So with fuel for as many passes as there are vertices, and
    three more, the loop does not run out of fuel; and when it returns,
    it has run at most that many passes. *)
Theorem _manage_reduce_bend_terminates (self : ReduceBend.t) :
  Forall reducible_is_line (ReduceBend.rb_geoms self) ->
  (forall s r s',
      Forall reducible_is_line (ReduceBend.rb_geoms s) ->
      one_pass 1 s = Ok (r, s') ->
      0 <= r
      /\ total_vertices (ReduceBend.rb_geoms s') + r <= total_vertices (ReduceBend.rb_geoms s)
      /\ Forall2 (fun g g' => numPoints (RbGeom.qgs_geom g') <= numPoints (RbGeom.qgs_geom g))
           (ReduceBend.rb_geoms s) (ReduceBend.rb_geoms s')
      /\ Forall reducible_is_line (ReduceBend.rb_geoms s'))
  /\ (forall fuel,
         total_vertices (ReduceBend.rb_geoms self) + 3 <= Z.of_nat fuel ->
         _manage_reduce_bend fuel self <> OutOfFuel)
  /\ (forall fuel self',
         _manage_reduce_bend fuel self = Done self' ->
         nbr_pass_of self' + 1 <= total_vertices (ReduceBend.rb_geoms self) + 3).
Proof.
  intros Hwf.
  destruct (set_nbr_pass_fields self 0) as (N1 & _ & N3 & _).
  split; [|split].
  - intros s r s' Hs E. apply one_pass_Ok in E. destruct E as [_ Himp].
    destruct (Himp Hs) as (H2 & Hwf' & Hr & Ht).
    repeat split; auto.
    eapply Forall2_impl; [|exact H2]. intros g g' (_ & _ & _ & Hn & _). exact Hn.
  - intros fuel Hfuel. unfold _manage_reduce_bend.
    apply _manage_reduce_bend_loop_ends; rewrite ?N1, ?N3; [exact Hwf | lia | lia].
  - intros fuel self' E. unfold _manage_reduce_bend in E.
    apply _manage_reduce_bend_loop_passes in E; rewrite ?N1, ?N3 in *; [lia | exact Hwf | lia].
Qed.

(** C4, as the program has it.  When the smoothing flag is off, every
    geometry [reduce_bends] hands back is the geometry of the same path
    with at most as many vertices as it had. *)
Theorem reduce_bends_adds_no_vertex_without_smoothing (fuel : nat) (self self' : ReduceBend.t) :
  Forall reducible_is_line (ReduceBend.rb_geoms self) ->
  ReduceBend.smooth_line self = false ->
  reduce_bends fuel self = Done self' ->
  Forall2 (fun g g' => RbGeom.id g' = RbGeom.id g
                       /\ numPoints (RbGeom.qgs_geom g') <= numPoints (RbGeom.qgs_geom g))
    (ReduceBend.rb_geoms self) (ReduceBend.rb_geoms self').
Proof.
  intros Hwf Hsm E. unfold reduce_bends in E.
  set (s0 := ReduceBend.set_rb_collection (ReduceBend.set_rb_results self RbResults.init)
               RbCollection.init) in E.
  destruct (ReduceBend.on_collection (RbCollection.add_features (ReduceBend.rb_geoms s0)) s0)
    as [[u s1]|] eqn:Ea; [|discriminate].
  apply on_collection_Ok in Ea. cbn [fst snd] in Ea. destruct Ea as (c & _ & ->).
  destruct (_manage_reduce_bend fuel (ReduceBend.set_rb_collection s0 c)) as [s2| |] eqn:Em;
    try discriminate.
  unfold _manage_reduce_bend in Em.
  apply _manage_reduce_bend_loop_Done in Em. destruct Em as [(Hs & _) Himp].
  cbn in Hs. rewrite Hsm in Hs. rewrite Hs in E. inversion E; subst self'; clear E.
  cbn in Himp. specialize (Himp Hwf).
  eapply Forall2_impl; [|exact Himp]. intros g g' (Hid & _ & _ & Hn & _). split; assumption.
Qed.

End Properties.

(** * The program on concrete lines

    The geometry library is [ExactQgs]; the host never cancels. *)

#[local] Existing Instance ExactQgs.api.

Definition never_canceled : QgsFeedback.t :=
  {| QgsFeedback.canceled := fun _ => false; QgsFeedback.polls := 0;
     QgsFeedback.info := [] |}.

(** An open line is simple when two segments that follow each other share
    their common vertex only and any two other segments share no point. *)
Definition folds_back (s t : QgsPoint * QgsPoint) : bool :=
  Qeq_bool (ExactQgs.cross (fst s) (snd s) (snd t)) 0
  && (ExactQgs.on_segment (fst s) (snd s) (snd t)
      || ExactQgs.on_segment (fst t) (snd t) (fst s)).

Fixpoint simple_segments (segs : list (QgsPoint * QgsPoint)) : bool :=
  match segs with
  | [] => true
  | s :: rest =>
      match rest with
      | [] => true
      | t :: others =>
          negb (folds_back s t)
          && forallb (fun u => negb (ExactQgs.segments_intersect
                                       (fst s) (snd s) (fst u) (snd u))) others
          && simple_segments rest
      end
  end.

Definition is_simple (l : list QgsPoint) : bool :=
  simple_segments (ExactQgs.segments_of_points l).

Section Concrete.

Context `{Epsilon}.

(** The state in which [reduce_bends] enters the pass loop. *)
Definition registered (self : ReduceBend.t) : ReduceBend.t :=
  let self := ReduceBend.set_rb_results self RbResults.init in
  let self := ReduceBend.set_rb_collection self RbCollection.init in
  match ReduceBend.on_collection
          (RbCollection.add_features (ReduceBend.rb_geoms self)) self with
  | Ok (_, self) => self
  | Raise _ => self
  end.

(** A geometry as [process_bends] receives it in a pass: its bends
    detected, those to reduce flagged. *)
Definition flagged (rb_geom : RbGeom.t) (diameter_tol : Q) : RbGeom.t :=
  match detect_bends rb_geom with
  | Ok (_, detected) =>
      match flag_bend_to_reduce detected diameter_tol with
      | Ok rb_geom => rb_geom
      | Raise _ => detected
      end
  | Raise _ => rb_geom
  end.

Definition spans (rb_geom : RbGeom.t) : list (Z * Z * bool) :=
  map (fun b => (Bend.i b, Bend.j b, Bend.to_reduce b)) (RbGeom.bends rb_geom).

Definition paths (self : ReduceBend.t) : list (list QgsPoint) :=
  map (fun g => points (RbGeom.qgs_geom g)) (ReduceBend.rb_geoms self).

End Concrete.

(** ** A keyhole

    A line that runs down through the mouth of a loop; the mouth, from
    (0, 0) to (4, 0), is narrower than the relative epsilon of 10 the far
    end of the line gives ([log_loss] is 14 for an extent of 2e13). *)
Section Keyhole.

#[local] Instance keyhole_epsilon : Epsilon := Epsilon_init 14.

Definition keyhole : list QgsPoint :=
  [(2, 50); (2, -1000); (-1000, -1000); (0, 0); (-100, 100); (100, 100); (4, 0);
   (1000, -1000); (20000000000000, -1000)]%Q.

Definition keyhole_geom : RbGeom.t := RbGeom.init 1 (QgsLineString keyhole) WkbLineString.

Definition keyhole_run : ReduceBend.t := ReduceBend.init [keyhole_geom] 200 false never_canceled.

(** The same line with a mouth 2000 wide, a doorway, for a run on the
    diameter 1500. *)
Definition doorway : list QgsPoint :=
  [(2, 50); (2, -100000); (-100000, -100000); (0, 0); (-100, 100); (2100, 100); (2000, 0);
   (100000, -100000); (20000000000000, -100000)]%Q.

Definition doorway_geom : RbGeom.t := RbGeom.init 1 (QgsLineString doorway) WkbLineString.

Definition doorway_run : ReduceBend.t :=
  ReduceBend.init [doorway_geom] 1500 false never_canceled.

(** The mouth of the keyhole is the chord of the bend at place 2: it is
    approved without a look at the line through it. *)
Lemma validate_skips_simplicity_on_short_chord_witness :
  spans (flagged keyhole_geom 200) = [(0, 3, false); (2, 4, false); (3, 6, true); (5, 8, false)]
  /\ exists rb_geom' self',
       validate_spatial_constraints 2 (flagged keyhole_geom 200) (registered keyhole_run)
       = Ok ((true, rb_geom'), self')
       /\ QgsFeedback.info (ReduceBend.feedback self')
          = [("Possibly non OGC simple feature at {},{} use Fix geometries"%string,
              [0%Q; 0%Q])].
Proof.
  split; [vm_compute; reflexivity|].
  edestruct (validate_skips_simplicity_on_short_chord 2 (flagged keyhole_geom 200)
               (registered keyhole_run)) as (bends' & Hset & Hval).
  - vm_compute; reflexivity.
  - vm_compute; reflexivity.
  - vm_compute; reflexivity.
  - rewrite Hval. eexists _, _. split; [reflexivity|]. vm_compute. reflexivity.
Defined.

(** C1.  Simplicity is not preserved: the program commits reductions that
    make a simple line cross itself, in both branches of the simplicity
    check of [validate_spatial_constraints].

    The keyhole is simple.  Its bend at place 2, from vertex 3 to vertex 6,
    has the chord from (0, 0) to (4, 0), shorter than the relative epsilon
    10 of a run on this extent; [validate_spatial_constraints] approves it
    with a message and compares the chord with no line of the keyhole.
    [reduce_bends] returns the line with the mouth closed by that chord,
    which the first segment of the line crosses at (2, 0): the output is
    not simple.

    The doorway is simple.  The chord of its bend at place 2 runs from
    (0, 0) to (2000, 0); the check is made, on the chord trimmed to
    (10, 0) .. (1990, 0), which is disjoint from the line, and the bend is
    approved without a message.  [reduce_bends] returns the line with the
    doorway closed, crossed at (2, 0), between the end of the chord and the
    end of the trimmed chord, by the first segment: the output is not
    simple. *)
Theorem reduce_bends_keyhole_not_simple :
  (ZERO_RELATIVE == 10)%Q
  /\ (is_simple keyhole = true
      /\ (exists bend rb_geom' self',
            py_get (RbGeom.bends (flagged keyhole_geom 200)) 2 = Ok bend
            /\ (Bend.i bend, Bend.j bend, Bend.to_reduce bend) = (3, 6, true)
            /\ fst (get_new_subline bend 200 (flagged keyhole_geom 200))
               = QgsLineString [(0, 0); (4, 0)]%Q
            /\ validate_spatial_constraints 2 (flagged keyhole_geom 200)
                 (registered keyhole_run)
               = Ok ((true, rb_geom'), self')
            /\ QgsFeedback.info (ReduceBend.feedback self')
               = [("Possibly non OGC simple feature at {},{} use Fix geometries"%string,
                   [0%Q; 0%Q])])
      /\ exists self' path,
           reduce_bends 10 keyhole_run = Done self'
           /\ paths self' = [path]
           /\ path = [(2, 50); (2, -1000); (-1000, -1000); (0, 0); (4, 0); (1000, -1000);
                      (20000000000000, -1000)]%Q
           /\ is_simple path = false)
  /\ (is_simple doorway = true
      /\ (exists bend rb_geom' self' stored,
            py_get (RbGeom.bends (flagged doorway_geom 1500)) 2 = Ok bend
            /\ (Bend.i bend, Bend.j bend, Bend.to_reduce bend) = (3, 6, true)
            /\ validate_spatial_constraints 2 (flagged doorway_geom 1500)
                 (registered doorway_run)
               = Ok ((true, rb_geom'), self')
            /\ QgsFeedback.info (ReduceBend.feedback self') = []
            /\ py_get (RbGeom.bends rb_geom') 2 = Ok stored
            /\ Bend.qgs_geom_new_subline stored
               = Some (QgsLineString [(0, 0); (2000, 0)]%Q)
            /\ Bend.qgs_geom_new_subline_trimmed stored
               = Some (QgsLineString [(10, 0); (1990, 0)]%Q))
      /\ exists self' path,
           reduce_bends 10 doorway_run = Done self'
           /\ paths self' = [path]
           /\ path = [(2, 50); (2, -100000); (-100000, -100000); (0, 0); (2000, 0);
                      (100000, -100000); (20000000000000, -100000)]%Q
           /\ is_simple path = false).
Proof.
  split; [vm_compute; reflexivity|].
  split.
  - split; [vm_compute; reflexivity|].
    split.
    + eexists _, _, _.
      split; [vm_compute; reflexivity|].
      split; [vm_compute; reflexivity|].
      split; [vm_compute; reflexivity|].
      split; vm_compute; reflexivity.
    + eexists _, _.
      split; [vm_compute; reflexivity|].
      split; [vm_compute; reflexivity|].
      split; vm_compute; reflexivity.
  - split; [vm_compute; reflexivity|].
    split.
    + eexists _, _, _, _.
      split; [vm_compute; reflexivity|].
      split; [vm_compute; reflexivity|].
      split; [vm_compute; reflexivity|].
      split; [vm_compute; reflexivity|].
      split; [vm_compute; reflexivity|].
      split; vm_compute; reflexivity.
    + eexists _, _.
      split; [vm_compute; reflexivity|].
      split; [vm_compute; reflexivity|].
      split; vm_compute; reflexivity.
Qed.

Lemma _manage_reduce_bend_exit_witness :
  exists self' lines last,
    _manage_reduce_bend 10 (registered keyhole_run) = Done self'
    /\ log_of self' = lines ++ [last]
    /\ map RbResults.bend_reduced (lines ++ [last]) = [1; 0; 0]
    /\ RbResults.bend_reduced last = 0
    /\ (2 <= List.length lines)%nat.
Proof.
  assert (E : exists self', _manage_reduce_bend 10 (registered keyhole_run) = Done self')
    by (eexists; vm_compute; reflexivity).
  destruct E as [self' E].
  destruct (_manage_reduce_bend_exit 10 (registered keyhole_run) self' E)
    as (lines & last & Hlog & _ & _ & Hlast & Hmin & _).
  exists self', lines, last.
  split; [exact E|]. split; [exact Hlog|]. split; [|split; assumption].
  change (log_of (registered keyhole_run)) with (@nil RbResults.LogLine) in Hlog.
  cbn [app] in Hlog. rewrite <- Hlog.
  revert E. vm_compute. intros E. injection E as <-. reflexivity.
Defined.

Lemma _manage_reduce_bend_terminates_witness :
  total_vertices (ReduceBend.rb_geoms (registered keyhole_run)) = 9
  /\ _manage_reduce_bend 12 (registered keyhole_run) <> OutOfFuel.
Proof.
  split; [reflexivity|].
  apply (_manage_reduce_bend_terminates (registered keyhole_run)).
  - apply Forall_forall. intros g Hg. vm_compute in Hg.
    destruct Hg as [<- | []]. intros _. reflexivity.
  - vm_compute. discriminate.
Defined.

(** No segment of the keyhole runs from (0, 0) to (4, 0), though one
    crosses the window about the midpoint; far from the line the window is
    empty. *)
Lemma _delete_segment_raises_on_miss_witness :
  (exists e, RbCollection._delete_segment (Some (0, 0)%Q) (Some (4, 0)%Q)
               (ReduceBend.rb_collection (registered keyhole_run)) = Raise e)
  /\ RbCollection._delete_segment (Some (5000, 5000)%Q) (Some (5001, 5000)%Q)
       (ReduceBend.rb_collection (registered keyhole_run)) = Raise UnboundLocalError.
Proof.
  split.
  - apply (_delete_segment_raises_on_miss (ReduceBend.rb_collection (registered keyhole_run))).
    intros f Hf. apply negb_true_iff. revert f Hf.
    apply (proj1 (forallb_forall
                    (fun f => negb (RbCollection.is_right_geometry (snd f)
                                      (Some (0, 0)%Q) (Some (4, 0)%Q)))
                    (RbCollection._spatial_index
                       (ReduceBend.rb_collection (registered keyhole_run))))).
    vm_compute. reflexivity.
  - apply (_delete_segment_raises_on_miss (ReduceBend.rb_collection (registered keyhole_run))).
    + intros f Hf. apply negb_true_iff. revert f Hf.
      apply (proj1 (forallb_forall
                      (fun f => negb (RbCollection.is_right_geometry (snd f)
                                        (Some (5000, 5000)%Q) (Some (5001, 5000)%Q)))
                      (RbCollection._spatial_index
                         (ReduceBend.rb_collection (registered keyhole_run))))).
      vm_compute. reflexivity.
    + vm_compute. reflexivity.
Defined.

End Keyhole.

(** ** A zigzag

    Five vertices in a zigzag, within an extent of 40 ([log_loss] is 2,
    the relative epsilon 1e-11), and a tolerance wider than the line: the
    three bends are candidates. *)
Section Zigzag.

#[local] Instance zigzag_epsilon : Epsilon := Epsilon_init 2.

Definition zigzag : list QgsPoint := [(0, 0); (10, 4); (20, -4); (30, 4); (40, 0)]%Q.

Definition zigzag_geom : RbGeom.t := RbGeom.init 1 (QgsLineString zigzag) WkbLineString.

Definition zigzag_run : ReduceBend.t := ReduceBend.init [zigzag_geom] 100 false never_canceled.

Lemma flag_bend_to_reduce_exclusion_witness :
  spans (flagged zigzag_geom 100) = [(0, 2, true); (1, 3, false); (2, 4, true)]
  /\ (forall k b1 b2,
        nth_error (RbGeom.bends (flagged zigzag_geom 100)) k = Some b1 ->
        nth_error (RbGeom.bends (flagged zigzag_geom 100)) (S k) = Some b2 ->
        ~ (Bend.to_reduce b1 = true /\ Bend.to_reduce b2 = true)).
Proof.
  split; [vm_compute; reflexivity|].
  assert (E : exists n detected, detect_bends zigzag_geom = Ok (n, detected))
    by (eexists _, _; vm_compute; reflexivity).
  destruct E as (n & detected & E).
  destruct (flag_bend_to_reduce_exclusion zigzag_geom detected n 100 E) as (g & Hg & Hadj & _).
  unfold flagged. rewrite E, Hg. exact Hadj.
Defined.

(** The bends at places 0 and 2 are both marked and both reduced in the
    first pass: vertex 2, where the one ends and the other starts, is a
    boundary vertex of both. *)
Lemma zigzag_reduces_bends_sharing_a_vertex :
  spans (flagged zigzag_geom 100) = [(0, 2, true); (1, 3, false); (2, 4, true)]
  /\ exists rb_geom' self',
       process_bends (flagged zigzag_geom 100) (registered zigzag_run)
       = Ok ((2, rb_geom'), self')
       /\ points (RbGeom.qgs_geom rb_geom') = [(0, 0); (20, -4); (40, 0)]%Q.
Proof.
  split; [vm_compute; reflexivity|].
  eexists _, _. split; vm_compute; reflexivity.
Defined.

(** The chord of the bend at place 2, from (20, -4) to (40, 0), is
    approved: trimmed, it is clear of the line. *)
Lemma validate_approves_long_chord_only_if_simple_witness :
  exists rb_geom' self' trimmed itself others,
    validate_spatial_constraints 2 (flagged zigzag_geom 100) (registered zigzag_run)
    = Ok ((true, rb_geom'), self')
    /\ RbCollection.get_segment_intersect (ReduceBend.rb_collection (registered zigzag_run)) 1
         (boundingBox (QgsPolygon [(20, -4); (30, 4); (40, 0); (20, -4)]%Q))
       = Ok (itself, others)
    /\ itself = [QgsLineString [(10, 4); (20, -4); (30, 4); (40, 0)]%Q]
    /\ (forall g, In g itself -> Qgs.disjoint trimmed g = true).
Proof.
  assert (E : exists rb_geom' self',
             validate_spatial_constraints 2 (flagged zigzag_geom 100) (registered zigzag_run)
             = Ok ((true, rb_geom'), self'))
    by (eexists _, _; vm_compute; reflexivity).
  destruct E as (rb_geom' & self' & E).
  edestruct (validate_approves_long_chord_only_if_simple 2 (flagged zigzag_geom 100) rb_geom'
               (registered zigzag_run) self')
    as (stored & trimmed & itself & others & _ & _ & Hq & _ & Hd & _).
  - lia.
  - vm_compute; reflexivity.
  - vm_compute; discriminate.
  - exact E.
  - exists rb_geom', self', trimmed, itself, others.
    split; [exact E|]. vm_compute in Hq.
    split; [vm_compute; exact Hq|].
    split; [injection Hq as <- _; reflexivity|exact Hd].
Defined.

End Zigzag.

(** ** A notch

    A flat bend of base 8 between two long segments, within an extent of
    88 ([log_loss] is 2).  With a tolerance of 10 the notch is the one bend
    to reduce, and its base is longer than two thirds of the tolerance. *)
Section Notch.

#[local] Instance notch_epsilon : Epsilon := Epsilon_init 2.

Definition notch : list QgsPoint := [(-40, 30); (0, 0); (4, 1); (8, 0); (48, 30)]%Q.

Definition notch_geom : RbGeom.t := RbGeom.init 1 (QgsLineString notch) WkbLineString.

Definition notch_run (smooth_line : bool) : ReduceBend.t :=
  ReduceBend.init [notch_geom] 10 smooth_line never_canceled.

Lemma reduce_bends_adds_no_vertex_without_smoothing_witness :
  exists self',
    reduce_bends 10 (notch_run false) = Done self'
    /\ paths self' = [[(-40, 30); (0, 0); (8, 0); (48, 30)]%Q]
    /\ Forall2 (fun g g' => RbGeom.id g' = RbGeom.id g
                            /\ numPoints (RbGeom.qgs_geom g') <= numPoints (RbGeom.qgs_geom g))
         (ReduceBend.rb_geoms (notch_run false)) (ReduceBend.rb_geoms self').
Proof.
  assert (E : exists self', reduce_bends 10 (notch_run false) = Done self')
    by (eexists; vm_compute; reflexivity).
  destruct E as (self' & E). exists self'.
  split; [exact E|]. split.
  - revert E. vm_compute. intros E. injection E as <-. reflexivity.
  - apply (reduce_bends_adds_no_vertex_without_smoothing 10 (notch_run false) self').
    + apply Forall_forall. intros g Hg. vm_compute in Hg.
      destruct Hg as [<- | []]. intros _. reflexivity.
    + reflexivity.
    + exact E.
Defined.

(** With the smoothing flag on, the notch of 5 vertices comes back with 6:
    the vertex (4, 1) is deleted, and two vertices are put on the base. *)
Lemma reduce_bends_smoothing_adds_vertices :
  exists self' g',
    reduce_bends 10 (notch_run true) = Done self'
    /\ ReduceBend.rb_geoms (notch_run true) = [notch_geom]
    /\ ReduceBend.rb_geoms self' = [g']
    /\ RbGeom.id g' = RbGeom.id notch_geom
    /\ numPoints (RbGeom.qgs_geom notch_geom) = 5
    /\ numPoints (RbGeom.qgs_geom g') = 6.
Proof.
  eexists _, _.
  split; [vm_compute; reflexivity|].
  split; [reflexivity|].
  split; [vm_compute; reflexivity|].
  split; [vm_compute; reflexivity|].
  split; vm_compute; reflexivity.
Defined.

End Notch.

(** ** A hook

    A line that starts around a square and comes back through its open
    side, within an extent of 200 ([log_loss] is 3).  The first bend, from
    vertex 0 to vertex 3, is the one candidate for a tolerance of 30; its
    chord is crossed by the last segment of the line. *)
Section Hook.

#[local] Instance hook_epsilon : Epsilon := Epsilon_init 3.

Definition hook : list QgsPoint :=
  [(0, 0); (10, 0); (10, 10); (0, 10); (0, 200); (-5, 200); (-5, 8); (3, 8)]%Q.

Definition hook_geom : RbGeom.t := RbGeom.init 1 (QgsLineString hook) WkbLineString.

Definition hook_run : ReduceBend.t := ReduceBend.init [hook_geom] 30 false never_canceled.

(** C6.  On the hook, the search for alternates of the bend from vertex 0
    to vertex 3 answers the pairs (0, 3) and (1, 3), by descending area,
    and stops there: the outer loop asks for [j - 1 >= 2], so the pair
    (0, 2), a sub-range of the span of length 2, is not enumerated.  The
    chords of the two alternates are crossed by the last segment of the
    line and the bend is refused, although the trimmed chord of the pair
    (0, 2) is disjoint from every line of the geometry in the window. *)
Theorem find_alternate_bends_misses_pair_0_2 :
  spans (flagged hook_geom 30) = [(0, 3, true); (2, 4, false); (3, 7, false)]
  /\ (exists alternate_bends,
        find_alternate_bends 0 (flagged hook_geom 30) = Ok alternate_bends
        /\ map (fun b => (Bend.i b, Bend.j b, Bend.area b)) alternate_bends
           = [(0, 3, 100%Q); (1, 3, 50%Q)])
  /\ (exists rb_geom' self',
        validate_spatial_constraints 0 (flagged hook_geom 30) (registered hook_run)
        = Ok ((false, rb_geom'), self')
        /\ spans rb_geom' = spans (flagged hook_geom 30))
  /\ (exists qgs_polygon missed itself others,
        create_polygon 0 2 hook = Ok qgs_polygon
        /\ Bend.init 0 2 qgs_polygon = Ok missed
        /\ RbCollection.get_segment_intersect (ReduceBend.rb_collection (registered hook_run)) 1
             (boundingBox (QgsPolygon [(0, 0); (10, 0); (10, 10); (0, 10); (0, 0)]%Q))
           = Ok (itself, others)
        /\ forallb (Qgs.disjoint (fst (get_new_subline_trimmed missed 30
                                         (flagged hook_geom 30)))) itself = true).
Proof.
  split; [vm_compute; reflexivity|].
  split; [eexists; split; vm_compute; reflexivity|].
  split; [eexists _, _; split; vm_compute; reflexivity|].
  eexists _, _, _, _.
  split; [vm_compute; reflexivity|].
  split; [vm_compute; reflexivity|].
  split; [vm_compute; reflexivity|].
  vm_compute. reflexivity.
Qed.

End Hook.

(** ** A square *)
Section Square.

#[local] Instance square_epsilon : Epsilon := Epsilon_init 2.

Definition square : list QgsPoint := [(0, 0); (10, 0); (10, 10); (0, 10); (0, 0)]%Q.

Definition square_geom : RbGeom.t := RbGeom.init 1 (QgsLineString square) WkbPolygon.

Lemma detect_bends_orientation_and_convex_ring_witness :
  RbGeom.is_closed square_geom = true
  /\ exists rb_geom',
       detect_bends square_geom = Ok (0, rb_geom')
       /\ RbGeom.bends rb_geom' = []
       /\ RbGeom.is_simplest rb_geom' = true.
Proof.
  split; [reflexivity|].
  edestruct (detect_bends_orientation_and_convex_ring square_geom)
    as (_ & _ & rb_geom' & Hd & Hb & Hs & _).
  - reflexivity.
  - discriminate.
  - vm_compute; reflexivity.
  - intros a b Ha Hb.
    repeat (destruct Ha as [<- | Ha]); try contradiction;
      repeat (destruct Hb as [<- | Hb]); try contradiction; reflexivity.
  - exists rb_geom'. split; [exact Hd|]. split; assumption.
Defined.

End Square.

(** * Further properties

    ** The adjusted area *)

Local Open Scope Q_scope.

Lemma py_div_zero (a b : Q) : b == 0 -> py_div a b = Raise ZeroDivisionError.
Proof.
  intros Hb. unfold py_div. apply Qeq_bool_iff in Hb. rewrite Hb. reflexivity.
Qed.

Lemma compactness_nonzero (area perimeter : Q) :
  ~ area == 0 -> ~ perimeter == 0 -> ~ 4 * area * math_pi / perimeter ^ 2 == 0.
Proof.
  intros Ha Hp E. pose proof math_pi_pos as Hpi.
  assert (E' : 4 * area * math_pi == 4 * area * math_pi / perimeter ^ 2 * perimeter ^ 2)
    by (field; exact Hp).
  rewrite E in E'. apply Ha. nra.
Qed.

(** The three outcomes of [calculate_adj_area], in exact arithmetic. *)
Lemma calculate_adj_area_cases (area perimeter : Q) :
  match calculate_adj_area area perimeter with
  | Ok v => ~ area == 0 /\ ~ perimeter == 0 /\ v == 0.75 * perimeter ^ 2 / (4 * math_pi)
  | Raise e => e = ZeroDivisionError /\ (area == 0 \/ perimeter == 0)
  end.
Proof.
  pose proof math_pi_pos as Hpi.
  unfold calculate_adj_area.
  destruct (Qeq_dec perimeter 0) as [Hp | Hp].
  - rewrite py_div_zero by (rewrite Hp; reflexivity). cbn. auto.
  - assert (Hp2 : ~ perimeter ^ 2 == 0) by (simpl; nra).
    rewrite (py_div_ok _ _ Hp2). cbn [rbind].
    destruct (Qeq_dec area 0) as [Ha | Ha].
    + rewrite py_div_zero by (rewrite Ha; field; exact Hp). cbn. auto.
    + rewrite (py_div_ok _ _ (compactness_nonzero _ _ Ha Hp)). cbn [rbind].
      split; [exact Ha|]. split; [exact Hp|]. field. repeat split; try lra; assumption.
Qed.

Local Close Scope Q_scope.

Section BendCreation.
Context `{Qgs.Api}.

(** The two outcomes of [Bend.__init__]. *)
Lemma Bend_init_cases (i j : Z) (qgs_polygon : QgsGeometry) :
  match Bend.init i j qgs_polygon with
  | Ok bend =>
      ~ (Qgs.area qgs_polygon == 0)%Q /\ ~ (Qgs.length qgs_polygon == 0)%Q
      /\ Bend.i bend = i /\ Bend.j bend = j
      /\ Bend.area bend = Qgs.area qgs_polygon
      /\ Bend.perimeter bend = Qgs.length qgs_polygon
      /\ (Bend.adj_area bend == 0.75 * Qgs.length qgs_polygon ^ 2 / (4 * math_pi))%Q
      /\ Bend.to_reduce bend = false
      /\ Bend.qgs_geom_new_subline bend = None
      /\ Bend.qgs_geom_new_subline_trimmed bend = None
      /\ Bend.qgs_geom_bend bend = qgs_polygon
  | Raise e =>
      e = ZeroDivisionError
      /\ ((Qgs.area qgs_polygon == 0)%Q \/ (Qgs.length qgs_polygon == 0)%Q)
  end.
Proof.
  unfold Bend.init.
  pose proof (calculate_adj_area_cases (Qgs.area qgs_polygon) (Qgs.length qgs_polygon))
    as Hc.
  destruct (calculate_adj_area (Qgs.area qgs_polygon) (Qgs.length qgs_polygon)) as [v | e];
    cbn [rbind].
  - destruct Hc as (Ha & Hp & Hv). cbn. repeat split; assumption.
  - exact Hc.
Qed.

(** A bend cannot be built on a polygon without perimeter or without area
    (three collinear vertices, for one): [Bend.__init__] raises, on a
    perimeter of zero [ZeroDivisionError].  When it returns, it returns a
    bend between [i] and [j] with the area and the perimeter of the
    polygon, the adjusted area that [calculate_adj_area] returned for
    them, no mark, no chord and no direction; and neither the area nor the
    perimeter is zero. *)
Theorem Bend_init_flat_polygon (i j : Z) (qgs_polygon : QgsGeometry) :
  ((Qgs.length qgs_polygon == 0)%Q -> Bend.init i j qgs_polygon = Raise ZeroDivisionError)
  /\ ((Qgs.area qgs_polygon == 0)%Q -> exists e, Bend.init i j qgs_polygon = Raise e)
  /\ (forall bend, Bend.init i j qgs_polygon = Ok bend ->
        ~ (Qgs.area qgs_polygon == 0)%Q /\ ~ (Qgs.length qgs_polygon == 0)%Q
        /\ calculate_adj_area (Qgs.area qgs_polygon) (Qgs.length qgs_polygon)
           = Ok (Bend.adj_area bend)
        /\ bend = {| Bend.i := i; Bend.j := j;
                     Bend.area := Qgs.area qgs_polygon;
                     Bend.perimeter := Qgs.length qgs_polygon;
                     Bend.adj_area := Bend.adj_area bend;
                     Bend.to_reduce := false;
                     Bend.qgs_geom_new_subline := None;
                     Bend.qgs_geom_new_subline_trimmed := None;
                     Bend.qgs_geom_bend := qgs_polygon;
                     Bend.direction := None |}).
Proof.
  pose proof (Bend_init_cases i j qgs_polygon) as Hc.
  unfold Bend.init in *.
  destruct (calculate_adj_area (Qgs.area qgs_polygon) (Qgs.length qgs_polygon))
    as [adj_area | e] eqn:Ea; cbn [rbind] in *.
  - destruct Hc as (Ha & Hp & _). split; [|split].
    + intros Hz. contradiction.
    + intros Hz. contradiction.
    + intros bend E. injection E as <-. cbn. repeat split; assumption.
  - destruct Hc as (-> & Hz). split; [|split].
    + intros _. reflexivity.
    + intros _. eexists. reflexivity.
    + discriminate.
Qed.

End BendCreation.

Section BendCreationOnAFlatPolygon.

(** Three collinear vertices span no area, and a polygon on one place has
    no perimeter: no bend is built on them. *)
Lemma Bend_init_flat_polygon_witness :
  (exists e, Bend.init 0 2 (QgsPolygon [(0, 0); (1, 0); (2, 0); (0, 0)]%Q) = Raise e)
  /\ Bend.init 0 2 (QgsPolygon [(1, 1); (1, 1); (1, 1); (1, 1)]%Q) = Raise ZeroDivisionError.
Proof.
  split.
  - apply (Bend_init_flat_polygon 0 2 (QgsPolygon [(0, 0); (1, 0); (2, 0); (0, 0)]%Q)).
    vm_compute. reflexivity.
  - apply (Bend_init_flat_polygon 0 2 (QgsPolygon [(1, 1); (1, 1); (1, 1); (1, 1)]%Q)).
    vm_compute. reflexivity.
Defined.

End BendCreationOnAFlatPolygon.

(** ** Rings and angles *)

Section Rings.
Context `{Qgs.Api} `{Epsilon}.

Lemma py_range_cons (a : Z) (k : nat) :
  py_range a (a + Z.of_nat (S k)) = a :: py_range (a + 1) (a + 1 + Z.of_nat k).
Proof.
  unfold py_range.
  replace (a + Z.of_nat (S k) - a) with (Z.of_nat (S k)) by lia.
  replace (a + 1 + Z.of_nat k - (a + 1)) with (Z.of_nat k) by lia.
  rewrite !Nat2Z.id. cbn [seq map]. f_equal; [lia|].
  rewrite <- seq_shift, map_map. apply map_ext. intros n. lia.
Qed.

Lemma py_get_skipn {A : Type} (l : list A) (a : Z) :
  0 <= a -> a < py_len l ->
  exists x, py_get l a = Ok x /\ skipn (Z.to_nat a) l = x :: skipn (S (Z.to_nat a)) l.
Proof.
  intros Ha Hlt. unfold py_len in Hlt.
  destruct (nth_error l (Z.to_nat a)) as [x|] eqn:E.
  - exists x. split; [apply py_get_nonneg; assumption|].
    clear Hlt. revert l E. induction (Z.to_nat a) as [|n IH]; intros [|y l] E;
      try discriminate.
    + cbn in E. injection E as ->. reflexivity.
    + cbn in E. cbn [skipn]. rewrite (IH l E). reflexivity.
  - apply nth_error_None in E. lia.
Qed.

Lemma map_result_py_get_range {A : Type} (l : list A) (k : nat) :
  forall a, 0 <= a -> a + Z.of_nat k <= py_len l ->
    map_result (py_get l) (py_range a (a + Z.of_nat k))
    = Ok (firstn k (skipn (Z.to_nat a) l)).
Proof.
  induction k as [|k IH]; intros a Ha Hb.
  - replace (a + Z.of_nat 0) with (a + 0) by lia. unfold py_range.
    replace (a + 0 - a) with 0 by lia. reflexivity.
  - rewrite py_range_cons. cbn [map_result].
    destruct (py_get_skipn l a Ha ltac:(lia)) as (x & Hx & Hs).
    rewrite Hx. cbn [rbind]. rewrite (IH (a + 1)) by lia. cbn [rbind].
    rewrite Hs. cbn [firstn]. do 3 f_equal.
    replace (Z.to_nat (a + 1)) with (S (Z.to_nat a)) by lia. reflexivity.
Qed.

Lemma map_result_app {A B : Type} (f : A -> result B) (l1 l2 : list A) :
  map_result f (l1 ++ l2)
  = rbind (map_result f l1) (fun y1 => rbind (map_result f l2) (fun y2 => Ok (y1 ++ y2))).
Proof.
  induction l1 as [|x l1 IH]; cbn [app map_result].
  - cbn [rbind]. destruct (map_result f l2); reflexivity.
  - destruct (f x) as [y|e]; cbn [rbind]; [|reflexivity].
    rewrite IH. destruct (map_result f l1) as [y1|e]; cbn [rbind]; [|reflexivity].
    destruct (map_result f l2); reflexivity.
Qed.

Lemma py_get_error {A : Type} (l : list A) (k : Z) (e : exception) :
  py_get l k = Raise e -> e = IndexError.
Proof.
  unfold py_get. destruct (_ <? 0); [congruence|].
  destruct (nth_error l _); congruence.
Qed.

Lemma map_result_py_get_error {A : Type} (l : list A) (idx : list Z) (e : exception) :
  map_result (py_get l) idx = Raise e -> e = IndexError.
Proof.
  induction idx as [|k idx IH]; cbn [map_result]; [discriminate|].
  destruct (py_get l k) as [x|e'] eqn:E; cbn [rbind].
  - destruct (map_result (py_get l) idx); cbn [rbind]; [discriminate|].
    intros E'. injection E' as <-. apply IH. reflexivity.
  - intros E'. injection E' as <-. exact (py_get_error _ _ _ E).
Qed.

Lemma isClosed_ring (x : QgsPoint) (l : list QgsPoint) : isClosed (x :: l ++ [x]) = true.
Proof.
  unfold isClosed. cbn [rev]. rewrite rev_app_distr. cbn [rev app].
  rewrite !Qeq_bool_refl. reflexivity.
Qed.

(** [create_polygon i j] with [0 <= i < j] closes the vertices [i] to [j]
    of the line into a ring: they are followed by vertex [i] again, which
    makes [j - i + 2] points.  When [j] is not a vertex of the line, it
    raises [IndexError]. *)
Theorem create_polygon_ring (i j : Z) (qgs_points : list QgsPoint) :
  0 <= i -> i < j ->
  (j < py_len qgs_points ->
   exists first ring,
     nth_error qgs_points (Z.to_nat i) = Some first
     /\ ring = firstn (Z.to_nat (j - i + 1)) (skipn (Z.to_nat i) qgs_points) ++ [first]
     /\ create_polygon i j qgs_points = Ok (QgsPolygon ring)
     /\ py_len ring = j - i + 2
     /\ isClosed ring = true)
  /\ (py_len qgs_points <= j -> create_polygon i j qgs_points = Raise IndexError).
Proof.
  intros Hi Hij. unfold create_polygon.
  destruct (Z.ltb_spec i j) as [_|]; [|lia].
  replace (j + 1) with (i + Z.of_nat (Z.to_nat (j - i + 1))) by lia.
  rewrite map_result_app. split.
  - intros Hj.
    rewrite map_result_py_get_range by lia. cbn [rbind map_result].
    destruct (py_get_skipn qgs_points i Hi ltac:(lia)) as (first & Hf & Hs).
    rewrite Hf. cbn [rbind].
    exists first, (firstn (Z.to_nat (j - i + 1)) (skipn (Z.to_nat i) qgs_points) ++ [first]).
    split; [apply py_get_Ok_nonneg in Hf; tauto|].
    split; [reflexivity|]. split; [reflexivity|]. split.
    + unfold py_len in *. rewrite length_app, length_firstn, length_skipn. cbn [List.length]. lia.
    + rewrite Hs. replace (Z.to_nat (j - i + 1)) with (S (Z.to_nat (j - i))) by lia.
      cbn [firstn app]. apply isClosed_ring.
  - intros Hj.
    destruct (map_result (py_get qgs_points)
                (py_range i (i + Z.of_nat (Z.to_nat (j - i + 1))))) as [ys|e] eqn:E;
      cbn [rbind].
    + exfalso.
      destruct (map_result_Ok_In _ _ _ E j) as (y & Hy).
      { apply py_range_In. lia. }
      apply py_get_Ok_nonneg in Hy; lia.
    + f_equal. exact (map_result_py_get_error _ _ _ E).
Qed.

Lemma angles_of_length (xy : list QgsPoint) :
  List.length (RbGeom.angles_of xy) = (List.length xy - 2)%nat.
Proof.
  induction xy as [|a tl IH]; [reflexivity|].
  destruct tl as [|b [|c tl]]; try reflexivity.
  cbn [RbGeom.angles_of List.length] in *. rewrite IH. lia.
Qed.

(** The outcomes of [get_angles]. *)
Lemma get_angles_cases (rb_geom : RbGeom.t) :
  let n := numPoints (RbGeom.qgs_geom rb_geom) in
  (RbGeom.original_geom_type rb_geom = WkbPoint -> RbGeom.get_angles rb_geom = Ok [])
  /\ (RbGeom.original_geom_type rb_geom <> WkbPoint ->
      RbGeom.is_closed rb_geom = false ->
      exists angles, RbGeom.get_angles rb_geom = Ok angles
                     /\ py_len angles = Z.max 0 (n - 2))
  /\ (RbGeom.original_geom_type rb_geom <> WkbPoint ->
      RbGeom.is_closed rb_geom = true ->
      (2 <= n -> exists angles, RbGeom.get_angles rb_geom = Ok angles
                                /\ py_len angles = n - 1)
      /\ (n < 2 -> RbGeom.get_angles rb_geom = Raise IndexError)).
Proof.
  intros n. unfold RbGeom.get_angles. split; [|split].
  - intros ->. reflexivity.
  - intros Ht Hc. rewrite Hc.
    destruct (WkbType_eqb (RbGeom.original_geom_type rb_geom) WkbPoint) eqn:E.
    { destruct (RbGeom.original_geom_type rb_geom); try discriminate. congruence. }
    cbn [negb rbind]. eexists. split; [reflexivity|].
    unfold py_len. rewrite angles_of_length. subst n. unfold numPoints, py_len. lia.
  - intros Ht Hc. rewrite Hc.
    destruct (WkbType_eqb (RbGeom.original_geom_type rb_geom) WkbPoint) eqn:E.
    { destruct (RbGeom.original_geom_type rb_geom); try discriminate. congruence. }
    cbn [negb]. subst n. unfold numPoints. split.
    + intros Hn.
      destruct (py_get_in_range (points (RbGeom.qgs_geom rb_geom))
                  (py_len (points (RbGeom.qgs_geom rb_geom)) - 2) ltac:(lia))
        as (end_xy & _ & Hnth).
      assert (Hget : py_get (points (RbGeom.qgs_geom rb_geom)) (-2) = Ok end_xy).
      { unfold py_get. cbn [Z.ltb Z.compare].
        destruct (Z.ltb_spec (-2 + py_len (points (RbGeom.qgs_geom rb_geom))) 0); [lia|].
        replace (-2 + py_len (points (RbGeom.qgs_geom rb_geom)))
          with (py_len (points (RbGeom.qgs_geom rb_geom)) - 2) by lia.
        rewrite Hnth. reflexivity. }
      rewrite Hget. cbn [rbind]. eexists. split; [reflexivity|].
      unfold py_len in *. rewrite angles_of_length. cbn [List.length]. lia.
    + intros Hn. unfold py_get. cbn [Z.ltb Z.compare].
      destruct (Z.ltb_spec (-2 + py_len (points (RbGeom.qgs_geom rb_geom))) 0); [|lia].
      reflexivity.
Qed.

(** [get_angles] gives one angle per vertex that has two neighbours: on
    an open line of [n] vertices the [n - 2] angles of the inner vertices
    (none when [n <= 2]), and it does not raise; on a closed line of
    [n >= 2] points the [n - 1] angles of the vertices 0 to [n - 2], the
    first being the angle at the start/end vertex, and on a closed line
    of fewer points it raises [IndexError]; on a point, none. *)
Theorem get_angles_count (rb_geom : RbGeom.t) :
  match RbGeom.get_angles rb_geom with
  | Ok angles =>
      if WkbType_eqb (RbGeom.original_geom_type rb_geom) WkbPoint then py_len angles = 0
      else if RbGeom.is_closed rb_geom
           then 2 <= numPoints (RbGeom.qgs_geom rb_geom)
                /\ py_len angles = numPoints (RbGeom.qgs_geom rb_geom) - 1
           else py_len angles = Z.max 0 (numPoints (RbGeom.qgs_geom rb_geom) - 2)
  | Raise e =>
      e = IndexError
      /\ RbGeom.original_geom_type rb_geom <> WkbPoint
      /\ RbGeom.is_closed rb_geom = true
      /\ numPoints (RbGeom.qgs_geom rb_geom) < 2
  end.
Proof.
  destruct (get_angles_cases rb_geom) as (Hp & Hopen & Hclosed).
  destruct (WkbType_eqb (RbGeom.original_geom_type rb_geom) WkbPoint) eqn:Et.
  - assert (Ht : RbGeom.original_geom_type rb_geom = WkbPoint)
      by (destruct (RbGeom.original_geom_type rb_geom); try discriminate; reflexivity).
    rewrite (Hp Ht). reflexivity.
  - assert (Ht : RbGeom.original_geom_type rb_geom <> WkbPoint)
      by (intros Ht; rewrite Ht in Et; discriminate).
    destruct (RbGeom.is_closed rb_geom) eqn:Ec.
    + destruct (Hclosed Ht eq_refl) as (Hge & Hlt).
      destruct (Z.lt_ge_cases (numPoints (RbGeom.qgs_geom rb_geom)) 2) as [Hn | Hn].
      * rewrite (Hlt Hn). repeat split; assumption.
      * destruct (Hge Hn) as (angles & -> & Hlen). split; [exact Hn | exact Hlen].
    + destruct (Hopen Ht eq_refl) as (angles & -> & Hlen). exact Hlen.
Qed.

End Rings.

(** ** The bends of a line *)

Section Bends.
Context `{Qgs.Api} `{Epsilon}.

Lemma opposite_neq (a : Z) : (opposite a =? a) = false.
Proof.
  unfold opposite, CLOCK_WISE, ANTI_CLOCK_WISE.
  destruct (Z.eqb_spec a 0) as [->|Ha]; [reflexivity|].
  apply Z.eqb_neq. lia.
Qed.

Lemma neq_opposite (a : Z) : (a =? opposite a) = false.
Proof. rewrite Z.eqb_sym. apply opposite_neq. Qed.

Lemma inflexion_from_last (l : list Z) (z : Z) :
  forall i, exists t, inflexion_from i (l ++ [z; opposite z]) = t ++ [i + py_len l].
Proof.
  induction l as [|a l IH]; intros i.
  - cbn. rewrite neq_opposite. cbn. exists []. cbn. f_equal. unfold py_len. cbn. lia.
  - destruct (IH (i + 1)) as [t Ht].
    assert (Hl : py_len (a :: l) = py_len l + 1) by (unfold py_len; cbn [List.length]; lia).
    cbn [app inflexion_from].
    destruct (l ++ [z; opposite z]) as [|b r] eqn:E; [destruct l; discriminate|].
    rewrite Hl. replace (i + (py_len l + 1)) with (i + 1 + py_len l) by lia.
    destruct (negb (a =? b)).
    + exists (i :: t). rewrite Ht. reflexivity.
    + exists t. exact Ht.
Qed.

Lemma inflexion_spans_last (t : list Z) (a b : Z) :
  exists sp, inflexion_spans (t ++ [a; b]) = sp ++ [(a, b + 1, false)].
Proof.
  induction t as [|x t IH].
  - exists []. reflexivity.
  - destruct IH as [sp Hsp]. cbn [app inflexion_spans].
    destruct (t ++ [a; b]) as [|y r] eqn:E; [destruct t; discriminate|].
    exists ((x, y + 1, false) :: sp). rewrite Hsp. reflexivity.
Qed.

Lemma inflexion_spans_consecutive (t : list Z) (k : nat) (s1 s2 : Z * Z * bool) :
  nth_error (inflexion_spans t) k = Some s1 ->
  nth_error (inflexion_spans t) (S k) = Some s2 ->
  span_i s2 + 1 = span_j s1.
Proof.
  intros E1 E2.
  destruct (inflexion_spans_nth _ _ _ E1) as (a & b & Ha & Hb & ->).
  destruct (inflexion_spans_nth _ _ _ E2) as (c & d & Hc & Hd & ->).
  rewrite Hb in Hc. injection Hc as <-. reflexivity.
Qed.

Lemma make_bends_built (t : list Z) (qgs_points : list QgsPoint) :
  forall bends, make_bends t qgs_points = Ok bends ->
    Forall (fun b => ~ (Bend.area b == 0)%Q /\ ~ (Bend.perimeter b == 0)%Q
                     /\ (Bend.adj_area b == 0.75 * Bend.perimeter b ^ 2 / (4 * math_pi))%Q)
           bends.
Proof.
  induction t as [|a t IH]; intros bends E; cbn in E.
  - inversion E. constructor.
  - destruct t as [|b t]; [inversion E; constructor|].
    apply rbind_Ok in E. destruct E as (poly & Ep & E).
    apply rbind_Ok in E. destruct E as (bend & Eb & E).
    apply rbind_Ok in E. destruct E as (rest & Er & E).
    inversion E; subst; clear E.
    constructor; [|exact (IH _ Er)].
    pose proof (Bend_init_cases a (b + 1) poly) as Hb. rewrite Eb in Hb.
    destruct Hb as (Ha & Hp & _ & _ & -> & -> & Hv & _). repeat split; assumption.
Qed.

Lemma alternate_direction_fields (P : Bend.t -> Prop) (d : option Bend.Direction)
  (bends : list Bend.t) :
  (forall b v, P b -> P (Bend.set_direction b v)) ->
  Forall P bends -> Forall P (alternate_direction d bends).
Proof.
  intros HP. revert d. induction bends as [|b l IH]; intros d Hall; cbn; [constructor|].
  inversion Hall; subst. constructor; [apply HP; assumption | apply IH; assumption].
Qed.

Lemma set_bend_direction_fields (P : Bend.t -> Prop) (g : RbGeom.t) :
  (forall b v, P b -> P (Bend.set_direction b v)) ->
  Forall P (RbGeom.bends g) -> Forall P (RbGeom.bends (set_bend_direction g)).
Proof.
  intros HP Hall. unfold set_bend_direction.
  destruct (RbGeom.is_closed g && (1 <=? py_len (RbGeom.bends g))); [|exact Hall].
  destruct (RbGeom.bends g) as [|b l] eqn:Eb; [rewrite Eb; constructor|].
  cbn. inversion Hall; subst.
  constructor; [apply HP; assumption | apply alternate_direction_fields; assumption].
Qed.

Lemma exists_last_Z (t : list Z) : t <> [] -> exists t' a, t = t' ++ [a].
Proof.
  intros Ht. destruct (exists_last Ht) as (t' & a & E). exists t', a. exact E.
Qed.

(** The spans of the inflexions of an orientation list closed by the two
    opposite values [detect_bends] adds. *)
Lemma orientation_spans_ends (o1 : list Z) (f z : Z) (pre rest : list Z) :
  o1 = f :: rest -> o1 = pre ++ [z] ->
  let S := inflexion_spans (inflexion_from 0 ((opposite f :: o1) ++ [opposite z])) in
  (forall s, nth_error S 0 = Some s -> span_i s = 0)
  /\ (forall s, nth_error S (List.length S - 1) = Some s -> span_j s = py_len o1 + 1).
Proof.
  intros Ef Ez S. split.
  - subst S. rewrite Ef. cbn [app inflexion_from]. rewrite opposite_neq. cbn [negb].
    intros s Hs. destruct (inflexion_spans_nth _ _ _ Hs) as (a & b & Ha & _ & ->).
    cbn in Ha. injection Ha as <-. reflexivity.
  - subst S. clear Ef. subst o1.
    replace ((opposite f :: pre ++ [z]) ++ [opposite z])
      with ((opposite f :: pre) ++ [z; opposite z])
      by (cbn [app]; rewrite <- app_assoc; reflexivity).
    destruct (inflexion_from_last (opposite f :: pre) z 0) as [t Ht]. rewrite Ht.
    assert (Hlen : 0 + py_len (opposite f :: pre) = py_len (pre ++ [z])).
    { unfold py_len. rewrite length_app. cbn [List.length]. lia. }
    rewrite Hlen.
    destruct t as [|x t]; [cbn; intros s Hs; discriminate|].
    destruct (exists_last_Z (x :: t) ltac:(discriminate)) as (t' & a & ->).
    rewrite <- app_assoc. cbn [app].
    destruct (inflexion_spans_last t' a (py_len (pre ++ [z]))) as [sp Hsp]. rewrite Hsp.
    rewrite length_app. cbn [List.length].
    replace (List.length sp + 1 - 1)%nat with (List.length sp) by lia.
    rewrite nth_error_app2 by lia. rewrite Nat.sub_diag. cbn.
    intros s Hs. injection Hs as <-. reflexivity.
Qed.

Lemma py_del_first_length {A : Type} (l l' : list A) :
  py_del l 0 = Ok l' -> py_len l' = py_len l - 1.
Proof.
  destruct l as [|x l]; [discriminate|].
  rewrite py_del_first. intros E. injection E as <-.
  unfold py_len. cbn [List.length]. lia.
Qed.

Lemma py_get_last {A : Type} (x : A) (pre : list A) (z : A) :
  py_get (x :: pre ++ [z]) (-1) = Ok z.
Proof.
  unfold py_get. cbn [Z.ltb Z.compare].
  assert (Hl : py_len (x :: pre ++ [z]) = Z.of_nat (List.length pre) + 2).
  { unfold py_len. cbn [List.length]. rewrite length_app. cbn [List.length]. lia. }
  rewrite Hl.
  destruct (Z.ltb_spec (-1 + (Z.of_nat (List.length pre) + 2)) 0); [lia|].
  replace (Z.to_nat (-1 + (Z.of_nat (List.length pre) + 2))) with (S (List.length pre)) by lia.
  cbn [nth_error]. rewrite nth_error_app2 by lia. rewrite Nat.sub_diag. reflexivity.
Qed.

(** The orientations [detect_bends] keeps: as many as the line has inner
    vertices, whenever there is one. *)
Lemma kept_orientation_length (rb_geom : RbGeom.t) (angles : list Q) (o1 : list Z) :
  RbGeom.get_angles rb_geom = Ok angles ->
  (if RbGeom.is_closed rb_geom
   then if py_len (nodup Z.eq_dec (map orientation_of angles)) =? 1 then Ok []
        else py_del (map orientation_of angles) 0
   else Ok (map orientation_of angles)) = Ok o1 ->
  o1 <> [] ->
  py_len o1 = numPoints (RbGeom.qgs_geom rb_geom) - 2.
Proof.
  intros Ea Eo Hne.
  destruct (get_angles_cases rb_geom) as (Hp & Hopen & Hclosed).
  destruct (WkbType_eqb (RbGeom.original_geom_type rb_geom) WkbPoint) eqn:Et.
  - assert (Ht : RbGeom.original_geom_type rb_geom = WkbPoint)
      by (destruct (RbGeom.original_geom_type rb_geom); try discriminate; reflexivity).
    rewrite (Hp Ht) in Ea. injection Ea as <-. cbn in Eo.
    destruct (RbGeom.is_closed rb_geom); [discriminate|]. injection Eo as <-. congruence.
  - assert (Ht : RbGeom.original_geom_type rb_geom <> WkbPoint)
      by (intros Ht; rewrite Ht in Et; discriminate).
    destruct (RbGeom.is_closed rb_geom) eqn:Ec.
    + destruct (Hclosed Ht eq_refl) as (Hge & Hlt).
      destruct (Z.lt_ge_cases (numPoints (RbGeom.qgs_geom rb_geom)) 2) as [Hn | Hn].
      { rewrite (Hlt Hn) in Ea. discriminate. }
      destruct (Hge Hn) as (angles' & Ea' & Hlen). rewrite Ea in Ea'. injection Ea' as <-.
      destruct (py_len (nodup Z.eq_dec (map orientation_of angles)) =? 1).
      * injection Eo as <-. congruence.
      * apply py_del_first_length in Eo. rewrite Eo. unfold py_len in *.
        rewrite length_map. lia.
    + destruct (Hopen Ht eq_refl) as (angles' & Ea' & Hlen).
      rewrite Ea in Ea'. injection Ea' as <-. injection Eo as <-.
      unfold py_len in *. rewrite length_map in *.
      destruct angles; [cbn in Hne; congruence|]. cbn [List.length] in *. lia.
Qed.

(** The bends [detect_bends] creates tile the line.  Each one spans at
    least three vertices of the line and is built on a polygon with area
    and perimeter (a flat one raises [ZeroDivisionError]); the first bend
    starts at vertex 0, every other bend starts one vertex before the end
    of the bend before it, and the last bend ends at the last vertex.  The
    answer is the number of bends; none is marked. *)
Theorem detect_bends_tiles_the_line (rb_geom detected : RbGeom.t) (n : Z) :
  detect_bends rb_geom = Ok (n, detected) ->
  let bends := RbGeom.bends detected in
  let last_vertex := numPoints (RbGeom.qgs_geom rb_geom) - 1 in
  n = py_len bends
  /\ Forall (fun b => 0 <= Bend.i b /\ Bend.i b + 2 <= Bend.j b /\ Bend.j b <= last_vertex
                      /\ ~ (Bend.area b == 0)%Q /\ ~ (Bend.perimeter b == 0)%Q
                      /\ Bend.to_reduce b = false) bends
  /\ (forall b, nth_error bends 0 = Some b -> Bend.i b = 0)
  /\ (forall k b1 b2, nth_error bends k = Some b1 -> nth_error bends (S k) = Some b2 ->
        Bend.i b2 + 1 = Bend.j b1)
  /\ (forall b, nth_error bends (List.length bends - 1) = Some b -> Bend.j b = last_vertex).
Proof.
  intros E bends last_vertex.
  destruct (detect_bends_Ok _ _ _ E) as (Hq & _ & _ & _ & Hn & Hvalid & _ & Hunmarked).
  split; [exact Hn|].
  unfold detect_bends in E.
  apply rbind_Ok in E. destruct E as (angles & Ea & E).
  apply rbind_Ok in E. destruct E as (o1 & Eo1 & E).
  apply rbind_Ok in E. destruct E as (orientation & Eo & E).
  apply rbind_Ok in E. destruct E as (g1 & E1 & E).
  inversion E; subst; clear E.
  set (G := if RbGeom.is_closed g1 then set_bend_direction g1 else g1) in *.
  assert (HG : map span (RbGeom.bends G) = map span (RbGeom.bends g1)
               /\ forall P : Bend.t -> Prop,
                    (forall b v, P b -> P (Bend.set_direction b v)) ->
                    Forall P (RbGeom.bends g1) -> Forall P (RbGeom.bends G)).
  { subst G. destruct (RbGeom.is_closed g1); [|split; [reflexivity | intros; assumption]].
    split; [apply set_bend_direction_spans|].
    intros P HP. apply set_bend_direction_fields. exact HP. }
  destruct HG as (Hspan & Hfields).
  set (T := inflexion_from 0 orientation) in *.
  assert (HT : map span (RbGeom.bends g1) = inflexion_spans T
               /\ Forall (fun b => ~ (Bend.area b == 0)%Q /\ ~ (Bend.perimeter b == 0)%Q)
                    (RbGeom.bends g1)).
  { destruct (negb (py_len T =? 0)) eqn:En.
    - apply rbind_Ok in E1. destruct E1 as (bends0 & Eb & E1).
      inversion E1; subst g1; clear E1. cbn [RbGeom.bends RbGeom.set_bends].
      split; [apply (make_bends_spans _ _ _ Eb)|].
      eapply Forall_impl; [|exact (make_bends_built _ _ _ Eb)].
      cbn. intros b (Ha & Hp & _). split; assumption.
    - inversion E1; subst g1; clear E1. cbn [RbGeom.bends RbGeom.set_bends RbGeom.set_is_simplest].
      apply negb_false_iff in En. apply Z.eqb_eq in En.
      destruct T; [split; [reflexivity | constructor]|].
      unfold py_len in En. cbn [List.length] in En. lia. }
  destruct HT as (HS & Hbuilt).
  rewrite HS in Hspan.
  assert (Hnth : forall k b, nth_error bends k = Some b ->
                             nth_error (inflexion_spans T) k = Some (span b)).
  { intros k b Hb. rewrite <- Hspan. apply map_nth_error. exact Hb. }
  assert (Hlen : List.length (inflexion_spans T) = List.length bends).
  { rewrite <- Hspan. apply length_map. }
  assert (Hshape : bends = []
                   \/ exists f rest pre z,
                        o1 = f :: rest /\ o1 = pre ++ [z]
                        /\ orientation = (opposite f :: o1) ++ [opposite z]).
  { destruct (Z.leb_spec 1 (py_len o1)) as [Hge | Hlt].
    - right. apply rbind_Ok in Eo. destruct Eo as (f & Ef & Eo).
      apply rbind_Ok in Eo. destruct Eo as (z & Ez & Eo). injection Eo as Eo.
      destruct o1 as [|f' rest]; [discriminate|]. injection Ef as ->.
      destruct (exists_last_Z (f :: rest) ltac:(discriminate)) as (pre & z' & Epre).
      rewrite Epre in Ez. rewrite py_get_last in Ez. injection Ez as ->.
      exists f, rest, pre, z. repeat split; [exact Epre | symmetry; exact Eo].
    - left. injection Eo as Eo. destruct o1; [|unfold py_len in Hlt; cbn in Hlt; lia].
      subst orientation. subst T. cbn in Hlen. destruct bends; [reflexivity | discriminate]. }
  split; [|split; [|split]].
  - apply Forall_forall. intros b Hb.
    rewrite Forall_forall in Hvalid, Hunmarked.
    pose proof (Hvalid (span b) (in_map span _ _ Hb)) as (V1 & V2 & V3).
    pose proof (Hunmarked (span b) (in_map span _ _ Hb)) as U.
    pose proof (Hfields (fun b => ~ (Bend.area b == 0)%Q /\ ~ (Bend.perimeter b == 0)%Q)
                  ltac:(intros ? ? Hx; exact Hx) Hbuilt) as Hb'.
    rewrite Forall_forall in Hb'. destruct (Hb' b Hb) as (Ha & Hp).
    rewrite Hq in V3. unfold span_i, span_j, span_marked, span in *. cbn in *.
    subst last_vertex. repeat split; try assumption; lia.
  - intros b Hb.
    destruct Hshape as [Hnil | (f & rest & pre & z & Ef & Ez & Eor)];
      [rewrite Hnil in Hb; discriminate|].
    apply Hnth in Hb. subst T. rewrite Eor in Hb.
    destruct (orientation_spans_ends o1 f z pre rest Ef Ez) as (Hfirst & _).
    apply Hfirst in Hb. exact Hb.
  - intros k b1 b2 Hb1 Hb2. apply Hnth in Hb1, Hb2.
    exact (inflexion_spans_consecutive _ _ _ _ Hb1 Hb2).
  - intros b Hb.
    destruct Hshape as [Hnil | (f & rest & pre & z & Ef & Ez & Eor)];
      [rewrite Hnil in Hb; discriminate|].
    apply Hnth in Hb. subst T. rewrite Eor in Hb, Hlen.
    destruct (orientation_spans_ends o1 f z pre rest Ef Ez) as (_ & Hlast).
    rewrite <- Hlen in Hb. apply Hlast in Hb.
    assert (Hne : o1 <> []) by (rewrite Ef; discriminate).
    pose proof (kept_orientation_length _ _ _ Ea Eo1 Hne) as Hl.
    cbn [RbGeom.qgs_geom RbGeom.set_bends] in Hl.
    subst last_vertex. unfold span_j, span in Hb. cbn in Hb. lia.
Qed.

End Bends.

Section BendsOfTheZigzag.

#[local] Existing Instance zigzag_epsilon.

Lemma create_polygon_ring_witness :
  create_polygon 0 2 zigzag = Ok (QgsPolygon [(0, 0); (10, 4); (20, -4); (0, 0)]%Q)
  /\ create_polygon 3 5 zigzag = Raise IndexError.
Proof.
  destruct (create_polygon_ring 0 2 zigzag) as [Hin _]; [lia | lia |].
  destruct (create_polygon_ring 3 5 zigzag) as [_ Hout]; [lia | lia |].
  destruct Hin as (first & ring & Hf & Hr & Hc & _); [reflexivity|].
  split; [|apply Hout; vm_compute; discriminate].
  cbn in Hf. injection Hf as <-. rewrite Hc, Hr. reflexivity.
Defined.

Lemma detect_bends_tiles_the_line_witness :
  exists n detected,
    detect_bends zigzag_geom = Ok (n, detected)
    /\ map (fun b => (Bend.i b, Bend.j b)) (RbGeom.bends detected) = [(0, 2); (1, 3); (2, 4)]
    /\ (forall b, nth_error (RbGeom.bends detected) 0 = Some b -> Bend.i b = 0)
    /\ (forall b, nth_error (RbGeom.bends detected)
                    (List.length (RbGeom.bends detected) - 1) = Some b ->
                  Bend.j b = numPoints (RbGeom.qgs_geom zigzag_geom) - 1).
Proof.
  assert (E : exists n detected, detect_bends zigzag_geom = Ok (n, detected))
    by (eexists _, _; vm_compute; reflexivity).
  destruct E as (n & detected & E). exists n, detected.
  destruct (detect_bends_tiles_the_line zigzag_geom detected n E) as (_ & _ & Hf & _ & Hl).
  split; [exact E|]. split; [|split; assumption].
  revert E. vm_compute. intros E. injection E as <- <-. reflexivity.
Defined.

End BendsOfTheZigzag.

(** ** The bends marked for reduction *)

Section Flagging.
Context `{Qgs.Api} `{Epsilon}.

(** The list [sort] leaves is sorted on the adjusted areas. *)
Definition le_key (a b : Q * Z) : Prop := Qle_bool (fst a) (fst b) = true.

Lemma le_key_trans (a b c : Q * Z) : le_key a b -> le_key b c -> le_key a c.
Proof.
  unfold le_key. rewrite !Qle_bool_iff. intros; eapply Qle_trans; eassumption.
Qed.

Lemma le_key_total (a b : Q * Z) : Qle_bool (fst a) (fst b) = false -> le_key b a.
Proof.
  unfold le_key. intros E. apply Qle_bool_iff.
  destruct (Qlt_le_dec (fst b) (fst a)) as [Hlt | Hle]; [apply Qlt_le_weak; exact Hlt|].
  apply Qle_bool_iff in Hle. congruence.
Qed.

Lemma insert_by_sorted (x : Q * Z) (l : list (Q * Z)) :
  StronglySorted le_key l ->
  StronglySorted le_key (insert_by (fun a b => Qle_bool (fst a) (fst b)) x l).
Proof.
  induction 1 as [|y l Hs IH Hall]; cbn [insert_by].
  - constructor; constructor.
  - destruct (Qle_bool (fst y) (fst x)) eqn:E.
    + constructor; [exact IH|]. apply Forall_forall. intros z Hz.
      apply insert_by_In in Hz. destruct Hz as [-> | Hz]; [exact E|].
      rewrite Forall_forall in Hall. exact (Hall z Hz).
    + constructor; [constructor; assumption|].
      pose proof (le_key_total _ _ E) as Hxy.
      constructor; [exact Hxy|]. eapply Forall_impl; [|exact Hall].
      intros z Hz. exact (le_key_trans _ _ _ Hxy Hz).
Qed.

Lemma sort_by_sorted (l : list (Q * Z)) :
  StronglySorted le_key (sort_by (fun a b => Qle_bool (fst a) (fst b)) l).
Proof.
  unfold sort_by.
  assert (G : forall acc, StronglySorted le_key acc ->
                StronglySorted le_key
                  (fold_left (fun acc x => insert_by (fun a b => Qle_bool (fst a) (fst b)) x acc)
                     l acc)).
  { induction l as [|x l IH]; intros acc Hacc; cbn [fold_left]; [exact Hacc|].
    apply IH. apply insert_by_sorted. exact Hacc. }
  apply G. constructor.
Qed.

Lemma sorted_split (l1 l2 : list (Q * Z)) (e : Q * Z) :
  StronglySorted le_key (l1 ++ e :: l2) -> Forall (fun x => le_key x e) l1.
Proof.
  induction l1 as [|x l1 IH]; intros Hs; [constructor|].
  cbn [app] in Hs. inversion Hs as [|? ? Hs' Hall]; subst.
  constructor; [|exact (IH Hs')].
  rewrite Forall_forall in Hall. apply Hall. apply in_or_app. right. left. reflexivity.
Qed.

(** The bends after some were marked. *)
Definition grows (bends bends' : list Bend.t) : Prop :=
  Forall2 (fun b b' => b' = b \/ b' = Bend.set_to_reduce b true) bends bends'.

Lemma grows_refl (bends : list Bend.t) : grows bends bends.
Proof. induction bends; constructor; [left; reflexivity | assumption]. Qed.

Lemma grows_trans (b1 b2 b3 : list Bend.t) : grows b1 b2 -> grows b2 b3 -> grows b1 b3.
Proof.
  intros H12. revert b3. induction H12 as [|x y l l' Hxy _ IH]; intros b3 H23.
  - inversion H23. constructor.
  - inversion H23 as [|? z ? l'' Hyz H23']; subst. constructor; [|apply IH; assumption].
    destruct Hxy as [-> | ->], Hyz as [-> | ->]; auto.
Qed.

Lemma grows_mark (bends : list Bend.t) (n : nat) (b : Bend.t) :
  nth_error bends n = Some b ->
  grows bends (firstn n bends ++ Bend.set_to_reduce b true :: skipn (S n) bends).
Proof.
  revert n. induction bends as [|x l IH]; intros n E; [destruct n; discriminate|].
  destruct n as [|n]; cbn in E.
  - injection E as ->. cbn. constructor; [right; reflexivity | apply grows_refl].
  - cbn [firstn skipn app]. constructor; [left; reflexivity | apply IH; exact E].
Qed.

Lemma grows_length (bends bends' : list Bend.t) :
  grows bends bends' -> py_len bends' = py_len bends.
Proof.
  intros G. unfold py_len. f_equal. symmetry. exact (Forall2_length G).
Qed.

Lemma grows_nth (bends bends' : list Bend.t) (n : nat) (b' : Bend.t) :
  grows bends bends' -> nth_error bends' n = Some b' ->
  exists b, nth_error bends n = Some b /\ (b' = b \/ b' = Bend.set_to_reduce b true).
Proof.
  intros G. revert n. induction G as [|x y l l' Hxy _ IH]; intros n E;
    [destruct n; discriminate|].
  destruct n as [|n]; cbn in E.
  - injection E as ->. exists x. split; [reflexivity | exact Hxy].
  - exact (IH _ E).
Qed.

Lemma grows_nth_fwd (bends bends' : list Bend.t) (n : nat) (b : Bend.t) :
  grows bends bends' -> nth_error bends n = Some b ->
  exists b', nth_error bends' n = Some b' /\ (b' = b \/ b' = Bend.set_to_reduce b true).
Proof.
  intros G. revert n. induction G as [|x y l l' Hxy _ IH]; intros n E;
    [destruct n; discriminate|].
  destruct n as [|n]; cbn in E.
  - injection E as ->. exists y. split; [reflexivity | exact Hxy].
  - exact (IH _ E).
Qed.

(** The bend at place [k] is marked. *)
Definition marked (bends : list Bend.t) (k : Z) : Prop :=
  0 <= k /\ exists b, nth_error bends (Z.to_nat k) = Some b /\ Bend.to_reduce b = true.

Lemma marked_grows (bends bends' : list Bend.t) (k : Z) :
  grows bends bends' -> marked bends k -> marked bends' k.
Proof.
  intros G (Hk & b & Hb & Hm). split; [exact Hk|].
  destruct (grows_nth_fwd _ _ _ _ G Hb) as (b' & Hb' & [-> | ->]).
  - exists b. split; assumption.
  - eexists. split; [exact Hb' | reflexivity].
Qed.

Lemma marked_mark (bends : list Bend.t) (i : Z) (b : Bend.t) :
  0 <= i -> nth_error bends (Z.to_nat i) = Some b ->
  marked (firstn (Z.to_nat i) bends ++ Bend.set_to_reduce b true :: skipn (S (Z.to_nat i)) bends) i.
Proof.
  intros Hi Hb. split; [exact Hi|]. exists (Bend.set_to_reduce b true). split; [|reflexivity].
  rewrite nth_error_replace by (apply nth_error_Some; congruence).
  rewrite Nat.eqb_refl. reflexivity.
Qed.

Lemma marked_after_mark (bends : list Bend.t) (i k : Z) (b : Bend.t) :
  0 <= i -> nth_error bends (Z.to_nat i) = Some b ->
  marked (firstn (Z.to_nat i) bends ++ Bend.set_to_reduce b true :: skipn (S (Z.to_nat i)) bends) k ->
  marked bends k \/ k = i.
Proof.
  intros Hi Hb (Hk & b' & Hb' & Hm).
  rewrite nth_error_replace in Hb' by (apply nth_error_Some; congruence).
  destruct (Nat.eqb_spec (Z.to_nat k) (Z.to_nat i)) as [E | E].
  - right. lia.
  - left. split; [exact Hk|]. exists b'. split; assumption.
Qed.

(** One turn of the loop of [flag_bend_to_reduce], with two candidates or
    more: the candidate is marked, or it is left because a neighbour is. *)
Definition flag_step (bends : list Bend.t) (i end_ : Z) : result (list Bend.t) :=
  if i =? 0 then
    next <~ py_get bends (i + 1) ;;
    if Bend.to_reduce next then Ok bends else mark_to_reduce bends i
  else if i =? end_ then
    previous <~ py_get bends (i - 1) ;;
    if Bend.to_reduce previous then Ok bends else mark_to_reduce bends i
  else
    previous <~ py_get bends (i - 1) ;;
    if Bend.to_reduce previous then Ok bends
    else
      next <~ py_get bends (i + 1) ;;
      if Bend.to_reduce next then Ok bends else mark_to_reduce bends i.

Lemma flag_step_Ok (bends bends1 : list Bend.t) (i : Z) :
  0 <= i < py_len bends ->
  flag_step bends i (py_len bends - 1) = Ok bends1 ->
  grows bends bends1
  /\ (forall k, marked bends1 k -> marked bends k \/ k = i)
  /\ (marked bends1 i \/ marked bends1 (i - 1) \/ marked bends1 (i + 1)).
Proof.
  intros Hi E.
  destruct (mark_to_reduce_Ok bends i Hi) as (b & Hb & Hmark).
  assert (Hdone : mark_to_reduce bends i = Ok bends1 ->
                  grows bends bends1
                  /\ (forall k, marked bends1 k -> marked bends k \/ k = i)
                  /\ (marked bends1 i \/ marked bends1 (i - 1) \/ marked bends1 (i + 1))).
  { rewrite Hmark. intros E'. injection E' as <-. split; [apply grows_mark; exact Hb|].
    split; [intros k; apply marked_after_mark; [lia | exact Hb]|].
    left. apply marked_mark; [lia | exact Hb]. }
  assert (Hleft : forall k nb, (k = i - 1 \/ k = i + 1) -> py_get bends k = Ok nb ->
                    0 <= k -> Bend.to_reduce nb = true -> Ok bends = Ok bends1 ->
                    grows bends bends1
                    /\ (forall k, marked bends1 k -> marked bends k \/ k = i)
                    /\ (marked bends1 i \/ marked bends1 (i - 1) \/ marked bends1 (i + 1))).
  { intros k nb Hk Hget Hk0 Hm E'. injection E' as <-.
    split; [apply grows_refl|]. split; [intros; left; assumption|].
    apply py_get_Ok_nonneg in Hget; [|exact Hk0]. destruct Hget as [Hnth _].
    assert (Hmk : marked bends k) by (split; [exact Hk0 | exists nb; split; assumption]).
    destruct Hk as [-> | ->]; auto. }
  unfold flag_step in E.
  destruct (Z.eqb_spec i 0) as [E0 | E0]; [|destruct (Z.eqb_spec i (py_len bends - 1)) as [Ee | Ee]].
  - apply rbind_Ok in E. destruct E as (nx & Hnx & E).
    destruct (Bend.to_reduce nx) eqn:Em; [|exact (Hdone E)].
    apply (Hleft (i + 1) nx); auto; lia.
  - apply rbind_Ok in E. destruct E as (pv & Hpv & E).
    destruct (Bend.to_reduce pv) eqn:Em; [|exact (Hdone E)].
    apply (Hleft (i - 1) pv); auto; lia.
  - apply rbind_Ok in E. destruct E as (pv & Hpv & E).
    destruct (Bend.to_reduce pv) eqn:Em; [apply (Hleft (i - 1) pv); auto; lia|].
    apply rbind_Ok in E. destruct E as (nx & Hnx & E).
    destruct (Bend.to_reduce nx) eqn:Emn; [|exact (Hdone E)].
    apply (Hleft (i + 1) nx); auto; lia.
Qed.

(** The loop, with two candidates or more.  The bends change by their
    marks only; a bend is marked by the loop only if it is a candidate
    within the threshold; and every candidate the loop reaches before one
    over the threshold ends marked, or next to a marked bend. *)
Lemma flag_loop_greedy (nbr_lst_bends : Z) (min_adj_area : Q) (lst_bends : list (Q * Z)) :
  nbr_lst_bends <> 1 ->
  forall bends bends',
    Forall (fun e => 0 <= snd e < py_len bends) lst_bends ->
    flag_loop lst_bends nbr_lst_bends min_adj_area 0 (py_len bends - 1) bends = Ok bends' ->
    grows bends bends'
    /\ (forall k, marked bends' k ->
          marked bends k
          \/ exists adj, In (adj, k) lst_bends /\ Qle_bool adj min_adj_area = true)
    /\ (forall l1 e l2, lst_bends = l1 ++ e :: l2 ->
          Forall (fun x => Qle_bool (fst x) min_adj_area = true) (l1 ++ [e]) ->
          marked bends' (snd e) \/ marked bends' (snd e - 1) \/ marked bends' (snd e + 1)).
Proof.
  intros Hn. induction lst_bends as [|[adj i] rest IH]; intros bends bends' Hall E.
  - cbn in E. injection E as <-. split; [apply grows_refl|].
    split; [intros; left; assumption|]. intros [|? ?] ? ? El; discriminate.
  - inversion Hall as [|? ? Hi Hrest]; subst. cbn [snd] in Hi.
    cbn [flag_loop] in E.
    destruct (Qle_bool adj min_adj_area) eqn:Eadj.
    + destruct (nbr_lst_bends =? 1) eqn:E1; [apply Z.eqb_eq in E1; contradiction|].
      apply rbind_Ok in E. destruct E as (bends1 & Estep & E).
      change (flag_step bends i (py_len bends - 1) = Ok bends1) in Estep.
      destruct (flag_step_Ok _ _ _ Hi Estep) as (G1 & M1 & N1).
      pose proof (grows_length _ _ G1) as Hl1.
      rewrite <- Hl1 in E.
      destruct (IH bends1 bends') as (G2 & M2 & N2); [rewrite Hl1; exact Hrest | exact E|].
      split; [exact (grows_trans _ _ _ G1 G2)|]. split.
      * intros k Hk. destruct (M2 k Hk) as [Hk1 | (a & Ha & Hle)].
        -- destruct (M1 k Hk1) as [Hk0 | ->]; [left; exact Hk0|].
           right. exists adj. split; [left; reflexivity | exact Eadj].
        -- right. exists a. split; [right; exact Ha | exact Hle].
      * intros l1 e l2 El Hle. destruct l1 as [|x l1]; cbn [app] in El.
        -- injection El as <- <-. cbn [snd].
           destruct N1 as [N | [N | N]]; [left | right; left | right; right];
             exact (marked_grows _ _ _ G2 N).
        -- injection El as <- ->. apply (N2 l1 e l2 eq_refl).
           cbn [app] in Hle. inversion Hle; assumption.
    + injection E as <-. split; [apply grows_refl|].
      split; [intros; left; assumption|].
      intros l1 e l2 El Hle. exfalso.
      destruct l1 as [|x l1]; cbn [app] in El, Hle; injection El as <- ?; subst;
        inversion Hle as [|? ? Hx _]; subst; cbn [fst] in Hx; congruence.
Qed.

Lemma flag_loop_single (min_adj_area : Q) (lst_bends : list (Q * Z)) :
  py_len lst_bends = 1 ->
  forall bends bends',
    Forall (fun e => 0 <= snd e < py_len bends) lst_bends ->
    flag_loop lst_bends 1 min_adj_area 0 (py_len bends - 1) bends = Ok bends' ->
    grows bends bends'
    /\ (forall k, marked bends' k ->
          marked bends k
          \/ exists adj, In (adj, k) lst_bends /\ Qle_bool adj min_adj_area = true)
    /\ (forall l1 e l2, lst_bends = l1 ++ e :: l2 ->
          Forall (fun x => Qle_bool (fst x) min_adj_area = true) (l1 ++ [e]) ->
          marked bends' (snd e) \/ marked bends' (snd e - 1) \/ marked bends' (snd e + 1)).
Proof.
  intros Hlen bends bends' Hall E.
  destruct lst_bends as [|[adj i] [|x rest]]; try (unfold py_len in Hlen; cbn in Hlen; lia).
  inversion Hall as [|? ? Hi _]; subst. cbn [snd] in Hi.
  cbn [flag_loop] in E. cbn [Z.eqb Pos.eqb] in E.
  destruct (Qle_bool adj min_adj_area) eqn:Eadj.
  - apply rbind_Ok in E. destruct E as (bends1 & Emark & E). injection E as <-.
    destruct (mark_to_reduce_Ok bends i Hi) as (b & Hb & Hmark).
    rewrite Hmark in Emark. injection Emark as <-.
    split; [apply grows_mark; exact Hb|]. split.
    + intros k Hk. destruct (marked_after_mark bends i k b ltac:(lia) Hb Hk) as [Hk0 | ->];
        [left; exact Hk0|]. right. exists adj. split; [left; reflexivity | exact Eadj].
    + intros l1 e l2 El _. destruct l1 as [|x [|y l1]]; try discriminate.
      injection El as <- _. cbn [snd]. left. apply marked_mark; [lia | exact Hb].
  - injection E as <-. split; [apply grows_refl|]. split; [intros; left; assumption|].
    intros l1 e l2 El Hle. exfalso. destruct l1 as [|x [|y l1]]; try discriminate.
    injection El as <- _. inversion Hle as [|? ? Hx _]; subst. cbn [fst] in Hx. congruence.
Qed.

Lemma candidate_bends_In (bends : list Bend.t) (min_adj_area : Q) :
  forall i adj k,
    In (adj, k) (candidate_bends i bends min_adj_area)
    <-> exists b, i <= k /\ nth_error bends (Z.to_nat (k - i)) = Some b
                  /\ Qlt_bool (Bend.area b) min_adj_area = true /\ adj = Bend.adj_area b.
Proof.
  induction bends as [|x l IH]; intros i adj k; cbn [candidate_bends].
  - split; [intros [] | intros (b & _ & Hb & _)]. destruct (Z.to_nat (k - i)); discriminate.
  - assert (Htail : In (adj, k) (candidate_bends (i + 1) l min_adj_area)
                    <-> exists b, i + 1 <= k /\ nth_error (x :: l) (Z.to_nat (k - i)) = Some b
                                  /\ Qlt_bool (Bend.area b) min_adj_area = true
                                  /\ adj = Bend.adj_area b).
    { rewrite IH. split; intros (b & Hk & Hb & Hrest); exists b; (split; [exact Hk|]);
        (split; [|exact Hrest]).
      - replace (Z.to_nat (k - i)) with (S (Z.to_nat (k - (i + 1)))) by lia. exact Hb.
      - replace (Z.to_nat (k - i)) with (S (Z.to_nat (k - (i + 1)))) in Hb by lia. exact Hb. }
    assert (Hhead : forall b, i <= k -> nth_error (x :: l) (Z.to_nat (k - i)) = Some b ->
                      (k = i /\ b = x) \/ i + 1 <= k).
    { intros b Hk Hb. destruct (Z.eq_dec k i) as [-> | Hne]; [|right; lia].
      left. rewrite Z.sub_diag in Hb. cbn in Hb. injection Hb as <-. auto. }
    destruct (Qlt_bool (Bend.area x) min_adj_area) eqn:Ex.
    + cbn [In]. rewrite Htail. split.
      * intros [E | (b & Hk & Hb & Hrest)].
        -- injection E as <- <-. exists x. rewrite Z.sub_diag. cbn. repeat split; auto; lia.
        -- exists b. repeat split; try tauto; lia.
      * intros (b & Hk & Hb & Hlt & Hadj).
        destruct (Hhead b Hk Hb) as [(-> & ->) | Hk']; [left; congruence|].
        right. exists b. repeat split; assumption.
    + rewrite Htail. split.
      * intros (b & Hk & Hb & Hrest). exists b. repeat split; try tauto; lia.
      * intros (b & Hk & Hb & Hlt & Hadj).
        destruct (Hhead b Hk Hb) as [(-> & ->) | Hk']; [congruence|].
        exists b. repeat split; assumption.
Qed.

(** The marks [flag_bend_to_reduce] puts on unmarked bends are a greedy
    choice.  A bend is marked only if its area is below the minimum
    adjusted area and its adjusted area is not above it; and every such
    bend that is not marked stands next to a marked bend. *)
Theorem flag_bend_to_reduce_greedy (rb_geom flagged : RbGeom.t) (diameter_tol : Q) :
  Forall (fun b => Bend.to_reduce b = false) (RbGeom.bends rb_geom) ->
  flag_bend_to_reduce rb_geom diameter_tol = Ok flagged ->
  let min_adj_area := calculate_min_adj_area diameter_tol in
  let eligible b :=
    Qlt_bool (Bend.area b) min_adj_area && Qle_bool (Bend.adj_area b) min_adj_area in
  let bends := RbGeom.bends flagged in
  (forall b, In b bends -> Bend.to_reduce b = true -> eligible b = true)
  /\ (forall k b, nth_error bends k = Some b -> eligible b = true ->
        Bend.to_reduce b = false ->
        exists k' b', (k' = S k \/ S k' = k)
                      /\ nth_error bends k' = Some b' /\ Bend.to_reduce b' = true).
Proof.
  intros Hun E min_adj_area eligible bends.
  unfold flag_bend_to_reduce in E. fold min_adj_area in E.
  apply rbind_Ok in E. destruct E as (sub & Esub & E).
  apply rbind_Ok in E. destruct E as (bends' & Eloop & E).
  assert (Hbends : bends = bends').
  { subst bends. injection E as <-. destruct (py_len bends' =? 0); reflexivity. }
  clear E. rewrite Hbends. clear Hbends bends.
  assert (Hkept : kept_bends (RbGeom.bends rb_geom) sub).
  { destruct (RbGeom.is_closed rb_geom && (3 <=? py_len (RbGeom.bends rb_geom))).
    - apply rbind_Ok in Esub. destruct Esub as (l1 & E1 & E2).
      destruct (RbGeom.bends rb_geom) as [|x l]; [discriminate|].
      rewrite py_del_first in E1. injection E1 as <-.
      destruct l as [|y l]; [discriminate|].
      destruct (exists_last (l := y :: l) ltac:(discriminate)) as (sub' & z & El).
      rewrite El in E2 |- *. rewrite py_del_last in E2. injection E2 as <-.
      right. eauto.
    - injection Esub as <-. left. reflexivity. }
  pose proof (kept_bends_Forall _ _ _ Hkept Hun) as Hunsub.
  set (candidates := candidate_bends 0 sub min_adj_area) in *.
  set (lst := sort_by (fun a b => Qle_bool (fst a) (fst b)) candidates) in *.
  assert (Hrange : Forall (fun e => 0 <= snd e < py_len sub) lst).
  { apply Forall_forall. intros e He. apply sort_by_In in He.
    destruct (candidate_bends_range sub min_adj_area 0) as [Hr _].
    rewrite Forall_forall in Hr. specialize (Hr e He). lia. }
  assert (Hspec : grows sub bends'
            /\ (forall k, marked bends' k ->
                  marked sub k
                  \/ exists adj, In (adj, k) lst /\ Qle_bool adj min_adj_area = true)
            /\ (forall l1 e l2, lst = l1 ++ e :: l2 ->
                  Forall (fun x => Qle_bool (fst x) min_adj_area = true) (l1 ++ [e]) ->
                  marked bends' (snd e) \/ marked bends' (snd e - 1)
                  \/ marked bends' (snd e + 1))).
  { destruct (Z.eq_dec (py_len lst) 1) as [E1 | E1].
    - rewrite E1 in Eloop. exact (flag_loop_single _ _ E1 _ _ Hrange Eloop).
    - exact (flag_loop_greedy _ _ _ E1 _ _ Hrange Eloop). }
  destruct Hspec as (G & M & N).
  assert (Hnot : forall k, ~ marked sub k).
  { intros k (_ & b & Hb & Hm). rewrite Forall_forall in Hunsub.
    rewrite (Hunsub b (nth_error_In _ _ Hb)) in Hm. discriminate. }
  assert (Hcand : forall adj k, In (adj, k) lst
                    <-> exists b, 0 <= k /\ nth_error sub (Z.to_nat k) = Some b
                                  /\ Qlt_bool (Bend.area b) min_adj_area = true
                                  /\ adj = Bend.adj_area b).
  { intros adj k. unfold lst. rewrite sort_by_In. unfold candidates.
    rewrite candidate_bends_In. rewrite Z.sub_0_r. reflexivity. }
  split.
  - intros b' Hin Hm. destruct (In_nth_error _ _ Hin) as [k Hk].
    assert (Hmk : marked bends' (Z.of_nat k)).
    { split; [lia|]. exists b'. rewrite Nat2Z.id. split; assumption. }
    destruct (M _ Hmk) as [Hsub | (adj & Hadj & Hle)]; [exfalso; exact (Hnot _ Hsub)|].
    apply Hcand in Hadj. destruct Hadj as (b & _ & Hb & Hlt & ->).
    rewrite Nat2Z.id in Hb.
    destruct (grows_nth _ _ _ _ G Hk) as (b0 & Hb0 & Hrel).
    rewrite Hb in Hb0. injection Hb0 as <-.
    unfold eligible. destruct Hrel as [-> | ->]; cbn; rewrite Hlt, Hle; reflexivity.
  - intros k b' Hk Hel Hm.
    destruct (grows_nth _ _ _ _ G Hk) as (b & Hb & [-> | ->]); [|discriminate].
    unfold eligible in Hel. apply andb_true_iff in Hel. destruct Hel as [Hlt Hle].
    assert (Hin : In (Bend.adj_area b, Z.of_nat k) lst).
    { apply Hcand. exists b. rewrite Nat2Z.id. repeat split; try assumption. lia. }
    destruct (in_split _ _ Hin) as (l1 & l2 & El).
    pose proof (sort_by_sorted candidates) as Hsorted. fold lst in Hsorted.
    rewrite El in Hsorted. apply sorted_split in Hsorted.
    assert (Hpre : Forall (fun x => Qle_bool (fst x) min_adj_area = true)
                     (l1 ++ [(Bend.adj_area b, Z.of_nat k)])).
    { apply Forall_app. split; [|constructor; [exact Hle | constructor]].
      eapply Forall_impl; [|exact Hsorted]. intros x Hx.
      exact (le_key_trans x (Bend.adj_area b, Z.of_nat k) (min_adj_area, 0) Hx Hle). }
    destruct (N _ _ _ El Hpre) as [(_ & c & Hc & Hmc) | [(Hk' & c & Hc & Hmc) | (_ & c & Hc & Hmc)]];
      cbn [snd] in *.
    + rewrite Nat2Z.id in Hc. rewrite Hk in Hc. injection Hc as <-. congruence.
    + exists (Z.to_nat (Z.of_nat k - 1)), c. split; [right; lia|]. split; assumption.
    + exists (Z.to_nat (Z.of_nat k + 1)), c. split; [left; lia|]. split; assumption.
Qed.

End Flagging.

Section FlaggingTheZigzag.

#[local] Existing Instance zigzag_epsilon.

(** The three bends of the zigzag are within the threshold of a tolerance
    of 100: the two outer ones are marked, the middle one stands between
    them. *)
Lemma flag_bend_to_reduce_greedy_witness :
  exists n detected marks,
    detect_bends zigzag_geom = Ok (n, detected)
    /\ flag_bend_to_reduce detected 100 = Ok marks
    /\ map Bend.to_reduce (RbGeom.bends marks) = [true; false; true]
    /\ (forall k b, nth_error (RbGeom.bends marks) k = Some b ->
          Qlt_bool (Bend.area b) (calculate_min_adj_area 100)
          && Qle_bool (Bend.adj_area b) (calculate_min_adj_area 100) = true ->
          Bend.to_reduce b = false ->
          exists k' b', (k' = S k \/ S k' = k)
                        /\ nth_error (RbGeom.bends marks) k' = Some b'
                        /\ Bend.to_reduce b' = true).
Proof.
  assert (E : exists n detected, detect_bends zigzag_geom = Ok (n, detected))
    by (eexists _, _; vm_compute; reflexivity).
  destruct E as (n & detected & E).
  destruct (detect_bends_Ok _ _ _ E) as (_ & _ & _ & _ & _ & _ & _ & Hun).
  assert (Hun' : Forall (fun b => Bend.to_reduce b = false) (RbGeom.bends detected)).
  { rewrite Forall_map in Hun. exact Hun. }
  destruct (flag_bend_to_reduce_Ok detected 100 Hun) as (marks & _ & Ef & _).
  exists n, detected, marks. split; [exact E|]. split; [exact Ef|].
  split; [|exact (proj2 (flag_bend_to_reduce_greedy detected marks 100 Hun' Ef))].
  revert E Ef. vm_compute. intros E. injection E as <- <-.
  intros Ef. injection Ef as <-. reflexivity.
Defined.

End FlaggingTheZigzag.

(** ** Bends that are not marked *)

Section Unmarked.
Context `{Qgs.Api} `{Epsilon}.

Lemma process_bends_loop_unmarked (rb_geom : RbGeom.t) (self : ReduceBend.t) (inds : list Z) :
  Forall (fun b => Bend.to_reduce b = false) (RbGeom.bends rb_geom) ->
  Forall (fun ind => 0 <= ind < py_len (RbGeom.bends rb_geom)) inds ->
  forall r, process_bends_loop inds rb_geom r self = Ok ((r, rb_geom), self).
Proof.
  intros Hun. induction inds as [|ind rest IH]; intros Hall r; [reflexivity|].
  inversion Hall as [|? ? Hind Hrest]; subst.
  cbn [process_bends_loop]. unfold bind at 1.
  destruct (py_get_in_range _ _ Hind) as (b & Hget & Hnth).
  unfold lift. rewrite Hget.
  rewrite Forall_forall in Hun. rewrite (Hun b (nth_error_In _ _ Hnth)).
  apply IH. exact Hrest.
Qed.

(** [process_bends] does not touch a geometry none of whose bends is
    marked: it answers 0 and leaves the geometry, the index, the results
    and the feedback as they are -- no bend is validated, no message is
    pushed. *)
Theorem process_bends_nothing_marked (rb_geom : RbGeom.t) (self : ReduceBend.t) :
  Forall (fun b => Bend.to_reduce b = false) (RbGeom.bends rb_geom) ->
  process_bends rb_geom self = Ok ((0, rb_geom), self).
Proof.
  intros Hun. unfold process_bends. apply process_bends_loop_unmarked; [exact Hun|].
  apply Forall_forall. intros ind Hin. apply in_rev in Hin. apply py_range_In in Hin. lia.
Qed.

End Unmarked.

Section UnmarkedHook.

#[local] Existing Instance hook_epsilon.

Lemma process_bends_nothing_marked_witness :
  exists n detected,
    detect_bends hook_geom = Ok (n, detected)
    /\ n = 3
    /\ process_bends detected (registered hook_run) = Ok ((0, detected), registered hook_run).
Proof.
  assert (E : exists n detected, detect_bends hook_geom = Ok (n, detected))
    by (eexists _, _; vm_compute; reflexivity).
  destruct E as (n & detected & E).
  destruct (detect_bends_Ok _ _ _ E) as (_ & _ & _ & _ & _ & _ & _ & Hun).
  rewrite Forall_map in Hun.
  exists n, detected. split; [exact E|].
  split; [|exact (process_bends_nothing_marked detected (registered hook_run) Hun)].
  revert E. vm_compute. intros E. injection E as <- _. reflexivity.
Defined.

End UnmarkedHook.

(** ** The collection

    The identifiers of the spatial index are handed out by a counter, and
    every segment created is given an origin in the dictionary. *)

Section Collection.
Context `{Qgs.Api} `{Epsilon}.

Definition index_ok (c : RbCollection.t) : Prop :=
  0 <= RbCollection._id_qgs_segment c
  /\ NoDup (map fst (RbCollection._spatial_index c))
  /\ Forall (fun f => 0 < fst f <= RbCollection._id_qgs_segment c
                      /\ exists origin,
                           RbCollection.dict_get (RbCollection._dict_qgs_segment c) (fst f)
                           = Ok origin)
            (RbCollection._spatial_index c).

Lemma find_filter_other (d : list (Z * Z)) (k k' : Z) :
  k' <> k ->
  find (fun e => fst e =? k') (filter (fun e => negb (fst e =? k)) d)
  = find (fun e => fst e =? k') d.
Proof.
  intros Hne. induction d as [|e d IH]; [reflexivity|].
  cbn [filter find]. destruct (Z.eqb_spec (fst e) k) as [Ek | Ek]; cbn [negb].
  - destruct (Z.eqb_spec (fst e) k'); [congruence | exact IH].
  - cbn [find]. destruct (fst e =? k'); [reflexivity | exact IH].
Qed.

Lemma dict_get_set (d : list (Z * Z)) (k v k' : Z) :
  RbCollection.dict_get (RbCollection.dict_set d k v) k'
  = if k' =? k then Ok v else RbCollection.dict_get d k'.
Proof.
  unfold RbCollection.dict_get, RbCollection.dict_set. cbn [find fst].
  rewrite (Z.eqb_sym k k').
  destruct (Z.eqb_spec k' k) as [E | E]; [reflexivity|].
  rewrite find_filter_other by exact E. reflexivity.
Qed.

Lemma _create_feature_segment_Ok (origin_id : Z) (qgs_geom : QgsGeometry) (c : RbCollection.t) :
  RbCollection._create_feature_segment origin_id qgs_geom c
  = Ok ((RbCollection._id_qgs_segment c + 1, qgs_geom),
        {| RbCollection._spatial_index := RbCollection._spatial_index c;
           RbCollection._dict_qgs_segment :=
             RbCollection.dict_set (RbCollection._dict_qgs_segment c)
               (RbCollection._id_qgs_segment c + 1) origin_id;
           RbCollection._id_qgs_segment := RbCollection._id_qgs_segment c + 1 |}).
Proof. reflexivity. Qed.

(** The collection after [fs] was added to the index by features created
    one after the other. *)
Definition created (c c' : RbCollection.t) (fs : list (Z * QgsGeometry)) : Prop :=
  RbCollection._spatial_index c' = RbCollection._spatial_index c
  /\ RbCollection._id_qgs_segment c' = RbCollection._id_qgs_segment c + py_len fs
  /\ map fst fs = py_range (RbCollection._id_qgs_segment c + 1)
                    (RbCollection._id_qgs_segment c + 1 + py_len fs)
  /\ (forall k, k <= RbCollection._id_qgs_segment c ->
        RbCollection.dict_get (RbCollection._dict_qgs_segment c') k
        = RbCollection.dict_get (RbCollection._dict_qgs_segment c) k)
  /\ (forall f, In f fs ->
        exists origin,
          RbCollection.dict_get (RbCollection._dict_qgs_segment c') (fst f) = Ok origin).

Lemma py_range_NoDup (a : Z) (k : nat) : NoDup (py_range a (a + Z.of_nat k)).
Proof.
  revert a. induction k as [|k IH]; intros a.
  - replace (a + Z.of_nat 0) with (a + 0) by lia. unfold py_range.
    replace (a + 0 - a) with 0 by lia. constructor.
  - rewrite py_range_cons. constructor; [|apply IH].
    intros Hin. apply py_range_In in Hin. lia.
Qed.

Lemma index_ok_add (c c' : RbCollection.t) (fs : list (Z * QgsGeometry)) :
  index_ok c -> created c c' fs ->
  index_ok (RbCollection.set_spatial_index c'
              (QgsSpatialIndex.addFeatures (RbCollection._spatial_index c') fs)).
Proof.
  intros (Hpos & Hnd & Hall) (Hidx & Hctr & Hids & Hold & Hnew).
  unfold index_ok, QgsSpatialIndex.addFeatures.
  cbn [RbCollection._spatial_index RbCollection.set_spatial_index
       RbCollection._id_qgs_segment RbCollection._dict_qgs_segment].
  rewrite Hidx. rewrite Forall_forall in Hall.
  split; [rewrite Hctr; pose proof (py_len_nonneg fs); lia|]. split.
  - rewrite map_app. apply NoDup_app; [exact Hnd | |].
    + rewrite Hids. unfold py_len. apply py_range_NoDup.
    + intros k Hk Hk'. rewrite Hids in Hk'. apply py_range_In in Hk'.
      apply in_map_iff in Hk. destruct Hk as (f & <- & Hf).
      destruct (Hall f Hf) as (Hr & _). lia.
  - apply Forall_forall. intros f Hf. apply in_app_or in Hf. destruct Hf as [Hf | Hf].
    + destruct (Hall f Hf) as (Hr & origin & Ho). split.
      * rewrite Hctr. pose proof (py_len_nonneg fs) as Hfs. destruct Hr as [Hr1 Hr2]. split; lia.
      * exists origin. rewrite Hold by lia. exact Ho.
    + split; [|exact (Hnew f Hf)].
      assert (Hk : In (fst f) (map fst fs)) by (apply in_map; exact Hf).
      rewrite Hids in Hk. apply py_range_In in Hk. rewrite Hctr. lia.
Qed.

Lemma created_one (origin_id : Z) (qgs_geom : QgsGeometry) (c : RbCollection.t) :
  0 <= RbCollection._id_qgs_segment c ->
  exists f c',
    RbCollection._create_feature_segment origin_id qgs_geom c = Ok (f, c')
    /\ snd f = qgs_geom
    /\ created c c' [f]
    /\ RbCollection.dict_get (RbCollection._dict_qgs_segment c') (fst f) = Ok origin_id.
Proof.
  intros Hpos. eexists _, _. split; [apply _create_feature_segment_Ok|].
  cbn [fst snd]. split; [reflexivity|]. split.
  - unfold created. cbn [RbCollection._spatial_index RbCollection._id_qgs_segment
                          RbCollection._dict_qgs_segment map fst].
    split; [reflexivity|]. split; [reflexivity|]. split.
    + change (py_len [(RbCollection._id_qgs_segment c + 1, qgs_geom)]) with (Z.of_nat 1).
      rewrite py_range_cons. f_equal. unfold py_range.
      replace (_ - _) with 0 by lia. reflexivity.
    + split.
      * intros k Hk. rewrite dict_get_set.
        destruct (Z.eqb_spec k (RbCollection._id_qgs_segment c + 1)); [lia | reflexivity].
      * intros f [<- | []]. cbn [fst]. rewrite dict_get_set, Z.eqb_refl. eauto.
  - cbn [RbCollection._dict_qgs_segment]. rewrite dict_get_set, Z.eqb_refl. reflexivity.
Qed.

Lemma created_cons (c c1 c2 : RbCollection.t) (f : Z * QgsGeometry)
  (fs : list (Z * QgsGeometry)) :
  created c c1 [f] -> created c1 c2 fs -> created c c2 (f :: fs).
Proof.
  intros (I1 & C1 & D1 & O1 & N1) (I2 & C2 & D2 & O2 & N2).
  assert (Hl : py_len (f :: fs) = 1 + py_len fs)
    by (unfold py_len; cbn [List.length]; lia).
  change (py_len [f]) with 1 in *.
  unfold created. rewrite I2, I1, C2, C1, Hl.
  split; [reflexivity|]. split; [lia|]. split; [|split].
  - cbn [map]. rewrite D2, C1.
    replace (RbCollection._id_qgs_segment c + 1 + (1 + py_len fs))
      with (RbCollection._id_qgs_segment c + 1 + Z.of_nat (S (List.length fs)))
      by (unfold py_len; lia).
    rewrite py_range_cons. cbn [map] in D1.
    change 1 with (Z.of_nat 1) in D1.
    rewrite py_range_cons in D1. injection D1 as D1 _. rewrite D1.
    unfold py_len. reflexivity.
  - intros k Hk. rewrite O2 by lia. apply O1. exact Hk.
  - intros g [<- | Hg]; [|exact (N2 g Hg)].
    destruct (N1 f (or_introl eq_refl)) as (origin & Ho). exists origin.
    rewrite O2; [exact Ho|].
    assert (Hk : In (fst f) (map fst [f])) by (left; reflexivity).
    rewrite D1 in Hk. apply py_range_In in Hk. lia.
Qed.

Lemma created_nil (c : RbCollection.t) : created c c [].
Proof.
  unfold created. change (py_len (@nil (Z * QgsGeometry))) with 0.
  split; [reflexivity|]. split; [lia|]. split.
  - unfold py_range. replace (_ - _) with 0 by lia. reflexivity.
  - split; [reflexivity | intros f []].
Qed.

Lemma created_counter (c c' : RbCollection.t) (fs : list (Z * QgsGeometry)) :
  created c c' fs -> 0 <= RbCollection._id_qgs_segment c ->
  0 <= RbCollection._id_qgs_segment c'.
Proof. intros (_ & C & _) Hpos. rewrite C. pose proof (py_len_nonneg fs). lia. Qed.

Lemma segment_features_created (origin_id : Z) (qgs_points : list QgsPoint) :
  forall c, 0 <= RbCollection._id_qgs_segment c ->
    exists fs c',
      RbCollection.segment_features origin_id qgs_points c = Ok (fs, c')
      /\ created c c' fs
      /\ List.length fs = (List.length qgs_points - 1)%nat.
Proof.
  induction qgs_points as [|a tl IH]; intros c Hpos.
  - exists [], c. split; [reflexivity|]. split; [apply created_nil | reflexivity].
  - cbn [RbCollection.segment_features]. destruct tl as [|b tl'].
    + exists [], c. split; [reflexivity|]. split; [apply created_nil | reflexivity].
    + destruct (created_one origin_id (QgsLineString [a; b]) c Hpos) as (f & c1 & E1 & _ & K1 & _).
      destruct (IH c1 (created_counter _ _ _ K1 Hpos)) as (fs & c2 & E2 & K2 & Hlen).
      exists (f :: fs), c2. split.
      * unfold bind at 1. rewrite E1. unfold bind at 1. rewrite E2. reflexivity.
      * split; [exact (created_cons _ _ _ _ _ K1 K2)|].
        cbn [List.length] in *. lia.
Qed.

(** The number of entries a geometry has in the index: one for a point,
    one for every segment of a line. *)
Definition nbr_entries (rb_geom : RbGeom.t) : Z :=
  if WkbType_eqb (wkbType (RbGeom.qgs_geom rb_geom)) WkbPoint then 1
  else Z.max 0 (numPoints (RbGeom.qgs_geom rb_geom) - 1).

Fixpoint total_entries (rb_geoms : list RbGeom.t) : Z :=
  match rb_geoms with
  | [] => 0
  | g :: rest => nbr_entries g + total_entries rest
  end.

Lemma add_features_Ok (rb_geoms : list RbGeom.t) :
  forall c, index_ok c ->
    exists c',
      RbCollection.add_features rb_geoms c = Ok (tt, c')
      /\ index_ok c'
      /\ py_len (RbCollection._spatial_index c')
         = py_len (RbCollection._spatial_index c) + total_entries rb_geoms
      /\ RbCollection._id_qgs_segment c'
         = RbCollection._id_qgs_segment c + total_entries rb_geoms.
Proof.
  induction rb_geoms as [|g rest IH]; intros c Hok.
  - exists c. split; [reflexivity|]. split; [exact Hok|]. cbn. lia.
  - assert (Hpos : 0 <= RbCollection._id_qgs_segment c) by apply Hok.
    assert (Hfs : exists fs c1,
               (if WkbType_eqb (wkbType (RbGeom.qgs_geom g)) WkbPoint
                then f <- RbCollection._create_feature_segment (RbGeom.id g) (RbGeom.qgs_geom g) ;;
                     ret [f]
                else RbCollection.segment_features (RbGeom.id g) (points (RbGeom.qgs_geom g))) c
               = Ok (fs, c1)
               /\ created c c1 fs /\ py_len fs = nbr_entries g).
    { unfold nbr_entries. destruct (WkbType_eqb (wkbType (RbGeom.qgs_geom g)) WkbPoint).
      - destruct (created_one (RbGeom.id g) (RbGeom.qgs_geom g) c Hpos) as (f & c1 & E1 & _ & K1 & _).
        exists [f], c1. split; [unfold bind; rewrite E1; reflexivity|].
        split; [exact K1 | reflexivity].
      - destruct (segment_features_created (RbGeom.id g) (points (RbGeom.qgs_geom g)) c Hpos)
          as (fs & c1 & E1 & K1 & Hlen).
        exists fs, c1. split; [exact E1|]. split; [exact K1|].
        unfold py_len, numPoints, py_len. lia. }
    destruct Hfs as (fs & c1 & E1 & K1 & Hlen).
    pose proof (index_ok_add _ _ _ Hok K1) as Hok1.
    destruct (IH _ Hok1) as (c' & E' & Hok' & Hcount & Hctr).
    exists c'. split.
    + cbn [RbCollection.add_features]. unfold bind at 1. rewrite E1.
      unfold bind at 1, get. unfold bind at 1, put. exact E'.
    + split; [exact Hok'|]. destruct K1 as (I1 & C1 & _).
      cbn [RbCollection._spatial_index RbCollection.set_spatial_index
           RbCollection._id_qgs_segment total_entries] in *.
      unfold QgsSpatialIndex.addFeatures in Hcount. rewrite I1 in Hcount.
      unfold py_len in *. rewrite length_app in Hcount. split; lia.
Qed.

Lemma index_ok_filter (c : RbCollection.t) (p : Z * QgsGeometry -> bool) :
  index_ok c ->
  index_ok (RbCollection.set_spatial_index c (filter p (RbCollection._spatial_index c))).
Proof.
  intros (Hpos & Hnd & Hall). unfold index_ok.
  cbn [RbCollection._spatial_index RbCollection.set_spatial_index
       RbCollection._id_qgs_segment RbCollection._dict_qgs_segment].
  split; [exact Hpos|]. split.
  - clear Hall. induction (RbCollection._spatial_index c) as [|f l IH]; [constructor|].
    cbn [map] in Hnd. inversion Hnd as [|? ? Hnot Hnd']; subst.
    cbn [filter]. destruct (p f); [|exact (IH Hnd')].
    cbn [map]. constructor; [|exact (IH Hnd')].
    intros Hin. apply Hnot. apply in_map_iff in Hin. destruct Hin as (g & Hg & Hin).
    apply filter_In in Hin. apply in_map_iff. exists g. tauto.
  - apply Forall_forall. intros f Hf. apply filter_In in Hf.
    rewrite Forall_forall in Hall. exact (Hall f (proj1 Hf)).
Qed.

Lemma filter_out_one (idx : list (Z * QgsGeometry)) (id : Z) :
  NoDup (map fst idx) -> In id (map fst idx) ->
  py_len (filter (fun f => negb (fst f =? id)) idx) = py_len idx - 1.
Proof.
  unfold py_len. induction idx as [|f l IH]; intros Hnd Hin; [destruct Hin|].
  cbn [map] in Hnd, Hin. inversion Hnd as [|? ? Hnot Hnd']; subst.
  cbn [filter List.length].
  destruct (Z.eqb_spec (fst f) id) as [E | E]; cbn [negb].
  - assert (Hall : filter (fun f => negb (fst f =? id)) l = l).
    { apply forallb_filter_id. apply forallb_forall. intros g Hg.
      destruct (Z.eqb_spec (fst g) id) as [Eg | Eg]; [|reflexivity].
      exfalso. apply Hnot. rewrite E, <- Eg. apply in_map. exact Hg. }
    rewrite Hall. lia.
  - destruct Hin as [Hin | Hin]; [contradiction|].
    cbn [List.length]. specialize (IH Hnd' Hin).
    assert (0 < List.length l)%nat by (destruct l; [destruct Hin | cbn; lia]). lia.
Qed.

Lemma geometry_In (idx : QgsSpatialIndex.t) (id : Z) (g : QgsGeometry) :
  QgsSpatialIndex.geometry idx id = Ok g -> In (id, g) idx.
Proof.
  unfold QgsSpatialIndex.geometry. destruct (find _ idx) as [f|] eqn:E; [|discriminate].
  intros E'. injection E' as <-. apply find_some in E. destruct E as [Hin Hid].
  apply Z.eqb_eq in Hid. destruct f as [k g]. cbn in *. subst k. exact Hin.
Qed.

Lemma geometry_Ok (idx : QgsSpatialIndex.t) (id : Z) :
  In id (map fst idx) -> exists g, QgsSpatialIndex.geometry idx id = Ok g.
Proof.
  intros Hin. unfold QgsSpatialIndex.geometry.
  destruct (find (fun f => fst f =? id) idx) as [f|] eqn:E; [eauto|].
  exfalso. apply in_map_iff in Hin. destruct Hin as (f & Hf & Hin).
  pose proof (find_none _ _ E f Hin) as Hn. cbn in Hn. apply Z.eqb_neq in Hn. contradiction.
Qed.

(** What the loop of [_delete_segment] does when it ends without an
    exception: nothing, or the removal of the first candidate that matches
    the two end points. *)
Lemma _delete_segment_loop_Ok (qgs_pnt0 qgs_pnt1 : option QgsPoint) (ids : list Z) :
  forall (c c' : RbCollection.t) (deleted r : option bool),
    RbCollection._delete_segment_loop ids qgs_pnt0 qgs_pnt1 deleted c = Ok (r, c') ->
    (r = Some true
     /\ exists id g,
          In id ids /\ In (id, g) (RbCollection._spatial_index c)
          /\ RbCollection.is_right_geometry g qgs_pnt0 qgs_pnt1 = true
          /\ c' = RbCollection.set_spatial_index c
                    (filter (fun f => negb (fst f =? id)) (RbCollection._spatial_index c)))
    \/ (r = deleted \/ r = Some false) /\ c' = c.
Proof.
  induction ids as [|id rest IH]; intros c c' deleted r E.
  - cbn in E. injection E as <- <-. right. auto.
  - cbn [RbCollection._delete_segment_loop] in E.
    apply bind_Ok in E. destruct E as (c0 & c1 & E0 & E). apply get_Ok in E0.
    destruct E0 as [-> ->].
    apply bind_Ok in E. destruct E as (g & c2 & Eg & E). apply lift_Ok in Eg.
    cbn [fst snd] in Eg. destruct Eg as [Eg ->].
    destruct (RbCollection.is_right_geometry g qgs_pnt0 qgs_pnt1) eqn:Er.
    + unfold QgsSpatialIndex.deleteFeature in E.
      destruct (existsb (fun f => fst f =? id) (RbCollection._spatial_index c)); [|discriminate].
      apply bind_Ok in E. destruct E as (u & c3 & Ep & E). apply put_Ok in Ep. subst c3.
      injection E as <- <-. left. split; [reflexivity|].
      exists id, g. split; [left; reflexivity|].
      split; [exact (geometry_In _ _ _ Eg)|]. split; [exact Er | reflexivity].
    + destruct (IH _ _ _ _ E) as [(Hr & id' & g' & Hin & Hrest) | ([Hr | Hr] & Hc)].
      * left. split; [exact Hr|]. exists id', g'. split; [right; exact Hin | exact Hrest].
      * right. split; [right; exact Hr | exact Hc].
      * right. split; [right; exact Hr | exact Hc].
Qed.

Lemma _delete_segment_Ok (qgs_pnt0 qgs_pnt1 : option QgsPoint) (c c' : RbCollection.t) (u : unit) :
  RbCollection._delete_segment qgs_pnt0 qgs_pnt1 c = Ok (u, c') ->
  exists id g,
    In id (RbCollection.midpoint_candidates c qgs_pnt0 qgs_pnt1)
    /\ In (id, g) (RbCollection._spatial_index c)
    /\ RbCollection.is_right_geometry g qgs_pnt0 qgs_pnt1 = true
    /\ c' = RbCollection.set_spatial_index c
              (filter (fun f => negb (fst f =? id)) (RbCollection._spatial_index c)).
Proof.
  unfold RbCollection._delete_segment. intros E.
  apply bind_Ok in E. destruct E as (c0 & c1 & E0 & E). apply get_Ok in E0.
  destruct E0 as [-> ->].
  apply bind_Ok in E. destruct E as (r & c2 & El & E).
  destruct (_delete_segment_loop_Ok _ _ _ _ _ _ _ El) as [(-> & id & g & Hrest) | ([-> | ->] & ->)];
    try discriminate.
  injection E as _ <-. exists id, g. exact Hrest.
Qed.

Lemma is_right_geometry_vertices (g : QgsGeometry) (p0 p1 : option QgsPoint) :
  RbCollection.is_right_geometry g p0 p1 = true -> p0 <> None /\ p1 <> None.
Proof.
  unfold RbCollection.is_right_geometry, RbCollection.within_distance. intros E.
  apply andb_true_iff in E. destruct E as [E0 E1].
  destruct (vertexAt g 0), p0; try discriminate.
  destruct (vertexAt g 1), p1; try discriminate. split; discriminate.
Qed.

Lemma _delete_segment_index (p0 p1 : option QgsPoint) (c c' : RbCollection.t) (u : unit) :
  index_ok c ->
  RbCollection._delete_segment p0 p1 c = Ok (u, c') ->
  index_ok c'
  /\ py_len (RbCollection._spatial_index c') = py_len (RbCollection._spatial_index c) - 1
  /\ RbCollection._id_qgs_segment c' = RbCollection._id_qgs_segment c
  /\ RbCollection._dict_qgs_segment c' = RbCollection._dict_qgs_segment c
  /\ p0 <> None /\ p1 <> None.
Proof.
  intros Hok E. destruct (_delete_segment_Ok _ _ _ _ _ E) as (id & g & _ & Hin & Hr & ->).
  split; [apply index_ok_filter; exact Hok|].
  cbn [RbCollection._spatial_index RbCollection.set_spatial_index
       RbCollection._id_qgs_segment RbCollection._dict_qgs_segment].
  split; [|split; [reflexivity | split; [reflexivity | exact (is_right_geometry_vertices _ _ _ Hr)]]].
  apply filter_out_one; [apply Hok|].
  apply in_map_iff. exists (id, g). split; [reflexivity | exact Hin].
Qed.

Lemma delete_segments_index (qgs_geom : QgsGeometry) (v_ids : list Z) :
  forall (c c' : RbCollection.t) (u : unit),
    index_ok c ->
    RbCollection.delete_segments qgs_geom v_ids c = Ok (u, c') ->
    index_ok c'
    /\ py_len (RbCollection._spatial_index c')
       = py_len (RbCollection._spatial_index c) - Z.max 0 (py_len v_ids - 1)
    /\ RbCollection._id_qgs_segment c' = RbCollection._id_qgs_segment c
    /\ RbCollection._dict_qgs_segment c' = RbCollection._dict_qgs_segment c
    /\ ((2 <= List.length v_ids)%nat -> Forall (fun v => vertexAt qgs_geom v <> None) v_ids).
Proof.
  induction v_ids as [|a tl IH]; intros c c' u Hok E.
  - destruct u. cbn in E. injection E as <-. split; [exact Hok|]. cbn. repeat split; try lia.
  - cbn [RbCollection.delete_segments] in E. destruct tl as [|b tl'].
    + destruct u. cbn in E. injection E as <-. split; [exact Hok|].
      unfold py_len. cbn [List.length]. repeat split; try lia.
    + apply bind_Ok in E. destruct E as (u1 & c1 & E1 & E2).
      destruct (_delete_segment_index _ _ _ _ _ Hok E1) as (Hok1 & L1 & C1 & D1 & Va & Vb).
      destruct (IH _ _ _ Hok1 E2) as (Hok' & L' & C' & D' & V').
      split; [exact Hok'|]. split; [|split; [congruence | split; [congruence|]]].
      * rewrite L', L1. unfold py_len. cbn [List.length]. lia.
      * intros _. constructor; [exact Va|].
        destruct tl' as [|x tl'']; [constructor; [exact Vb | constructor]|].
        apply V'. cbn [List.length]. lia.
Qed.

Lemma vertexAt_Some (g : QgsGeometry) (k : Z) :
  vertexAt g k <> None -> 0 <= k < numPoints g.
Proof.
  unfold vertexAt, numPoints, py_len. destruct (Z.ltb_spec k 0); [congruence|].
  intros Hn. apply nth_error_Some in Hn. lia.
Qed.

Lemma fold_deleteVertex_points (k : nat) :
  forall (l : list QgsPoint) (a : Z),
    0 <= a -> a + Z.of_nat k <= py_len l ->
    fold_left deleteVertex (rev (py_range a (a + Z.of_nat k))) (QgsLineString l)
    = QgsLineString (firstn (Z.to_nat a) l ++ skipn (Z.to_nat a + k) l).
Proof.
  induction k as [|k IH]; intros l a Ha Hb.
  - replace (a + Z.of_nat 0) with (a + 0) by lia. unfold py_range.
    replace (a + 0 - a) with 0 by lia. cbn [Z.to_nat seq map rev fold_left].
    rewrite Nat.add_0_r, firstn_skipn. reflexivity.
  - rewrite py_range_succ, rev_app_distr. cbn [rev app fold_left].
    unfold deleteVertex at 2.
    destruct (Z.leb_spec 0 (a + Z.of_nat k)); [|lia].
    destruct (Z.ltb_spec (a + Z.of_nat k) (py_len l)); [|lia]. cbn [andb].
    unfold py_len in *.
    rewrite IH; [|lia|].
    + f_equal. replace (Z.to_nat (a + Z.of_nat k)) with (Z.to_nat a + k)%nat by lia.
      rewrite firstn_app, firstn_firstn.
      replace (Nat.min (Z.to_nat a) (Z.to_nat a + k)) with (Z.to_nat a) by lia.
      rewrite length_firstn.
      replace (Z.to_nat a - Nat.min (Z.to_nat a + k) (List.length l))%nat with 0%nat by lia.
      cbn [firstn]. rewrite app_nil_r. f_equal.
      rewrite skipn_app, length_firstn.
      replace (Nat.min (Z.to_nat a + k) (List.length l)) with (Z.to_nat a + k)%nat by lia.
      rewrite Nat.sub_diag. cbn [skipn].
      rewrite skipn_firstn_comm. rewrite Nat.sub_diag. cbn [firstn app].
      replace (Z.to_nat a + S k)%nat with (S (Z.to_nat a + k)) by lia. reflexivity.
    + rewrite length_app, length_firstn, length_skipn. lia.
Qed.

Lemma index_ok_add_one (origin_id : Z) (qgs_geom : QgsGeometry) (c : RbCollection.t) :
  index_ok c ->
  index_ok
    (RbCollection.set_spatial_index
       {| RbCollection._spatial_index := RbCollection._spatial_index c;
          RbCollection._dict_qgs_segment :=
            RbCollection.dict_set (RbCollection._dict_qgs_segment c)
              (RbCollection._id_qgs_segment c + 1) origin_id;
          RbCollection._id_qgs_segment := RbCollection._id_qgs_segment c + 1 |}
       (QgsSpatialIndex.addFeature (RbCollection._spatial_index c)
          (RbCollection._id_qgs_segment c + 1, qgs_geom))).
Proof.
  intros Hok. assert (Hpos : 0 <= RbCollection._id_qgs_segment c) by apply Hok.
  destruct (created_one origin_id qgs_geom c Hpos) as (f & c' & E & _ & Hc & _).
  rewrite _create_feature_segment_Ok in E. injection E as <- <-.
  exact (index_ok_add _ _ _ Hok Hc).
Qed.

Lemma delete_vertex_run (rb_geom rb_geom' : RbGeom.t) (a b : Z) (c c' : RbCollection.t) :
  index_ok c ->
  RbCollection.delete_vertex rb_geom a b c = Ok (rb_geom', c') ->
  1 <= a /\ a <= b /\ b + 1 < numPoints (RbGeom.qgs_geom rb_geom)
  /\ index_ok c'
  /\ py_len (RbCollection._spatial_index c')
     = py_len (RbCollection._spatial_index c) - (b - a + 1)
  /\ RbCollection._id_qgs_segment c' = RbCollection._id_qgs_segment c + 1
  /\ RbCollection.dict_get (RbCollection._dict_qgs_segment c')
       (RbCollection._id_qgs_segment c + 1) = Ok (RbGeom.id rb_geom)
  /\ (wkbType (RbGeom.qgs_geom rb_geom) = WkbLineString ->
      points (RbGeom.qgs_geom rb_geom')
      = firstn (Z.to_nat a) (points (RbGeom.qgs_geom rb_geom))
          ++ skipn (Z.to_nat (b + 1)) (points (RbGeom.qgs_geom rb_geom))).
Proof.
  intros Hok E. unfold RbCollection.delete_vertex in E.
  apply bind_Ok in E. destruct E as (first & c1 & E1 & E). apply lift_Ok in E1.
  cbn [fst snd] in E1. destruct E1 as [E1 ->].
  assert (Hab : a <= b).
  { destruct (Z.le_gt_cases a b) as [Hle | Hgt]; [exact Hle|]. exfalso.
    unfold py_range in E1. replace (Z.to_nat (b + 1 - a)) with 0%nat in E1 by lia.
    discriminate. }
  assert (Hrange : py_range a (b + 1) = a :: py_range (a + 1) (b + 1)).
  { replace (b + 1) with (a + Z.of_nat (S (Z.to_nat (b - a)))) by lia.
    rewrite py_range_cons. do 2 f_equal. lia. }
  rewrite Hrange in E1. cbn in E1. injection E1 as <-.
  apply bind_Ok in E. destruct E as (last & c2 & E2 & E). apply lift_Ok in E2.
  cbn [fst snd] in E2. destruct E2 as [E2 ->].
  assert (Hlast : last = b).
  { replace (b + 1) with (a + Z.of_nat (S (Z.to_nat (b - a)))) in E2 by lia.
    rewrite py_range_succ in E2. rewrite py_get_last in E2. injection E2 as <-. lia. }
  subst last.
  set (v_ids := (a - 1 :: py_range a (b + 1)) ++ [b + 1]) in *.
  assert (Hlen : py_len v_ids = b - a + 3).
  { subst v_ids. unfold py_len. cbn [app List.length]. rewrite length_app.
    cbn [List.length]. pose proof (py_range_length a (b + 1)) as Hl. unfold py_len in Hl. lia. }
  apply bind_Ok in E. destruct E as (u & c3 & E3 & E).
  destruct (delete_segments_index _ _ _ _ _ Hok E3) as (Hok3 & L3 & C3 & D3 & V3).
  assert (Hv : Forall (fun v => vertexAt (RbGeom.qgs_geom rb_geom) v <> None) v_ids).
  { apply V3. unfold py_len in Hlen. lia. }
  assert (Hfirst : vertexAt (RbGeom.qgs_geom rb_geom) (a - 1) <> None).
  { rewrite Forall_forall in Hv. apply Hv. subst v_ids. left. reflexivity. }
  assert (Hend : vertexAt (RbGeom.qgs_geom rb_geom) (b + 1) <> None).
  { rewrite Forall_forall in Hv. apply Hv. subst v_ids. apply in_or_app. right. left.
    reflexivity. }
  apply vertexAt_Some in Hfirst, Hend.
  apply bind_Ok in E. destruct E as (v_first & c4 & E4 & E). apply lift_Ok in E4.
  cbn [fst snd] in E4. destruct E4 as [_ ->].
  apply bind_Ok in E. destruct E as (v_last & c5 & E5 & E). apply lift_Ok in E5.
  cbn [fst snd] in E5. destruct E5 as [_ ->].
  apply bind_Ok in E. destruct E as (f & c6 & E6 & E).
  rewrite _create_feature_segment_Ok in E6. injection E6 as <- <-.
  apply bind_Ok in E. destruct E as (c7 & c8 & E7 & E). apply get_Ok in E7.
  destruct E7 as [-> ->].
  apply bind_Ok in E. destruct E as (u' & c9 & E9 & E). apply put_Ok in E9. subst c9.
  injection E as <- <-.
  split; [lia|]. split; [exact Hab|]. split; [lia|].
  split; [|split; [|split; [|split]]].
  - apply index_ok_add_one. exact Hok3.
  - cbn [RbCollection._spatial_index RbCollection.set_spatial_index].
    unfold QgsSpatialIndex.addFeature, py_len. rewrite length_app. cbn [List.length].
    unfold py_len in L3, Hlen. lia.
  - cbn [RbCollection._id_qgs_segment RbCollection.set_spatial_index]. lia.
  - cbn [RbCollection._dict_qgs_segment RbCollection.set_spatial_index].
    rewrite dict_get_set, C3, Z.eqb_refl. reflexivity.
  - intros Hline. cbn [RbGeom.qgs_geom RbGeom.set_qgs_geom].
    destruct (RbGeom.qgs_geom rb_geom) as [p | l | r] eqn:Eg; try discriminate.
    replace (b + 1) with (a + Z.of_nat (Z.to_nat (b + 1 - a))) at 1 by lia.
    rewrite fold_deleteVertex_points.
    + cbn [points]. do 2 f_equal. lia.
    + lia.
    + unfold numPoints in Hend. cbn [points] in Hend. lia.
Qed.

(** The effect of [delete_vertex] when it returns: it was asked for a
    range [a..b] of inner vertices with [a <= b] (a range that reaches the
    first or the last vertex makes it raise); the index lost the [b - a + 2]
    segments around them and gained the one that replaces them, created
    under the next identifier; and on a line the vertices [a..b] are gone,
    the others kept in their order. *)
Theorem delete_vertex_effect (rb_geom rb_geom' : RbGeom.t) (a b : Z) (c c' : RbCollection.t) :
  index_ok c ->
  RbCollection.delete_vertex rb_geom a b c = Ok (rb_geom', c') ->
  1 <= a /\ a <= b /\ b + 1 < numPoints (RbGeom.qgs_geom rb_geom)
  /\ index_ok c'
  /\ py_len (RbCollection._spatial_index c')
     = py_len (RbCollection._spatial_index c) - (b - a + 1)
  /\ RbCollection._id_qgs_segment c' = RbCollection._id_qgs_segment c + 1
  /\ RbCollection.dict_get (RbCollection._dict_qgs_segment c')
       (RbCollection._id_qgs_segment c + 1) = Ok (RbGeom.id rb_geom)
  /\ (wkbType (RbGeom.qgs_geom rb_geom) = WkbLineString ->
      points (RbGeom.qgs_geom rb_geom')
      = firstn (Z.to_nat a) (points (RbGeom.qgs_geom rb_geom))
          ++ skipn (Z.to_nat (b + 1)) (points (RbGeom.qgs_geom rb_geom))).
Proof. exact (delete_vertex_run rb_geom rb_geom' a b c c'). Qed.

Lemma add_segments_index (origin_id : Z) (qgs_points : list QgsPoint) :
  forall c, index_ok c ->
    exists c',
      RbCollection.add_segments origin_id qgs_points c = Ok (tt, c')
      /\ index_ok c'
      /\ py_len (RbCollection._spatial_index c')
         = py_len (RbCollection._spatial_index c) + Z.max 0 (py_len qgs_points - 1)
      /\ RbCollection._id_qgs_segment c'
         = RbCollection._id_qgs_segment c + Z.max 0 (py_len qgs_points - 1).
Proof.
  induction qgs_points as [|a tl IH]; intros c Hok.
  - exists c. split; [reflexivity|]. split; [exact Hok|]. cbn. lia.
  - cbn [RbCollection.add_segments]. destruct tl as [|b tl'].
    + exists c. split; [reflexivity|]. split; [exact Hok|]. cbn. lia.
    + pose proof (index_ok_add_one origin_id (QgsLineString [a; b]) c Hok) as Hok1.
      destruct (IH _ Hok1) as (c' & E' & Hok' & L' & C').
      exists c'. split.
      * unfold bind at 1. rewrite _create_feature_segment_Ok.
        unfold bind at 1, get. unfold bind at 1, put. exact E'.
      * split; [exact Hok'|].
        cbn [RbCollection._spatial_index RbCollection.set_spatial_index
             RbCollection._id_qgs_segment] in L', C'.
        unfold QgsSpatialIndex.addFeature in L'. unfold py_len in *.
        rewrite length_app in L'. cbn [List.length] in *. split; lia.
Qed.

Lemma fold_insertVertex_points (tmp l : list QgsPoint) (j : Z) :
  0 <= j < py_len l ->
  fold_left (fun g qgs_point => insertVertex g qgs_point j) (rev tmp) (QgsLineString l)
  = QgsLineString (firstn (Z.to_nat j) l ++ tmp ++ skipn (Z.to_nat j) l).
Proof.
  intros Hj. induction tmp as [|a tl IH].
  - cbn [rev fold_left app]. rewrite firstn_skipn. reflexivity.
  - cbn [rev]. rewrite fold_left_app, IH. cbn [fold_left]. unfold insertVertex.
    unfold py_len in *.
    assert (Hf : List.length (firstn (Z.to_nat j) l) = Z.to_nat j)
      by (rewrite length_firstn; lia).
    destruct (Z.leb_spec 0 j); [|lia].
    destruct (Z.ltb_spec j (Z.of_nat (List.length (firstn (Z.to_nat j) l ++ tl ++ skipn (Z.to_nat j) l)))) as [_ | Hge].
    + cbn [andb]. f_equal.
      rewrite firstn_app, Hf, Nat.sub_diag. cbn [firstn]. rewrite app_nil_r.
      rewrite firstn_firstn, Nat.min_id.
      rewrite skipn_app, Hf, Nat.sub_diag. cbn [skipn].
      rewrite <- Hf at 2. rewrite skipn_all. reflexivity.
    + rewrite length_app, Hf, length_app, length_skipn in Hge. lia.
Qed.

Lemma add_vertex_run (rb_geom rb_geom' : RbGeom.t) (bend_i bend_j : Z)
  (qgs_geom_new_subline : QgsGeometry) (c c' : RbCollection.t) :
  index_ok c ->
  RbCollection.add_vertex rb_geom bend_i bend_j qgs_geom_new_subline c = Ok (rb_geom', c') ->
  let segments := Z.max 0 (numPoints qgs_geom_new_subline - 1) in
  0 <= bend_i < numPoints (RbGeom.qgs_geom rb_geom)
  /\ 0 <= bend_j < numPoints (RbGeom.qgs_geom rb_geom)
  /\ index_ok c'
  /\ py_len (RbCollection._spatial_index c')
     = py_len (RbCollection._spatial_index c) - 1 + segments
  /\ RbCollection._id_qgs_segment c' = RbCollection._id_qgs_segment c + segments
  /\ (wkbType (RbGeom.qgs_geom rb_geom) = WkbLineString ->
      points (RbGeom.qgs_geom rb_geom')
      = firstn (Z.to_nat bend_j) (points (RbGeom.qgs_geom rb_geom))
          ++ py_slice (points qgs_geom_new_subline) 1 (-1)
          ++ skipn (Z.to_nat bend_j) (points (RbGeom.qgs_geom rb_geom))).
Proof.
  intros Hok E segments. unfold RbCollection.add_vertex in E.
  apply bind_Ok in E. destruct E as (u & c1 & E1 & E).
  destruct (_delete_segment_index _ _ _ _ _ Hok E1) as (Hok1 & L1 & C1 & _ & Vi & Vj).
  apply vertexAt_Some in Vi, Vj.
  apply bind_Ok in E. destruct E as (u2 & c2 & E2 & E). injection E as <- <-.
  destruct (add_segments_index (RbGeom.id rb_geom) (points qgs_geom_new_subline) c1 Hok1)
    as (c2' & E2' & Hok2 & L2 & C2).
  rewrite E2' in E2. injection E2 as _ <-.
  split; [exact Vi|]. split; [exact Vj|]. split; [exact Hok2|].
  subst segments. unfold numPoints. split; [lia|]. split; [lia|].
  intros Hline. cbn [RbGeom.qgs_geom RbGeom.set_qgs_geom].
  destruct (RbGeom.qgs_geom rb_geom) as [p | l | r] eqn:Eg; try discriminate.
  rewrite fold_insertVertex_points; [reflexivity|].
  unfold numPoints in Vj. cbn [points] in Vj. exact Vj.
Qed.

(** The effect of [add_vertex] when it returns: the two vertices named
    are vertices of the line; the index lost the segment between them and
    gained one entry for each segment of the new line; and on a line the
    inner vertices of the new line stand, in their order, just before
    vertex [bend_j]. *)
Theorem add_vertex_effect (rb_geom rb_geom' : RbGeom.t) (bend_i bend_j : Z)
  (qgs_geom_new_subline : QgsGeometry) (c c' : RbCollection.t) :
  index_ok c ->
  RbCollection.add_vertex rb_geom bend_i bend_j qgs_geom_new_subline c = Ok (rb_geom', c') ->
  let segments := Z.max 0 (numPoints qgs_geom_new_subline - 1) in
  0 <= bend_i < numPoints (RbGeom.qgs_geom rb_geom)
  /\ 0 <= bend_j < numPoints (RbGeom.qgs_geom rb_geom)
  /\ index_ok c'
  /\ py_len (RbCollection._spatial_index c')
     = py_len (RbCollection._spatial_index c) - 1 + segments
  /\ RbCollection._id_qgs_segment c' = RbCollection._id_qgs_segment c + segments
  /\ (wkbType (RbGeom.qgs_geom rb_geom) = WkbLineString ->
      points (RbGeom.qgs_geom rb_geom')
      = firstn (Z.to_nat bend_j) (points (RbGeom.qgs_geom rb_geom))
          ++ py_slice (points qgs_geom_new_subline) 1 (-1)
          ++ skipn (Z.to_nat bend_j) (points (RbGeom.qgs_geom rb_geom))).
Proof.
  exact (add_vertex_run rb_geom rb_geom' bend_i bend_j qgs_geom_new_subline c c').
Qed.

Lemma split_segments_Ok (c : RbCollection.t) (qgs_geom_id : Z) (ids : list Z) :
  index_ok c ->
  (forall k, In k ids -> In k (map fst (RbCollection._spatial_index c))) ->
  forall itself others qgs_points,
    exists r, RbCollection.split_segments c qgs_geom_id ids itself others qgs_points = Ok r.
Proof.
  intros (_ & _ & Hall) Hin. induction ids as [|k rest IH]; intros itself others qgs_points.
  - eexists. reflexivity.
  - cbn [RbCollection.split_segments].
    assert (Hk : In k (map fst (RbCollection._spatial_index c))) by (apply Hin; left; reflexivity).
    apply in_map_iff in Hk. destruct Hk as (f & <- & Hf).
    destruct (geometry_Ok (RbCollection._spatial_index c) (fst f)) as (g & Eg).
    { apply in_map. exact Hf. }
    rewrite Eg. cbn [rbind].
    assert (IH' := IH (fun k' Hk' => Hin k' (or_intror Hk'))).
    destruct (WkbType_eqb (wkbType g) WkbPoint); [apply IH'|].
    rewrite Forall_forall in Hall. destruct (Hall f Hf) as (_ & origin & ->). cbn [rbind].
    destruct (origin =? qgs_geom_id); apply IH'.
Qed.

(** The search of the index never fails on a collection that keeps the
    invariant: every identifier the window query answers has a geometry
    in the index and an origin in the dictionary, so neither lookup
    raises. *)
Theorem get_segment_intersect_total (c : RbCollection.t) (qgs_geom_id : Z)
  (qgs_rectangle : option QgsRectangle) :
  index_ok c ->
  exists itself others,
    RbCollection.get_segment_intersect c qgs_geom_id qgs_rectangle = Ok (itself, others).
Proof.
  intros Hok. unfold RbCollection.get_segment_intersect.
  destruct (split_segments_Ok c qgs_geom_id (RbCollection.window_query c qgs_rectangle) Hok)
    with (itself := @nil (list QgsPoint)) (others := @nil (list QgsPoint))
         (qgs_points := @nil QgsGeometry) as (r & Er).
  - intros k Hk. unfold RbCollection.window_query in Hk.
    destruct qgs_rectangle as [rect|]; [|destruct Hk].
    unfold QgsSpatialIndex.intersects in Hk. apply in_map_iff in Hk.
    destruct Hk as (f & <- & Hf). apply filter_In in Hf. apply in_map. apply Hf.
  - rewrite Er. destruct r as [[itself others] qgs_points]. cbn [rbind]. eauto.
Qed.

Lemma index_ok_init : index_ok RbCollection.init.
Proof.
  unfold index_ok. cbn. split; [lia|]. split; constructor.
Qed.

(** The empty collection has the invariant.  [add_features] never fails
    on a collection that keeps the invariant, and keeps it: a point
    geometry gives one entry of the index, a line of [n] vertices one entry
    for each of its [n - 1] segments, and the counter of identifiers
    advances by the number of entries. *)
Theorem add_features_registers (rb_geoms : list RbGeom.t) (c : RbCollection.t) :
  index_ok RbCollection.init
  /\ (index_ok c ->
      exists c',
        RbCollection.add_features rb_geoms c = Ok (tt, c')
        /\ index_ok c'
        /\ py_len (RbCollection._spatial_index c')
           = py_len (RbCollection._spatial_index c) + total_entries rb_geoms
        /\ RbCollection._id_qgs_segment c'
           = RbCollection._id_qgs_segment c + total_entries rb_geoms).
Proof. split; [exact index_ok_init | exact (add_features_Ok rb_geoms c)]. Qed.

End Collection.

Section CollectionOfTheZigzag.

#[local] Existing Instance zigzag_epsilon.

(** The zigzag gives four entries to an empty collection. *)
Lemma add_features_registers_witness :
  index_ok RbCollection.init
  /\ exists c,
       RbCollection.add_features [zigzag_geom] RbCollection.init = Ok (tt, c)
       /\ index_ok c
       /\ py_len (RbCollection._spatial_index c) = 4
       /\ RbCollection._id_qgs_segment c = 4.
Proof.
  destruct (add_features_registers [zigzag_geom] RbCollection.init) as [Hinit Hadd].
  split; [exact Hinit|].
  destruct (Hadd Hinit) as (c & E & Hok & L & C).
  exists c. split; [exact E|]. split; [exact Hok|]. rewrite L, C.
  split; vm_compute; reflexivity.
Defined.

(** The segments of the zigzag found in the window of its bounding box
    are all its own. *)
Lemma get_segment_intersect_total_witness :
  exists c itself others,
    RbCollection.add_features [zigzag_geom] RbCollection.init = Ok (tt, c)
    /\ index_ok c
    /\ RbCollection.get_segment_intersect c 1 (boundingBox (QgsLineString zigzag))
       = Ok (itself, others).
Proof.
  destruct (add_features_Ok [zigzag_geom] RbCollection.init index_ok_init)
    as (c & E & Hok & _).
  destruct (get_segment_intersect_total c 1 (boundingBox (QgsLineString zigzag)) Hok)
    as (itself & others & Eq).
  exists c, itself, others. split; [exact E|]. split; [exact Hok | exact Eq].
Defined.

(** Vertices 1 and 2 of the zigzag deleted: three segments leave the
    index, one enters it. *)
Lemma delete_vertex_effect_witness :
  exists c rb_geom' c',
    RbCollection.add_features [zigzag_geom] RbCollection.init = Ok (tt, c)
    /\ RbCollection.delete_vertex zigzag_geom 1 2 c = Ok (rb_geom', c')
    /\ index_ok c'
    /\ py_len (RbCollection._spatial_index c') = 2
    /\ RbCollection._id_qgs_segment c' = 5
    /\ points (RbGeom.qgs_geom rb_geom') = [(0, 0); (30, 4); (40, 0)]%Q.
Proof.
  destruct (add_features_Ok [zigzag_geom] RbCollection.init index_ok_init)
    as (c & E & Hok & L & C).
  assert (E2 : exists rb_geom' c',
             (c0 <- RbCollection.add_features [zigzag_geom] ;;
              RbCollection.delete_vertex zigzag_geom 1 2) RbCollection.init
             = Ok (rb_geom', c'))
    by (eexists _, _; vm_compute; reflexivity).
  destruct E2 as (rb_geom' & c' & E2). unfold bind in E2. rewrite E in E2.
  destruct (delete_vertex_effect _ _ _ _ _ _ Hok E2) as (_ & _ & _ & Hok' & L' & C' & _ & Hp).
  exists c, rb_geom', c'. split; [exact E|]. split; [exact E2|]. split; [exact Hok'|].
  rewrite L', L, C', C, Hp by reflexivity.
  split; [vm_compute; reflexivity|]. split; vm_compute; reflexivity.
Defined.

(** A vertex added between vertices 1 and 2 of the zigzag: one segment
    leaves the index, two enter it. *)
Lemma add_vertex_effect_witness :
  exists c rb_geom' c',
    RbCollection.add_features [zigzag_geom] RbCollection.init = Ok (tt, c)
    /\ RbCollection.add_vertex zigzag_geom 1 2
         (QgsLineString [(10, 4); (15, 0); (20, -4)]%Q) c = Ok (rb_geom', c')
    /\ index_ok c'
    /\ py_len (RbCollection._spatial_index c') = 5
    /\ RbCollection._id_qgs_segment c' = 6
    /\ points (RbGeom.qgs_geom rb_geom')
       = [(0, 0); (10, 4); (15, 0); (20, -4); (30, 4); (40, 0)]%Q.
Proof.
  destruct (add_features_Ok [zigzag_geom] RbCollection.init index_ok_init)
    as (c & E & Hok & L & C).
  assert (E2 : exists rb_geom' c',
             (c0 <- RbCollection.add_features [zigzag_geom] ;;
              RbCollection.add_vertex zigzag_geom 1 2
                (QgsLineString [(10, 4); (15, 0); (20, -4)]%Q)) RbCollection.init
             = Ok (rb_geom', c'))
    by (eexists _, _; vm_compute; reflexivity).
  destruct E2 as (rb_geom' & c' & E2). unfold bind in E2. rewrite E in E2.
  destruct (add_vertex_effect _ _ _ _ _ _ _ Hok E2) as (_ & _ & Hok' & L' & C' & Hp).
  exists c, rb_geom', c'. split; [exact E|]. split; [exact E2|]. split; [exact Hok'|].
  rewrite L', L, C', C, Hp by reflexivity.
  split; [vm_compute; reflexivity|]. split; vm_compute; reflexivity.
Defined.

End CollectionOfTheZigzag.

(** ** The directions of the bends of a closed line *)

Section Directions.
Context `{Qgs.Api} `{Epsilon}.

Lemma alternate_direction_alternates (bends : list Bend.t) :
  forall (d : Bend.Direction),
    let bends' := alternate_direction (Some d) bends in
    map (fun b => Bend.set_direction b None) bends'
    = map (fun b => Bend.set_direction b None) bends
    /\ Forall (fun b => Bend.direction b <> None) bends'
    /\ (forall b, nth_error bends' 0 = Some b -> Bend.direction b <> Some d)
    /\ (forall k b1 b2, nth_error bends' k = Some b1 -> nth_error bends' (S k) = Some b2 ->
          Bend.direction b1 <> Bend.direction b2).
Proof.
  induction bends as [|b l IH]; intros d bends'.
  - subst bends'. cbn. split; [reflexivity|]. split; [constructor|].
    split; [discriminate|]. intros [|k]; discriminate.
  - subst bends'. cbn [alternate_direction].
    set (d' := match d with Bend.IN => Bend.OUT | Bend.OUT => Bend.IN end).
    assert (Ed : match Some d with Some Bend.IN => Some Bend.OUT | _ => Some Bend.IN end = Some d')
      by (destruct d; reflexivity).
    rewrite Ed. destruct (IH d') as (Hm & Hd & Hf & Ha).
    split; [|split; [|split]].
    + cbn [map]. rewrite Hm. reflexivity.
    + constructor; [destruct b; discriminate | exact Hd].
    + intros b0 E. cbn in E. injection E as <-. destruct b, d; discriminate.
    + intros [|k] b1 b2 E1 E2.
      * cbn in E1. injection E1 as <-. cbn [nth_error] in E2.
        specialize (Hf b2 E2). destruct b; cbn [Bend.direction Bend.set_direction].
        congruence.
      * cbn [nth_error] in E1, E2. exact (Ha k b1 b2 E1 E2).
Qed.

(** On an open line [set_bend_direction] does nothing.  On a closed line
    it changes the directions of the bends and nothing else: the first
    bend goes in when the centroid of its polygon is within the polygon of
    the line and out otherwise, every bend has a direction, and two
    consecutive bends never have the same one. *)
Theorem set_bend_direction_alternates (rb_geom : RbGeom.t) :
  let bends' := RbGeom.bends (set_bend_direction rb_geom) in
  (RbGeom.is_closed rb_geom = false -> set_bend_direction rb_geom = rb_geom)
  /\ (RbGeom.is_closed rb_geom = true ->
      RbGeom.set_bends (set_bend_direction rb_geom) (RbGeom.bends rb_geom) = rb_geom
      /\ map (fun b => Bend.set_direction b None) bends'
         = map (fun b => Bend.set_direction b None) (RbGeom.bends rb_geom)
      /\ Forall (fun b => Bend.direction b <> None) bends'
      /\ (forall first_bend b, nth_error (RbGeom.bends rb_geom) 0 = Some first_bend ->
            nth_error bends' 0 = Some b ->
            Bend.direction b
            = if Qgs.within (QgsPointGeometry (Qgs.centroid (Bend.qgs_geom_bend first_bend)))
                            (QgsPolygon (points (RbGeom.qgs_geom rb_geom)))
              then Some Bend.IN else Some Bend.OUT)
      /\ (forall k b1 b2, nth_error bends' k = Some b1 -> nth_error bends' (S k) = Some b2 ->
            Bend.direction b1 <> Bend.direction b2)).
Proof.
  intros bends'. subst bends'. unfold set_bend_direction. split.
  - intros ->. reflexivity.
  - intros ->. cbn [andb].
    destruct (RbGeom.bends rb_geom) as [|first_bend rest] eqn:Eb.
    + cbn [py_len List.length Z.of_nat Z.leb Z.compare]. rewrite Eb.
      split; [destruct rb_geom; cbn in *; subst; reflexivity|].
      split; [reflexivity|]. split; [constructor|].
      split; [discriminate|]. intros [|k]; discriminate.
    + replace (1 <=? py_len (first_bend :: rest)) with true
        by (symmetry; apply Z.leb_le; unfold py_len; cbn [List.length]; lia).
      set (w := Qgs.within _ _).
      set (d := if w then Bend.IN else Bend.OUT).
      assert (Ed : (if w then Some Bend.IN else Some Bend.OUT) = Some d)
        by (subst d; destruct w; reflexivity).
      rewrite Ed. cbn [RbGeom.bends RbGeom.set_bends].
      destruct (alternate_direction_alternates rest d) as (Hm & Hd & Hf & Ha).
      split; [destruct rb_geom; cbn in *; subst; reflexivity|].
      split; [cbn [map]; rewrite Hm; reflexivity|].
      split; [constructor; [destruct first_bend; discriminate | exact Hd]|].
      split.
      * intros fb b Efb E. cbn in Efb, E. injection Efb as <-. injection E as <-.
        fold w. rewrite Ed. destruct first_bend; reflexivity.
      * intros [|k] b1 b2 E1 E2.
        -- cbn in E1. injection E1 as <-. cbn [nth_error] in E2.
           specialize (Hf b2 E2). destruct first_bend; cbn [Bend.direction Bend.set_direction].
           congruence.
        -- cbn [nth_error] in E1, E2. exact (Ha k b1 b2 E1 E2).
Qed.

End Directions.

(** ** The alternate bends *)

Section Alternates.
Context `{Qgs.Api} `{Epsilon}.

Lemma insert_by_sorted_total {A : Type} (before : A -> A -> bool) (x : A) (l : list A) :
  (forall a b, before a b = false -> before b a = true) ->
  (forall a b c, before a b = true -> before b c = true -> before a c = true) ->
  StronglySorted (fun a b => before a b = true) l ->
  StronglySorted (fun a b => before a b = true) (insert_by before x l).
Proof.
  intros Htot Htrans. induction 1 as [|y l Hs IH Hall]; cbn [insert_by].
  - constructor; constructor.
  - destruct (before y x) eqn:E.
    + constructor; [exact IH|]. apply Forall_forall. intros z Hz.
      apply insert_by_In in Hz. destruct Hz as [-> | Hz]; [exact E|].
      rewrite Forall_forall in Hall. exact (Hall z Hz).
    + constructor; [constructor; assumption|].
      pose proof (Htot _ _ E) as Hxy.
      constructor; [exact Hxy|]. eapply Forall_impl; [|exact Hall].
      intros z Hz. exact (Htrans _ _ _ Hxy Hz).
Qed.

Lemma sort_by_sorted_total {A : Type} (before : A -> A -> bool) (l : list A) :
  (forall a b, before a b = false -> before b a = true) ->
  (forall a b c, before a b = true -> before b c = true -> before a c = true) ->
  StronglySorted (fun a b => before a b = true) (sort_by before l).
Proof.
  intros Htot Htrans. unfold sort_by.
  assert (G : forall acc, StronglySorted (fun a b => before a b = true) acc ->
                StronglySorted (fun a b => before a b = true)
                  (fold_left (fun acc x => insert_by before x acc) l acc)).
  { induction l as [|x l IH]; intros acc Hacc; cbn [fold_left]; [exact Hacc|].
    apply IH. apply insert_by_sorted_total; assumption. }
  apply G. constructor.
Qed.

(** An entry of the list the loops build: a bend from [i] to [j], not
    marked, with its area as the key. *)
Definition alternate_entry (e : Q * Bend.t) : Prop :=
  fst e = Bend.area (snd e) /\ Bend.to_reduce (snd e) = false.

Lemma alternate_bends_inner_complete (qgs_points : list QgsPoint) (fuel : nat) :
  forall i j acc r,
    j - i <= Z.of_nat fuel ->
    alternate_bends_inner fuel i j qgs_points acc = Ok r ->
    (forall e, In e acc -> In e r)
    /\ (Forall alternate_entry acc -> Forall alternate_entry r)
    /\ (forall i', i <= i' -> i' + 2 <= j ->
          exists e, In e r /\ Bend.i (snd e) = i' /\ Bend.j (snd e) = j).
Proof.
  induction fuel as [|fuel IH]; intros i j acc r Hfuel E; cbn in E.
  - injection E as <-. split; [auto|]. split; [auto|]. intros i' Hi Hj. lia.
  - destruct (Z.leb_spec 2 (j - i)) as [Hge | Hlt].
    + apply rbind_Ok in E. destruct E as (poly & Ep & E).
      apply rbind_Ok in E. destruct E as (alt & Ea & E).
      assert (Harea : Bend.area alt = Qgs.area poly).
      { unfold Bend.init in Ea. apply rbind_Ok in Ea. destruct Ea as (a & _ & Ea).
        injection Ea as <-. reflexivity. }
      apply Bend_init_Ok in Ea. destruct Ea as (Bi & Bj & Bt & _).
      destruct (IH (i + 1) j (acc ++ [(Qgs.area poly, alt)]) r ltac:(lia) E) as (Hsub & Hent & Hall).
      split; [|split].
      * intros e He. apply Hsub. apply in_or_app. left. exact He.
      * intros Hacc. apply Hent. apply Forall_app. split; [exact Hacc|].
        constructor; [|constructor]. split; [symmetry; exact Harea | exact Bt].
      * intros i' Hi Hj. destruct (Z.eq_dec i' i) as [-> | Hne].
        -- exists (Qgs.area poly, alt). split; [|split; assumption].
           apply Hsub. apply in_or_app. right. left. reflexivity.
        -- apply Hall; lia.
    + injection E as <-. split; [auto|]. split; [auto|]. intros i' Hi Hj. lia.
Qed.

Lemma alternate_bends_outer_complete (bend_i : Z) (qgs_points : list QgsPoint) (fuel : nat) :
  forall j acc r,
    j - 2 <= Z.of_nat fuel ->
    alternate_bends_outer fuel bend_i j qgs_points acc = Ok r ->
    (forall e, In e acc -> In e r)
    /\ (Forall alternate_entry acc -> Forall alternate_entry r)
    /\ (forall i' j', bend_i <= i' -> i' + 2 <= j' -> 3 <= j' -> j' <= j ->
          exists e, In e r /\ Bend.i (snd e) = i' /\ Bend.j (snd e) = j').
Proof.
  induction fuel as [|fuel IH]; intros j acc r Hfuel E; cbn in E.
  - injection E as <-. split; [auto|]. split; [auto|]. intros i' j' Hi Hj H3 Hle. lia.
  - destruct (Z.leb_spec 2 (j - 1)) as [Hge | Hlt].
    + apply rbind_Ok in E. destruct E as (acc' & Ei & E).
      destruct (alternate_bends_inner_complete qgs_points (Z.to_nat (j - bend_i)) bend_i j acc acc'
                  ltac:(lia) Ei)
        as (Hsub1 & Hent1 & Hall1).
      destruct (IH (j - 1) acc' r ltac:(lia) E) as (Hsub & Hent & Hall).
      split; [|split].
      * intros e He. apply Hsub, Hsub1, He.
      * intros Hacc. apply Hent, Hent1, Hacc.
      * intros i' j' Hi Hj H3 Hle. destruct (Z.eq_dec j' j) as [-> | Hne].
        -- destruct (Hall1 i' Hi Hj) as (e & He & Hei & Hej).
           exists e. split; [apply Hsub, He | split; assumption].
        -- apply Hall; lia.
    + injection E as <-. split; [auto|]. split; [auto|]. intros i' j' Hi Hj H3 Hle. lia.
Qed.

Lemma sorted_map_snd (l : list (Q * Bend.t)) :
  Forall alternate_entry l ->
  StronglySorted (fun a b => Qle_bool (fst b) (fst a) = true) l ->
  StronglySorted (fun a b => (Bend.area b <= Bend.area a)%Q) (map snd l).
Proof.
  intros Hent Hs. induction Hs as [|e l Hs IH Hall]; cbn [map]; [constructor|].
  inversion Hent as [|? ? He Hl]; subst.
  constructor; [exact (IH Hl)|].
  apply Forall_forall. intros b Hb. apply in_map_iff in Hb. destruct Hb as (e' & <- & He').
  rewrite Forall_forall in Hall, Hl. specialize (Hall e' He'). apply Qle_bool_iff in Hall.
  destruct He as [<- _]. destruct (Hl e' He') as [<- _]. exact Hall.
Qed.

(** What [find_alternate_bends] answers for the bend at [ind]: one bend
    for each pair [i < j] of vertices of its span that are at least two
    segments apart and whose [j] is 3 or more, and no other; the bends
    are not marked, and they come by decreasing area. *)
Theorem find_alternate_bends_enumerates (ind : Z) (rb_geom : RbGeom.t) (bend : Bend.t)
  (alternate_bends : list Bend.t) :
  py_get (RbGeom.bends rb_geom) ind = Ok bend ->
  find_alternate_bends ind rb_geom = Ok alternate_bends ->
  (forall i j,
      (exists b, In b alternate_bends /\ Bend.i b = i /\ Bend.j b = j)
      <-> (Bend.i bend <= i /\ i + 2 <= j /\ 3 <= j /\ j <= Bend.j bend))
  /\ Forall (fun b => Bend.to_reduce b = false) alternate_bends
  /\ StronglySorted (fun a b => (Bend.area b <= Bend.area a)%Q) alternate_bends.
Proof.
  intros Hget E.
  pose proof (find_alternate_bends_span _ _ _ _ Hget E) as Hspan.
  unfold find_alternate_bends in E. rewrite Hget in E. cbn [rbind] in E.
  apply rbind_Ok in E. destruct E as (alts & Eo & E). injection E as <-.
  destruct (alternate_bends_outer_complete (Bend.i bend) (points (RbGeom.qgs_geom rb_geom))
              (Z.to_nat (Bend.j bend)) (Bend.j bend) [] alts ltac:(lia) Eo) as (_ & Hent & Hall).
  specialize (Hent (Forall_nil _)).
  split; [|split].
  - intros i j. split.
    + intros (b & Hb & <- & <-). rewrite Forall_forall in Hspan.
      destruct (Hspan b Hb) as (H1 & H2 & H3 & H4 & _). lia.
    + intros (H1 & H2 & H3 & H4). destruct (Hall i j H1 H2 H3 H4) as (e & He & Hi & Hj).
      exists (snd e). split; [|split; assumption].
      apply in_map. apply sort_by_In. exact He.
  - apply Forall_forall. intros b Hb. rewrite Forall_forall in Hspan.
    apply (Hspan b Hb).
  - apply sorted_map_snd.
    + apply Forall_forall. intros e He. apply sort_by_In in He.
      rewrite Forall_forall in Hent. exact (Hent e He).
    + apply (sort_by_sorted_total (fun a b : Q * Bend.t => Qle_bool (fst b) (fst a))).
      * intros a b Eab. apply Qle_bool_iff.
        destruct (Qlt_le_dec (fst a) (fst b)) as [Hlt | Hle];
          [apply Qlt_le_weak; exact Hlt|].
        apply Qle_bool_iff in Hle. congruence.
      * intros a b c Eab Ebc. apply Qle_bool_iff. apply Qle_bool_iff in Eab, Ebc.
        eapply Qle_trans; eassumption.
Qed.

End Alternates.

Section AlternatesOfTheHook.

#[local] Existing Instance hook_epsilon.

(** The first bend of the hook spans the vertices 0 to 3: the alternates
    are the pairs (0, 3) and (1, 3). *)
Lemma find_alternate_bends_enumerates_witness :
  exists bend alternate_bends,
    py_get (RbGeom.bends (flagged hook_geom 30)) 0 = Ok bend
    /\ find_alternate_bends 0 (flagged hook_geom 30) = Ok alternate_bends
    /\ (Bend.i bend, Bend.j bend) = (0, 3)
    /\ (forall i j,
          (exists b, In b alternate_bends /\ Bend.i b = i /\ Bend.j b = j)
          <-> (0 <= i /\ i + 2 <= j /\ 3 <= j /\ j <= 3))
    /\ StronglySorted (fun a b => (Bend.area b <= Bend.area a)%Q) alternate_bends.
Proof.
  assert (E : exists bend, py_get (RbGeom.bends (flagged hook_geom 30)) 0 = Ok bend
                           /\ (Bend.i bend, Bend.j bend) = (0, 3))
    by (eexists; split; vm_compute; reflexivity).
  destruct E as (bend & Eb & Eij).
  assert (E : exists alternate_bends,
             find_alternate_bends 0 (flagged hook_geom 30) = Ok alternate_bends)
    by (eexists; vm_compute; reflexivity).
  destruct E as (alternate_bends & Ea).
  destruct (find_alternate_bends_enumerates _ _ _ _ Eb Ea) as (Hspans & _ & Hsorted).
  exists bend, alternate_bends. split; [exact Eb|]. split; [exact Ea|].
  split; [exact Eij|]. split; [|exact Hsorted].
  injection Eij as Ei Ej. rewrite Ei, Ej in Hspans. exact Hspans.
Defined.

End AlternatesOfTheHook.

(** ** The pivot of a closed line *)

Section Pivot.
Context `{Qgs.Api} `{Epsilon}.

(** The bends the loop of [pivot_closed_line] looks for.  The ideal bend
    for a pivot has four vertices at least and an area not below the
    threshold; the optimal one is ideal and turned outwards, and the loop
    is left at the first of them.  A bend can be chosen when it is ideal
    or has a positive area. *)
Definition pivot_ideal (d : Q) (b : Bend.t) : bool :=
  (4 <=? Bend.j b - Bend.i b) && Qle_bool (calculate_min_adj_area d) (Bend.area b).

Definition pivot_optimal (d : Q) (b : Bend.t) : bool :=
  pivot_ideal d b && is_OUT (Bend.direction b).

Definition pivot_candidate (d : Q) (b : Bend.t) : bool :=
  Qlt_bool 0 (Bend.area b) || pivot_ideal d b.

Lemma Qlt_bool_above (a x : Q) :
  (0 <= a)%Q -> Qlt_bool a x = true -> (0 <= x)%Q /\ Qlt_bool 0 x = true.
Proof.
  unfold Qlt_bool. intros Ha Hlt. apply negb_true_iff in Hlt.
  assert (Hax : (a < x)%Q).
  { apply Qnot_le_lt. intros Hle. apply Qle_bool_iff in Hle. congruence. }
  split; [lra|]. apply negb_true_iff.
  destruct (Qle_bool x 0) eqn:E; [|reflexivity].
  apply Qle_bool_iff in E. lra.
Qed.

(** The answer of the loop: whether an optimal bend was met, which is then
    the answer; and the bend chosen, a bend of the list that can be chosen,
    unless there is none. *)
Lemma pivot_scan_result (d : Q) (bends : list Bend.t) :
  forall (bend_location : option Bend.t) (bend_area : Q),
    (0 <= bend_area)%Q ->
    exists chosen optimal,
      pivot_scan bends d bend_location bend_area = (chosen, optimal)
      /\ optimal = existsb (pivot_optimal d) bends
      /\ (optimal = true -> chosen = find (pivot_optimal d) bends)
      /\ match chosen with
         | Some b => (In b bends /\ pivot_candidate d b = true) \/ bend_location = Some b
         | None =>
             bend_location = None
             /\ forall b, In b bends ->
                          Qlt_bool bend_area (Bend.area b) = false /\ pivot_ideal d b = false
         end.
Proof.
  induction bends as [|bend rest IH]; intros bend_location bend_area Harea.
  - exists bend_location, false. cbn [pivot_scan existsb find].
    split; [reflexivity|]. split; [reflexivity|]. split; [discriminate|].
    destruct bend_location as [b|]; [right; reflexivity|].
    split; [reflexivity | intros b []].
  - cbn [pivot_scan existsb find]. unfold pivot_optimal at 1 3, pivot_ideal at 1 2.
    assert (Hstep : forall loc area,
               (0 <= area)%Q ->
               (loc = Some bend /\ pivot_candidate d bend = true
                \/ loc = bend_location /\ area = bend_area
                   /\ Qlt_bool bend_area (Bend.area bend) = false
                   /\ pivot_ideal d bend = false) ->
               pivot_optimal d bend = false ->
               exists chosen optimal,
                 pivot_scan rest d loc area = (chosen, optimal)
                 /\ optimal = existsb (pivot_optimal d) rest
                 /\ (optimal = true -> chosen = find (pivot_optimal d) rest)
                 /\ match chosen with
                    | Some b => (In b (bend :: rest) /\ pivot_candidate d b = true)
                                \/ bend_location = Some b
                    | None =>
                        bend_location = None
                        /\ forall b, In b (bend :: rest) ->
                                     Qlt_bool bend_area (Bend.area b) = false
                                     /\ pivot_ideal d b = false
                    end).
    { intros loc area Ha Hloc Hno.
      destruct (IH loc area Ha) as (chosen & optimal & E & Hopt & Hfind & Hchosen).
      exists chosen, optimal. split; [exact E|]. split; [exact Hopt|].
      split; [exact Hfind|].
      destruct chosen as [b|].
      - destruct Hchosen as [[Hin Hc] | Hb].
        + left. split; [right; exact Hin | exact Hc].
        + destruct Hloc as [[Hl Hc] | (Hl & _)].
          * rewrite Hl in Hb. injection Hb as <-. left. split; [left; reflexivity | exact Hc].
          * right. rewrite <- Hl. exact Hb.
      - destruct Hchosen as [Hnone Hall].
        destruct Hloc as [[Hl _] | (Hl & Harea' & Hlt & Hid)]; [congruence|].
        split; [congruence|]. intros b [<- | Hin]; [split; assumption|].
        rewrite <- Harea'. exact (Hall b Hin). }
    assert (Hlarger : Qlt_bool bend_area (Bend.area bend) = true ->
                      (0 <= Bend.area bend)%Q /\ pivot_candidate d bend = true).
    { intros Hlt. destruct (Qlt_bool_above _ _ Harea Hlt) as [Hpos Hc].
      split; [exact Hpos|]. unfold pivot_candidate. rewrite Hc. reflexivity. }
    assert (Hkeep : (0 <= (if Qlt_bool bend_area (Bend.area bend)
                           then Bend.area bend else bend_area))%Q).
    { destruct (Qlt_bool bend_area (Bend.area bend)) eqn:Hlt; [|exact Harea].
      exact (proj1 (Hlarger eq_refl)). }
    destruct (4 <=? Bend.j bend - Bend.i bend) eqn:E4; cbn [andb].
    + destruct (Qle_bool (calculate_min_adj_area d) (Bend.area bend)) eqn:Emin; cbn [andb].
      * assert (Hc : pivot_candidate d bend = true).
        { unfold pivot_candidate, pivot_ideal. rewrite E4, Emin. apply orb_true_r. }
        destruct (is_OUT (Bend.direction bend)) eqn:Eout; cbn [orb].
        -- exists (Some bend), true. split; [reflexivity|]. split; [reflexivity|].
           split; [reflexivity|]. left. split; [left; reflexivity | exact Hc].
        -- apply Hstep; [exact Hkeep | left; split; [reflexivity | exact Hc] |].
           unfold pivot_optimal. rewrite Eout. apply andb_false_r.
      * assert (Hid : pivot_ideal d bend = false)
          by (unfold pivot_ideal; rewrite E4, Emin; reflexivity).
        apply Hstep; [exact Hkeep | | unfold pivot_optimal; rewrite Hid; reflexivity].
        destruct (Qlt_bool bend_area (Bend.area bend)) eqn:Hlt.
        -- left. split; [reflexivity | exact (proj2 (Hlarger eq_refl))].
        -- right. repeat split. exact Hid.
    + assert (Hid : pivot_ideal d bend = false)
        by (unfold pivot_ideal; rewrite E4; reflexivity).
      apply Hstep; [exact Hkeep | | unfold pivot_optimal; rewrite Hid; reflexivity].
      destruct (Qlt_bool bend_area (Bend.area bend)) eqn:Hlt.
      * left. split; [reflexivity | exact (proj2 (Hlarger eq_refl))].
      * right. repeat split. exact Hid.
Qed.

Lemma firstn_snoc {A : Type} (l : list A) :
  forall (m : nat) (x : A) (tl : list A),
    skipn m l = x :: tl -> firstn (S m) l = firstn m l ++ [x].
Proof.
  induction l as [|a l IH]; intros m x tl E.
  - destruct m; discriminate.
  - destruct m as [|m].
    + cbn in E. injection E as <- _. reflexivity.
    + cbn [skipn] in E. change (firstn (S (S m)) (a :: l)) with (a :: firstn (S m) l).
      rewrite (IH m x tl E). reflexivity.
Qed.

Lemma rotate_closed (first : QgsPoint) (ring : list QgsPoint) (k : Z) :
  0 <= k <= py_len ring ->
  exists p,
    hd_error (skipn (Z.to_nat k) (first :: ring) ++ firstn (Z.to_nat k) (first :: ring))
    = Some p
    /\ py_slice_from (first :: ring ++ [first]) k
         ++ py_slice (first :: ring ++ [first]) 1 (k + 1)
       = (skipn (Z.to_nat k) (first :: ring) ++ firstn (Z.to_nat k) (first :: ring)) ++ [p].
Proof.
  intros Hk. unfold py_slice_from, py_slice, py_bound.
  assert (Hlen : py_len (first :: ring ++ [first]) = py_len ring + 2).
  { unfold py_len. cbn [List.length]. rewrite length_app. cbn [List.length]. lia. }
  rewrite Hlen. unfold py_len in Hk.
  destruct (Z.ltb_spec k 0); [lia|]. destruct (Z.ltb_spec (k + 1) 0); [lia|].
  cbn [Z.ltb Z.compare].
  replace (Z.to_nat (Z.min k (py_len ring + 2))) with (Z.to_nat k) by (unfold py_len; lia).
  replace (Z.to_nat (Z.min (k + 1) (py_len ring + 2))) with (S (Z.to_nat k))
    by (unfold py_len; lia).
  replace (Z.to_nat (Z.min 1 (py_len ring + 2))) with 1%nat by (unfold py_len; lia).
  replace (S (Z.to_nat k) - 1)%nat with (Z.to_nat k) by lia.
  change (skipn 1 (first :: ring ++ [first])) with (ring ++ [first]).
  assert (Hm : (Z.to_nat k <= List.length ring)%nat) by lia.
  revert Hm. generalize (Z.to_nat k). clear k Hk H1 H2 Hlen. intros m Hm.
  rewrite (firstn_app m ring).
  replace (m - List.length ring)%nat with 0%nat by lia. cbn [firstn]. rewrite app_nil_r.
  destruct m as [|m].
  - exists first. cbn [skipn firstn hd_error app]. rewrite app_nil_r.
    split; [reflexivity|]. rewrite app_nil_r. reflexivity.
  - cbn [skipn]. change (firstn (S m) (first :: ring)) with (first :: firstn m ring).
    rewrite skipn_app.
    replace (m - List.length ring)%nat with 0%nat by lia.
    cbn [skipn].
    destruct (skipn m ring) as [|p tl] eqn:Es.
    + exfalso. assert (Hl : List.length (skipn m ring) = 0%nat) by (rewrite Es; reflexivity).
      rewrite length_skipn in Hl. lia.
    + exists p. split; [reflexivity|].
      rewrite (firstn_snoc ring m p tl Es). rewrite <- !app_assoc. reflexivity.
Qed.

(** [pivot_closed_line] on a ring whose bends lie on the ring.  The bends
    are left as they are.  A line that is not closed, or needs no pivot, is
    returned as it is.  On a closed line that needs a pivot, the need
    stays unless the line has an optimal bend; the line is returned as it
    is when no bend can be chosen; and otherwise the ring is rotated on the
    middle [k] of a bend that can be chosen, the first optimal bend when
    there is one: the vertices from [k] on, then those before [k], then
    vertex [k] again, which closes the new ring. *)
Theorem pivot_closed_line_rotates (rb_geom : RbGeom.t) (diameter_tol : Q)
  (first : QgsPoint) (ring : list QgsPoint) :
  points (RbGeom.qgs_geom rb_geom) = first :: ring ++ [first] ->
  Forall (fun b => 0 <= Bend.i b /\ Bend.i b < Bend.j b /\ Bend.j b <= py_len ring + 1)
         (RbGeom.bends rb_geom) ->
  let rb_geom' := pivot_closed_line rb_geom diameter_tol in
  RbGeom.bends rb_geom' = RbGeom.bends rb_geom
  /\ (RbGeom.is_closed rb_geom && RbGeom.need_pivot rb_geom = false -> rb_geom' = rb_geom)
  /\ (RbGeom.is_closed rb_geom && RbGeom.need_pivot rb_geom = true ->
      RbGeom.need_pivot rb_geom'
      = negb (existsb (pivot_optimal diameter_tol) (RbGeom.bends rb_geom))
      /\ if forallb (fun b => negb (pivot_candidate diameter_tol b)) (RbGeom.bends rb_geom)
         then rb_geom' = rb_geom
         else exists (b : Bend.t) (k : Z) (rotated : list QgsPoint) (p : QgsPoint),
                In b (RbGeom.bends rb_geom)
                /\ pivot_candidate diameter_tol b = true
                /\ (forall o, find (pivot_optimal diameter_tol) (RbGeom.bends rb_geom) = Some o ->
                              b = o)
                /\ k = (Bend.j b + Bend.i b) / 2
                /\ 0 <= k <= py_len ring
                /\ rotated = skipn (Z.to_nat k) (first :: ring)
                               ++ firstn (Z.to_nat k) (first :: ring)
                /\ hd_error rotated = Some p
                /\ points (RbGeom.qgs_geom rb_geom') = rotated ++ [p]).
Proof.
  intros Hring Hbends rb_geom'.
  split; [apply pivot_closed_line_shrinks|].
  subst rb_geom'. unfold pivot_closed_line.
  split; [intros ->; reflexivity|]. intros Hcn. rewrite Hcn.
  apply andb_true_iff in Hcn. destruct Hcn as [_ Hneed].
  destruct (pivot_scan_result diameter_tol (RbGeom.bends rb_geom) None 0%Q (Qle_refl 0))
    as (chosen & optimal & -> & Hopt & Hfind & Hchosen).
  destruct chosen as [b|].
  - destruct Hchosen as [[Hin Hc] | Hn]; [|discriminate].
    split; [rewrite <- Hopt; destruct optimal; [reflexivity | exact Hneed]|].
    assert (Hsome : forallb (fun b => negb (pivot_candidate diameter_tol b))
                      (RbGeom.bends rb_geom) = false).
    { destruct (forallb _ (RbGeom.bends rb_geom)) eqn:Ef; [|reflexivity].
      rewrite forallb_forall in Ef. specialize (Ef b Hin). rewrite Hc in Ef. discriminate. }
    rewrite Hsome.
    rewrite Forall_forall in Hbends. destruct (Hbends _ Hin) as (Hi & Hij & Hj).
    set (k := (Bend.j b + Bend.i b) / 2).
    assert (Hk : 0 <= k <= py_len ring).
    { subst k. split; [apply Z.div_pos; lia|].
      apply Z.lt_succ_r. apply Z.div_lt_upper_bound; lia. }
    assert (Hpts : points (RbGeom.qgs_geom
                             (if optimal then RbGeom.set_need_pivot rb_geom false else rb_geom))
                   = first :: ring ++ [first])
      by (destruct optimal; exact Hring).
    cbn [RbGeom.qgs_geom RbGeom.set_qgs_geom points]. rewrite Hpts.
    destruct (rotate_closed first ring k Hk) as (p & Hp & Hrot).
    exists b, k, (skipn (Z.to_nat k) (first :: ring) ++ firstn (Z.to_nat k) (first :: ring)), p.
    split; [exact Hin|]. split; [exact Hc|]. split.
    { intros o Ho. destruct optimal.
      - specialize (Hfind eq_refl). congruence.
      - symmetry in Hopt. destruct (find_some _ _ Ho) as [Hino Hoo].
        assert (Hex : existsb (pivot_optimal diameter_tol) (RbGeom.bends rb_geom) = true)
          by (apply existsb_exists; exists o; split; assumption).
        congruence. }
    split; [reflexivity|]. split; [exact Hk|]. split; [reflexivity|].
    split; [exact Hp | exact Hrot].
  - destruct Hchosen as [_ Hall].
    assert (Hnone : forallb (fun b => negb (pivot_candidate diameter_tol b))
                      (RbGeom.bends rb_geom) = true).
    { apply forallb_forall. intros b Hin. destruct (Hall b Hin) as [Hlt Hid].
      unfold pivot_candidate. rewrite Hlt, Hid. reflexivity. }
    assert (Hno : existsb (pivot_optimal diameter_tol) (RbGeom.bends rb_geom) = false).
    { destruct (existsb _ (RbGeom.bends rb_geom)) eqn:Ex; [|reflexivity].
      apply existsb_exists in Ex. destruct Ex as (b & Hin & Hb).
      destruct (Hall b Hin) as [_ Hid]. unfold pivot_optimal in Hb. rewrite Hid in Hb.
      discriminate. }
    rewrite Hnone, Hno. rewrite Hno in Hopt. subst optimal.
    split; [exact Hneed | reflexivity].
Qed.

End Pivot.

Section PivotOfTheDent.

#[local] Existing Instance square_epsilon.

(** A square with a dent in its right side. *)
Definition dent : list QgsPoint :=
  [(0, 0); (10, 0); (10, 4); (6, 4); (6, 6); (10, 6); (10, 10); (0, 10); (0, 0)]%Q.

Definition dent_geom : RbGeom.t := RbGeom.init 1 (QgsLineString dent) WkbPolygon.

(** The ring of the dent is pivoted on vertex 6, the middle of its last
    bend; no bend of it is optimal, and the need of a pivot stays. *)
Lemma pivot_closed_line_rotates_witness :
  exists n detected,
    detect_bends dent_geom = Ok (n, detected)
    /\ points (RbGeom.qgs_geom detected) = dent
    /\ map (fun b => (Bend.i b, Bend.j b)) (RbGeom.bends detected) = [(0, 3); (2, 5); (4, 8)]
    /\ RbGeom.bends (pivot_closed_line detected 3) = RbGeom.bends detected
    /\ RbGeom.need_pivot (pivot_closed_line detected 3) = true
    /\ points (RbGeom.qgs_geom (pivot_closed_line detected 3))
       = [(10, 10); (0, 10); (0, 0); (10, 0); (10, 4); (6, 4); (6, 6); (10, 6); (10, 10)]%Q.
Proof.
  assert (E : exists n detected, detect_bends dent_geom = Ok (n, detected))
    by (eexists _, _; vm_compute; reflexivity).
  destruct E as (n & detected & E).
  assert (Hp : points (RbGeom.qgs_geom detected) = dent).
  { revert E. vm_compute. intros E. injection E as <- <-. reflexivity. }
  assert (Hs : map (fun b => (Bend.i b, Bend.j b)) (RbGeom.bends detected)
               = [(0, 3); (2, 5); (4, 8)]).
  { revert E. vm_compute. intros E. injection E as <- <-. reflexivity. }
  assert (Hb : Forall (fun b => 0 <= Bend.i b /\ Bend.i b < Bend.j b /\ Bend.j b <= 7 + 1)
                 (RbGeom.bends detected)).
  { assert (Hb : Forall (fun ij => 0 <= fst ij /\ fst ij < snd ij /\ snd ij <= 7 + 1)
                   (map (fun b => (Bend.i b, Bend.j b)) (RbGeom.bends detected))).
    { rewrite Hs. repeat constructor; cbn; lia. }
    rewrite Forall_map in Hb. exact Hb. }
  assert (Hcn : RbGeom.is_closed detected && RbGeom.need_pivot detected = true).
  { revert E. vm_compute. intros E. injection E as <- <-. reflexivity. }
  assert (Hopt : existsb (pivot_optimal 3) (RbGeom.bends detected) = false).
  { revert E. vm_compute. intros E. injection E as <- <-. reflexivity. }
  destruct (pivot_closed_line_rotates detected 3 (0, 0)%Q
              [(10, 0); (10, 4); (6, 4); (6, 6); (10, 6); (10, 10); (0, 10)]%Q Hp Hb)
    as (Hbends & _ & Hpivot).
  destruct (Hpivot Hcn) as [Hneed _]. rewrite Hopt in Hneed.
  exists n, detected. split; [exact E|]. split; [exact Hp|]. split; [exact Hs|].
  split; [exact Hbends|]. split; [exact Hneed|].
  revert E. vm_compute. intros E. injection E as <- <-. reflexivity.
Defined.

End PivotOfTheDent.

(** ** Small polygons and small holes *)

Section Pruning.
Context `{Qgs.Api}.

Lemma py_get_middle {A : Type} (pre post : list A) (x : A) :
  py_get (pre ++ x :: post) (py_len pre) = Ok x.
Proof.
  apply py_get_nonneg; [apply py_len_nonneg|].
  unfold py_len. rewrite Nat2Z.id, nth_error_app2 by lia.
  rewrite Nat.sub_diag. reflexivity.
Qed.

Lemma py_del_middle {A : Type} (pre post : list A) (x : A) :
  py_del (pre ++ x :: post) (py_len pre) = Ok (pre ++ post).
Proof.
  unfold py_del, py_len. rewrite length_app. cbn [List.length].
  destruct (Z.ltb_spec (Z.of_nat (List.length pre)) 0); [lia|].
  destruct (Z.ltb_spec (Z.of_nat (List.length pre)) 0); [lia|].
  destruct (Z.leb_spec (Z.of_nat (List.length pre + S (List.length post)))
              (Z.of_nat (List.length pre))); [lia|].
  cbn [orb]. rewrite Nat2Z.id. f_equal.
  rewrite firstn_app, Nat.sub_diag, firstn_all. cbn [firstn]. rewrite app_nil_r.
  rewrite skipn_app, skipn_all2 by lia.
  replace (S (List.length pre) - List.length pre)%nat with 1%nat by lia. reflexivity.
Qed.

Lemma py_set_middle {A : Type} (pre post : list A) (x y : A) :
  py_set (pre ++ x :: post) (py_len pre) y = Ok (pre ++ y :: post).
Proof.
  unfold py_set, py_len. rewrite length_app. cbn [List.length].
  destruct (Z.ltb_spec (Z.of_nat (List.length pre)) 0); [lia|].
  destruct (Z.ltb_spec (Z.of_nat (List.length pre)) 0); [lia|].
  destruct (Z.leb_spec (Z.of_nat (List.length pre + S (List.length post)))
              (Z.of_nat (List.length pre))); [lia|].
  cbn [orb]. rewrite Nat2Z.id. f_equal.
  rewrite firstn_app, Nat.sub_diag, firstn_all. cbn [firstn]. rewrite app_nil_r.
  rewrite skipn_app, skipn_all2 by lia.
  replace (S (List.length pre) - List.length pre)%nat with 1%nat by lia. reflexivity.
Qed.

Lemma rev_py_range_snoc {A : Type} (l : list A) (x : A) :
  rev (py_range 0 (py_len (l ++ [x]))) = py_len l :: rev (py_range 0 (py_len l)).
Proof.
  unfold py_len at 1. rewrite length_app. cbn [List.length].
  replace (Z.of_nat (List.length l + 1)) with (0 + Z.of_nat (S (List.length l))) by lia.
  rewrite py_range_succ, rev_app_distr. cbn [rev app]. unfold py_len.
  rewrite !Z.add_0_l. reflexivity.
Qed.

(** The exception that [calculate_adj_area] raises on a ring, when it
    raises. *)
Definition failure (rb_geom : RbGeom.t) : option exception :=
  let '(area, perimeter) := extract_polygon_attributes (RbGeom.qgs_geom rb_geom) in
  match calculate_adj_area area perimeter with
  | Ok _ => None
  | Raise e => Some e
  end.

(** The first failure on the rings, in the order of the list. *)
Fixpoint first_failure (rings : list RbGeom.t) : option exception :=
  match rings with
  | [] => None
  | rb_geom :: rest =>
      match failure rb_geom with
      | Some e => Some e
      | None => first_failure rest
      end
  end.

Lemma first_failure_app (l1 l2 : list RbGeom.t) :
  first_failure (l1 ++ l2)
  = match first_failure l1 with
    | Some e => Some e
    | None => first_failure l2
    end.
Proof.
  induction l1 as [|g l1 IH]; cbn [app first_failure]; [reflexivity|].
  destruct (failure g); [reflexivity | exact IH].
Qed.

(** A ring whose adjusted area is below the threshold. *)
Definition below (min_adj_area : Q) (rb_geom : RbGeom.t) : bool :=
  let '(area, perimeter) := extract_polygon_attributes (RbGeom.qgs_geom rb_geom) in
  match calculate_adj_area area perimeter with
  | Ok adj_area => Qlt_bool adj_area min_adj_area
  | Raise _ => false
  end.

(** The rings of the polygons, the only ones the method looks at. *)
Definition polygon_rings (f : RbFeature.t) : list RbGeom.t :=
  match f with
  | RbFeature.RbPolygon _ rings => rings
  | _ => []
  end.

(** What is left of a feature: a line or a point is kept; a polygon goes
    when its outer ring is below the threshold and outer rings are to be
    deleted, and otherwise loses its holes below the threshold when holes
    are to be deleted. *)
Definition pruned (s : Preprocess.t) (f : RbFeature.t) : list RbFeature.t :=
  let min_adj_area := calculate_min_adj_area (Preprocess.diameter_tol s) in
  match f with
  | RbFeature.RbPolygon id (outer :: holes) =>
      if Preprocess.flag_del_outer s && below min_adj_area outer then []
      else [RbFeature.RbPolygon id
              (outer :: filter (fun g => negb (Preprocess.flag_del_inner s
                                               && below min_adj_area g)) holes)]
  | _ => [f]
  end.

(** The polygons that go. *)
Definition small_polygons (s : Preprocess.t) (f : RbFeature.t) : Z :=
  match f with
  | RbFeature.RbPolygon id (outer :: _) =>
      if Preprocess.flag_del_outer s
         && below (calculate_min_adj_area (Preprocess.diameter_tol s)) outer
      then 1 else 0
  | _ => 0
  end.

(** The holes below the threshold, those of the polygons that go
    included. *)
Definition small_holes (s : Preprocess.t) (f : RbFeature.t) : Z :=
  match f with
  | RbFeature.RbPolygon id (_ :: holes) =>
      py_len (filter (fun g => Preprocess.flag_del_inner s
                               && below (calculate_min_adj_area (Preprocess.diameter_tol s)) g)
                holes)
  | _ => 0
  end.

Fixpoint total (count : RbFeature.t -> Z) (features : list RbFeature.t) : Z :=
  match features with
  | [] => 0
  | f :: rest => count f + total count rest
  end.

Lemma total_app (count : RbFeature.t -> Z) (l1 l2 : list RbFeature.t) :
  total count (l1 ++ l2) = total count l1 + total count l2.
Proof. induction l1 as [|f l1 IH]; cbn [app total]; [reflexivity | rewrite IH; lia]. Qed.

(** The state with other features and counters. *)
Definition with_features (s : Preprocess.t) (features : list RbFeature.t) (pol hole : Z)
  : Preprocess.t :=
  {| Preprocess.rb_features := features;
     Preprocess.diameter_tol := Preprocess.diameter_tol s;
     Preprocess.flag_del_outer := Preprocess.flag_del_outer s;
     Preprocess.flag_del_inner := Preprocess.flag_del_inner s;
     Preprocess.nbr_pol_del := pol; Preprocess.nbr_hole_del := hole |}.

(** The run of the inner loop on the polygon at place [i], while its
    rings [front] are to be visited and the rings [kept] were visited and
    stay. *)
Lemma del_rings_run (s : Preprocess.t) (id : Z) (pre post : list RbFeature.t) :
  forall (front kept : list RbGeom.t) (pol hole : Z),
    del_rings (rev (py_range 0 (py_len front))) (py_len pre)
      (calculate_min_adj_area (Preprocess.diameter_tol s))
      (with_features s (pre ++ RbFeature.RbPolygon id (front ++ kept) :: post) pol hole)
    = match first_failure (rev front) with
      | None =>
           Ok (tt, with_features s
                     (pre ++ match front with
                             | [] => [RbFeature.RbPolygon id kept]
                             | outer :: holes =>
                                 if Preprocess.flag_del_outer s
                                    && below (calculate_min_adj_area (Preprocess.diameter_tol s))
                                         outer
                                 then []
                                 else [RbFeature.RbPolygon id
                                         (outer :: filter
                                            (fun g => negb (Preprocess.flag_del_inner s
                                                            && below (calculate_min_adj_area
                                                                        (Preprocess.diameter_tol s)) g))
                                            holes ++ kept)]
                             end ++ post)
                     (pol + small_polygons s (RbFeature.RbPolygon id front))
                     (hole + small_holes s (RbFeature.RbPolygon id front)))
      | Some e => Raise e
      end.
Proof.
  set (min_adj_area := calculate_min_adj_area (Preprocess.diameter_tol s)).
  induction front as [|g front' IH] using rev_ind; intros kept pol hole.
  - cbn. rewrite !Z.add_0_r. reflexivity.
  - rewrite rev_py_range_snoc, rev_app_distr.
    change (rev [g] ++ rev front') with (g :: rev front').
    cbn [first_failure].
    remember (first_failure (rev front')) as failed eqn:Efailed.
    cbn [del_rings]. unfold bind at 1, get.
    cbn [Preprocess.rb_features with_features].
    unfold bind at 1, lift at 1. rewrite py_get_middle.
    cbn [RbFeature.rb_geom]. rewrite <- app_assoc. cbn [app].
    unfold bind at 1, lift at 1. rewrite py_get_middle.
    assert (Hfail : failure g
                    = let '(area, perimeter) :=
                        extract_polygon_attributes (RbGeom.qgs_geom g) in
                      match calculate_adj_area area perimeter with
                      | Ok _ => None
                      | Raise e => Some e
                      end) by reflexivity.
    assert (Hbelow : below min_adj_area g
                     = let '(area, perimeter) :=
                         extract_polygon_attributes (RbGeom.qgs_geom g) in
                       match calculate_adj_area area perimeter with
                       | Ok v => Qlt_bool v min_adj_area
                       | Raise _ => false
                       end) by reflexivity.
    destruct (extract_polygon_attributes (RbGeom.qgs_geom g)) as [area perimeter].
    destruct (calculate_adj_area area perimeter) as [v | e] eqn:Ev.
    + rewrite Hfail.
      unfold bind at 1, lift at 1.
      cbn [Preprocess.flag_del_outer Preprocess.flag_del_inner with_features
           Preprocess.nbr_pol_del Preprocess.nbr_hole_del].
      destruct front' as [|o h'].
      * change (py_len (@nil RbGeom.t) =? 0) with true. cbn iota.
        cbn [rev first_failure] in Efailed. subst failed.
        cbn [app small_polygons small_holes filter py_len List.length Z.of_nat].
        fold min_adj_area. rewrite Hbelow.
        destruct (Preprocess.flag_del_outer s && Qlt_bool v min_adj_area).
        -- unfold bind at 1, lift at 1. rewrite py_del_middle. unfold put.
           rewrite Z.add_0_r. reflexivity.
        -- cbn. rewrite !Z.add_0_r. reflexivity.
      * replace (py_len (o :: h') =? 0) with false
          by (symmetry; apply Z.eqb_neq; unfold py_len; cbn [List.length]; lia).
        cbn iota.
        assert (Hholes : small_holes s (RbFeature.RbPolygon id ((o :: h') ++ [g]))
                         = small_holes s (RbFeature.RbPolygon id (o :: h'))
                           + (if Preprocess.flag_del_inner s && Qlt_bool v min_adj_area
                              then 1 else 0)).
        { cbn [app small_holes]. fold min_adj_area. rewrite filter_app. cbn [filter].
          rewrite Hbelow. unfold py_len. rewrite length_app.
          destruct (Preprocess.flag_del_inner s && Qlt_bool v min_adj_area);
            cbn [List.length]; lia. }
        assert (Hpol : small_polygons s (RbFeature.RbPolygon id ((o :: h') ++ [g]))
                       = small_polygons s (RbFeature.RbPolygon id (o :: h')))
          by reflexivity.
        rewrite Hholes, Hpol. cbn [app]. rewrite filter_app. cbn [filter]. rewrite Hbelow.
        destruct (Preprocess.flag_del_inner s && Qlt_bool v min_adj_area).
        -- unfold bind at 1, lift at 1.
           change (o :: h' ++ g :: kept) with ((o :: h') ++ g :: kept).
           rewrite py_del_middle.
           unfold bind at 1, lift at 1. rewrite py_set_middle.
           unfold bind at 1, put.
           cbn [RbFeature.set_rb_geom Preprocess.set_nbr_hole_del Preprocess.set_rb_features
                Preprocess.rb_features Preprocess.diameter_tol Preprocess.flag_del_outer
                Preprocess.flag_del_inner Preprocess.nbr_pol_del Preprocess.nbr_hole_del
                with_features].
           change (Preprocess.set_nbr_hole_del _ _)
             with (with_features s
                     (pre ++ RbFeature.RbPolygon id ((o :: h') ++ kept) :: post)
                     pol (hole + 1)).
           rewrite IH. cbn [negb]. rewrite app_nil_r.
           destruct failed; [reflexivity|].
           do 3 f_equal. lia.
        -- specialize (IH (g :: kept) pol hole). cbn [app] in IH. rewrite IH.
           cbn [negb]. rewrite <- app_assoc. cbn [app].
           destruct failed; [reflexivity|].
           rewrite Z.add_0_r. reflexivity.
    + rewrite Hfail. reflexivity.
Qed.

Lemma del_features_run (s : Preprocess.t) :
  forall (front rest : list RbFeature.t) (pol hole : Z),
    del_features (rev (py_range 0 (py_len front))) (with_features s (front ++ rest) pol hole)
    = match first_failure (rev (flat_map polygon_rings front)) with
      | None =>
          Ok (tt, with_features s (flat_map (pruned s) front ++ rest)
                    (pol + total (small_polygons s) front)
                    (hole + total (small_holes s) front))
      | Some e => Raise e
      end.
Proof.
  induction front as [|f front' IH] using rev_ind; intros rest pol hole.
  - cbn. rewrite !Z.add_0_r. reflexivity.
  - rewrite rev_py_range_snoc, !flat_map_app, rev_app_distr, first_failure_app, !total_app.
    cbn [flat_map total]. rewrite !app_nil_r, !Z.add_0_r, <- !app_assoc. cbn [app].
    cbn [del_features]. unfold bind at 1, get.
    cbn [Preprocess.rb_features with_features].
    unfold bind at 1, lift at 1. rewrite py_get_middle.
    unfold bind at 1.
    destruct f as [id rings | id rings | id rings];
      cbn [RbFeature.is_RbPolygon RbFeature.rb_geom polygon_rings pruned small_polygons
           small_holes Preprocess.diameter_tol];
      try (unfold ret at 1; cbn [rev first_failure]; rewrite IH, !Z.add_0_r;
           reflexivity).
    pose proof (del_rings_run s id front' rest rings [] pol hole) as Hrun.
    rewrite app_nil_r in Hrun.
    change (Preprocess.diameter_tol (with_features s _ pol hole))
      with (Preprocess.diameter_tol s).
    rewrite Hrun.
    destruct (first_failure (rev rings)); [reflexivity|].
    destruct rings as [|outer holes].
    + cbn [app]. rewrite IH. cbn [small_polygons small_holes]. rewrite !Z.add_0_r.
      reflexivity.
    + rewrite app_nil_r. rewrite IH.
      destruct (first_failure (rev (flat_map polygon_rings front'))); [reflexivity|].
      do 2 f_equal. cbn [small_polygons small_holes].
      f_equal; lia.
Qed.

(** [del_outer_inner_ring] visits the features from the last to the
    first, the rings of a polygon from the last to the first, calls
    [calculate_adj_area] on every ring of every polygon, whatever the
    flags, and deletes as it goes.  When a call raises, the method raises
    the same exception, that of the first such ring in this order, and the
    program stops there.  Otherwise the method leaves the features that
    [pruned] keeps, in their order, and adds to the counters the polygons
    deleted and the holes found below the threshold, those of the deleted
    polygons included. *)
Theorem del_outer_inner_ring_prunes (s : Preprocess.t) :
  del_outer_inner_ring s
  = match first_failure (rev (flat_map polygon_rings (Preprocess.rb_features s))) with
    | None =>
        Ok (tt, with_features s
                  (flat_map (pruned s) (Preprocess.rb_features s))
                  (Preprocess.nbr_pol_del s
                   + total (small_polygons s) (Preprocess.rb_features s))
                  (Preprocess.nbr_hole_del s
                   + total (small_holes s) (Preprocess.rb_features s)))
    | Some e => Raise e
    end.
Proof.
  unfold del_outer_inner_ring, bind, get.
  pose proof (del_features_run s (Preprocess.rb_features s) []
                (Preprocess.nbr_pol_del s) (Preprocess.nbr_hole_del s)) as Hrun.
  rewrite !app_nil_r in Hrun. rewrite <- Hrun. f_equal. destruct s; reflexivity.
Qed.

End Pruning.

(** ** The validation of the index *)

Section Integrity.
Context `{Qgs.Api} `{Epsilon}.

(** The geometries [add_features] gives to the index for one geometry. *)
Fixpoint segments (qgs_points : list QgsPoint) : list QgsGeometry :=
  match qgs_points with
  | a :: tl =>
      match tl with
      | b :: _ => QgsLineString [a; b] :: segments tl
      | [] => []
      end
  | [] => []
  end.


















End Integrity.

Section IntegrityOfTheZigzag.

#[local] Existing Instance zigzag_epsilon.




End IntegrityOfTheZigzag.

(** ** The removal of co-linear vertices *)

Section CoLinear.
Context `{Qgs.Api} `{Epsilon}.

Lemma delete_vertices_run (vertex_ids : list Z) :
  forall (rb_geom rb_geom' : RbGeom.t) (c c' : RbCollection.t),
    index_ok c ->
    wkbType (RbGeom.qgs_geom rb_geom) = WkbLineString ->
    delete_vertices rb_geom vertex_ids c = Ok (rb_geom', c') ->
    numPoints (RbGeom.qgs_geom rb_geom')
    = numPoints (RbGeom.qgs_geom rb_geom) - py_len vertex_ids
    /\ py_len (RbCollection._spatial_index c')
       = py_len (RbCollection._spatial_index c) - py_len vertex_ids
    /\ index_ok c'
    /\ vertexAt (RbGeom.qgs_geom rb_geom') 0 = vertexAt (RbGeom.qgs_geom rb_geom) 0
    /\ vertexAt (RbGeom.qgs_geom rb_geom') (numPoints (RbGeom.qgs_geom rb_geom') - 1)
       = vertexAt (RbGeom.qgs_geom rb_geom) (numPoints (RbGeom.qgs_geom rb_geom) - 1).
Proof.
  induction vertex_ids as [|v rest IH]; intros g g' c c' Hok Hline E.
  - cbn in E. injection E as <- <-. change (py_len (@nil Z)) with 0.
    rewrite !Z.sub_0_r. auto.
  - cbn [delete_vertices] in E. apply bind_Ok in E. destruct E as (g1 & c1 & E1 & E).
    destruct (delete_vertex_run _ _ _ _ _ _ Hok E1)
      as (Hv1 & _ & Hv2 & Hok1 & L1 & _ & _ & Hpts).
    specialize (Hpts Hline).
    apply delete_vertex_le in E1. destruct E1 as (_ & Hw & _).
    destruct (IH _ _ _ _ Hok1 (eq_trans Hw Hline) E) as (Hn & Hl & Hok' & Hfirst & Hlast).
    assert (Hlen : py_len (v :: rest) = py_len rest + 1)
      by (unfold py_len; cbn [List.length]; lia).
    assert (Hn1 : numPoints (RbGeom.qgs_geom g1) = numPoints (RbGeom.qgs_geom g) - 1).
    { unfold numPoints, py_len in *. rewrite Hpts, length_app, length_firstn, length_skipn.
      lia. }
    split; [lia|]. split; [lia|]. split; [exact Hok'|]. split.
    + rewrite Hfirst. unfold vertexAt. cbn [Z.ltb Z.compare Z.to_nat]. rewrite Hpts.
      rewrite nth_error_app1 by (rewrite length_firstn; unfold numPoints, py_len in *; lia).
      rewrite nth_error_firstn.
      destruct (Nat.ltb_spec 0 (Z.to_nat v)); [reflexivity | lia].
    + rewrite Hlast, Hn1. unfold vertexAt.
      destruct (Z.ltb_spec (numPoints (RbGeom.qgs_geom g) - 1 - 1) 0); [lia|].
      destruct (Z.ltb_spec (numPoints (RbGeom.qgs_geom g) - 1) 0); [lia|].
      rewrite Hpts. unfold numPoints, py_len in *.
      rewrite nth_error_app2 by (rewrite length_firstn; lia).
      rewrite length_firstn, nth_error_skipn. f_equal. lia.
Qed.

(** What [delete_co_linear] does to a line of the index when it returns:
    as many vertices leave the line as angles are flat or null, and as
    many entries leave the index, which keeps its invariant; the first
    and the last vertex of the line stay. *)
Theorem delete_co_linear_effect (rb_geom rb_geom' : RbGeom.t) (self self' : ReduceBend.t) :
  index_ok (ReduceBend.rb_collection self) ->
  wkbType (RbGeom.qgs_geom rb_geom) = WkbLineString ->
  delete_co_linear rb_geom self = Ok (rb_geom', self') ->
  exists angles,
    RbGeom.get_angles rb_geom = Ok angles
    /\ let flat := co_linear_vertices 0
                     (if RbGeom.is_closed rb_geom then tl angles else angles) in
       numPoints (RbGeom.qgs_geom rb_geom')
       = numPoints (RbGeom.qgs_geom rb_geom) - py_len flat
       /\ py_len (RbCollection._spatial_index (ReduceBend.rb_collection self'))
          = py_len (RbCollection._spatial_index (ReduceBend.rb_collection self)) - py_len flat
       /\ index_ok (ReduceBend.rb_collection self')
       /\ vertexAt (RbGeom.qgs_geom rb_geom') 0 = vertexAt (RbGeom.qgs_geom rb_geom) 0
       /\ vertexAt (RbGeom.qgs_geom rb_geom') (numPoints (RbGeom.qgs_geom rb_geom') - 1)
          = vertexAt (RbGeom.qgs_geom rb_geom) (numPoints (RbGeom.qgs_geom rb_geom) - 1).
Proof.
  intros Hok Hline E. unfold delete_co_linear in E.
  apply bind_Ok in E. destruct E as (angles & s1 & E1 & E).
  apply lift_Ok in E1. cbn [fst snd] in E1. destruct E1 as [E1 ->].
  apply bind_Ok in E. destruct E as (angles' & s2 & E2 & E).
  apply lift_Ok in E2. cbn [fst snd] in E2. destruct E2 as [E2 ->].
  apply bind_Ok in E. destruct E as (g1 & s3 & E3 & E).
  apply on_collection_Ok in E3. cbn [fst snd] in E3. destruct E3 as (c & E3 & ->).
  assert (Ha : angles' = if RbGeom.is_closed rb_geom then tl angles else angles).
  { destruct (RbGeom.is_closed rb_geom); cbn [andb] in E2; [|injection E2 as <-; reflexivity].
    destruct angles as [|a l]; [cbn in E2; injection E2 as <-; reflexivity|].
    replace (1 <=? py_len (a :: l)) with true in E2
      by (symmetry; apply Z.leb_le; unfold py_len; cbn [List.length]; lia).
    vm_compute in E2. injection E2 as <-. reflexivity. }
  subst angles'.
  destruct (delete_vertices_run _ _ _ _ _ Hok Hline E3) as (Hn & Hl & Hok' & Hfirst & Hlast).
  assert (Hrev : forall l : list Z, py_len (rev l) = py_len l)
    by (intros l; unfold py_len; rewrite length_rev; reflexivity).
  rewrite Hrev in Hn, Hl.
  exists angles. split; [exact E1|]. cbv zeta.
  assert (Hg : RbGeom.qgs_geom rb_geom' = RbGeom.qgs_geom g1).
  { unfold ret in E. injection E as <- _.
    destruct (Qle_bool (Qgs.length (RbGeom.qgs_geom g1)) ZERO_RELATIVE); reflexivity. }
  assert (Hs : ReduceBend.rb_collection self' = c).
  { unfold ret in E. injection E as _ <-. reflexivity. }
  rewrite Hg, Hs. auto.
Qed.

End CoLinear.

Section CoLinearOfTheEll.

#[local] Existing Instance zigzag_epsilon.

(** A line with a vertex in the middle of its first side. *)
Definition ell : list QgsPoint := [(0, 0); (5, 0); (10, 0); (10, 10)]%Q.

Definition ell_geom : RbGeom.t := RbGeom.init 1 (QgsLineString ell) WkbLineString.

Lemma delete_co_linear_effect_witness :
  exists c rb_geom' self',
    RbCollection.add_features [ell_geom] RbCollection.init = Ok (tt, c)
    /\ delete_co_linear ell_geom
         (ReduceBend.set_rb_collection (ReduceBend.init [ell_geom] 100 false never_canceled) c)
       = Ok (rb_geom', self')
    /\ points (RbGeom.qgs_geom rb_geom') = [(0, 0); (10, 0); (10, 10)]%Q
    /\ index_ok (ReduceBend.rb_collection self')
    /\ py_len (RbCollection._spatial_index (ReduceBend.rb_collection self')) = 2.
Proof.
  destruct (add_features_Ok [ell_geom] RbCollection.init index_ok_init)
    as (c & E & Hok & L & _).
  assert (E2 : exists rb_geom' self',
             match RbCollection.add_features [ell_geom] RbCollection.init with
             | Ok (_, c) =>
                 delete_co_linear ell_geom
                   (ReduceBend.set_rb_collection
                      (ReduceBend.init [ell_geom] 100 false never_canceled) c)
             | Raise e => Raise e
             end = Ok (rb_geom', self')
             /\ points (RbGeom.qgs_geom rb_geom') = [(0, 0); (10, 0); (10, 10)]%Q
             /\ py_len (RbCollection._spatial_index (ReduceBend.rb_collection self')) = 2)
    by (eexists _, _; split; [vm_compute; reflexivity|]; split; vm_compute; reflexivity).
  destruct E2 as (rb_geom' & self' & E2 & Hp & Hl). rewrite E in E2.
  destruct (delete_co_linear_effect ell_geom rb_geom'
              (ReduceBend.set_rb_collection
                 (ReduceBend.init [ell_geom] 100 false never_canceled) c)
              self' Hok eq_refl E2)
    as (angles & _ & _ & _ & Hok' & _).
  exists c, rb_geom', self'. split; [exact E|]. split; [exact E2|].
  split; [exact Hp|]. split; [exact Hok' | exact Hl].
Defined.

End CoLinearOfTheEll.

(** ** The reduction of the bends of a line *)

Section Reduction.
Context `{Qgs.Api} `{Epsilon}.

Lemma remove_range_ends {A : Type} (l : list A) (a b : Z) :
  1 <= a -> a <= b -> b + 1 < py_len l ->
  let l' := firstn (Z.to_nat a) l ++ skipn (Z.to_nat (b + 1)) l in
  py_len l' = py_len l - (b - a + 1)
  /\ nth_error l' 0 = nth_error l 0
  /\ nth_error l' (Z.to_nat (py_len l' - 1)) = nth_error l (Z.to_nat (py_len l - 1)).
Proof.
  intros Ha Hab Hb l'. unfold py_len in *.
  assert (Hlen : List.length l' = (List.length l - Z.to_nat (b - a + 1))%nat).
  { subst l'. rewrite length_app, length_firstn, length_skipn. lia. }
  split; [lia|]. split.
  - subst l'. rewrite nth_error_app1 by (rewrite length_firstn; lia).
    rewrite nth_error_firstn. destruct (Nat.ltb_spec 0 (Z.to_nat a)); [reflexivity | lia].
  - rewrite Hlen. subst l'. rewrite nth_error_app2 by (rewrite length_firstn; lia).
    rewrite length_firstn, nth_error_skipn. f_equal. lia.
Qed.

(** The loop of [process_bends] on a line of the index: the index keeps
    its invariant and loses as many entries as the line loses vertices;
    the ends of the line stay; and the counter of the results and the
    list of the bends to smooth advance with the answer of the loop. *)
Lemma process_bends_loop_index (inds : list Z) :
  forall (g g' : RbGeom.t) (r0 r : Z) (s s' : ReduceBend.t),
    Forall (fun ind => 0 <= ind) inds ->
    index_ok (ReduceBend.rb_collection s) ->
    wkbType (RbGeom.qgs_geom g) = WkbLineString ->
    process_bends_loop inds g r0 s = Ok ((r, g'), s') ->
    r0 <= r
    /\ index_ok (ReduceBend.rb_collection s')
    /\ py_len (RbCollection._spatial_index (ReduceBend.rb_collection s'))
       - numPoints (RbGeom.qgs_geom g')
       = py_len (RbCollection._spatial_index (ReduceBend.rb_collection s))
         - numPoints (RbGeom.qgs_geom g)
    /\ numPoints (RbGeom.qgs_geom g') + (r - r0) <= numPoints (RbGeom.qgs_geom g)
    /\ RbResults.nbr_bend_reduced (ReduceBend.rb_results s')
       = RbResults.nbr_bend_reduced (ReduceBend.rb_results s) + (r - r0)
    /\ (exists added,
          ReduceBend.bends_reduced s' = ReduceBend.bends_reduced s ++ added
          /\ py_len added = if ReduceBend.smooth_line s then r - r0 else 0)
    /\ ReduceBend.smooth_line s' = ReduceBend.smooth_line s
    /\ wkbType (RbGeom.qgs_geom g') = WkbLineString
    /\ vertexAt (RbGeom.qgs_geom g') 0 = vertexAt (RbGeom.qgs_geom g) 0
    /\ vertexAt (RbGeom.qgs_geom g') (numPoints (RbGeom.qgs_geom g') - 1)
       = vertexAt (RbGeom.qgs_geom g) (numPoints (RbGeom.qgs_geom g) - 1).
Proof.
  induction inds as [|ind rest IH]; intros g g' r0 r s s' Hinds Hok Hline E.
  - cbn in E. injection E as <- <- <-.
    rewrite Z.sub_diag. split; [lia|]. split; [exact Hok|].
    split; [lia|]. split; [lia|]. split; [lia|].
    split; [exists []; rewrite app_nil_r; destruct (ReduceBend.smooth_line s); split; reflexivity|].
    repeat split; auto.
  - inversion Hinds as [|? ? Hind Hrest]; subst.
    cbn [process_bends_loop] in E.
    apply bind_Ok in E. destruct E as (candidate & s1 & Ec & E).
    apply lift_Ok in Ec. cbn [fst snd] in Ec. destruct Ec as [Ec ->].
    destruct (Bend.to_reduce candidate); [|exact (IH _ _ _ _ _ _ Hrest Hok Hline E)].
    apply bind_Ok in E. destruct E as ([ok g1] & s2 & Ev & E).
    destruct (validate_spatial_constraints_Ok _ _ _ _ _ _ Hind Ev)
      as (bend0 & stored & bends1 & itself & others & fb & _ & _ & _ & -> & -> & _).
    destruct ok;
      [|exact (IH (RbGeom.set_bends g bends1) g' r0 r (ReduceBend.set_feedback s fb) s'
                  Hrest Hok Hline E)].
    apply bind_Ok in E. destruct E as (bend & s3 & Eb & E).
    apply lift_Ok in Eb. cbn [fst snd] in Eb. destruct Eb as [_ ->].
    apply bind_Ok in E. destruct E as (self2 & s4 & Eg & E).
    apply get_Ok in Eg. destruct Eg as [-> ->].
    apply bind_Ok in E. destruct E as (u & s5 & Esm & E).
    cbn [ReduceBend.smooth_line ReduceBend.set_feedback] in Esm.
    assert (Hs5 : ReduceBend.rb_collection s5 = ReduceBend.rb_collection s
                  /\ ReduceBend.rb_results s5 = ReduceBend.rb_results s
                  /\ ReduceBend.smooth_line s5 = ReduceBend.smooth_line s
                  /\ exists added,
                       ReduceBend.bends_reduced s5 = ReduceBend.bends_reduced s ++ added
                       /\ py_len added = if ReduceBend.smooth_line s then 1 else 0).
    { destruct (ReduceBend.smooth_line s) eqn:Esl.
      - apply put_Ok in Esm. subst s5. cbn. rewrite Esl. repeat split.
        eexists. split; reflexivity.
      - unfold ret in Esm. injection Esm as _ <-. cbn. rewrite Esl. repeat split.
        exists []. rewrite app_nil_r. split; reflexivity. }
    clear Esm. destruct Hs5 as (Hc5 & Hr5 & Hsl5 & added1 & Hb5 & Hl5).
    apply bind_Ok in E. destruct E as (g2 & s6 & Edel & E).
    apply on_collection_Ok in Edel. cbn [fst snd] in Edel. destruct Edel as (c & Edel & ->).
    rewrite Hc5 in Edel.
    cbn [RbGeom.qgs_geom RbGeom.set_bends] in *.
    destruct (delete_vertex_run _ _ _ _ _ _ Hok Edel)
      as (Ha & Hab & Hb & Hokc & Lc & _ & _ & Hpts).
    cbn [RbGeom.qgs_geom RbGeom.set_bends] in *. specialize (Hpts Hline).
    apply delete_vertex_le in Edel. destruct Edel as (_ & Hw & _).
    cbn [RbGeom.qgs_geom RbGeom.set_bends] in Hw.
    apply bind_Ok in E. destruct E as (self3 & s7 & Eg & E).
    apply get_Ok in Eg. destruct Eg as [-> ->].
    apply bind_Ok in E. destruct E as (u2 & s8 & Ep & E).
    apply put_Ok in Ep. subst s8.
    match type of E with
    | process_bends_loop _ _ _ ?st = _ =>
        destruct (IH g2 g' (r0 + 1) r st s' Hrest Hokc (eq_trans Hw Hline) E)
          as (Hr & Hok' & Hstep & Hn & Hres & (added & Hbr & Hla) & Hsl & Hline' & Hfirst
              & Hlast)
    end.
    cbn [ReduceBend.rb_collection ReduceBend.set_rb_collection ReduceBend.set_rb_results
         ReduceBend.rb_results ReduceBend.bends_reduced ReduceBend.smooth_line
         RbCollection._spatial_index RbResults.nbr_bend_reduced] in *.
    destruct (remove_range_ends (points (RbGeom.qgs_geom g)) _ _ Ha Hab Hb)
      as (Hlen & Hf & Hl).
    rewrite <- Hpts in Hlen, Hf, Hl.
    fold (numPoints (RbGeom.qgs_geom g2)) in Hlen, Hl.
    fold (numPoints (RbGeom.qgs_geom g)) in Hlen, Hl.
    pose proof (py_len_nonneg (points (RbGeom.qgs_geom g2))) as Hnn.
    fold (numPoints (RbGeom.qgs_geom g2)) in Hnn.
    rewrite Hr5 in Hres. rewrite Hsl5 in Hla, Hsl.
    split; [lia|]. split; [exact Hok'|]. split; [lia|]. split; [lia|]. split; [lia|].
    split.
    { exists (added1 ++ added). rewrite Hbr, Hb5, <- app_assoc. split; [reflexivity|].
      unfold py_len in *. rewrite length_app.
      destruct (ReduceBend.smooth_line s); lia. }
    split; [exact Hsl|]. split; [exact Hline'|]. split.
    + rewrite Hfirst. unfold vertexAt. cbn [Z.ltb Z.compare Z.to_nat]. exact Hf.
    + rewrite Hlast. unfold vertexAt.
      destruct (Z.ltb_spec (numPoints (RbGeom.qgs_geom g2) - 1) 0); [lia|].
      destruct (Z.ltb_spec (numPoints (RbGeom.qgs_geom g) - 1) 0); [lia|].
      exact Hl.
Qed.

(** [process_bends] on a line of the index, when it returns: its answer
    is the number of bends it reduced, added to the counter of the
    results; the list of the bends to smooth receives as many bends at its
    end when the lines are to be smoothed, and is left as it is when they
    are not; each reduced bend costs the line at least one vertex; the index keeps its invariant and loses exactly as many
    entries as the line loses vertices; and the first and the last vertex
    of the line stay. *)
Theorem process_bends_keeps_index (rb_geom rb_geom' : RbGeom.t) (nbr_bend_reduced : Z)
  (self self' : ReduceBend.t) :
  index_ok (ReduceBend.rb_collection self) ->
  wkbType (RbGeom.qgs_geom rb_geom) = WkbLineString ->
  process_bends rb_geom self = Ok ((nbr_bend_reduced, rb_geom'), self') ->
  0 <= nbr_bend_reduced
  /\ index_ok (ReduceBend.rb_collection self')
  /\ py_len (RbCollection._spatial_index (ReduceBend.rb_collection self'))
     - numPoints (RbGeom.qgs_geom rb_geom')
     = py_len (RbCollection._spatial_index (ReduceBend.rb_collection self))
       - numPoints (RbGeom.qgs_geom rb_geom)
  /\ numPoints (RbGeom.qgs_geom rb_geom') + nbr_bend_reduced
     <= numPoints (RbGeom.qgs_geom rb_geom)
  /\ RbResults.nbr_bend_reduced (ReduceBend.rb_results self')
     = RbResults.nbr_bend_reduced (ReduceBend.rb_results self) + nbr_bend_reduced
  /\ py_len (ReduceBend.bends_reduced self')
     = py_len (ReduceBend.bends_reduced self)
       + (if ReduceBend.smooth_line self then nbr_bend_reduced else 0)
  /\ vertexAt (RbGeom.qgs_geom rb_geom') 0 = vertexAt (RbGeom.qgs_geom rb_geom) 0
  /\ vertexAt (RbGeom.qgs_geom rb_geom') (numPoints (RbGeom.qgs_geom rb_geom') - 1)
     = vertexAt (RbGeom.qgs_geom rb_geom) (numPoints (RbGeom.qgs_geom rb_geom) - 1)
  /\ (exists added,
        ReduceBend.bends_reduced self' = ReduceBend.bends_reduced self ++ added
        /\ py_len added = if ReduceBend.smooth_line self then nbr_bend_reduced else 0)
  /\ (ReduceBend.smooth_line self = false ->
      ReduceBend.bends_reduced self' = ReduceBend.bends_reduced self).
Proof.
  intros Hok Hline E. unfold process_bends in E.
  assert (Hinds : Forall (fun ind => 0 <= ind)
                    (rev (py_range 0 (py_len (RbGeom.bends rb_geom))))).
  { apply Forall_forall. intros ind Hin. apply in_rev in Hin. apply py_range_In in Hin. lia. }
  destruct (process_bends_loop_index _ _ _ _ _ _ _ Hinds Hok Hline E)
    as (Hr & Hok' & Hstep & Hn & Hres & (added & Hbr & Hla) & _ & _ & Hfirst & Hlast).
  rewrite Z.sub_0_r in Hn, Hres, Hla.
  split; [exact Hr|]. split; [exact Hok'|]. split; [exact Hstep|]. split; [exact Hn|].
  split; [exact Hres|]. split.
  { rewrite Hbr. unfold py_len in *. rewrite length_app. lia. }
  split; [exact Hfirst|]. split; [exact Hlast|]. split.
  - exists added. split; assumption.
  - intros Hoff. rewrite Hoff in Hla. rewrite Hbr.
    destruct added; [apply app_nil_r|]. unfold py_len in Hla. cbn [List.length] in Hla. lia.
Qed.

End Reduction.

Section ReductionOfTheZigzag.

#[local] Existing Instance zigzag_epsilon.

(** The two marked bends of the zigzag are reduced: the line goes from
    five vertices to three, the index from four entries to two. *)
Lemma process_bends_keeps_index_witness :
  exists n rb_geom' self',
    process_bends (flagged zigzag_geom 100) (registered zigzag_run) = Ok ((n, rb_geom'), self')
    /\ n = 2
    /\ points (RbGeom.qgs_geom rb_geom') = [(0, 0); (20, -4); (40, 0)]%Q
    /\ index_ok (ReduceBend.rb_collection self')
    /\ py_len (RbCollection._spatial_index (ReduceBend.rb_collection self')) = 2.
Proof.
  destruct (add_features_Ok [zigzag_geom] RbCollection.init index_ok_init)
    as (c & Ec & Hokc & _).
  assert (Hc : ReduceBend.rb_collection (registered zigzag_run) = c)
    by (revert Ec; vm_compute; intros Ec; injection Ec as <-; reflexivity).
  assert (Hok : index_ok (ReduceBend.rb_collection (registered zigzag_run)))
    by (rewrite Hc; exact Hokc).
  assert (E : exists n rb_geom' self',
             process_bends (flagged zigzag_geom 100) (registered zigzag_run)
             = Ok ((n, rb_geom'), self')
             /\ n = 2
             /\ points (RbGeom.qgs_geom rb_geom') = [(0, 0); (20, -4); (40, 0)]%Q
             /\ py_len (RbCollection._spatial_index (ReduceBend.rb_collection self')) = 2)
    by (eexists _, _, _; split; [vm_compute; reflexivity|];
        split; [reflexivity|]; split; vm_compute; reflexivity).
  destruct E as (n & rb_geom' & self' & E & Hn & Hp & Hl).
  assert (Hline : wkbType (RbGeom.qgs_geom (flagged zigzag_geom 100)) = WkbLineString)
    by (vm_compute; reflexivity).
  destruct (process_bends_keeps_index _ _ _ _ _ Hok Hline E) as (_ & Hok' & _).
  exists n, rb_geom', self'. split; [exact E|]. split; [exact Hn|]. split; [exact Hp|].
  split; [exact Hok' | exact Hl].
Defined.

End ReductionOfTheZigzag.

(** ** The index through a run *)

Section RunInvariant.
Context `{Qgs.Api} `{Epsilon}.

Lemma delete_vertices_index_ok (vertex_ids : list Z) :
  forall (g g' : RbGeom.t) (c c' : RbCollection.t),
    index_ok c -> delete_vertices g vertex_ids c = Ok (g', c') -> index_ok c'.
Proof.
  induction vertex_ids as [|v rest IH]; intros g g' c c' Hok E.
  - cbn in E. injection E as _ <-. exact Hok.
  - cbn [delete_vertices] in E. apply bind_Ok in E. destruct E as (g1 & c1 & E1 & E).
    destruct (delete_vertex_run _ _ _ _ _ _ Hok E1) as (_ & _ & _ & Hok1 & _).
    exact (IH _ _ _ _ Hok1 E).
Qed.

Lemma delete_co_linear_index_ok (g g' : RbGeom.t) (s s' : ReduceBend.t) :
  index_ok (ReduceBend.rb_collection s) ->
  delete_co_linear g s = Ok (g', s') ->
  index_ok (ReduceBend.rb_collection s').
Proof.
  intros Hok E. unfold delete_co_linear in E.
  apply bind_Ok in E. destruct E as (angles & s1 & E1 & E).
  apply lift_Ok in E1. cbn [fst snd] in E1. destruct E1 as [_ ->].
  apply bind_Ok in E. destruct E as (angles' & s2 & E2 & E).
  apply lift_Ok in E2. cbn [fst snd] in E2. destruct E2 as [_ ->].
  apply bind_Ok in E. destruct E as (g1 & s3 & E3 & E).
  apply on_collection_Ok in E3. cbn [fst snd] in E3. destruct E3 as (c & E3 & ->).
  unfold ret in E. injection E as _ <-. cbn [ReduceBend.rb_collection ReduceBend.set_rb_collection].
  exact (delete_vertices_index_ok _ _ _ _ _ Hok E3).
Qed.

Lemma manage_bend_creation_index_ok (min_nbr_pass nbr_pass : Z) (g : RbGeom.t) (d : Q)
  (r : Z * RbGeom.t) (s s' : ReduceBend.t) :
  index_ok (ReduceBend.rb_collection s) ->
  manage_bend_creation min_nbr_pass nbr_pass g d s = Ok (r, s') ->
  index_ok (ReduceBend.rb_collection s').
Proof.
  intros Hok E. unfold manage_bend_creation in E.
  apply bind_Ok in E. destruct E as (g1 & s1 & E1 & E).
  pose proof (delete_co_linear_index_ok _ _ _ _ Hok E1) as Hok1.
  apply bind_Ok in E. destruct E as ([n g2] & s2 & E2 & E).
  apply lift_Ok in E2. cbn [fst snd] in E2. destruct E2 as [_ ->].
  destruct (RbGeom.is_closed g2); [|unfold ret in E; injection E as _ <-; exact Hok1].
  destruct ((min_nbr_pass <=? nbr_pass) || (py_len (RbGeom.bends g2) <? 10));
    [|unfold ret in E; injection E as _ <-; exact Hok1].
  apply bind_Ok in E. destruct E as (g3 & s3 & E3 & E).
  pose proof (delete_co_linear_index_ok _ _ _ _ Hok1 E3) as Hok3.
  apply lift_Ok in E. cbn [fst snd] in E. destruct E as [_ <-]. exact Hok3.
Qed.

Lemma process_bends_loop_index_ok (inds : list Z) :
  forall (g : RbGeom.t) (r0 : Z) (x : Z * RbGeom.t) (s s' : ReduceBend.t),
    Forall (fun ind => 0 <= ind) inds ->
    index_ok (ReduceBend.rb_collection s) ->
    process_bends_loop inds g r0 s = Ok (x, s') ->
    index_ok (ReduceBend.rb_collection s').
Proof.
  induction inds as [|ind rest IH]; intros g r0 x s s' Hinds Hok E.
  - cbn in E. injection E as _ <-. exact Hok.
  - inversion Hinds as [|? ? Hind Hrest]; subst.
    cbn [process_bends_loop] in E.
    apply bind_Ok in E. destruct E as (candidate & s1 & Ec & E).
    apply lift_Ok in Ec. cbn [fst snd] in Ec. destruct Ec as [Ec ->].
    destruct (Bend.to_reduce candidate); [|exact (IH _ _ _ _ _ Hrest Hok E)].
    apply bind_Ok in E. destruct E as ([ok g1] & s2 & Ev & E).
    destruct (validate_spatial_constraints_Ok _ _ _ _ _ _ Hind Ev)
      as (bend0 & stored & bends1 & itself & others & fb & _ & _ & _ & -> & -> & _).
    destruct ok;
      [|exact (IH (RbGeom.set_bends g bends1) r0 x (ReduceBend.set_feedback s fb) s'
                  Hrest Hok E)].
    apply bind_Ok in E. destruct E as (bend & s3 & Eb & E).
    apply lift_Ok in Eb. cbn [fst snd] in Eb. destruct Eb as [_ ->].
    apply bind_Ok in E. destruct E as (self2 & s4 & Eg & E).
    apply get_Ok in Eg. destruct Eg as [-> ->].
    apply bind_Ok in E. destruct E as (u & s5 & Esm & E).
    cbn [ReduceBend.smooth_line ReduceBend.set_feedback] in Esm.
    assert (Hc5 : ReduceBend.rb_collection s5 = ReduceBend.rb_collection s).
    { destruct (ReduceBend.smooth_line s).
      - apply put_Ok in Esm. subst s5. reflexivity.
      - unfold ret in Esm. injection Esm as _ <-. reflexivity. }
    clear Esm.
    apply bind_Ok in E. destruct E as (g2 & s6 & Edel & E).
    apply on_collection_Ok in Edel. cbn [fst snd] in Edel. destruct Edel as (c & Edel & ->).
    rewrite Hc5 in Edel.
    destruct (delete_vertex_run _ _ _ _ _ _ Hok Edel) as (_ & _ & _ & Hokc & _).
    apply bind_Ok in E. destruct E as (self3 & s7 & Eg & E).
    apply get_Ok in Eg. destruct Eg as [-> ->].
    apply bind_Ok in E. destruct E as (u2 & s8 & Ep & E).
    apply put_Ok in Ep. subst s8.
    match type of E with
    | process_bends_loop _ _ _ ?st = _ => exact (IH g2 (r0 + 1) x st s' Hrest Hokc E)
    end.
Qed.

Lemma pass_geoms_index_ok (rb_geoms : list RbGeom.t) (min_nbr_pass : Z) :
  forall (detected reduced : Z) (x : list RbGeom.t * Z * Z) (s s' : ReduceBend.t),
    index_ok (ReduceBend.rb_collection s) ->
    pass_geoms rb_geoms min_nbr_pass detected reduced s = Ok (x, s') ->
    index_ok (ReduceBend.rb_collection s').
Proof.
  induction rb_geoms as [|g rest IH]; intros detected reduced x s s' Hok E.
  - cbn in E. injection E as _ <-. exact Hok.
  - cbn [pass_geoms] in E.
    apply bind_Ok in E. destruct E as (self0 & s0 & Eg & E).
    apply get_Ok in Eg. destruct Eg as [-> ->].
    destruct (QgsFeedback.isCanceled (ReduceBend.feedback s)) as [canceled fb].
    apply bind_Ok in E. destruct E as (u & s1 & Ep & E). apply put_Ok in Ep. subst s1.
    destruct canceled; [unfold ret in E; injection E as _ <-; exact Hok|].
    destruct (negb (RbGeom.is_simplest g)).
    + apply bind_Ok in E. destruct E as (self1 & s2 & Eg & E).
      apply get_Ok in Eg. destruct Eg as [-> ->].
      apply bind_Ok in E. destruct E as ([n g1] & s3 & Em & E).
      pose proof (manage_bend_creation_index_ok _ _ _ _ _ (ReduceBend.set_feedback s fb) _
                    Hok Em) as Hok3.
      apply bind_Ok in E. destruct E as (g2 & s4 & Ef & E).
      apply lift_Ok in Ef. cbn [fst snd] in Ef. destruct Ef as [_ ->].
      apply bind_Ok in E. destruct E as ([m g3] & s5 & Epb & E).
      assert (Hinds : Forall (fun ind => 0 <= ind)
                        (rev (py_range 0 (py_len (RbGeom.bends g2))))).
      { apply Forall_forall. intros ind Hin. apply in_rev in Hin.
        apply py_range_In in Hin. lia. }
      pose proof (process_bends_loop_index_ok _ _ _ _ _ _ Hinds Hok3 Epb) as Hok5.
      apply bind_Ok in E. destruct E as ([[rest' d'] r'] & s6 & Er & E).
      pose proof (IH _ _ _ _ _ Hok5 Er) as Hok6.
      unfold ret in E. injection E as _ <-. exact Hok6.
    + apply bind_Ok in E. destruct E as ([[rest' d'] r'] & s6 & Er & E).
      pose proof (IH _ _ _ (ReduceBend.set_feedback s fb) _ Hok Er) as Hok6.
      unfold ret in E. injection E as _ <-. exact Hok6.
Qed.

Lemma one_pass_index_ok (min_nbr_pass n : Z) (s s' : ReduceBend.t) :
  index_ok (ReduceBend.rb_collection s) ->
  one_pass min_nbr_pass s = Ok (n, s') ->
  index_ok (ReduceBend.rb_collection s').
Proof.
  intros Hok E. unfold one_pass in E.
  apply bind_Ok in E. destruct E as (self0 & s0 & Eg & E).
  apply get_Ok in Eg. destruct Eg as [-> ->].
  apply bind_Ok in E. destruct E as ([[geoms d] r] & s1 & Ep & E).
  pose proof (pass_geoms_index_ok _ _ _ _ _ _ _ Hok Ep) as Hok1.
  apply bind_Ok in E. destruct E as (self1 & s2 & Eg & E).
  apply get_Ok in Eg. destruct Eg as [-> ->].
  apply bind_Ok in E. destruct E as (u & s3 & Eput & E). apply put_Ok in Eput. subst s3.
  unfold ret in E. injection E as _ <-. exact Hok1.
Qed.

Lemma _manage_reduce_bend_loop_index_ok (fuel : nat) (min_nbr_pass : Z) :
  forall (s s' : ReduceBend.t),
    index_ok (ReduceBend.rb_collection s) ->
    _manage_reduce_bend_loop fuel min_nbr_pass s = Done s' ->
    index_ok (ReduceBend.rb_collection s').
Proof.
  induction fuel as [|fuel IH]; intros s s' Hok E; [discriminate|].
  cbn [_manage_reduce_bend_loop] in E.
  destruct (one_pass min_nbr_pass s) as [[n s1]|] eqn:E1; [|discriminate].
  pose proof (one_pass_index_ok _ _ _ _ Hok E1) as Hok1.
  destruct ((min_nbr_pass <? RbResults.nbr_pass (ReduceBend.rb_results s1)) && (n =? 0)).
  - injection E as <-. exact Hok1.
  - exact (IH (set_nbr_pass s1 (RbResults.nbr_pass (ReduceBend.rb_results s1) + 1)) s'
             Hok1 E).
Qed.

Lemma manage_smooth_line_loop_index_ok (bends_reduced : list BendReduced.t) :
  forall (x : list BendReduced.t) (s s' : ReduceBend.t),
    index_ok (ReduceBend.rb_collection s) ->
    manage_smooth_line_loop bends_reduced s = Ok (x, s') ->
    index_ok (ReduceBend.rb_collection s').
Proof.
  induction bends_reduced as [|b rest IH]; intros x s s' Hok E.
  - cbn in E. injection E as _ <-. exact Hok.
  - cbn [manage_smooth_line_loop] in E.
    apply bind_Ok in E. destruct E as (self0 & s0 & Eg & E).
    apply get_Ok in Eg. destruct Eg as [-> ->].
    apply bind_Ok in E. destruct E as (g & s1 & Ef & E).
    apply lift_Ok in Ef. cbn [fst snd] in Ef. destruct Ef as [_ ->].
    assert (Hskip : forall b' (m : M ReduceBend.t (list BendReduced.t)),
               m = (rest' <- manage_smooth_line_loop rest ;; ret (b' :: rest')) ->
               m s = Ok (x, s') -> index_ok (ReduceBend.rb_collection s')).
    { intros b' m -> Em. apply bind_Ok in Em. destruct Em as (rest' & s2 & Er & Em).
      unfold ret in Em. injection Em as _ <-. exact (IH _ _ _ Hok Er). }
    destruct (BendReduced.is_line_smoothable (set_values b g (ReduceBend.diameter_tol s)))
      as [[|]|]; try (eapply Hskip; [reflexivity | exact E]).
    destruct (BendReduced.i (set_values b g (ReduceBend.diameter_tol s))) as [i|];
      try (eapply Hskip; [reflexivity | exact E]).
    destruct (BendReduced.j (set_values b g (ReduceBend.diameter_tol s))) as [j|];
      try (eapply Hskip; [reflexivity | exact E]).
    apply bind_Ok in E. destruct E as (smooth & s2 & Es & E).
    apply lift_Ok in Es. cbn [fst snd] in Es. destruct Es as [_ ->].
    apply bind_Ok in E. destruct E as (g2 & s3 & Ea & E).
    apply on_collection_Ok in Ea. cbn [fst snd] in Ea. destruct Ea as (c & Ea & ->).
    destruct (add_vertex_run _ _ _ _ _ _ _ Hok Ea) as (_ & _ & Hokc & _).
    apply bind_Ok in E. destruct E as (self3 & s4 & Eg & E).
    apply get_Ok in Eg. destruct Eg as [-> ->].
    apply bind_Ok in E. destruct E as (u & s5 & Ep & E). apply put_Ok in Ep. subst s5.
    apply bind_Ok in E. destruct E as (rest' & s6 & Er & E).
    unfold ret in E. injection E as _ <-.
    match type of Er with
    | manage_smooth_line_loop _ ?st = _ => exact (IH rest' st s6 Hokc Er)
    end.
Qed.

(** The index keeps its invariant from one end of a run to the other:
    when [reduce_bends] ends, on whatever geometries and with or without
    smoothing, the identifiers of the index are distinct and each has an
    origin in the dictionary -- so a window query on the final collection
    cannot fail. *)
Theorem reduce_bends_keeps_index (fuel : nat) (self self' : ReduceBend.t) :
  reduce_bends fuel self = Done self' ->
  index_ok (ReduceBend.rb_collection self')
  /\ forall qgs_geom_id qgs_rectangle,
       exists itself others,
         RbCollection.get_segment_intersect (ReduceBend.rb_collection self')
           qgs_geom_id qgs_rectangle = Ok (itself, others).
Proof.
  intros E.
  assert (Hok : index_ok (ReduceBend.rb_collection self')).
  { unfold reduce_bends in E.
    destruct (ReduceBend.on_collection _ _) as [[u s1]|] eqn:Eadd; [|discriminate].
    apply on_collection_Ok in Eadd. cbn [fst snd] in Eadd. destruct Eadd as (c & Eadd & ->).
    cbn [ReduceBend.rb_collection ReduceBend.set_rb_collection ReduceBend.rb_geoms
         ReduceBend.set_rb_results] in Eadd.
    destruct (add_features_Ok (ReduceBend.rb_geoms self) RbCollection.init index_ok_init)
      as (c0 & Ec0 & Hok0 & _).
    rewrite Ec0 in Eadd. assert (Hc : c0 = c) by congruence. subst c0. clear Eadd.
    destruct (_manage_reduce_bend fuel _) as [s2| |] eqn:Em; try discriminate.
    unfold _manage_reduce_bend in Em.
    match type of Em with
    | _manage_reduce_bend_loop _ _ ?st = _ =>
        pose proof (_manage_reduce_bend_loop_index_ok fuel 1 st s2 Hok0 Em) as Hok2
    end. clear Em. rename Hok2 into Em.
    destruct (ReduceBend.smooth_line s2); [|injection E as <-; exact Em].
    destruct (manage_smooth_line s2) as [[u' s3]|] eqn:Es; [|discriminate].
    injection E as <-. unfold manage_smooth_line in Es.
    apply bind_Ok in Es. destruct Es as (self0 & s0 & Eg & Es).
    apply get_Ok in Eg. destruct Eg as [-> ->].
    apply bind_Ok in Es. destruct Es as (brs & s4 & El & Es).
    pose proof (manage_smooth_line_loop_index_ok _ _ _ _ Em El) as Hok4.
    apply bind_Ok in Es. destruct Es as (self1 & s5 & Eg & Es).
    apply get_Ok in Eg. destruct Eg as [-> ->].
    apply put_Ok in Es. subst s3. exact Hok4. }
  split; [exact Hok|]. intros qgs_geom_id qgs_rectangle.
  destruct (split_segments_Ok (ReduceBend.rb_collection self') qgs_geom_id
              (RbCollection.window_query (ReduceBend.rb_collection self') qgs_rectangle) Hok)
    with (itself := @nil (list QgsPoint)) (others := @nil (list QgsPoint))
         (qgs_points := @nil QgsGeometry) as (r & Er).
  - intros k Hk. unfold RbCollection.window_query in Hk.
    destruct qgs_rectangle as [rect|]; [|destruct Hk].
    unfold QgsSpatialIndex.intersects in Hk. apply in_map_iff in Hk.
    destruct Hk as (f & <- & Hf). apply filter_In in Hf. apply in_map. apply Hf.
  - unfold RbCollection.get_segment_intersect. rewrite Er.
    destruct r as [[itself others] qgs_points]. cbn [rbind]. eauto.
Qed.

End RunInvariant.

Section RunOfTheNotch.

#[local] Existing Instance notch_epsilon.

(** The run on the notch with smoothing: five entries are left in the
    index, one for each segment of the smoothed line. *)
Lemma reduce_bends_keeps_index_witness :
  exists self',
    reduce_bends 10 (notch_run true) = Done self'
    /\ index_ok (ReduceBend.rb_collection self')
    /\ map fst (RbCollection._spatial_index (ReduceBend.rb_collection self')) = [1; 4; 6; 7; 8].
Proof.
  assert (E : exists self', reduce_bends 10 (notch_run true) = Done self')
    by (eexists; vm_compute; reflexivity).
  destruct E as (self' & E).
  destruct (reduce_bends_keeps_index 10 (notch_run true) self' E) as (Hok & _).
  exists self'. split; [exact E|]. split; [exact Hok|].
  revert E. vm_compute. intros E. injection E as <-. reflexivity.
Defined.

End RunOfTheNotch.

(** ** The counters of the results *)

Section Counters.
Context `{Qgs.Api} `{Epsilon}.

(** The results after [k] more bends were reduced. *)
Definition counted (s s' : ReduceBend.t) (k : Z) : Prop :=
  RbResults.nbr_bend_reduced (ReduceBend.rb_results s')
  = RbResults.nbr_bend_reduced (ReduceBend.rb_results s) + k
  /\ RbResults.nbr_bend_detected (ReduceBend.rb_results s')
     = RbResults.nbr_bend_detected (ReduceBend.rb_results s)
  /\ nbr_pass_of s' = nbr_pass_of s
  /\ log_of s' = log_of s.

Lemma counted_same (s s' : ReduceBend.t) :
  ReduceBend.rb_results s' = ReduceBend.rb_results s -> counted s s' 0.
Proof.
  intros E. unfold counted, nbr_pass_of, log_of. rewrite E, Z.add_0_r. repeat split.
Qed.

Lemma counted_trans (s1 s2 s3 : ReduceBend.t) (k l : Z) :
  counted s1 s2 k -> counted s2 s3 l -> counted s1 s3 (k + l).
Proof.
  unfold counted. intros (A1 & A2 & A3 & A4) (B1 & B2 & B3 & B4).
  repeat split; try congruence. lia.
Qed.

Lemma delete_co_linear_results (g g' : RbGeom.t) (s s' : ReduceBend.t) :
  delete_co_linear g s = Ok (g', s') ->
  ReduceBend.rb_results s' = ReduceBend.rb_results s.
Proof.
  intros E. unfold delete_co_linear in E.
  apply bind_Ok in E. destruct E as (angles & s1 & E1 & E).
  apply lift_Ok in E1. cbn [fst snd] in E1. destruct E1 as [_ ->].
  apply bind_Ok in E. destruct E as (angles' & s2 & E2 & E).
  apply lift_Ok in E2. cbn [fst snd] in E2. destruct E2 as [_ ->].
  apply bind_Ok in E. destruct E as (g1 & s3 & E3 & E).
  apply on_collection_Ok in E3. cbn [fst snd] in E3. destruct E3 as (c & _ & ->).
  unfold ret in E. injection E as _ <-. reflexivity.
Qed.

Lemma manage_bend_creation_results (min_nbr_pass nbr_pass : Z) (g : RbGeom.t) (d : Q)
  (r : Z * RbGeom.t) (s s' : ReduceBend.t) :
  manage_bend_creation min_nbr_pass nbr_pass g d s = Ok (r, s') ->
  ReduceBend.rb_results s' = ReduceBend.rb_results s.
Proof.
  intros E. unfold manage_bend_creation in E.
  apply bind_Ok in E. destruct E as (g1 & s1 & E1 & E).
  apply delete_co_linear_results in E1.
  apply bind_Ok in E. destruct E as ([n g2] & s2 & E2 & E).
  apply lift_Ok in E2. cbn [fst snd] in E2. destruct E2 as [_ ->].
  destruct (RbGeom.is_closed g2); [|unfold ret in E; injection E as _ <-; exact E1].
  destruct ((min_nbr_pass <=? nbr_pass) || (py_len (RbGeom.bends g2) <? 10));
    [|unfold ret in E; injection E as _ <-; exact E1].
  apply bind_Ok in E. destruct E as (g3 & s3 & E3 & E).
  apply delete_co_linear_results in E3.
  apply lift_Ok in E. cbn [fst snd] in E. destruct E as [_ <-]. congruence.
Qed.

Lemma process_bends_loop_counted (inds : list Z) :
  forall (g g' : RbGeom.t) (r0 r : Z) (s s' : ReduceBend.t),
    Forall (fun ind => 0 <= ind) inds ->
    process_bends_loop inds g r0 s = Ok ((r, g'), s') ->
    r0 <= r /\ counted s s' (r - r0).
Proof.
  induction inds as [|ind rest IH]; intros g g' r0 r s s' Hinds E.
  - cbn in E. injection E as <- _ <-. split; [lia|]. rewrite Z.sub_diag.
    apply counted_same. reflexivity.
  - inversion Hinds as [|? ? Hind Hrest]; subst.
    cbn [process_bends_loop] in E.
    apply bind_Ok in E. destruct E as (candidate & s1 & Ec & E).
    apply lift_Ok in Ec. cbn [fst snd] in Ec. destruct Ec as [Ec ->].
    destruct (Bend.to_reduce candidate); [|exact (IH _ _ _ _ _ _ Hrest E)].
    apply bind_Ok in E. destruct E as ([ok g1] & s2 & Ev & E).
    destruct (validate_spatial_constraints_Ok _ _ _ _ _ _ Hind Ev)
      as (bend0 & stored & bends1 & itself & others & fb & _ & _ & _ & -> & -> & _).
    destruct ok;
      [|exact (IH (RbGeom.set_bends g bends1) g' r0 r (ReduceBend.set_feedback s fb) s'
                  Hrest E)].
    apply bind_Ok in E. destruct E as (bend & s3 & Eb & E).
    apply lift_Ok in Eb. cbn [fst snd] in Eb. destruct Eb as [_ ->].
    apply bind_Ok in E. destruct E as (self2 & s4 & Eg & E).
    apply get_Ok in Eg. destruct Eg as [-> ->].
    apply bind_Ok in E. destruct E as (u & s5 & Esm & E).
    cbn [ReduceBend.smooth_line ReduceBend.set_feedback] in Esm.
    assert (Hr5 : ReduceBend.rb_results s5 = ReduceBend.rb_results s).
    { destruct (ReduceBend.smooth_line s).
      - apply put_Ok in Esm. subst s5. reflexivity.
      - unfold ret in Esm. injection Esm as _ <-. reflexivity. }
    clear Esm.
    apply bind_Ok in E. destruct E as (g2 & s6 & Edel & E).
    apply on_collection_Ok in Edel. cbn [fst snd] in Edel. destruct Edel as (c & _ & ->).
    apply bind_Ok in E. destruct E as (self3 & s7 & Eg & E).
    apply get_Ok in Eg. destruct Eg as [-> ->].
    apply bind_Ok in E. destruct E as (u2 & s8 & Ep & E).
    apply put_Ok in Ep. subst s8.
    match type of E with
    | process_bends_loop _ _ _ ?st = _ =>
        destruct (IH g2 g' (r0 + 1) r st s' Hrest E) as (Hr & C1 & C2 & C3 & C4)
    end.
    unfold nbr_pass_of, log_of in *.
    cbn [ReduceBend.rb_results ReduceBend.set_rb_results ReduceBend.set_rb_collection
         RbResults.nbr_bend_reduced RbResults.nbr_bend_detected RbResults.nbr_pass
         RbResults.lines_log_info] in *.
    rewrite Hr5 in *. split; [lia|]. unfold counted, nbr_pass_of, log_of.
    repeat split; try assumption. lia.
Qed.

Lemma pass_geoms_counted (rb_geoms : list RbGeom.t) (min_nbr_pass : Z) :
  forall (detected0 reduced0 detected reduced : Z) (rb_geoms' : list RbGeom.t)
         (s s' : ReduceBend.t),
    pass_geoms rb_geoms min_nbr_pass detected0 reduced0 s
    = Ok ((rb_geoms', detected, reduced), s') ->
    reduced0 <= reduced /\ counted s s' (reduced - reduced0).
Proof.
  induction rb_geoms as [|g rest IH];
    intros detected0 reduced0 detected reduced rb_geoms' s s' E.
  - cbn in E. injection E as _ _ <- <-. split; [lia|]. rewrite Z.sub_diag.
    apply counted_same. reflexivity.
  - cbn [pass_geoms] in E.
    apply bind_Ok in E. destruct E as (self0 & s0 & Eg & E).
    apply get_Ok in Eg. destruct Eg as [-> ->].
    destruct (QgsFeedback.isCanceled (ReduceBend.feedback s)) as [canceled fb].
    apply bind_Ok in E. destruct E as (u & s1 & Ep & E). apply put_Ok in Ep. subst s1.
    destruct canceled.
    { unfold ret in E. injection E as _ _ <- <-. split; [lia|]. rewrite Z.sub_diag.
      apply counted_same. reflexivity. }
    destruct (negb (RbGeom.is_simplest g)).
    + apply bind_Ok in E. destruct E as (self1 & s2 & Eg & E).
      apply get_Ok in Eg. destruct Eg as [-> ->].
      apply bind_Ok in E. destruct E as ([n g1] & s3 & Em & E).
      apply manage_bend_creation_results in Em.
      cbn [ReduceBend.rb_results ReduceBend.set_feedback] in Em.
      apply bind_Ok in E. destruct E as (g2 & s4 & Ef & E).
      apply lift_Ok in Ef. cbn [fst snd] in Ef. destruct Ef as [_ ->].
      apply bind_Ok in E. destruct E as ([m g3] & s5 & Epb & E).
      assert (Hinds : Forall (fun ind => 0 <= ind)
                        (rev (py_range 0 (py_len (RbGeom.bends g2))))).
      { apply Forall_forall. intros ind Hin. apply in_rev in Hin.
        apply py_range_In in Hin. lia. }
      destruct (process_bends_loop_counted _ _ _ _ _ _ _ Hinds Epb) as (Hm & Cm).
      apply bind_Ok in E. destruct E as ([[rest' d'] r'] & s6 & Er & E).
      destruct (IH _ _ _ _ _ _ _ Er) as (Hr & Cr).
      unfold ret in E. injection E as _ _ <- <-.
      split; [lia|].
      pose proof (counted_trans _ _ _ _ _ (counted_trans _ _ _ _ _ (counted_same s s3 Em) Cm)
                    Cr) as Ct.
      replace (r' - reduced0) with (0 + (m - 0) + (r' - (reduced0 + m))) by lia.
      exact Ct.
    + apply bind_Ok in E. destruct E as ([[rest' d'] r'] & s6 & Er & E).
      destruct (IH _ _ _ _ _ _ _ Er) as (Hr & Cr).
      unfold ret in E. injection E as _ _ <- <-. split; [exact Hr|].
      exact (counted_trans s (ReduceBend.set_feedback s fb) s6 0 _
               (counted_same _ _ eq_refl) Cr).
Qed.

(** The bends the passes of a part of the log reduced. *)
Fixpoint reduced_in (lines : list RbResults.LogLine) : Z :=
  match lines with
  | [] => 0
  | line :: rest => RbResults.bend_reduced line + reduced_in rest
  end.

Lemma one_pass_counted (min_nbr_pass n : Z) (s s' : ReduceBend.t) :
  one_pass min_nbr_pass s = Ok (n, s') ->
  exists line,
    log_of s' = log_of s ++ [line]
    /\ RbResults.bend_reduced line = n
    /\ RbResults.nbr_bend_reduced (ReduceBend.rb_results s')
       = RbResults.nbr_bend_reduced (ReduceBend.rb_results s) + n
    /\ RbResults.nbr_bend_detected (ReduceBend.rb_results s')
       = (if nbr_pass_of s =? 0 then RbResults.bends_detected line
          else RbResults.nbr_bend_detected (ReduceBend.rb_results s))
    /\ nbr_pass_of s' = nbr_pass_of s.
Proof.
  intros E. unfold one_pass in E.
  apply bind_Ok in E. destruct E as (self0 & s0 & Eg & E).
  apply get_Ok in Eg. destruct Eg as [-> ->].
  apply bind_Ok in E. destruct E as ([[geoms d] r] & s1 & Ep & E).
  destruct (pass_geoms_counted _ _ _ _ _ _ _ _ _ Ep) as (_ & C1 & C2 & C3 & C4).
  rewrite Z.sub_0_r in C1.
  apply bind_Ok in E. destruct E as (self1 & s2 & Eg & E).
  apply get_Ok in Eg. destruct Eg as [-> ->].
  apply bind_Ok in E. destruct E as (u & s3 & Eput & E). apply put_Ok in Eput. subst s3.
  unfold ret in E. injection E as <- <-.
  unfold nbr_pass_of, log_of in *.
  cbn [ReduceBend.rb_results ReduceBend.set_rb_results ReduceBend.set_rb_geoms
       RbResults.nbr_bend_reduced RbResults.nbr_bend_detected RbResults.nbr_pass
       RbResults.lines_log_info].
  eexists. split; [rewrite C4; reflexivity|].
  cbn [RbResults.bend_reduced RbResults.bends_detected].
  split; [reflexivity|]. split; [exact C1|]. split; [|exact C3].
  rewrite C3, C2. reflexivity.
Qed.

Lemma _manage_reduce_bend_loop_counted (fuel : nat) (min_nbr_pass : Z) :
  forall (s s' : ReduceBend.t),
    0 <= nbr_pass_of s ->
    _manage_reduce_bend_loop fuel min_nbr_pass s = Done s' ->
    exists line lines,
      log_of s' = log_of s ++ line :: lines
      /\ RbResults.nbr_bend_reduced (ReduceBend.rb_results s')
         = RbResults.nbr_bend_reduced (ReduceBend.rb_results s) + reduced_in (line :: lines)
      /\ RbResults.nbr_bend_detected (ReduceBend.rb_results s')
         = (if nbr_pass_of s =? 0 then RbResults.bends_detected line
            else RbResults.nbr_bend_detected (ReduceBend.rb_results s)).
Proof.
  induction fuel as [|fuel IH]; intros s s' Hpass E; [discriminate|].
  cbn [_manage_reduce_bend_loop] in E.
  destruct (one_pass min_nbr_pass s) as [[n s1]|] eqn:E1; [|discriminate].
  destruct (one_pass_counted _ _ _ _ E1) as (line & Hlog & Hline & Hred & Hdet & Hnp).
  destruct ((min_nbr_pass <? RbResults.nbr_pass (ReduceBend.rb_results s1)) && (n =? 0)).
  - injection E as <-. exists line, []. split; [exact Hlog|]. cbn [reduced_in].
    split; [lia | exact Hdet].
  - destruct (set_nbr_pass_fields s1 (RbResults.nbr_pass (ReduceBend.rb_results s1) + 1))
      as (N1 & N2 & _).
    destruct (IH _ _ ltac:(rewrite N1; unfold nbr_pass_of in *; lia) E)
      as (line' & lines' & Hlog' & Hred' & Hdet').
    rewrite N1 in Hdet'. rewrite N2 in Hlog'.
    assert (Hres : RbResults.nbr_bend_reduced
                     (ReduceBend.rb_results
                        (set_nbr_pass s1 (RbResults.nbr_pass (ReduceBend.rb_results s1) + 1)))
                   = RbResults.nbr_bend_reduced (ReduceBend.rb_results s1)
                   /\ RbResults.nbr_bend_detected
                        (ReduceBend.rb_results
                           (set_nbr_pass s1
                              (RbResults.nbr_pass (ReduceBend.rb_results s1) + 1)))
                      = RbResults.nbr_bend_detected (ReduceBend.rb_results s1))
      by (split; reflexivity).
    destruct Hres as (R1 & R2). rewrite R1 in Hred'. rewrite R2 in Hdet'.
    exists line, (line' :: lines'). split; [|split].
    + rewrite Hlog', Hlog, <- app_assoc. reflexivity.
    + rewrite Hred', Hred. cbn [reduced_in]. lia.
    + replace (RbResults.nbr_pass (ReduceBend.rb_results s1) + 1 =? 0) with false in Hdet'
        by (symmetry; apply Z.eqb_neq; unfold nbr_pass_of in *; lia).
      rewrite Hdet'. exact Hdet.
Qed.

(** The statistics of a run agree with its log: when [_manage_reduce_bend]
    returns, the counter of the bends reduced has grown by the sum of the
    bends the passes logged, and the counter of the bends detected is the
    number the first pass logged. *)
Theorem _manage_reduce_bend_counters (fuel : nat) (self self' : ReduceBend.t) :
  _manage_reduce_bend fuel self = Done self' ->
  exists line lines,
    log_of self' = log_of self ++ line :: lines
    /\ RbResults.nbr_bend_reduced (ReduceBend.rb_results self')
       = RbResults.nbr_bend_reduced (ReduceBend.rb_results self) + reduced_in (line :: lines)
    /\ RbResults.nbr_bend_detected (ReduceBend.rb_results self')
       = RbResults.bends_detected line.
Proof.
  unfold _manage_reduce_bend. intros E.
  destruct (set_nbr_pass_fields self 0) as (N1 & N2 & _).
  destruct (_manage_reduce_bend_loop_counted _ _ _ _ ltac:(rewrite N1; lia) E)
    as (line & lines & Hlog & Hred & Hdet).
  rewrite N1 in Hdet. rewrite N2 in Hlog. cbn [Z.eqb] in Hdet.
  exists line, lines. split; [exact Hlog|]. split; [exact Hred | exact Hdet].
Qed.

End Counters.

Section CountersOfTheNotch.

#[local] Existing Instance notch_epsilon.

(** The run on the notch: the first pass detects three bends and reduces
    one, the two passes after it detect one bend and reduce none. *)
Lemma _manage_reduce_bend_counters_witness :
  exists self',
    _manage_reduce_bend 10 (registered (notch_run false)) = Done self'
    /\ map (fun line => (RbResults.bends_detected line, RbResults.bend_reduced line))
         (log_of self')
       = [(3, 1); (1, 0); (1, 0)]
    /\ RbResults.nbr_bend_reduced (ReduceBend.rb_results self') = 1
    /\ RbResults.nbr_bend_detected (ReduceBend.rb_results self') = 3.
Proof.
  assert (E : exists self', _manage_reduce_bend 10 (registered (notch_run false)) = Done self')
    by (eexists; vm_compute; reflexivity).
  destruct E as (self' & E).
  destruct (_manage_reduce_bend_counters 10 _ self' E) as (line & lines & _ & _ & _).
  exists self'. split; [exact E|].
  revert E. vm_compute. intros E. injection E as <-. repeat split.
Defined.

End CountersOfTheNotch.
